(** * FmdlFile.py: the FMDL container and its semantic reader and writer

    A shallow embedding of [src/pes-fmdl/FmdlFile.py].  Python integers are
    [Z], [bytes] and [bytearray] values are lists of [byte], dictionaries are
    [gmap]s, object references are indices into the list that owns the
    objects, and a function that can raise returns a [result]. *)

From Stdlib Require Import ZArith List Lia String QArith.
From Stdlib Require Import Strings.Byte.
From Stdlib Require Import Floats.SpecFloat.
From Stdlib Require Import Sorting.Sorted.
From stdpp Require Import base option list gmap.

Local Open Scope string_scope.
Local Open Scope list_scope.
Local Open Scope Z_scope.

(** ** Exceptions and the result monad *)

(** The exceptions the modelled code can end in.  [InvalidFmdl] carries the
    format string of the message and its integer arguments; the others are
    Python's built-in exceptions. *)
Inductive exn : Type :=
  | InvalidFmdl (message : string) (args : list Z)
  | struct_error
  | IndexError
  | NameError (name : string)
  | ValueError
  | OverflowError
  | TypeError
  | KeyError
  | AttributeError.

(** What a call ends in: a value, an exception, or, for the one loop of the
    program that is not a [for] over a finite sequence, the end of the fuel
    the model gives it. *)
Inductive result (A : Type) : Type :=
  | Ok (a : A)
  | Raise (e : exn)
  | OutOfFuel.
Arguments Ok {A} a.
Arguments Raise {A} e.
Arguments OutOfFuel {A}.

#[global] Instance result_ret : MRet result := @Ok.
#[global] Instance result_bind : MBind result :=
  fun A B f m =>
    match m with Ok a => f a | Raise e => Raise e | OutOfFuel => OutOfFuel end.
#[global] Instance result_fmap : FMap result :=
  fun A B f m =>
    match m with Ok a => Ok (f a) | Raise e => Raise e | OutOfFuel => OutOfFuel end.

(** [for x in xs: body] where the body can raise and appends to a list. *)
Fixpoint mapM {A B : Type} (f : A -> result B) (xs : list A) : result (list B) :=
  match xs with
  | [] => Ok []
  | x :: xs' => y ← f x; ys ← mapM f xs'; Ok (y :: ys)
  end.

(** [for x in xs: body] where the body can raise and updates a state. *)
Fixpoint foldM {A S : Type} (f : S -> A -> result S) (s : S) (xs : list A) : result S :=
  match xs with
  | [] => Ok s
  | x :: xs' => s' ← f s x; foldM f s' xs'
  end.

Definition is_InvalidFmdl {A : Type} (r : result A) : Prop :=
  exists message args, r = Raise (InvalidFmdl message args).

Definition len {A : Type} (l : list A) : Z := Z.of_nat (length l).

(** [l[i]]: a negative index counts from the end, an index out of range
    raises [IndexError].  [index] returns the element, and [ref] the place of
    the element in [l], which stands for a reference to the object there. *)
Definition ref {A : Type} (l : list A) (i : Z) : result nat :=
  if decide (0 <= i < len l) then Ok (Z.to_nat i)
  else if decide (- len l <= i < 0) then Ok (Z.to_nat (len l + i))
  else Raise IndexError.

Definition index {A : Type} (l : list A) (i : Z) : result A :=
  r ← ref l i;
  match l !! r with
  | Some a => Ok a
  | None => Raise IndexError
  end.

(** [range(a, b)] and [range(a, b, step)] for a positive step. *)
Definition range (a b : Z) : list Z :=
  map (fun k => a + Z.of_nat k) (seq 0 (Z.to_nat (b - a))).

Definition range_step (a b step : Z) : list Z :=
  map (fun k => a + step * Z.of_nat k) (seq 0 (Z.to_nat ((b - a + step - 1) / step))).

(** ** The struct module *)

Module struct.

Abbreviation bytes := (list byte).

(** The format characters the program uses, after the leading [<]
    (little-endian, no alignment). *)
Inductive code : Type :=
  | x_ (* pad byte *)
  | s_ (n : nat) (* n bytes, as bytes *)
  | B_ | H_ | h_ | I_ | i_ | Q_
  | f_.

Definition size (c : code) : nat :=
  match c with
  | s_ n => n
  | x_ | B_ => 1
  | H_ | h_ => 2
  | I_ | i_ | f_ => 4
  | Q_ => 8
  end%nat.

Definition calcsize (fmt : list code) : nat := sum_list (map size fmt).

Definition byte_val (b : byte) : Z := Z.of_N (Byte.to_N b).

Definition byte_of (z : Z) : byte :=
  match Byte.of_N (Z.to_N (z mod 256)) with
  | Some b => b
  | None => Byte.x00
  end.

Fixpoint le_decode (bs : bytes) : Z :=
  match bs with
  | [] => 0
  | b :: bs' => byte_val b + 256 * le_decode bs'
  end.

Fixpoint le_encode (n : nat) (z : Z) : bytes :=
  match n with
  | O => []
  | S n' => byte_of z :: le_encode n' (z / 256)
  end.

Definition signed (n : nat) (z : Z) : Z :=
  if z <? 2 ^ (8 * Z.of_nat n - 1) then z else z - 2 ^ (8 * Z.of_nat n).

(** What one field unpacks to; a float is kept as its 32 bits. *)
Definition decode (c : code) (bs : bytes) : Z :=
  match c with
  | h_ | i_ => signed (size c) (le_decode bs)
  | _ => le_decode bs
  end.

Definition in_range (c : code) (z : Z) : bool :=
  match c with
  | h_ | i_ =>
      (- 2 ^ (8 * Z.of_nat (size c) - 1) <=? z) && (z <? 2 ^ (8 * Z.of_nat (size c) - 1))
  | _ => (0 <=? z) && (z <? 2 ^ (8 * Z.of_nat (size c)))
  end.

(** The tuple [unpack] returns and [pack] takes: one value per field
    that is not padding. *)
Definition field (c : code) : Type :=
  match c with
  | s_ _ => bytes
  | _ => Z
  end.

Fixpoint tuple (fmt : list code) : Type :=
  match fmt with
  | [] => unit
  | x_ :: fmt' => tuple fmt'
  | c :: fmt' => (field c * tuple fmt')%type
  end.

Fixpoint unpack_fields (fmt : list code) (bs : bytes) : tuple fmt :=
  match fmt return tuple fmt with
  | [] => tt
  | c :: fmt' =>
      let rest := unpack_fields fmt' (drop (size c) bs) in
      match c return tuple (c :: fmt') with
      | x_ => rest
      | s_ n => (take n bs, rest)
      | B_ => (decode B_ (take (size B_) bs), rest)
      | H_ => (decode H_ (take (size H_) bs), rest)
      | h_ => (decode h_ (take (size h_) bs), rest)
      | I_ => (decode I_ (take (size I_) bs), rest)
      | i_ => (decode i_ (take (size i_) bs), rest)
      | Q_ => (decode Q_ (take (size Q_) bs), rest)
      | f_ => (decode f_ (take (size f_) bs), rest)
      end
  end.

(** [unpack(fmt, buffer)]: the buffer must have exactly the size of the
    format. *)
Definition unpack (fmt : list code) (bs : bytes) : result (tuple fmt) :=
  if decide (length bs = calcsize fmt) then Ok (unpack_fields fmt bs)
  else Raise struct_error.

(** [unpack_from(fmt, buffer, offset)] for an offset that is not
    negative. *)
Definition unpack_from (fmt : list code) (bs : bytes) (offset : Z) : result (tuple fmt) :=
  if decide (offset + Z.of_nat (calcsize fmt) <= len bs)
  then Ok (unpack_fields fmt (drop (Z.to_nat offset) bs))
  else Raise struct_error.

Fixpoint pack_fields (fmt : list code) : tuple fmt -> result bytes :=
  match fmt return tuple fmt -> result bytes with
  | [] => fun _ => Ok []
  | c :: fmt' =>
      let int (v : Z * tuple fmt') : result bytes :=
        if in_range c v.1
        then bs ← pack_fields fmt' v.2;
             Ok (le_encode (size c) (if v.1 <? 0 then v.1 + 2 ^ (8 * Z.of_nat (size c)) else v.1) ++ bs)
        else Raise struct_error in
      match c return tuple (c :: fmt') -> result bytes with
      | x_ => fun v => bs ← pack_fields fmt' v; Ok (Byte.x00 :: bs)
      | s_ n => fun v => bs ← pack_fields fmt' v.2;
                         Ok (take n (v.1 ++ replicate n Byte.x00) ++ bs)
      | B_ => int | H_ => int | h_ => int | I_ => int
      | i_ => int | Q_ => int | f_ => int
      end
  end.

(** [pack(fmt, v1, v2, ...)]: a value out of the range of its field
    raises [struct.error]. *)
Definition pack (fmt : list code) (v : tuple fmt) : result bytes := pack_fields fmt v.

(** [pack_into(fmt, buffer, offset, v1, ...)]: overwrites the bytes at
    the offset; the buffer must be large enough. *)
Definition pack_into (fmt : list code) (buffer : bytes) (offset : Z) (v : tuple fmt)
  : result bytes :=
  bs ← pack fmt v;
  if decide (offset + Z.of_nat (calcsize fmt) <= len buffer)
  then Ok (take (Z.to_nat offset) buffer ++ bs ++ drop (Z.to_nat offset + calcsize fmt) buffer)
  else Raise struct_error.

#[global] Arguments pack : simpl never.
#[global] Arguments unpack : simpl never.
#[global] Arguments unpack_from : simpl never.

End struct.

Abbreviation bytes := (list byte).

#[global] Instance byte_eq_dec : EqDecision byte := Byte.byte_eq_dec.

(** ** Python floats

    A Python float is an IEEE binary64 number; the operations are the ones
    of the Standard Library's specification of floating-point arithmetic at
    precision 53. *)

Module float.

Definition prec : Z := 53.
Definition emax : Z := 1024.

Abbreviation t := spec_float.

(** [float(z)] for an integer, and the float [2 ** k]. *)
Definition of_int (z : Z) : t := binary_normalize prec emax z 0 false.
Definition pow2 (k : Z) : t := binary_normalize prec emax 1 k false.

Definition ltb : t -> t -> bool := SFltb.
Definition neg : t -> t := SFopp.
Definition mul : t -> t -> t := SFmul prec emax.
Definition sub : t -> t -> t := SFsub prec emax.
Definition div : t -> t -> t := SFdiv prec emax.

Definition zero : t := S754_zero false.
Definition one : t := of_int 1.
Definition two : t := of_int 2.
Definition inf : t := S754_infinity false.
Definition nan : t := S754_nan.
(** The literals [0.1] and [0.000001]: the floats nearest to 1/10 and to
    1/1000000. *)
Definition tenth : t := Eval vm_compute in div one (of_int 10).
Definition millionth : t := Eval vm_compute in div one (of_int 1000000).

Definition isnan (x : t) : bool :=
  match x with S754_nan => true | _ => false end.
Definition isinf (x : t) : bool :=
  match x with S754_infinity _ => true | _ => false end.

(** [math.ldexp(x, e)] and [math.frexp(x)]; Python's [frexp] returns the
    exponent 0 for a zero, an infinity and a NaN. *)
Definition ldexp : t -> Z -> t := SFldexp prec emax.
Definition frexp (x : t) : t * Z :=
  match x with
  | S754_finite _ _ _ => SFfrexp prec emax x
  | _ => (x, 0)
  end.

(** [int(x)]: truncation toward zero; [ValueError] for a NaN and
    [OverflowError] for an infinity. *)
Definition int (x : t) : result Z :=
  match x with
  | S754_zero _ => Ok 0
  | S754_finite s m e =>
      let a := match e with
               | Zneg p => Z.shiftr (Zpos m) (Zpos p)
               | _ => Z.shiftl (Zpos m) e
               end in
      Ok (if s then - a else a)
  | S754_nan => Raise ValueError
  | S754_infinity _ => Raise OverflowError
  end.

(** The value of a float that is a number, as a rational. *)
Definition to_Q (x : t) : option Q :=
  match x with
  | S754_zero _ => Some 0%Q
  | S754_finite s m e =>
      let a := match e with
               | Zneg p => (Zpos m # 2 ^ p)%Q
               | _ => inject_Z (Z.shiftl (Zpos m) e)
               end in
      Some (if s then Qopp a else a)
  | _ => None
  end.

(** What [unpack('<f', ...)] makes of the 32 bits of a binary32 number:
    every such number is a binary64 number. *)
Definition of_bits32 (bits : Z) : t :=
  let sign := Z.testbit bits 31 in
  let biasedExponent := Z.land (Z.shiftr bits 23) 255 in
  let mantissa := Z.land bits (2 ^ 23 - 1) in
  let value :=
    if biasedExponent =? 255 then (if mantissa =? 0 then inf else nan)
    else if biasedExponent =? 0 then ldexp (of_int mantissa) (- 149)
    else ldexp (of_int (mantissa + 2 ^ 23)) (biasedExponent - 150) in
  if sign then neg value else value.

End float.

(** ** FmdlContainer: the block store and the file frame *)

(** A binary stream: its content and the position of the next read or
    write. *)
Module stream.

Record t : Type := { content : bytes; position : Z }.

(** [bytearray(n)]: [n] zero bytes; a negative count raises. *)
Definition bytearray (n : Z) : result bytes :=
  if n <? 0 then Raise ValueError else Ok (replicate (Z.to_nat n) Byte.x00).

(** [stream.readinto(buffer)]: fills the buffer from the position as far
    as the content goes, and returns the number of bytes read. *)
Definition readinto (s : t) (buffer : bytes) : Z * bytes * t :=
  let data := take (length buffer) (drop (Z.to_nat (position s)) (content s)) in
  (len data, data ++ drop (length data) buffer,
   {| content := content s; position := position s + len data |}).

Definition seek (s : t) (offset : Z) : t :=
  {| content := content s; position := offset |}.

(** [stream.seek(0, 2)] *)
Definition seek_end (s : t) : t :=
  {| content := content s; position := len (content s) |}.

Definition tell (s : t) : Z := position s.

Definition write (s : t) (chunk : bytes) : t :=
  let before := take (Z.to_nat (position s))
                  (content s ++ replicate (Z.to_nat (position s) - length (content s)) Byte.x00) in
  {| content := before ++ chunk ++ drop (Z.to_nat (position s) + length chunk) (content s);
     position := position s + len chunk |}.

End stream.

Module FmdlContainer.
Import struct.

Definition MAGIC : bytes := [Byte.x46; Byte.x4d; Byte.x44; Byte.x4c].
Definition VERSION_2_03 : Z := 0x4001eb85.

Definition SECTION0_BLOCK_ENTRY_SIZES : gmap Z Z :=
  list_to_map
    [(0, 48); (1, 8); (2, 32); (3, 48); (4, 16); (5, 68); (6, 4); (7, 4); (8, 4);
     (9, 8); (10, 8); (11, 4); (12, 8); (13, 32); (14, 16); (16, 16); (17, 8);
     (18, 8); (20, 128)].

Record t : Type := {
  version : Z;
  segment0Blocks : gmap Z (list bytes);
  segment1Blocks : gmap Z bytes;
}.

Definition init : t :=
  {| version := VERSION_2_03; segment0Blocks := ∅; segment1Blocks := ∅ |}.

Definition set_segment0Blocks (self : t) (blocks : gmap Z (list bytes)) : t :=
  {| version := version self; segment0Blocks := blocks;
     segment1Blocks := segment1Blocks self |}.

Definition set_segment1Blocks (self : t) (blocks : gmap Z bytes) : t :=
  {| version := version self; segment0Blocks := segment0Blocks self;
     segment1Blocks := blocks |}.

(** [buffer = bytearray(n)] followed by
    [if stream.readinto(buffer) != len(buffer): raise error]. *)
Definition read_block (s : stream.t) (n : Z) (error : exn) : result (bytes * stream.t) :=
  buffer ← stream.bytearray n;
  let '(count, buffer, s) := stream.readinto s buffer in
  if decide (count ≠ len buffer) then Raise error else Ok (buffer, s).

(** The body of [for i in range(section0BlockCount)]. *)
Definition readSection0Descriptor (st : list (Z * Z * Z) * stream.t) (i : Z)
  : result (list (Z * Z * Z) * stream.t) :=
  let '(section0Descriptors, s) := st in
  '(descriptor, s) ← read_block s 8 (InvalidFmdl "Incomplete block descriptor" []);
  '(blockID, (entryCount, (blockOffset, _))) ← unpack [H_; H_; I_] descriptor;
  Ok (section0Descriptors ++ [(blockID, entryCount, blockOffset)], s).

(** The body of [for i in range(section1BlockCount)]. *)
Definition readSection1Descriptor (st : list (Z * Z * Z) * stream.t) (i : Z)
  : result (list (Z * Z * Z) * stream.t) :=
  let '(section1Descriptors, s) := st in
  '(descriptor, s) ← read_block s 12 (InvalidFmdl "Incomplete block descriptor" []);
  '(blockID, (blockOffset, (length, _))) ← unpack [I_; I_; I_] descriptor;
  Ok (section1Descriptors ++ [(blockID, blockOffset, length)], s).

(** The body of [for i in range(entryCount)]. *)
Definition readSection0Entry (blockID entrySize : Z) (st : list bytes * stream.t) (i : Z)
  : result (list bytes * stream.t) :=
  let '(block, s) := st in
  '(entry, s) ← read_block s entrySize
    (InvalidFmdl "Unexpected end of file reading section 0 block %d entry" [blockID]);
  Ok (block ++ [entry], s).

(** The body of
    [for (blockID, entryCount, sectionOffset) in section0Descriptors]. *)
Definition readSegment0Block (section0Offset : Z) (st : t * stream.t) (d : Z * Z * Z)
  : result (t * stream.t) :=
  let '(self, s) := st in
  let '(blockID, entryCount, sectionOffset) := d in
  match SECTION0_BLOCK_ENTRY_SIZES !! blockID with
  | None => Ok (self, s)
  | Some entrySize =>
      if decide (is_Some (segment0Blocks self !! blockID))
      then Raise (InvalidFmdl "Duplicate segment 0 block %d" [blockID])
      else
        let s := stream.seek s (sectionOffset + section0Offset) in
        '(block, s) ← foldM (readSection0Entry blockID entrySize) ([], s) (range 0 entryCount);
        Ok (set_segment0Blocks self (<[blockID := block]> (segment0Blocks self)), s)
  end.

(** The body of
    [for (blockID, sectionOffset, length) in section1Descriptors]. *)
Definition readSegment1Block (section1Offset fileLength : Z) (st : t * stream.t)
    (d : Z * Z * Z) : result (t * stream.t) :=
  let '(self, s) := st in
  let '(blockID, sectionOffset, length) := d in
  if decide (is_Some (segment1Blocks self !! blockID))
  then Raise (InvalidFmdl "Duplicate segment 1 block %d" [blockID])
  else
    let remainingLength := fileLength - (sectionOffset + section1Offset) in
    let length :=
      if (remainingLength <? length) || (blockID =? 3) then remainingLength else length in
    let s := stream.seek s (sectionOffset + section1Offset) in
    '(block, s) ← read_block s length
      (InvalidFmdl "Unexpected end of file reading section 1 block %d" [blockID]);
    Ok (set_segment1Blocks self (<[blockID := block]> (segment1Blocks self)), s).

Definition readStream (self : t) (s : stream.t) : result t :=
  '(header, s) ← read_block s 56 (InvalidFmdl "Incomplete header" []);
  '(magic, (version, (descriptorsOffset, (section0Bitmap, (section1Bitmap,
    (section0BlockCount, (section1BlockCount, (section0Offset, (section0Length,
    (section1Offset, (section1Length, _)))))))))))
    ← unpack [s_ 4; I_; Q_; Q_; Q_; I_; I_; I_; I_; I_; I_] header;
  if decide ((magic : bytes) ≠ MAGIC) then Raise (InvalidFmdl "Unexpected magic number" [])
  else
    let self := {| version := version; segment0Blocks := segment0Blocks self;
                   segment1Blocks := segment1Blocks self |} in
    let s := stream.seek s descriptorsOffset in
    '(section0Descriptors, s) ← foldM readSection0Descriptor ([], s) (range 0 section0BlockCount);
    '(section1Descriptors, s) ← foldM readSection1Descriptor ([], s) (range 0 section1BlockCount);
    '(self, s) ← foldM (readSegment0Block section0Offset) (self, s) section0Descriptors;
    let s := stream.seek_end s in
    let fileLength := stream.tell s in
    '(self, s) ← foldM (readSegment1Block section1Offset fileLength) (self, s) section1Descriptors;
    Ok self.

(** The local variables of [writeStream] that the loops update. *)
Record sections : Type := {
  bitmap : Z;
  descriptors : list bytes;
  blocks : list bytes;
  offset : Z;
}.

(** [16 - (n % 16)] zero bytes if [n % 16], none otherwise. *)
Definition padding (n : Z) : bytes :=
  if decide (n mod 16 ≠ 0) then replicate (Z.to_nat (16 - n mod 16)) Byte.x00 else [].

(** The body of the first [for i in range(64)]. *)
Definition writeSegment0Block (self : t) (st : sections) (i : Z) : result sections :=
  match segment0Blocks self !! i with
  | None => Ok st
  | Some entries =>
      let block := concat entries in
      descriptor ← pack [H_; H_; I_] (i, (len entries, (offset st, tt)));
      let block := block ++ padding (len block) in
      Ok {| bitmap := Z.lor (bitmap st) (Z.shiftl 1 i);
            descriptors := descriptors st ++ [descriptor];
            blocks := blocks st ++ [block];
            offset := offset st + len block |}
  end.

(** The body of the second [for i in range(64)]. *)
Definition writeSegment1Block (self : t) (st : sections) (i : Z) : result sections :=
  match segment1Blocks self !! i with
  | None => Ok st
  | Some block =>
      descriptor ← pack [I_; I_; I_] (i, (offset st, (len block, tt)));
      Ok {| bitmap := Z.lor (bitmap st) (Z.shiftl 1 i);
            descriptors := descriptors st ++ [descriptor];
            blocks := blocks st ++ [block];
            offset := offset st + len block |}
  end.

(** What [writeStream] has computed when it starts to write. *)
Record chunks : Type := {
  header : bytes;
  descriptorTable : bytes;
  section0Blocks : list bytes;
  section1Blocks : list bytes;
}.

Definition totalContent (c : chunks) : list bytes :=
  [header c] ++ [descriptorTable c] ++ section0Blocks c ++ section1Blocks c.

Definition writeStream_chunks (self : t) : result chunks :=
  s0 ← foldM (writeSegment0Block self)
         {| bitmap := 0; descriptors := []; blocks := []; offset := 0 |} (range 0 64);
  let section0Length := offset s0 in
  let section0Blocks := blocks s0 ++
    (if decide (section0Length mod 16 ≠ 0) then [padding section0Length] else []) in
  let section0Length := section0Length + len (padding section0Length) in
  s1 ← foldM (writeSegment1Block self)
         {| bitmap := 0; descriptors := []; blocks := []; offset := 0 |} (range 0 64);
  let section1Length := offset s1 in
  let descriptors := concat (descriptors s0 ++ descriptors s1) in
  let descriptors := descriptors ++ padding (len descriptors) in
  let headerSize := 64 in
  let section0Offset := headerSize + len descriptors in
  let section1Offset := section0Offset + section0Length in
  header ← pack [s_ 4; I_; Q_; Q_; Q_; I_; I_; I_; I_; I_; I_; Q_]
    (MAGIC, (version self, (headerSize, (bitmap s0, (bitmap s1,
     (len (FmdlContainer.descriptors s0), (len (FmdlContainer.descriptors s1),
     (section0Offset, (section0Length, (section1Offset, (section1Length, (0, tt))))))))))));
  Ok {| header := header; descriptorTable := descriptors;
        section0Blocks := section0Blocks; section1Blocks := blocks s1 |}.

Definition writeStream (self : t) (s : stream.t) : result stream.t :=
  c ← writeStream_chunks self;
  Ok (fold_left stream.write (totalContent c) s).

End FmdlContainer.

(** ** FmdlFile: the semantic model, its reader and its writer *)

Module FmdlFile.
Import struct.

(** A Python number: the fields of the model hold floats, and integers
    where the code puts them. *)
Inductive num : Type :=
  | Float (x : float.t)
  | Int (n : Z).

Module Vector2.
Record t : Type := { u : num; v : num }.
End Vector2.

Module Vector3.
Record t : Type := { x : num; y : num; z : num }.
End Vector3.

Module Vector4.
Record t : Type := { x : num; y : num; z : num; w : num }.
End Vector4.

Module BoundingBox.
Record t : Type := { min : Vector4.t; max : Vector4.t }.
End BoundingBox.

(** [parent] and [children] refer to bones of the list the bone is in,
    [boundingBox] to a box of the list of bounding boxes. *)
Module Bone.
Record t : Type := {
  name : string;
  parent : option nat;
  children : list nat;
  boundingBox : option nat;
  localPosition : Vector4.t;
  globalPosition : Vector4.t;
}.
End Bone.

(** [bones] refers to bones of the model's list of bones. *)
Module BoneGroup.
Record t : Type := { bones : list nat }.
End BoneGroup.

Module Texture.
Record t : Type := { filename : string; directory : string }.
End Texture.

(** [boneMapping] is a dictionary from bones to weights, in insertion
    order. *)
Module Vertex.
Record t : Type := {
  position : option Vector3.t;
  normal : option Vector4.t;
  tangent : option Vector4.t;
  color : option (list num);
  boneMapping : option (list (nat * num));
  uv : list Vector2.t;
}.
End Vertex.

(** [vertices] refers to three vertices of the mesh the face is in. *)
Module Face.
Record t : Type := { vertices : list nat }.
Definition init (v1 v2 v3 : nat) : t := {| vertices := [v1; v2; v3] |}.
End Face.

Module VertexFields.
Record t : Type := {
  hasNormal : bool;
  hasTangent : bool;
  hasColor : bool;
  hasBoneMapping : bool;
  uvCount : Z;
  uvEqualities : gmap Z (list Z);
}.
End VertexFields.

(** [materialInstance] refers to an instance of the list of material
    instances. *)
Module Mesh.
Record t : Type := {
  vertices : list Vertex.t;
  faces : list Face.t;
  boneGroup : option BoneGroup.t;
  materialInstance : nat;
  alphaEnum : Z;
  shadowEnum : Z;
  vertexFields : VertexFields.t;
}.
End Mesh.

(** [parent] and [children] refer to mesh groups of the list the group is
    in, [meshes] to meshes of the list of meshes, [boundingBox] to a box of
    the list of bounding boxes. *)
Module MeshGroup.
Record t : Type := {
  name : string;
  parent : option nat;
  children : list nat;
  meshes : list nat;
  boundingBox : option nat;
  visible : bool;
}.
End MeshGroup.

Module FmdlVertexDatumType.
Definition position : Z := 0.
Definition boneWeights : Z := 1.
Definition normal : Z := 2.
Definition color : Z := 3.
Definition boneIndices : Z := 7.
Definition uv0 : Z := 8.
Definition uv1 : Z := 9.
Definition uv2 : Z := 10.
Definition uv3 : Z := 11.
Definition tangent : Z := 14.
End FmdlVertexDatumType.

Module FmdlVertexDatumFormat.
Definition tripleFloat32 : Z := 1.
Definition quadFloat16 : Z := 6.
Definition doubleFloat16 : Z := 7.
Definition quadFloat8 : Z := 8.
Definition quadInt8 : Z := 9.
End FmdlVertexDatumFormat.

Definition parseFloat16 (int16 : Z) : float.t :=
  let exponentBits := 5 in
  let exponentBias := 15 in
  let mantissaBits := 10 in
  let sign := negb (Z.land (Z.shiftr int16 (exponentBits + mantissaBits)) 1 =? 0) in
  let biasedExponent :=
    Z.land (Z.shiftr int16 mantissaBits) (Z.lnot (Z.shiftl (Z.lnot 0) exponentBits)) in
  let mantissa := Z.land int16 (Z.lnot (Z.shiftl (Z.lnot 0) mantissaBits)) in
  let value :=
    if biasedExponent =? Z.shiftl 1 exponentBits - 1 then
      if mantissa =? 0 then float.inf else float.nan
    else if biasedExponent =? 0 then
      float.ldexp (float.of_int mantissa) (1 - mantissaBits - exponentBias)
    else
      float.ldexp (float.of_int (mantissa + Z.shiftl 1 mantissaBits))
        (biasedExponent - mantissaBits - exponentBias) in
  if sign then float.neg value else value.

Definition encodeFloat16 (floatValue : float.t) : result Z :=
  let exponentBits := 5 in
  let exponentBias := 15 in
  let mantissaBits := 10 in
  let sign := if float.ltb floatValue float.zero then 1 else 0 in
  let absValue :=
    if float.ltb floatValue float.zero then float.neg floatValue else floatValue in
  '(biasedExponent, mantissa) ←
    (if float.isnan floatValue then
       Ok (31, Z.lnot (Z.shiftl (Z.lnot 0) mantissaBits))
     else if float.isinf floatValue then
       Ok (31, 0)
     else
       let '(candidateMantissa, exponent) := float.frexp absValue in
       if float.ltb candidateMantissa float.tenth then
         Ok (0, 0)
       else if exponent <? - exponentBias + 2 then
         mantissa ← float.int (float.mul candidateMantissa
                                 (float.pow2 (exponentBias + mantissaBits - 1 + exponent)));
         Ok (0, mantissa)
       else if exponent >? exponentBias + 1 then
         Ok (31, 0)
       else
         let biasedExponent := exponent - 1 + exponentBias in
         let normalizedMantissa :=
           float.sub (float.mul candidateMantissa float.two) float.one in
         mantissa ← float.int (float.mul normalizedMantissa (float.pow2 mantissaBits));
         Ok (biasedExponent, mantissa));
  Ok (Z.lor (Z.lor (Z.shiftl sign (exponentBits + mantissaBits))
               (Z.shiftl biasedExponent mantissaBits)) mantissa).

Definition invalidBoneID (boneID : Z) : exn :=
  InvalidFmdl "Invalid bone ID %d referenced by bone group" [boneID].

(** The body of [for i in range(entryCount)]. *)
Definition parseBoneGroupEntry {Bone : Type} (bones : list Bone) (definition : bytes)
    (boneGroup : list nat) (i : Z) : result (list nat) :=
  '(boneID, _) ← unpack_from [H_] definition (i * 2 + 4);
  if decide (¬ boneID < len bones) then Raise (invalidBoneID boneID)
  else bone ← ref bones boneID; Ok (boneGroup ++ [bone]).

(** The body of [for definition in fmdl.segment0Blocks[5]]. *)
Definition parseBoneGroup {Bone : Type} (bones : list Bone) (definition : bytes)
  : result BoneGroup.t :=
  '(unknown, (entryCount, _)) ← unpack_from [H_; H_] definition 0;
  let entryCount := if entryCount >? 32 then 32 else entryCount in
  boneGroup ← foldM (parseBoneGroupEntry bones definition) [] (range 0 entryCount);
  Ok {| BoneGroup.bones := boneGroup |}.

Definition parseBoneGroups {Bone : Type} (fmdl : FmdlContainer.t) (bones : list Bone)
  : result (list BoneGroup.t) :=
  match FmdlContainer.segment0Blocks fmdl !! 5 with
  | None => Ok []
  | Some block => mapM (parseBoneGroup bones) block
  end.

(** The body of [for definition in fmdl.segment0Blocks[6]]; the name of
    the exception the code raises here, [InvalidFdml], is not defined. *)
Definition parseTexture (strings : list string) (definition : bytes) : result Texture.t :=
  '(filenameStringID, (directoryStringID, _)) ← unpack [H_; H_] definition;
  if decide (¬ filenameStringID < len strings) then Raise (NameError "InvalidFdml")
  else if decide (¬ directoryStringID < len strings) then Raise (NameError "InvalidFdml")
  else
    filename ← index strings filenameStringID;
    directory ← index strings directoryStringID;
    Ok {| Texture.filename := filename; Texture.directory := directory |}.

Definition parseTextures (fmdl : FmdlContainer.t) (strings : list string)
  : result (list Texture.t) :=
  match FmdlContainer.segment0Blocks fmdl !! 6 with
  | None => Ok []
  | Some block => mapM (parseTexture strings) block
  end.

(** The body of [for faceVertexIndex in range(...)]; the condition is
    [(not index1 < len(vertices)) and index2 < len(vertices) and
    index3 < len(vertices)], as Python reads it. *)
Definition parseFace {Vertex : Type} (vertexBuffer : bytes) (vertexBufferOffset : Z)
    (vertices : list Vertex) (faceVertexIndex : Z) : result Face.t :=
  let position := faceVertexIndex * 2 + vertexBufferOffset in
  '(index1, (index2, (index3, _))) ← unpack_from [H_; H_; H_] vertexBuffer position;
  if negb (index1 <? len vertices) && (index2 <? len vertices) && (index3 <? len vertices)
  then Raise (InvalidFmdl "Invalid vertex referenced by face" [])
  else
    v1 ← ref vertices index1;
    v2 ← ref vertices index2;
    v3 ← ref vertices index3;
    Ok (Face.init v1 v2 v3).

Definition parseFaces {Vertex : Type} (fmdl : FmdlContainer.t)
    (vertexBufferOffset firstFaceVertexIndex faceVertexCount : Z) (vertices : list Vertex)
  : result (list Face.t) :=
  match FmdlContainer.segment1Blocks fmdl !! 2 with
  | None => Raise (InvalidFmdl "Vertex block not found" [])
  | Some vertexBuffer =>
      mapM (parseFace vertexBuffer vertexBufferOffset vertices)
        (range_step firstFaceVertexIndex (firstFaceVertexIndex + faceVertexCount) 3)
  end.

(** *** Parent links: bones and mesh groups

    [Bone] and [MeshGroup] both have a [parent] and a list of [children],
    and [parseBones] and [parseMeshGroups] resolve and check them with the
    same two loops. *)

Class TreeNode (N : Type) : Type := {
  node_parent : N -> option nat;
  node_children : N -> list nat;
  node_set_parent : nat -> N -> N;
  node_add_child : nat -> N -> N;
}.

#[global] Instance Bone_TreeNode : TreeNode Bone.t := {|
  node_parent := Bone.parent;
  node_children := Bone.children;
  node_set_parent p b :=
    {| Bone.name := Bone.name b; Bone.parent := Some p; Bone.children := Bone.children b;
       Bone.boundingBox := Bone.boundingBox b; Bone.localPosition := Bone.localPosition b;
       Bone.globalPosition := Bone.globalPosition b |};
  node_add_child c b :=
    {| Bone.name := Bone.name b; Bone.parent := Bone.parent b;
       Bone.children := Bone.children b ++ [c];
       Bone.boundingBox := Bone.boundingBox b; Bone.localPosition := Bone.localPosition b;
       Bone.globalPosition := Bone.globalPosition b |};
|}.

#[global] Instance MeshGroup_TreeNode : TreeNode MeshGroup.t := {|
  node_parent := MeshGroup.parent;
  node_children := MeshGroup.children;
  node_set_parent p g :=
    {| MeshGroup.name := MeshGroup.name g; MeshGroup.parent := Some p;
       MeshGroup.children := MeshGroup.children g; MeshGroup.meshes := MeshGroup.meshes g;
       MeshGroup.boundingBox := MeshGroup.boundingBox g;
       MeshGroup.visible := MeshGroup.visible g |};
  node_add_child c g :=
    {| MeshGroup.name := MeshGroup.name g; MeshGroup.parent := MeshGroup.parent g;
       MeshGroup.children := MeshGroup.children g ++ [c];
       MeshGroup.meshes := MeshGroup.meshes g;
       MeshGroup.boundingBox := MeshGroup.boundingBox g;
       MeshGroup.visible := MeshGroup.visible g |};
|}.

(** The body of the second loop, for the node at place [i] whose record
    gave [parentID]:
    [if parentID >= 0: ... node.parent = nodes[parentID];
     nodes[parentID].children.append(node)]. *)
Definition resolveParent {N : Type} `{TreeNode N} (invalid : Z -> exn) (nodes : list N)
    (item : nat * Z) : result (list N) :=
  let '(i, parentID) := item in
  if parentID >=? 0 then
    if decide (¬ parentID < len nodes) then Raise (invalid parentID)
    else
      p ← ref nodes parentID;
      Ok (alter (node_add_child i) p (alter (node_set_parent p) i nodes))
  else Ok nodes.

Definition resolveParents {N : Type} `{TreeNode N} (invalid : Z -> exn) (nodes : list N)
    (parentIDs : list Z) : result (list N) :=
  foldM (resolveParent invalid) nodes (zip (seq 0 (length parentIDs)) parentIDs).

(** [while node.parent is not None: if node in seen: raise ...;
    seen.append(node); node = node.parent], with fuel since the loop is not
    bounded by its form. *)
Fixpoint walkParents {N : Type} `{TreeNode N} (loop : exn) (fuel : nat) (nodes : list N)
    (seen : list nat) (node : nat) : result unit :=
  match fuel with
  | O => OutOfFuel
  | S fuel =>
      match nodes !! node ≫= node_parent with
      | None => Ok ()
      | Some p =>
          if decide (node ∈ seen) then Raise loop
          else walkParents loop fuel nodes (seen ++ [node]) p
      end
  end.

(** The third loop: [for node in nodes: seen = []; while ...].  A walk
    gets one more step than there are nodes. *)
Definition checkParentLoops {N : Type} `{TreeNode N} (loop : exn) (nodes : list N)
  : result unit :=
  foldM (fun _ node => walkParents loop (S (length nodes)) nodes [] node)
    () (seq 0 (length nodes)).

(** The second and the third loop of [parseBones] and of
    [parseMeshGroups]. *)
Definition linkParents {N : Type} `{TreeNode N} (invalid : Z -> exn) (loop : exn)
    (nodes : list N) (parentIDs : list Z) : result (list N) :=
  nodes ← resolveParents invalid nodes parentIDs;
  _ ← checkParentLoops loop nodes;
  Ok nodes.

Definition vector4 (x y z w : Z) : Vector4.t :=
  {| Vector4.x := Float (float.of_bits32 x); Vector4.y := Float (float.of_bits32 y);
     Vector4.z := Float (float.of_bits32 z); Vector4.w := Float (float.of_bits32 w) |}.

(** The body of the first loop of [parseBones]: the bone and the
    [parentID] the code keeps on it until the second loop. *)
Definition parseBone {BoundingBox : Type} (strings : list string)
    (boundingBoxes : list BoundingBox) (definition : bytes) : result (Bone.t * Z) :=
  '(nameStringID, (parentBoneID, (boundingBoxID, (unknown, (padding,
    (localX, (localY, (localZ, (localW, (worldX, (worldY, (worldZ, (worldW, _)))))))))))))
    ← unpack [H_; h_; H_; H_; Q_; f_; f_; f_; f_; f_; f_; f_; f_] definition;
  if decide (¬ nameStringID < len strings)
  then Raise (InvalidFmdl "Invalid string %d referenced by bone" [nameStringID])
  else
    name ← index strings nameStringID;
    if decide (¬ boundingBoxID < len boundingBoxes)
    then Raise (InvalidFmdl "Invalid bounding box %d referenced by bone" [boundingBoxID])
    else
      boundingBox ← ref boundingBoxes boundingBoxID;
      Ok ({| Bone.name := name; Bone.parent := None; Bone.children := [];
             Bone.boundingBox := Some boundingBox;
             Bone.localPosition := vector4 localX localY localZ localW;
             Bone.globalPosition := vector4 worldX worldY worldZ worldW |},
          parentBoneID).

Definition invalidBoneParent (parentID : Z) : exn :=
  InvalidFmdl "Invalid bone parent ID %d referenced by bone" [parentID].
Definition boneParentLoop : exn :=
  InvalidFmdl "Invalid bone parent loop detected for bone" [].

Definition parseBones {BoundingBox : Type} (fmdl : FmdlContainer.t) (strings : list string)
    (boundingBoxes : list BoundingBox) : result (list Bone.t) :=
  match FmdlContainer.segment0Blocks fmdl !! 0 with
  | None => Ok []
  | Some block =>
      items ← mapM (parseBone strings boundingBoxes) block;
      linkParents invalidBoneParent boneParentLoop items.*1 items.*2
  end.

Definition parseMeshGroupAssignment (definition : bytes) : result (Z * Z * Z * Z) :=
  '(meshGroupID, (meshCount, (firstMeshIndex, (boundingBoxID, (unknown, _)))))
    ← unpack [x_; x_; x_; x_; H_; H_; H_; H_; x_; x_; x_; x_; H_;
              x_; x_; x_; x_; x_; x_; x_; x_; x_; x_; x_; x_; x_; x_] definition;
  Ok (meshGroupID, firstMeshIndex, meshCount, boundingBoxID).

Definition parseMeshGroupAssignments (fmdl : FmdlContainer.t)
  : result (list (Z * Z * Z * Z)) :=
  match FmdlContainer.segment0Blocks fmdl !! 2 with
  | None => Ok []
  | Some block => mapM parseMeshGroupAssignment block
  end.

(** The body of the first loop of [parseMeshGroups]. *)
Definition parseMeshGroup (strings : list string) (definition : bytes)
  : result (MeshGroup.t * Z) :=
  '(nameStringID, (invisible, (parentID, (unknown, _))))
    ← unpack [H_; H_; h_; h_] definition;
  if decide (¬ nameStringID < len strings)
  then Raise (InvalidFmdl "Invalid string %d referenced by mesh group" [nameStringID])
  else
    name ← index strings nameStringID;
    Ok ({| MeshGroup.name := name; MeshGroup.parent := None; MeshGroup.children := [];
           MeshGroup.meshes := []; MeshGroup.boundingBox := None;
           MeshGroup.visible := (invisible =? 0) |},
        parentID).

Definition invalidMeshGroupParent (parentID : Z) : exn :=
  InvalidFmdl "Invalid mesh group parent ID %d referenced by mesh group" [parentID].
Definition meshGroupParentLoop : exn :=
  InvalidFmdl "Invalid mesh group parent loop detected for mesh group" [].
Definition doubleAssignment (i : Z) : exn :=
  InvalidFmdl "Invalid double mesh group assignment: mesh %d already assigned" [i].
Definition meshNotAssigned : exn :=
  InvalidFmdl "Mesh not assigned to mesh group" [].

Definition set_boundingBox (boundingBox : nat) (g : MeshGroup.t) : MeshGroup.t :=
  {| MeshGroup.name := MeshGroup.name g; MeshGroup.parent := MeshGroup.parent g;
     MeshGroup.children := MeshGroup.children g; MeshGroup.meshes := MeshGroup.meshes g;
     MeshGroup.boundingBox := Some boundingBox; MeshGroup.visible := MeshGroup.visible g |}.

Definition append_mesh (mesh : nat) (g : MeshGroup.t) : MeshGroup.t :=
  {| MeshGroup.name := MeshGroup.name g; MeshGroup.parent := MeshGroup.parent g;
     MeshGroup.children := MeshGroup.children g;
     MeshGroup.meshes := MeshGroup.meshes g ++ [mesh];
     MeshGroup.boundingBox := MeshGroup.boundingBox g;
     MeshGroup.visible := MeshGroup.visible g |}.

(** The body of [for i in range(firstMeshIndex, firstMeshIndex + meshCount)]. *)
Definition assignMesh (meshGroupID : Z) (assignments : list (option Z)) (i : Z)
  : result (list (option Z)) :=
  a ← index assignments i;
  if decide (a ≠ None) then Raise (doubleAssignment i)
  else r ← ref assignments i; Ok (<[r := Some meshGroupID]> assignments).

(** The body of [for (meshGroupID, firstMeshIndex, meshCount, boundingBoxID)
    in meshGroupAssignments]. *)
Definition assignMeshes {BoundingBox Mesh : Type} (boundingBoxes : list BoundingBox)
    (meshes : list Mesh) (st : list MeshGroup.t * list (option Z)) (a : Z * Z * Z * Z)
  : result (list MeshGroup.t * list (option Z)) :=
  let '(meshGroups, assignments) := st in
  let '(meshGroupID, firstMeshIndex, meshCount, boundingBoxID) := a in
  if decide (¬ meshGroupID < len meshGroups)
  then Raise (InvalidFmdl "Invalid mesh group ID %d referenced by mesh group assignment"
                [meshGroupID])
  else if decide (¬ firstMeshIndex + meshCount <= len meshes)
  then Raise (InvalidFmdl "Invalid mesh ID %d referenced by mesh group assignment"
                [firstMeshIndex + meshCount])
  else if decide (¬ boundingBoxID < len boundingBoxes)
  then Raise (InvalidFmdl "Invalid bounding box ID %d referenced by mesh group assignment"
                [boundingBoxID])
  else
    assignments ← foldM (assignMesh meshGroupID) assignments
                    (range firstMeshIndex (firstMeshIndex + meshCount));
    meshGroup ← index meshGroups meshGroupID;
    boundingBox ← ref boundingBoxes boundingBoxID;
    if decide (MeshGroup.boundingBox meshGroup ≠ None
               ∧ MeshGroup.boundingBox meshGroup ≠ Some boundingBox)
    then Raise (InvalidFmdl "Invalid double bounding box assignment for mesh group %d"
                  [meshGroupID])
    else
      g ← ref meshGroups meshGroupID;
      Ok (alter (set_boundingBox boundingBox) g meshGroups, assignments).

(** The body of [for i in range(len(assignments))]. *)
Definition collectMesh {Mesh : Type} (meshes : list Mesh) (assignments : list (option Z))
    (meshGroups : list MeshGroup.t) (i : Z) : result (list MeshGroup.t) :=
  a ← index assignments i;
  match a with
  | None => Raise TypeError
  | Some meshGroupID =>
      g ← ref meshGroups meshGroupID;
      mesh ← ref meshes i;
      Ok (alter (append_mesh mesh) g meshGroups)
  end.

(** The part of [parseMeshGroups] that follows the reading of the
    assignments: the loop over them, the check that every mesh is assigned,
    and the loop that puts every mesh in the list of its group. *)
Definition assignAndCollect {BoundingBox Mesh : Type} (boundingBoxes : list BoundingBox)
    (meshes : list Mesh) (meshGroups : list MeshGroup.t)
    (meshGroupAssignments : list (Z * Z * Z * Z)) : result (list MeshGroup.t) :=
  let assignments := map (fun _ => @None Z) meshes in
  '(meshGroups, assignments) ←
    foldM (assignMeshes boundingBoxes meshes) (meshGroups, assignments) meshGroupAssignments;
  if decide (None ∈ assignments) then Raise meshNotAssigned
  else foldM (collectMesh meshes assignments) meshGroups (range 0 (len assignments)).

Definition parseMeshGroups {BoundingBox Mesh : Type} (fmdl : FmdlContainer.t)
    (strings : list string) (boundingBoxes : list BoundingBox) (meshes : list Mesh)
  : result (list MeshGroup.t) :=
  let block := default [] (FmdlContainer.segment0Blocks fmdl !! 1) in
  items ← mapM (parseMeshGroup strings) block;
  meshGroups ← linkParents invalidMeshGroupParent meshGroupParentLoop items.*1 items.*2;
  meshGroupAssignments ← parseMeshGroupAssignments fmdl;
  assignAndCollect boundingBoxes meshes meshGroups meshGroupAssignments.

(** *** Mesh formats *)

Definition parseMeshFormat (definition : bytes) : result (Z * Z * Z * Z) :=
  '(bufferID, (vertexFormatEntryCount, (bufferOffsetIncrement, (meshFormatType,
    (bufferOffset, _))))) ← unpack [B_; B_; B_; B_; I_] definition;
  Ok (bufferID, bufferOffset, bufferOffsetIncrement, vertexFormatEntryCount).

Definition parseMeshFormats (fmdl : FmdlContainer.t) : result (list (Z * Z * Z * Z)) :=
  match FmdlContainer.segment0Blocks fmdl !! 10 with
  | None => Ok []
  | Some block => mapM parseMeshFormat block
  end.

Definition datumTypes : list Z :=
  [FmdlVertexDatumType.position; FmdlVertexDatumType.boneWeights;
   FmdlVertexDatumType.normal; FmdlVertexDatumType.color;
   FmdlVertexDatumType.boneIndices; FmdlVertexDatumType.uv0; FmdlVertexDatumType.uv1;
   FmdlVertexDatumType.uv2; FmdlVertexDatumType.uv3; FmdlVertexDatumType.tangent].

Definition datumFormats : list Z :=
  [FmdlVertexDatumFormat.tripleFloat32; FmdlVertexDatumFormat.quadFloat16;
   FmdlVertexDatumFormat.doubleFloat16; FmdlVertexDatumFormat.quadFloat8;
   FmdlVertexDatumFormat.quadInt8].

Definition parseVertexFormat (definition : bytes) : result (Z * Z * Z) :=
  '(datumType, (datumFormat, (offset, _))) ← unpack [B_; B_; H_] definition;
  if decide (datumType ∉ datumTypes)
  then Raise (InvalidFmdl "Invalid vertex datum type %s" [datumType])
  else if decide (datumFormat ∉ datumFormats)
  then Raise (InvalidFmdl "Invalid vertex datum format %s" [datumFormat])
  else Ok (datumType, datumFormat, offset).

Definition parseVertexFormats (fmdl : FmdlContainer.t) : result (list (Z * Z * Z)) :=
  match FmdlContainer.segment0Blocks fmdl !! 11 with
  | None => Ok []
  | Some block => mapM parseVertexFormat block
  end.

Definition parseBufferOffset (definition : bytes) : result Z :=
  '(eof, (length, (offset, (padding, _)))) ← unpack [I_; I_; I_; I_] definition;
  Ok offset.

Definition parseBufferOffsets (fmdl : FmdlContainer.t) : result (list Z) :=
  match FmdlContainer.segment0Blocks fmdl !! 14 with
  | None => Ok []
  | Some block => mapM parseBufferOffset block
  end.

(** The body of [for i in range(firstMeshFormatID, firstMeshFormatID +
    meshFormatEntryCount)]: the two parallel lists grow by one entry per
    vertex format entry of the mesh format. *)
Definition meshFormatOffsets (meshFormatDefinitions : list (Z * Z * Z * Z))
    (bufferOffsets : list Z) (st : list Z * list Z) (i : Z) : result (list Z * list Z) :=
  let '(vertexFormatOffsets, vertexFormatIncrements) := st in
  '(bufferID, bufferOffset, bufferOffsetIncrement, vertexEntryCount)
    ← index meshFormatDefinitions i;
  if decide (¬ bufferID < len bufferOffsets)
  then Raise (InvalidFmdl "Invalid buffer offset ID %d referenced by mesh format definition"
                [bufferID])
  else
    base ← index bufferOffsets bufferID;
    Ok (vertexFormatOffsets ++ replicate (Z.to_nat vertexEntryCount) (base + bufferOffset),
        vertexFormatIncrements ++ replicate (Z.to_nat vertexEntryCount) bufferOffsetIncrement).

(** The body of [for i in range(vertexFormatEntryCount)]. *)
Definition meshVertexFormatEntry (vertexFormatDefinitions : list (Z * Z * Z))
    (vertexFormatOffsets vertexFormatIncrements : list Z) (firstVertexFormatID : Z) (i : Z)
  : result (Z * Z * Z * Z) :=
  blockOffset ← index vertexFormatOffsets i;
  increment ← index vertexFormatIncrements i;
  '(datumType, datumFormat, vertexOffset)
    ← index vertexFormatDefinitions (i + firstVertexFormatID);
  Ok (datumType, datumFormat, blockOffset + vertexOffset, increment).

(** The body of [for definition in fmdl.segment0Blocks[9]]. *)
Definition parseMeshFormatAssignment (meshFormatDefinitions : list (Z * Z * Z * Z))
    (vertexFormatDefinitions : list (Z * Z * Z)) (bufferOffsets : list Z)
    (definition : bytes) : result (list (Z * Z * Z * Z)) :=
  '(meshFormatEntryCount, (vertexFormatEntryCount, (firstUvIndex, (uvIndexCount,
    (firstMeshFormatID, (firstVertexFormatID, _))))))
    ← unpack [B_; B_; B_; B_; H_; H_] definition;
  if decide (¬ firstMeshFormatID + meshFormatEntryCount <= len meshFormatDefinitions)
  then Raise (InvalidFmdl "Invalid mesh format entry %d referenced by mesh format assignment"
                [firstMeshFormatID + meshFormatEntryCount])
  else if decide (¬ firstVertexFormatID + vertexFormatEntryCount
                    <= len vertexFormatDefinitions)
  then Raise (InvalidFmdl "Invalid vertex format entry %d referenced by mesh format assignment"
                [firstVertexFormatID + vertexFormatEntryCount])
  else
    '(vertexFormatOffsets, vertexFormatIncrements) ←
      foldM (meshFormatOffsets meshFormatDefinitions bufferOffsets) ([], [])
        (range firstMeshFormatID (firstMeshFormatID + meshFormatEntryCount));
    if decide (len vertexFormatOffsets ≠ vertexFormatEntryCount)
    then Raise (InvalidFmdl "Incorrect number of mesh format definitions: found %d, expected %d"
                  [len vertexFormatOffsets; vertexFormatEntryCount])
    else
      mapM (meshVertexFormatEntry vertexFormatDefinitions vertexFormatOffsets
              vertexFormatIncrements firstVertexFormatID)
        (range 0 vertexFormatEntryCount).

Definition parseMeshFormatAssignments (fmdl : FmdlContainer.t) (bufferOffsets : list Z)
  : result (list (list (Z * Z * Z * Z))) :=
  match FmdlContainer.segment0Blocks fmdl !! 9 with
  | None => Ok []
  | Some block =>
      meshFormatDefinitions ← parseMeshFormats fmdl;
      vertexFormatDefinitions ← parseVertexFormats fmdl;
      mapM (parseMeshFormatAssignment meshFormatDefinitions vertexFormatDefinitions
              bufferOffsets) block
  end.

Definition parseLevelsOfDetail (fmdl : FmdlContainer.t) : result Z :=
  match FmdlContainer.segment0Blocks fmdl !! 16 with
  | None => Raise (InvalidFmdl "Level Of Detail specification missing" [])
  | Some block =>
      if decide (len block ≠ 1)
      then Raise (InvalidFmdl
                    "Unexpected Level Of Detail specification, expected 1 record, found %s"
                    [len block])
      else
        definition ← index block 0;
        '(lodCount, (unknown0, (unknown1, (unknown2, _))))
          ← unpack [I_; f_; f_; f_] definition;
        Ok lodCount
  end.

Definition parseFaceIndex (definition : bytes) : result (Z * Z) :=
  '(firstFaceVertexIndex, (faceVertexCount, _)) ← unpack [I_; I_] definition;
  Ok (firstFaceVertexIndex, faceVertexCount).

Definition parseFaceIndices (fmdl : FmdlContainer.t) : result (list (Z * Z)) :=
  match FmdlContainer.segment0Blocks fmdl !! 17 with
  | None => Ok []
  | Some block => mapM parseFaceIndex block
  end.


(** *** Vertices *)

Definition num_float (a : num) : float.t :=
  match a with Float x => x | Int n => float.of_int n end.

(** [a < b] and [a < n] for numbers. *)
Definition num_ltb (a b : num) : bool :=
  match a, b with
  | Int m, Int n => m <? n
  | _, _ => float.ltb (num_float a) (num_float b)
  end.

(** [d[key] = value] on a dictionary kept in insertion order. *)
Fixpoint dict_set {V : Type} (d : list (nat * V)) (key : nat) (value : V)
  : list (nat * V) :=
  match d with
  | [] => [(key, value)]
  | (k, v) :: d' =>
      if decide (k = key) then (k, value) :: d' else (k, v) :: dict_set d' key value
  end.

(** The value read for one format entry of one vertex. *)
Definition readDatum (vertexBuffer : bytes) (datumFormat position : Z)
  : result (list num) :=
  if datumFormat =? FmdlVertexDatumFormat.tripleFloat32 then
    '(a, (b, (c, _))) ← unpack_from [f_; f_; f_] vertexBuffer position;
    Ok (map (fun x => Float (float.of_bits32 x)) [a; b; c])
  else if datumFormat =? FmdlVertexDatumFormat.quadFloat16 then
    '(a, (b, (c, (d, _)))) ← unpack_from [H_; H_; H_; H_] vertexBuffer position;
    Ok (map (fun x => Float (parseFloat16 x)) [a; b; c; d])
  else if datumFormat =? FmdlVertexDatumFormat.doubleFloat16 then
    '(a, (b, _)) ← unpack_from [H_; H_] vertexBuffer position;
    Ok (map (fun x => Float (parseFloat16 x)) [a; b])
  else if datumFormat =? FmdlVertexDatumFormat.quadFloat8 then
    '(a, (b, (c, (d, _)))) ← unpack_from [B_; B_; B_; B_] vertexBuffer position;
    Ok (map (fun x => Float (float.div (float.of_int x) (float.of_int 255))) [a; b; c; d])
  else if datumFormat =? FmdlVertexDatumFormat.quadInt8 then
    '(a, (b, (c, (d, _)))) ← unpack_from [B_; B_; B_; B_] vertexBuffer position;
    Ok (map Int [a; b; c; d])
  else Raise (InvalidFmdl "Unexpected vertex datum format %d" [datumFormat]).

(** The vertex under construction and the local variables of the loop
    over the format entries. *)
Record vertexState : Type := {
  vs_position : option Vector3.t;
  vs_normal : option Vector4.t;
  vs_tangent : option Vector4.t;
  vs_color : option (list num);
  vs_uv0 : option Vector2.t;
  vs_uv1 : option Vector2.t;
  vs_uv2 : option Vector2.t;
  vs_uv3 : option Vector2.t;
  vs_boneWeights : option (list num);
  vs_boneIndices : option (list num);
}.

Definition vertexState_init : vertexState :=
  {| vs_position := None; vs_normal := None; vs_tangent := None; vs_color := None;
     vs_uv0 := None; vs_uv1 := None; vs_uv2 := None; vs_uv3 := None;
     vs_boneWeights := None; vs_boneIndices := None |}.

Definition value_vector2 (value : list num) : result Vector2.t :=
  a ← index value 0; b ← index value 1;
  Ok {| Vector2.u := a; Vector2.v := b |}.

Definition value_vector3 (value : list num) : result Vector3.t :=
  a ← index value 0; b ← index value 1; c ← index value 2;
  Ok {| Vector3.x := a; Vector3.y := b; Vector3.z := c |}.

Definition value_vector4 (value : list num) : result Vector4.t :=
  a ← index value 0; b ← index value 1; c ← index value 2; d ← index value 3;
  Ok {| Vector4.x := a; Vector4.y := b; Vector4.z := c; Vector4.w := d |}.

(** [if datumFormat != expected: raise InvalidFmdl(message % datumFormat)] *)
Definition expectFormat (datumFormat expected : Z) (message : string) : result unit :=
  if decide (datumFormat ≠ expected) then Raise (InvalidFmdl message [datumFormat])
  else Ok ().

(** The body of [for (datumType, datumFormat, offset, increment) in format]. *)
Definition parseVertexDatum (vertexBuffer : bytes) (vertexIndex : Z) (st : vertexState)
    (entry : Z * Z * Z * Z) : result vertexState :=
  let '(datumType, datumFormat, offset, increment) := entry in
  let position := offset + vertexIndex * increment in
  value ← readDatum vertexBuffer datumFormat position;
  if datumType =? FmdlVertexDatumType.position then
    _ ← expectFormat datumFormat FmdlVertexDatumFormat.tripleFloat32
          "Unexpected format %d for vertex position data";
    p ← value_vector3 value;
    Ok {| vs_position := Some p; vs_normal := vs_normal st; vs_tangent := vs_tangent st;
          vs_color := vs_color st; vs_uv0 := vs_uv0 st; vs_uv1 := vs_uv1 st;
          vs_uv2 := vs_uv2 st; vs_uv3 := vs_uv3 st;
          vs_boneWeights := vs_boneWeights st; vs_boneIndices := vs_boneIndices st |}
  else if datumType =? FmdlVertexDatumType.boneWeights then
    _ ← expectFormat datumFormat FmdlVertexDatumFormat.quadFloat8
          "Unexpected format %d for vertex bone weight data";
    Ok {| vs_position := vs_position st; vs_normal := vs_normal st;
          vs_tangent := vs_tangent st; vs_color := vs_color st; vs_uv0 := vs_uv0 st;
          vs_uv1 := vs_uv1 st; vs_uv2 := vs_uv2 st; vs_uv3 := vs_uv3 st;
          vs_boneWeights := Some value; vs_boneIndices := vs_boneIndices st |}
  else if datumType =? FmdlVertexDatumType.normal then
    _ ← expectFormat datumFormat FmdlVertexDatumFormat.quadFloat16
          "Unexpected format %d for vertex normal data";
    n ← value_vector4 value;
    Ok {| vs_position := vs_position st; vs_normal := Some n; vs_tangent := vs_tangent st;
          vs_color := vs_color st; vs_uv0 := vs_uv0 st; vs_uv1 := vs_uv1 st;
          vs_uv2 := vs_uv2 st; vs_uv3 := vs_uv3 st;
          vs_boneWeights := vs_boneWeights st; vs_boneIndices := vs_boneIndices st |}
  else if datumType =? FmdlVertexDatumType.color then
    _ ← expectFormat datumFormat FmdlVertexDatumFormat.quadFloat8
          "Unexpected format %d for vertex color data";
    Ok {| vs_position := vs_position st; vs_normal := vs_normal st;
          vs_tangent := vs_tangent st; vs_color := Some value; vs_uv0 := vs_uv0 st;
          vs_uv1 := vs_uv1 st; vs_uv2 := vs_uv2 st; vs_uv3 := vs_uv3 st;
          vs_boneWeights := vs_boneWeights st; vs_boneIndices := vs_boneIndices st |}
  else if datumType =? FmdlVertexDatumType.boneIndices then
    _ ← expectFormat datumFormat FmdlVertexDatumFormat.quadInt8
          "Unexpected format %d for vertex bone index data";
    Ok {| vs_position := vs_position st; vs_normal := vs_normal st;
          vs_tangent := vs_tangent st; vs_color := vs_color st; vs_uv0 := vs_uv0 st;
          vs_uv1 := vs_uv1 st; vs_uv2 := vs_uv2 st; vs_uv3 := vs_uv3 st;
          vs_boneWeights := vs_boneWeights st; vs_boneIndices := Some value |}
  else if datumType =? FmdlVertexDatumType.uv0 then
    _ ← expectFormat datumFormat FmdlVertexDatumFormat.doubleFloat16
          "Unexpected format %d for vertex uv data";
    uv ← value_vector2 value;
    Ok {| vs_position := vs_position st; vs_normal := vs_normal st;
          vs_tangent := vs_tangent st; vs_color := vs_color st; vs_uv0 := Some uv;
          vs_uv1 := vs_uv1 st; vs_uv2 := vs_uv2 st; vs_uv3 := vs_uv3 st;
          vs_boneWeights := vs_boneWeights st; vs_boneIndices := vs_boneIndices st |}
  else if datumType =? FmdlVertexDatumType.uv1 then
    _ ← expectFormat datumFormat FmdlVertexDatumFormat.doubleFloat16
          "Unexpected format %d for vertex uv data";
    uv ← value_vector2 value;
    Ok {| vs_position := vs_position st; vs_normal := vs_normal st;
          vs_tangent := vs_tangent st; vs_color := vs_color st; vs_uv0 := vs_uv0 st;
          vs_uv1 := Some uv; vs_uv2 := vs_uv2 st; vs_uv3 := vs_uv3 st;
          vs_boneWeights := vs_boneWeights st; vs_boneIndices := vs_boneIndices st |}
  else if datumType =? FmdlVertexDatumType.uv2 then
    _ ← expectFormat datumFormat FmdlVertexDatumFormat.doubleFloat16
          "Unexpected format %d for vertex uv data";
    uv ← value_vector2 value;
    Ok {| vs_position := vs_position st; vs_normal := vs_normal st;
          vs_tangent := vs_tangent st; vs_color := vs_color st; vs_uv0 := vs_uv0 st;
          vs_uv1 := vs_uv1 st; vs_uv2 := Some uv; vs_uv3 := vs_uv3 st;
          vs_boneWeights := vs_boneWeights st; vs_boneIndices := vs_boneIndices st |}
  else if datumType =? FmdlVertexDatumType.uv3 then
    _ ← expectFormat datumFormat FmdlVertexDatumFormat.doubleFloat16
          "Unexpected format %d for vertex uv data";
    uv ← value_vector2 value;
    Ok {| vs_position := vs_position st; vs_normal := vs_normal st;
          vs_tangent := vs_tangent st; vs_color := vs_color st; vs_uv0 := vs_uv0 st;
          vs_uv1 := vs_uv1 st; vs_uv2 := vs_uv2 st; vs_uv3 := Some uv;
          vs_boneWeights := vs_boneWeights st; vs_boneIndices := vs_boneIndices st |}
  else if datumType =? FmdlVertexDatumType.tangent then
    _ ← expectFormat datumFormat FmdlVertexDatumFormat.quadFloat16
          "Unexpected format %d for vertex tangent data";
    n ← value_vector4 value;
    Ok {| vs_position := vs_position st; vs_normal := vs_normal st; vs_tangent := Some n;
          vs_color := vs_color st; vs_uv0 := vs_uv0 st; vs_uv1 := vs_uv1 st;
          vs_uv2 := vs_uv2 st; vs_uv3 := vs_uv3 st;
          vs_boneWeights := vs_boneWeights st; vs_boneIndices := vs_boneIndices st |}
  else Raise (InvalidFmdl "Unexpected vertex datum type %d" [datumType]).

(** The body of [for i in range(4)] that fills the bone mapping. *)
Definition mapBone (boneGroup : option BoneGroup.t) (boneWeights : list num)
    (boneIndices : option (list num)) (boneMapping : list (nat * num)) (i : Z)
  : result (list (nat * num)) :=
  weight ← index boneWeights i;
  if num_ltb (Float float.millionth) weight then
    indices ← (match boneIndices with Some l => Ok l | None => Raise TypeError end);
    boneIndex ← index indices i;
    group ← (match boneGroup with Some g => Ok g | None => Raise AttributeError end);
    if negb (num_ltb boneIndex (Int (len (BoneGroup.bones group)))) then Ok boneMapping
    else
      k ← (match boneIndex with Int n => Ok n | Float _ => Raise TypeError end);
      bone ← index (BoneGroup.bones group) k;
      Ok (dict_set boneMapping bone weight)
  else Ok boneMapping.

Definition option_list {A : Type} (o : option A) : list A :=
  match o with Some a => [a] | None => [] end.

(** The body of [for vertexIndex in range(vertexCount)]. *)
Definition parseVertex (vertexBuffer : bytes) (format : list (Z * Z * Z * Z))
    (boneGroup : option BoneGroup.t) (vertexIndex : Z) : result Vertex.t :=
  st ← foldM (parseVertexDatum vertexBuffer vertexIndex) vertexState_init format;
  let uv := option_list (vs_uv0 st) ++ option_list (vs_uv1 st)
            ++ option_list (vs_uv2 st) ++ option_list (vs_uv3 st) in
  boneMapping ←
    (match vs_boneWeights st with
     | None => Ok None
     | Some boneWeights =>
         m ← foldM (mapBone boneGroup boneWeights (vs_boneIndices st)) [] (range 0 4);
         Ok (Some m)
     end);
  Ok {| Vertex.position := vs_position st; Vertex.normal := vs_normal st;
        Vertex.tangent := vs_tangent st; Vertex.color := vs_color st;
        Vertex.boneMapping := boneMapping; Vertex.uv := uv |}.

Definition parseVertices (fmdl : FmdlContainer.t) (format : list (Z * Z * Z * Z))
    (boneGroup : option BoneGroup.t) (vertexCount : Z) : result (list Vertex.t) :=
  match FmdlContainer.segment1Blocks fmdl !! 2 with
  | None => Raise (InvalidFmdl "Vertex block not found" [])
  | Some vertexBuffer =>
      mapM (parseVertex vertexBuffer format boneGroup) (range 0 vertexCount)
  end.


(** *** Meshes *)

(** The local variables of the loop of [parseMeshes] over the entries of
    the mesh's format; [hasNormal], [hasColor], [hasTangent],
    [hasBoneMapping] and [uvCount] are the fields of [vertexFields]. *)
Record formatState : Type := {
  fs_hasNormal : bool;
  fs_hasTangent : bool;
  fs_hasColor : bool;
  fs_hasBoneMapping : bool;
  fs_uvCount : Z;
  fs_formatFields : list Z;
  fs_uv0 : bool;
  fs_uv1 : bool;
  fs_uv2 : bool;
  fs_uv3 : bool;
  fs_boneWeights : bool;
  fs_boneIndices : bool;
  fs_uvOffsets : gmap Z Z;
}.

Definition formatState_init : formatState :=
  {| fs_hasNormal := false; fs_hasTangent := false; fs_hasColor := false;
     fs_hasBoneMapping := false; fs_uvCount := 0; fs_formatFields := [];
     fs_uv0 := false; fs_uv1 := false; fs_uv2 := false; fs_uv3 := false;
     fs_boneWeights := false; fs_boneIndices := false; fs_uvOffsets := ∅ |}.

(** The body of
    [for (datumType, datumFormat, offset, increment) in meshFormats[meshFormatID]].
    After the test for a duplicate the body is a row of independent [if]s,
    one per datum type, each setting its flags. *)
Definition scanFormatEntry (st : formatState) (entry : Z * Z * Z * Z)
  : result formatState :=
  let '(datumType, datumFormat, offset, increment) := entry in
  if decide (datumType ∈ fs_formatFields st)
  then Raise (InvalidFmdl "Duplicate vertex field %d found in vertex format definition"
                [datumType])
  else
    let type t := datumType =? t in
    let uv := type FmdlVertexDatumType.uv0 || type FmdlVertexDatumType.uv1
              || type FmdlVertexDatumType.uv2 || type FmdlVertexDatumType.uv3 in
    Ok {| fs_hasNormal := fs_hasNormal st || type FmdlVertexDatumType.normal;
          fs_hasTangent := fs_hasTangent st || type FmdlVertexDatumType.tangent;
          fs_hasColor := fs_hasColor st || type FmdlVertexDatumType.color;
          fs_hasBoneMapping :=
            fs_hasBoneMapping st || type FmdlVertexDatumType.boneWeights
            || type FmdlVertexDatumType.boneIndices;
          fs_uvCount := if uv then fs_uvCount st + 1 else fs_uvCount st;
          fs_formatFields := fs_formatFields st ++ [datumType];
          fs_uv0 := fs_uv0 st || type FmdlVertexDatumType.uv0;
          fs_uv1 := fs_uv1 st || type FmdlVertexDatumType.uv1;
          fs_uv2 := fs_uv2 st || type FmdlVertexDatumType.uv2;
          fs_uv3 := fs_uv3 st || type FmdlVertexDatumType.uv3;
          fs_boneWeights := fs_boneWeights st || type FmdlVertexDatumType.boneWeights;
          fs_boneIndices := fs_boneIndices st || type FmdlVertexDatumType.boneIndices;
          fs_uvOffsets :=
            if type FmdlVertexDatumType.uv0 then <[0 := offset]> (fs_uvOffsets st)
            else if type FmdlVertexDatumType.uv1 then <[1 := offset]> (fs_uvOffsets st)
            else if type FmdlVertexDatumType.uv2 then <[2 := offset]> (fs_uvOffsets st)
            else if type FmdlVertexDatumType.uv3 then <[3 := offset]> (fs_uvOffsets st)
            else fs_uvOffsets st |}.

(** [d[key]] on a dictionary. *)
Definition getitem {V : Type} (d : gmap Z V) (key : Z) : result V :=
  match d !! key with
  | Some v => Ok v
  | None => Raise KeyError
  end.

(** The body of [for j in range(vertexFields.uvCount)]:
    [if i != j and uvOffsets[i] == uvOffsets[j]: uvEqualities[i].append(j)]. *)
Definition uvEquality (uvOffsets : gmap Z Z) (i : Z) (equal : list Z) (j : Z)
  : result (list Z) :=
  if decide (i ≠ j) then
    oi ← getitem uvOffsets i;
    oj ← getitem uvOffsets j;
    if decide (oi = oj) then Ok (equal ++ [j]) else Ok equal
  else Ok equal.

(** The body of [for i in range(vertexFields.uvCount)]. *)
Definition uvEqualitiesOf (uvOffsets : gmap Z Z) (uvCount : Z)
    (uvEqualities : gmap Z (list Z)) (i : Z) : result (gmap Z (list Z)) :=
  equal ← foldM (uvEquality uvOffsets i) [] (range 0 uvCount);
  Ok (<[i := equal]> uvEqualities).

(** The fields of a mesh record, block 3. *)
Record meshRecord : Type := {
  mr_alphaEnum : Z;
  mr_shadowEnum : Z;
  mr_materialInstanceID : Z;
  mr_boneGroupID : Z;
  mr_meshFormatID : Z;
  mr_vertexCount : Z;
  mr_firstFaceVertexIndex : Z;
  mr_faceVertexCount : Z;
  mr_firstFaceIndexID : Z;
}.

(** The [unpack] that opens the body of
    [for definition in fmdl.segment0Blocks[3]]. *)
Definition unpackMesh (definition : bytes) : result meshRecord :=
  '(alphaEnum, (shadowEnum, (materialInstanceID, (boneGroupID, (meshFormatID,
    (vertexCount, (firstFaceVertexIndex, (faceVertexCount, (firstFaceIndexID, _)))))))))
    ← unpack [B_; B_; x_; x_; H_; H_; H_; H_; x_; x_; x_; x_; I_; I_; Q_;
              x_; x_; x_; x_; x_; x_; x_; x_; x_; x_; x_; x_; x_; x_; x_; x_] definition;
  Ok {| mr_alphaEnum := alphaEnum; mr_shadowEnum := shadowEnum;
        mr_materialInstanceID := materialInstanceID; mr_boneGroupID := boneGroupID;
        mr_meshFormatID := meshFormatID; mr_vertexCount := vertexCount;
        mr_firstFaceVertexIndex := firstFaceVertexIndex;
        mr_faceVertexCount := faceVertexCount; mr_firstFaceIndexID := firstFaceIndexID |}.

(** The rest of the body of [for definition in fmdl.segment0Blocks[3]]. *)
Definition meshOfRecord {MaterialInstance : Type} (fmdl : FmdlContainer.t)
    (boneGroups : list BoneGroup.t) (faceIndices : list (Z * Z)) (bufferOffsets : list Z)
    (meshFormats : list (list (Z * Z * Z * Z))) (materialInstances : list MaterialInstance)
    (record : meshRecord) : result Mesh.t :=
  let alphaEnum := mr_alphaEnum record in
  let shadowEnum := mr_shadowEnum record in
  let materialInstanceID := mr_materialInstanceID record in
  let boneGroupID := mr_boneGroupID record in
  let meshFormatID := mr_meshFormatID record in
  let vertexCount := mr_vertexCount record in
  let firstFaceVertexIndex := mr_firstFaceVertexIndex record in
  let faceVertexCount := mr_faceVertexCount record in
  let firstFaceIndexID := mr_firstFaceIndexID record in
  if decide (¬ meshFormatID < len meshFormats)
  then Raise (InvalidFmdl "Invalid mesh format ID %d referenced by mesh" [meshFormatID])
  else
    format ← index meshFormats meshFormatID;
    st ← foldM scanFormatEntry formatState_init format;
    if fs_uv3 st && negb (fs_uv2 st)
    then Raise (InvalidFmdl
                  "Non-monotonic UV map in vertex format definition: has uv3 but not uv2" [])
    else if fs_uv2 st && negb (fs_uv1 st)
    then Raise (InvalidFmdl
                  "Non-monotonic UV map in vertex format definition: has uv2 but not uv1" [])
    else if fs_uv1 st && negb (fs_uv0 st)
    then Raise (InvalidFmdl
                  "Non-monotonic UV map in vertex format definition: has uv1 but not uv0" [])
    else if negb (eqb (fs_boneWeights st) (fs_boneIndices st))
    then Raise (InvalidFmdl
                  "Invalid vertex format specification: contains one of (bone weights, bone indices) but not the other" [])
    else
      uvEqualities ← foldM (uvEqualitiesOf (fs_uvOffsets st) (fs_uvCount st)) ∅
                       (range 0 (fs_uvCount st));
      let vertexFields :=
        {| VertexFields.hasNormal := fs_hasNormal st;
           VertexFields.hasTangent := fs_hasTangent st;
           VertexFields.hasColor := fs_hasColor st;
           VertexFields.hasBoneMapping := fs_hasBoneMapping st;
           VertexFields.uvCount := fs_uvCount st;
           VertexFields.uvEqualities := uvEqualities |} in
      if decide (¬ materialInstanceID < len materialInstances)
      then Raise (InvalidFmdl "Invalid material instance ID %d referenced by mesh"
                    [materialInstanceID])
      else
        materialInstance ← ref materialInstances materialInstanceID;
        boneGroup ←
          (if negb (fs_boneIndices st) then Ok None
           else if decide (¬ boneGroupID < len boneGroups)
           then Raise (InvalidFmdl "Invalid bone group ID %d referenced by mesh"
                         [boneGroupID])
           else g ← index boneGroups boneGroupID; Ok (Some g));
        if decide (¬ firstFaceIndexID < len faceIndices)
        then Raise (InvalidFmdl "Invalid face index ID %d referenced by mesh"
                      [firstFaceIndexID])
        else
          '(lodFirstFaceVertexIndex, lodFaceVertexCount) ← index faceIndices firstFaceIndexID;
          vertices ← parseVertices fmdl format boneGroup vertexCount;
          faceBufferOffset ← index bufferOffsets 2;
          faces ← parseFaces fmdl faceBufferOffset
                    (firstFaceVertexIndex + lodFirstFaceVertexIndex) lodFaceVertexCount
                    vertices;
          Ok {| Mesh.vertices := vertices; Mesh.faces := faces; Mesh.boneGroup := boneGroup;
                Mesh.materialInstance := materialInstance; Mesh.alphaEnum := alphaEnum;
                Mesh.shadowEnum := shadowEnum; Mesh.vertexFields := vertexFields |}.

(** The body of [for definition in fmdl.segment0Blocks[3]]. *)
Definition parseMesh {MaterialInstance : Type} (fmdl : FmdlContainer.t)
    (boneGroups : list BoneGroup.t) (faceIndices : list (Z * Z)) (bufferOffsets : list Z)
    (meshFormats : list (list (Z * Z * Z * Z))) (materialInstances : list MaterialInstance)
    (definition : bytes) : result Mesh.t :=
  record ← unpackMesh definition;
  meshOfRecord fmdl boneGroups faceIndices bufferOffsets meshFormats materialInstances record.

Definition parseMeshes {Bone MaterialInstance : Type} (fmdl : FmdlContainer.t)
    (bones : list Bone) (materialInstances : list MaterialInstance)
  : result (list Mesh.t) :=
  match FmdlContainer.segment0Blocks fmdl !! 3 with
  | None => Ok []
  | Some block =>
      boneGroups ← parseBoneGroups fmdl bones;
      levelsOfDetail ← parseLevelsOfDetail fmdl;
      faceIndices ← parseFaceIndices fmdl;
      bufferOffsets ← parseBufferOffsets fmdl;
      meshFormats ← parseMeshFormatAssignments fmdl bufferOffsets;
      if decide (len bufferOffsets < 3) then Raise (InvalidFmdl "Missing face buffer" [])
      else
        mapM (parseMesh fmdl boneGroups faceIndices bufferOffsets meshFormats
                materialInstances) block
  end.


(** *** The writer: block records *)

Definition newSegment0BlockDescriptorID (fmdl : FmdlContainer.t) (blockID : Z)
  : Z * FmdlContainer.t :=
  let fmdl :=
    match FmdlContainer.segment0Blocks fmdl !! blockID with
    | None => FmdlContainer.set_segment0Blocks fmdl
                (<[blockID := []]> (FmdlContainer.segment0Blocks fmdl))
    | Some _ => fmdl
    end in
  (len (default [] (FmdlContainer.segment0Blocks fmdl !! blockID)), fmdl).

Definition addSegment0Block (fmdl : FmdlContainer.t) (blockID : Z) (block : bytes)
  : Z * FmdlContainer.t :=
  let '(ID, fmdl) := newSegment0BlockDescriptorID fmdl blockID in
  (ID, FmdlContainer.set_segment0Blocks fmdl
         (alter (fun entries => entries ++ [block]) blockID
            (FmdlContainer.segment0Blocks fmdl))).

Definition addMeshFormat (fmdl : FmdlContainer.t)
    (bufferID vertexFormatEntryCount bufferOffsetIncrement meshFormatType bufferOffset : Z)
  : result (Z * FmdlContainer.t) :=
  block ← pack [B_; B_; B_; B_; I_]
    (bufferID, (vertexFormatEntryCount, (bufferOffsetIncrement, (meshFormatType,
     (bufferOffset, tt)))));
  Ok (addSegment0Block fmdl 10 block).

Definition addVertexFormat (fmdl : FmdlContainer.t) (datumType datumFormat offset : Z)
  : result (Z * FmdlContainer.t) :=
  block ← pack [B_; B_; H_] (datumType, (datumFormat, (offset, tt)));
  Ok (addSegment0Block fmdl 11 block).

(** The container and the local variables of [addMeshFormatAssignment]. *)
Record assignmentState : Type := {
  as_fmdl : FmdlContainer.t;
  as_formatEntries : list (Z * Z * Z * Z);
  as_bufferOffsets : gmap Z Z;
  as_typeEntries : gmap Z Z;
  as_uvOffsets : gmap Z Z;
}.

(** [addVertexFormat(fmdl, datumType, datumFormat, offset)] *)
Definition emitVertexFormat (st : assignmentState) (datumType datumFormat offset : Z)
  : result assignmentState :=
  '(_, fmdl) ← addVertexFormat (as_fmdl st) datumType datumFormat offset;
  Ok {| as_fmdl := fmdl; as_formatEntries := as_formatEntries st;
        as_bufferOffsets := as_bufferOffsets st; as_typeEntries := as_typeEntries st;
        as_uvOffsets := as_uvOffsets st |}.

(** [formatEntries.append(entry)] *)
Definition appendFormatEntry (st : assignmentState) (entry : Z * Z * Z * Z)
  : assignmentState :=
  {| as_fmdl := as_fmdl st; as_formatEntries := as_formatEntries st ++ [entry];
     as_bufferOffsets := as_bufferOffsets st; as_typeEntries := as_typeEntries st;
     as_uvOffsets := as_uvOffsets st |}.

(** [bufferOffsets[bufferID] += size] *)
Definition growBuffer (st : assignmentState) (bufferID size : Z) : result assignmentState :=
  offset ← getitem (as_bufferOffsets st) bufferID;
  Ok {| as_fmdl := as_fmdl st; as_formatEntries := as_formatEntries st;
        as_bufferOffsets := <[bufferID := offset + size]> (as_bufferOffsets st);
        as_typeEntries := as_typeEntries st; as_uvOffsets := as_uvOffsets st |}.

(** [typeEntries[type] += n] *)
Definition countEntries (st : assignmentState) (type n : Z) : result assignmentState :=
  count ← getitem (as_typeEntries st) type;
  Ok {| as_fmdl := as_fmdl st; as_formatEntries := as_formatEntries st;
        as_bufferOffsets := as_bufferOffsets st;
        as_typeEntries := <[type := count + n]> (as_typeEntries st);
        as_uvOffsets := as_uvOffsets st |}.

(** [uvOffsets[i] = offset] *)
Definition setUvOffset (st : assignmentState) (i offset : Z) : assignmentState :=
  {| as_fmdl := as_fmdl st; as_formatEntries := as_formatEntries st;
     as_bufferOffsets := as_bufferOffsets st; as_typeEntries := as_typeEntries st;
     as_uvOffsets := <[i := offset]> (as_uvOffsets st) |}.

(** The four lines the code repeats for a datum that takes room of its
    own in buffer [bufferID]:
    [addVertexFormat(fmdl, datumType, datumFormat, bufferOffsets[bufferID]);
     formatEntries.append((bufferID, datumType, datumFormat, bufferOffsets[bufferID]));
     bufferOffsets[bufferID] += size]. *)
Definition addDatum (st : assignmentState) (bufferID datumType datumFormat size : Z)
  : result assignmentState :=
  offset ← getitem (as_bufferOffsets st) bufferID;
  st ← emitVertexFormat st datumType datumFormat offset;
  offset ← getitem (as_bufferOffsets st) bufferID;
  let st := appendFormatEntry st (bufferID, datumType, datumFormat, offset) in
  growBuffer st bufferID size.

Definition uvTypes : list Z :=
  [FmdlVertexDatumType.uv0; FmdlVertexDatumType.uv1; FmdlVertexDatumType.uv2;
   FmdlVertexDatumType.uv3].

(** The body of [for i in range(vertexFields.uvCount)]; the inner loop
    with its [break] finds the first channel of [equalities] that has an
    offset already. *)
Definition addUv (vertexFields : VertexFields.t) (st : assignmentState) (i : Z)
  : result assignmentState :=
  let equalities := default [] (VertexFields.uvEqualities vertexFields !! i) in
  let equalUv := head (filter (fun uv => is_Some (as_uvOffsets st !! uv)) equalities) in
  st ←
    (match equalUv with
     | Some equalUv =>
         uvType ← index uvTypes i;
         offset ← getitem (as_uvOffsets st) equalUv;
         emitVertexFormat st uvType FmdlVertexDatumFormat.doubleFloat16 offset
     | None =>
         uvType ← index uvTypes i;
         offset ← getitem (as_bufferOffsets st) 1;
         st ← emitVertexFormat st uvType FmdlVertexDatumFormat.doubleFloat16 offset;
         uvType ← index uvTypes i;
         offset ← getitem (as_bufferOffsets st) 1;
         let st := appendFormatEntry st
                     (1, uvType, FmdlVertexDatumFormat.doubleFloat16, offset) in
         offset ← getitem (as_bufferOffsets st) 1;
         let st := setUvOffset st i offset in
         growBuffer st 1 4
     end);
  countEntries st 3 1.

(** The body of [for i in [1, 2, 3]]. *)
Definition addDataMeshFormat (typeEntries bufferOffsets : gmap Z Z)
    (vertexDataBufferOffset : Z) (fmdl : FmdlContainer.t) (i : Z)
  : result FmdlContainer.t :=
  count ← getitem typeEntries i;
  if count >? 0 then
    count ← getitem typeEntries i;
    increment ← getitem bufferOffsets 1;
    '(_, fmdl) ← addMeshFormat fmdl 1 count increment i vertexDataBufferOffset;
    Ok fmdl
  else Ok fmdl.

Definition addMeshFormatAssignment (fmdl : FmdlContainer.t) (vertexFields : VertexFields.t)
    (vertexPositionBufferOffset vertexDataBufferOffset : Z)
  : result ((Z * list (Z * Z * Z * Z) * Z * Z) * FmdlContainer.t) :=
  let '(firstMeshFormatID, fmdl) := newSegment0BlockDescriptorID fmdl 10 in
  let '(firstVertexFormatID, fmdl) := newSegment0BlockDescriptorID fmdl 11 in
  let st := {| as_fmdl := fmdl; as_formatEntries := [];
               as_bufferOffsets := <[0 := 0]> (<[1 := 0]> ∅);
               as_typeEntries := <[0 := 0]> (<[1 := 0]> (<[2 := 0]> (<[3 := 0]> ∅)));
               as_uvOffsets := ∅ |} in
  (* position is always present *)
  st ← addDatum st 0 FmdlVertexDatumType.position FmdlVertexDatumFormat.tripleFloat32 12;
  st ← countEntries st 0 1;
  st ← (if VertexFields.hasNormal vertexFields then
          st ← addDatum st 1 FmdlVertexDatumType.normal FmdlVertexDatumFormat.quadFloat16 8;
          countEntries st 1 1
        else Ok st);
  st ← (if VertexFields.hasTangent vertexFields then
          st ← addDatum st 1 FmdlVertexDatumType.tangent FmdlVertexDatumFormat.quadFloat16 8;
          countEntries st 1 1
        else Ok st);
  st ← (if VertexFields.hasColor vertexFields then
          st ← addDatum st 1 FmdlVertexDatumType.color FmdlVertexDatumFormat.quadFloat8 4;
          countEntries st 2 1
        else Ok st);
  st ← (if VertexFields.hasBoneMapping vertexFields then
          st ← addDatum st 1 FmdlVertexDatumType.boneWeights
                 FmdlVertexDatumFormat.quadFloat8 4;
          st ← addDatum st 1 FmdlVertexDatumType.boneIndices
                 FmdlVertexDatumFormat.quadInt8 4;
          countEntries st 3 2
        else Ok st);
  st ← foldM (addUv vertexFields) st (range 0 (VertexFields.uvCount vertexFields));
  let fmdl := as_fmdl st in
  let bufferOffsets := as_bufferOffsets st in
  let typeEntries := as_typeEntries st in
  count ← getitem typeEntries 0;
  increment ← getitem bufferOffsets 0;
  '(_, fmdl) ← addMeshFormat fmdl 0 count increment 0 vertexPositionBufferOffset;
  fmdl ← foldM (addDataMeshFormat typeEntries bufferOffsets vertexDataBufferOffset) fmdl
           [1; 2; 3];
  let '(nextMeshFormatID, fmdl) := newSegment0BlockDescriptorID fmdl 10 in
  let meshFormatCount := nextMeshFormatID - firstMeshFormatID in
  let '(nextVertexFormatID, fmdl) := newSegment0BlockDescriptorID fmdl 11 in
  let vertexFormatCount := nextVertexFormatID - firstVertexFormatID in
  block ← pack [B_; B_; B_; B_; H_; H_]
    (meshFormatCount, (vertexFormatCount, (0, (VertexFields.uvCount vertexFields,
     (firstMeshFormatID, (firstVertexFormatID, tt))))));
  let '(meshFormatAssignmentID, fmdl) := addSegment0Block fmdl 9 block in
  positionBufferEntrySize ← getitem bufferOffsets 0;
  dataBufferEntrySize ← getitem bufferOffsets 1;
  Ok ((meshFormatAssignmentID, as_formatEntries st, positionBufferEntrySize,
       dataBufferEntrySize), fmdl).

(** The body of [for i in range(len(boneGroup.bones))]. *)
Definition addBoneGroupEntry (boneGroup : BoneGroup.t) (boneIndices : gmap nat Z)
    (st : bytes * gmap nat Z) (i : Z) : result (bytes * gmap nat Z) :=
  let '(descriptor, boneGroupIndices) := st in
  bone ← index (BoneGroup.bones boneGroup) i;
  boneIndex ← (match boneIndices !! bone with Some k => Ok k | None => Raise KeyError end);
  descriptor ← pack_into [H_] descriptor (i * 2 + 4) (boneIndex, tt);
  bone ← index (BoneGroup.bones boneGroup) i;
  Ok (descriptor, <[bone := i]> boneGroupIndices).

Definition addBoneGroup (fmdl : FmdlContainer.t) (boneGroup : option BoneGroup.t)
    (boneIndices : gmap nat Z) : result ((Z * gmap nat Z) * FmdlContainer.t) :=
  match boneGroup with
  | None => Raise AttributeError
  | Some boneGroup =>
      if len (BoneGroup.bones boneGroup) >? 32
      then Raise (InvalidFmdl "Too many bones in bone group" [])
      else
        descriptor ← stream.bytearray 68;
        descriptor ← pack_into [H_; H_] descriptor 0
                       (4, (len (BoneGroup.bones boneGroup), tt));
        '(descriptor, boneGroupIndices) ←
          foldM (addBoneGroupEntry boneGroup boneIndices) (descriptor, ∅)
            (range 0 (len (BoneGroup.bones boneGroup)));
        let '(boneGroupID, fmdl) := addSegment0Block fmdl 5 descriptor in
        Ok ((boneGroupID, boneGroupIndices), fmdl)
  end.


(** *** The writer: records of integers *)

Definition addMeshGroupAssignment (fmdl : FmdlContainer.t)
    (meshGroupID firstMeshID meshCount boundingBoxID : Z) : result (Z * FmdlContainer.t) :=
  block ← pack [x_; x_; x_; x_; H_; H_; H_; H_; x_; x_; x_; x_; H_;
                x_; x_; x_; x_; x_; x_; x_; x_; x_; x_; x_; x_; x_; x_]
             (meshGroupID, (meshCount, (firstMeshID, (boundingBoxID, (0, tt)))));
  Ok (addSegment0Block fmdl 2 block).

(** [last] is [False] or [True] at every call. *)
Definition addBufferOffset (fmdl : FmdlContainer.t) (last : bool) (length offset : Z)
  : result (Z * FmdlContainer.t) :=
  block ← pack [I_; I_; I_; x_; x_; x_; x_]
             ((if last then 1 else 0), (length, (offset, tt)));
  Ok (addSegment0Block fmdl 14 block).

(** [pack('< I fff', levels, 1.0, 1.0, 1.0)]; [0x3f800000] is the float32
    [1.0].  The function returns nothing. *)
Definition addLevelsOfDetail (fmdl : FmdlContainer.t) (levels : Z) : result FmdlContainer.t :=
  block ← pack [I_; f_; f_; f_] (levels, (0x3f800000, (0x3f800000, (0x3f800000, tt))));
  Ok (addSegment0Block fmdl 16 block).2.

Definition addFaceIndex (fmdl : FmdlContainer.t) (faces : list Face.t)
  : result (Z * FmdlContainer.t) :=
  block ← pack [I_; I_] (0, (len faces * 3, tt));
  Ok (addSegment0Block fmdl 17 block).


(** *** The writer: faces *)

(** The body of [for i in range(len(faces))]. *)
Definition addFace (faces : list Face.t) (vertexIndices : gmap nat Z)
    (meshFaceBuffer : bytes) (i : Z) : result bytes :=
  let vertexIndex (k : Z) : result Z :=
    face ← index faces i;
    vertex ← index (Face.vertices face) k;
    match vertexIndices !! vertex with Some ID => Ok ID | None => Raise KeyError end in
  index1 ← vertexIndex 0;
  index2 ← vertexIndex 1;
  index3 ← vertexIndex 2;
  pack_into [H_; H_; H_] meshFaceBuffer (6 * i) (index1, (index2, (index3, tt))).

(** [faceBuffer] is extended in place; the function returns
    [firstFaceVertexID], here with the buffer. *)
Definition addFaces (fmdl : FmdlContainer.t) (faces : list Face.t) (faceBuffer : bytes)
    (vertexIndices : gmap nat Z) : result (Z * bytes) :=
  meshFaceBuffer ← stream.bytearray (len faces * 6);
  meshFaceBuffer ← foldM (addFace faces vertexIndices) meshFaceBuffer (range 0 (len faces));
  let firstFaceVertexID := len faceBuffer / 2 in
  Ok (firstFaceVertexID, faceBuffer ++ meshFaceBuffer).


(** *** The writer: the mesh ranges of a mesh group *)

(** The body of [for mesh in meshGroup.meshes] of [addMeshGroup]: a mesh
    whose ID follows the last range extends it, another one opens a range of
    its own. *)
Definition addMeshToAssignments (meshIndices : gmap nat Z)
    (meshGroupAssignments : list (Z * Z)) (mesh : nat) : result (list (Z * Z)) :=
  meshID ← match meshIndices !! mesh with Some ID => Ok ID | None => Raise KeyError end;
  if len meshGroupAssignments >? 0 then
    '(firstMeshID, meshCount) ← index meshGroupAssignments (len meshGroupAssignments - 1);
    if meshID =? firstMeshID + meshCount then
      last ← ref meshGroupAssignments (len meshGroupAssignments - 1);
      Ok (<[last := (firstMeshID, meshCount + 1)]> meshGroupAssignments)
    else Ok (meshGroupAssignments ++ [(meshID, 1)])
  else Ok (meshGroupAssignments ++ [(meshID, 1)]).

(** The body of [for (firstMeshID, meshCount) in meshGroupAssignments]. *)
Definition addMeshRange (meshGroupID boundingBoxID : Z) (fmdl : FmdlContainer.t)
    (assignment : Z * Z) : result FmdlContainer.t :=
  let '(firstMeshID, meshCount) := assignment in
  '(_, fmdl) ← addMeshGroupAssignment fmdl meshGroupID firstMeshID meshCount boundingBoxID;
  Ok fmdl.

(** The part of [addMeshGroup] that follows the record of the group and
    its bounding box: the ranges of the meshes of the group are collected and
    written, and an empty range when the group has no mesh. *)
Definition addMeshRanges (fmdl : FmdlContainer.t) (meshes : list nat)
    (meshIndices : gmap nat Z) (meshGroupID boundingBoxID : Z) : result FmdlContainer.t :=
  meshGroupAssignments ← foldM (addMeshToAssignments meshIndices) [] meshes;
  fmdl ← foldM (addMeshRange meshGroupID boundingBoxID) fmdl meshGroupAssignments;
  if len meshGroupAssignments =? 0 then
    '(_, fmdl) ← addMeshGroupAssignment fmdl meshGroupID 0 0 boundingBoxID;
    Ok fmdl
  else Ok fmdl.


End FmdlFile.


(** ** Inputs of the examples *)

Module Examples.
Import struct FmdlFile.

Definition of_ints (l : list Z) : bytes := map byte_of l.

Definition container (segment0 : list (Z * list bytes)) (segment1 : list (Z * bytes))
  : FmdlContainer.t :=
  {| FmdlContainer.version := FmdlContainer.VERSION_2_03;
     FmdlContainer.segment0Blocks := list_to_map segment0;
     FmdlContainer.segment1Blocks := list_to_map segment1 |}.

Definition open (content : bytes) : stream.t :=
  {| stream.content := content; stream.position := 0 |}.

(** A face buffer with the one triple (0, 1, 0), for a mesh of one
    vertex. *)
Definition oneFace : FmdlContainer.t := container [] [(2, of_ints [0; 0; 1; 0; 0; 0])].

(** One texture record with filename string 5 and directory string 0,
    for a model with one string. *)
Definition oneTexture : FmdlContainer.t := container [(6, [of_ints [5; 0; 0; 0]])] [].

Definition negativeZero : float.t := S754_zero true.

(** A container with one segment-1 block of one byte. *)
Definition oneByteBlock : FmdlContainer.t := container [(6, [of_ints [5; 0; 0; 0]])] [(0, of_ints [9])].

(** A container that has its segment-1 block 3 already. *)
Definition withStrings : FmdlContainer.t := container [] [(3, of_ints [0])].

(** The value of a call that does not raise. *)
Definition value {A : Type} (default : A) (r : result A) : A :=
  match r with Ok a => a | _ => default end.

(** The frame of a file with no segment-0 block and the one segment-1
    block that the descriptor [(blockID, offset, length)] announces: the
    header, the descriptor at offset 56, and section 1 at offset 68. *)
Definition frame (descriptor : Z * Z * Z) : bytes :=
  let '(blockID, offset, length) := descriptor in
  value [] (pack [s_ 4; I_; Q_; Q_; Q_; I_; I_; I_; I_; I_; I_]
              (FmdlContainer.MAGIC, (FmdlContainer.VERSION_2_03, (56, (0, (Z.shiftl 1 blockID,
               (0, (1, (68, (0, (68, (length, tt))))))))))))
  ++ value [] (pack [I_; I_; I_] (blockID, (offset, (length, tt)))).

(** A file of 72 bytes whose string block, at offset 68, has 4 bytes and a
    declared length of 1000. *)
Definition overlongStrings : bytes := frame (3, 0, 1000) ++ of_ints [97; 0; 98; 0].

(** The same file with the string block announced 100 bytes after the
    start of section 1, which is past the end of the file. *)
Definition stringsPastEnd : bytes := frame (3, 100, 0) ++ of_ints [97; 0; 98; 0].

(** A model of one mesh: three vertices with positions only and one
    triangle.  The mesh record names bone group 7, which does not exist. *)
Definition triangleVertices : bytes :=
  value [] (pack [f_; f_; f_; f_; f_; f_; f_; f_; f_]
              (0, (0, (0, (0x3f800000, (0, (0, (0, (0x3f800000, (0, tt)))))))))).

Definition triangleMesh : bytes :=
  value [] (pack [B_; B_; x_; x_; H_; H_; H_; H_; x_; x_; x_; x_; I_; I_; Q_;
                  x_; x_; x_; x_; x_; x_; x_; x_; x_; x_; x_; x_; x_; x_; x_; x_]
              (0, (0, (0, (7, (0, (3, (0, (3, (0, tt)))))))))).

Definition triangle : FmdlContainer.t :=
  container
    [(3, [triangleMesh]);
     (9, [value [] (pack [B_; B_; B_; B_; H_; H_] (1, (1, (0, (0, (0, (0, tt)))))))]);
     (10, [value [] (pack [B_; B_; B_; B_; I_] (0, (1, (12, (0, (0, tt))))))]);
     (11, [value [] (pack [B_; B_; H_] (0, (1, (0, tt))))]);
     (14, [value [] (pack [I_; I_; I_; I_] (0, (36, (0, (0, tt)))));
           value [] (pack [I_; I_; I_; I_] (0, (0, (36, (0, tt)))));
           value [] (pack [I_; I_; I_; I_] (1, (6, (36, (0, tt)))))]);
     (16, [value [] (pack [I_; f_; f_; f_] (1, (0x3f800000, (0x3f800000, (0x3f800000, tt)))))]);
     (17, [value [] (pack [I_; I_] (0, (3, tt)))])]
    [(2, triangleVertices ++ of_ints [0; 0; 1; 0; 2; 0])].

(** The fields of [triangleMesh]. *)
Definition triangleRecord : meshRecord :=
  {| mr_alphaEnum := 0; mr_shadowEnum := 0; mr_materialInstanceID := 0; mr_boneGroupID := 7;
     mr_meshFormatID := 0; mr_vertexCount := 3; mr_firstFaceVertexIndex := 0;
     mr_faceVertexCount := 3; mr_firstFaceIndexID := 0 |}.

(** A bone group record that declares 40 entries; its 32 slots hold the
    bone IDs 0 to 31. *)
Definition bigBoneGroup : bytes :=
  of_ints [4; 0; 40; 0] ++ flat_map (fun i => of_ints [i; 0]) (range 0 32).

(** A bone group record that declares the bone IDs of a short list; the
    other slots are zero. *)
Definition boneGroupRecord (boneIDs : list Z) : bytes :=
  take 68 (of_ints [4; 0; len boneIDs; 0] ++ flat_map (fun i => of_ints [i; 0]) boneIDs
           ++ replicate 64 Byte.x00).

(** A mesh record as [triangleMesh], with a bone group ID. *)
Definition meshRecordOf (boneGroupID : Z) : bytes :=
  value [] (pack [B_; B_; x_; x_; H_; H_; H_; H_; x_; x_; x_; x_; I_; I_; Q_;
                  x_; x_; x_; x_; x_; x_; x_; x_; x_; x_; x_; x_; x_; x_; x_; x_]
              (0, (0, (0, (boneGroupID, (0, (3, (0, (3, (0, tt)))))))))).

(** A skinned vertex of 20 bytes: a position, the four bone weights
    (255, 0, 0, 0) and the four bone indices (1, 0, 0, 0). *)
Definition skinnedVertex (x y z : Z) : bytes :=
  value [] (pack [f_; f_; f_; B_; B_; B_; B_; B_; B_; B_; B_]
              (x, (y, (z, (255, (0, (0, (0, (1, (0, (0, (0, tt)))))))))))).

(** A model of one skinned mesh: three vertices with positions, bone
    weights and bone indices, one triangle, and two bone groups; the mesh
    record names the bone group [boneGroupID]. *)
Definition skinned (boneGroupID : Z) : FmdlContainer.t :=
  container
    [(3, [meshRecordOf boneGroupID]);
     (5, [boneGroupRecord [3; 1]; boneGroupRecord [7; 8]]);
     (9, [value [] (pack [B_; B_; B_; B_; H_; H_] (1, (3, (0, (0, (0, (0, tt)))))))]);
     (10, [value [] (pack [B_; B_; B_; B_; I_] (0, (3, (20, (0, (0, tt))))))]);
     (11, [value [] (pack [B_; B_; H_] (0, (1, (0, tt))));
           value [] (pack [B_; B_; H_] (1, (8, (12, tt))));
           value [] (pack [B_; B_; H_] (7, (9, (16, tt))))]);
     (14, [value [] (pack [I_; I_; I_; I_] (0, (60, (0, (0, tt)))));
           value [] (pack [I_; I_; I_; I_] (0, (0, (60, (0, tt)))));
           value [] (pack [I_; I_; I_; I_] (1, (6, (60, (0, tt)))))]);
     (16, [value [] (pack [I_; f_; f_; f_] (1, (0x3f800000, (0x3f800000, (0x3f800000, tt)))))]);
     (17, [value [] (pack [I_; I_] (0, (3, tt)))])]
    [(2, skinnedVertex 0 0 0 ++ skinnedVertex 0x3f800000 0 0 ++ skinnedVertex 0 0x3f800000 0
         ++ of_ints [0; 0; 1; 0; 2; 0])].

(** A bone record with a parent ID, and a mesh group record with one; the
    other fields name string 0 and bounding box 0. *)
Definition boneRecord (parentBoneID : Z) : bytes :=
  value [] (pack [H_; h_; H_; H_; Q_; f_; f_; f_; f_; f_; f_; f_; f_]
              (0, (parentBoneID, (0, (1, (0, (0, (0, (0, (0, (0, (0, (0, (0, tt)))))))))))))).

Definition meshGroupRecord (parentID : Z) : bytes :=
  value [] (pack [H_; H_; h_; h_] (0, (0, (parentID, (-1, tt))))).

(** A mesh-group assignment record for bounding box 0. *)
Definition assignmentRecord (meshGroupID meshCount firstMeshIndex : Z) : bytes :=
  value [] (pack [x_; x_; x_; x_; H_; H_; H_; H_; x_; x_; x_; x_; H_;
                  x_; x_; x_; x_; x_; x_; x_; x_; x_; x_; x_; x_; x_; x_]
              (meshGroupID, (meshCount, (firstMeshIndex, (0, (0, tt)))))).

(** Bone A with parent B and bone B with parent A. *)
Definition twoBoneCycle : FmdlContainer.t :=
  container [(0, [boneRecord 1; boneRecord 0])] [].

(** A root bone and its two children. *)
Definition boneFamily : FmdlContainer.t :=
  container [(0, [boneRecord (-1); boneRecord 0; boneRecord 0])] [].

Definition twoGroupCycle : FmdlContainer.t :=
  container [(1, [meshGroupRecord 1; meshGroupRecord 0])] [].

(** Two mesh groups, and one mesh assigned to the second of them. *)
Definition grouped : FmdlContainer.t :=
  container [(1, [meshGroupRecord (-1); meshGroupRecord 0]); (2, [assignmentRecord 1 1 0])] [].

(** One mesh group and no assignment. *)
Definition ungrouped : FmdlContainer.t := container [(1, [meshGroupRecord (-1)])] [].

(** One mesh group and two assignments of mesh 0 to it. *)
Definition groupedTwice : FmdlContainer.t :=
  container [(1, [meshGroupRecord (-1)]);
             (2, [assignmentRecord 0 1 0; assignmentRecord 0 1 0])] [].

(** Vertex fields of two UV channels that are marked equal, and nothing
    else but positions. *)
Definition aliasedFields : VertexFields.t :=
  {| VertexFields.hasNormal := false; VertexFields.hasTangent := false;
     VertexFields.hasColor := false; VertexFields.hasBoneMapping := false;
     VertexFields.uvCount := 2;
     VertexFields.uvEqualities := <[0 := [1]]> (<[1 := [0]]> ∅) |}.

(** A model of one mesh of three vertices and one triangle whose format
    assignment is not written yet: 36 bytes of positions, 12 bytes of UV
    coordinates and the face. *)
Definition uvBase : FmdlContainer.t :=
  Examples.container
    [(3, [Examples.meshRecordOf 0]);
     (14, [Examples.value [] (pack [I_; I_; I_; I_] (0, (36, (0, (0, tt)))));
           Examples.value [] (pack [I_; I_; I_; I_] (0, (12, (36, (0, tt)))));
           Examples.value [] (pack [I_; I_; I_; I_] (1, (6, (48, (0, tt)))))]);
     (16, [Examples.value [] (pack [I_; f_; f_; f_] (1, (0x3f800000, (0x3f800000, (0x3f800000, tt)))))]);
     (17, [Examples.value [] (pack [I_; I_] (0, (3, tt)))])]
    [(2, Examples.triangleVertices ++ replicate 12 Byte.x00 ++ Examples.of_ints [0; 0; 1; 0; 2; 0])].

(** The model after [addMeshFormatAssignment] for these fields. *)
Definition uvWritten : FmdlContainer.t :=
  Examples.value uvBase (snd <$> addMeshFormatAssignment uvBase aliasedFields 0 0).


End Examples.

(** ** Vocabulary of the statements *)

Import struct FmdlFile.

(** [decode(encode(x))] of the half-float codec. *)
Definition decode_encode (x : float.t) : result float.t :=
  int16 ← encodeFloat16 x; Ok (parseFloat16 int16).

(** The unsigned 16-bit field at an offset of a record. *)
Definition u16_at (b : bytes) (offset : Z) : Z :=
  le_decode (take 2 (drop (Z.to_nat offset) b)).

(** [read_block] gives the [n] bytes at the position and moves past
    them. *)
Definition read_block_result (s : stream.t) (n : Z) (error : exn) : Prop :=
  FmdlContainer.read_block s n error
  = Ok (take (Z.to_nat n) (drop (Z.to_nat (stream.position s)) (stream.content s)),
        {| stream.content := stream.content s; stream.position := stream.position s + n |}).

(** The datum type of an entry of a mesh's format. *)
Definition datumTypeOf (entry : Z * Z * Z * Z) : Z := entry.1.1.1.

(** A mesh record with another [boneGroupID]. *)
Definition with_boneGroupID (record : meshRecord) (boneGroupID : Z) : meshRecord :=
  {| mr_alphaEnum := mr_alphaEnum record; mr_shadowEnum := mr_shadowEnum record;
     mr_materialInstanceID := mr_materialInstanceID record; mr_boneGroupID := boneGroupID;
     mr_meshFormatID := mr_meshFormatID record; mr_vertexCount := mr_vertexCount record;
     mr_firstFaceVertexIndex := mr_firstFaceVertexIndex record;
     mr_faceVertexCount := mr_faceVertexCount record;
     mr_firstFaceIndexID := mr_firstFaceIndexID record |}.

(** The parent the record of node [i] names, if any. *)
Definition parentOf (parentIDs : list Z) (i : nat) : option nat :=
  parentID ← parentIDs !! i;
  if parentID >=? 0 then Some (Z.to_nat parentID) else None.

(** The node reached from [i] by [k] parent links. *)
Fixpoint ancestor (parent : nat -> option nat) (k : nat) (i : nat) : option nat :=
  match k with
  | O => Some i
  | S k' => parent i ≫= ancestor parent k'
  end.

Definition hasCycle (parent : nat -> option nat) : Prop :=
  exists i k, (0 < k)%nat /\ ancestor parent k i = Some i.

(** The nodes whose record names [p] as parent, in the order of the
    records. *)
Definition childrenOf (parentIDs : list Z) (p : nat) : list nat :=
  filter (fun i => parentOf parentIDs i = Some p) (seq 0 (length parentIDs)).

Class TreeNodeLaws (N : Type) `{TreeNode N} : Prop := {
  parent_set_parent p n : node_parent (node_set_parent p n) = Some p;
  parent_add_child c n : node_parent (node_add_child c n) = node_parent n;
  children_set_parent p n : node_children (node_set_parent p n) = node_children n;
  children_add_child c n : node_children (node_add_child c n) = node_children n ++ [c];
}.

(** The parent of node [i] in a list of nodes, and what the second loop
    is to establish: every node has the parent its record names and the
    children whose records name it, in the order of the records. *)
Definition parentIn {N : Type} `{TreeNode N} (nodes : list N) (i : nat) : option nat :=
  nodes !! i ≫= node_parent.

Definition linked {N : Type} `{TreeNode N} (parentIDs : list Z) (nodes : list N) : Prop :=
  forall i node, nodes !! i = Some node ->
    node_parent node = parentOf parentIDs i
    /\ node_children node = childrenOf parentIDs i.

Definition padded (entries : list bytes) : bytes :=
  concat entries ++ FmdlContainer.padding (len (concat entries)).

(** A node as the first loop makes it: no parent and no children yet. *)
Definition fresh {N : Type} `{TreeNode N} (node : N) : Prop :=
  node_parent node = None /\ node_children node = [].

(** A mesh-group assignment covers the mesh indices of its range. *)
Definition covers (a : Z * Z * Z * Z) (m : Z) : Prop :=
  a.1.1.2 <= m < a.1.1.2 + a.1.2.

#[global] Instance covers_dec (a : Z * Z * Z * Z) (m : Z) : Decision (covers a m).
Proof. unfold covers. apply _. Defined.

(** The number of assignments that cover a mesh index. *)
Definition coverCount (assignments : list (Z * Z * Z * Z)) (m : Z) : nat :=
  length (filter (fun a => covers a m) assignments).

(** The errors of the loop over the mesh-group assignments and of the
    check that follows it. *)
Inductive assignmentError : exn -> Prop :=
  | invalid_group g :
      assignmentError
        (InvalidFmdl "Invalid mesh group ID %d referenced by mesh group assignment" [g])
  | invalid_mesh m :
      assignmentError
        (InvalidFmdl "Invalid mesh ID %d referenced by mesh group assignment" [m])
  | invalid_box b :
      assignmentError
        (InvalidFmdl "Invalid bounding box ID %d referenced by mesh group assignment" [b])
  | double_mesh i : assignmentError (doubleAssignment i)
  | double_box g :
      assignmentError
        (InvalidFmdl "Invalid double bounding box assignment for mesh group %d" [g])
  | unassigned : assignmentError meshNotAssigned.

(** The call raises an exception that satisfies [P]. *)
Definition raises {A : Type} (P : exn -> Prop) (r : result A) : Prop :=
  exists e, r = Raise e /\ P e.

(** Two mesh groups with the same parent and children. *)
Definition sameLinks (g0 g : MeshGroup.t) : Prop :=
  MeshGroup.parent g = MeshGroup.parent g0
  /\ MeshGroup.children g = MeshGroup.children g0.

(** The fields of an assignment as [unpack] gives them. *)
Definition unsigned (a : Z * Z * Z * Z) : Prop :=
  0 <= a.1.1.1 /\ 0 <= a.1.1.2 /\ 0 <= a.1.2 /\ 0 <= a.2.

(** What the loop over the assignments keeps true, after the assignments
    [done]: mesh [i] is assigned if and only if an assignment covers it, to
    a group that exists, and no mesh is covered twice. *)
Record assigning (groups0 : list MeshGroup.t) (meshCount : nat)
    (done : list (Z * Z * Z * Z)) (st : list MeshGroup.t * list (option Z)) : Prop := {
  assigning_length : length st.2 = meshCount;
  assigning_links : Forall2 sameLinks groups0 st.1;
  assigning_meshes : Forall (fun g => MeshGroup.meshes g = []) st.1;
  assigning_none i : (i < meshCount)%nat ->
    (st.2 !! i = Some None <-> coverCount done (Z.of_nat i) = 0%nat);
  assigning_some i g : st.2 !! i = Some (Some g) -> 0 <= g < len groups0;
  assigning_once m : (coverCount done m <= 1)%nat;
  assigning_range m : coverCount done m ≠ 0%nat -> 0 <= m < Z.of_nat meshCount;
}.

(** The meshes of group [j] once the meshes before [k] are collected. *)
Definition collected (assignments : list (option Z)) (k : nat) (j : nat) : list nat :=
  filter (fun i => assignments !! i = Some (Some (Z.of_nat j))) (seq 0 k).

(** Every mesh is in the list of exactly one group, once. *)
Definition eachMeshInOneGroup (meshCount : nat) (groups : list MeshGroup.t) : Prop :=
  forall m, (m < meshCount)%nat ->
    exists g group,
      groups !! g = Some group
      /\ m ∈ MeshGroup.meshes group
      /\ NoDup (MeshGroup.meshes group)
      /\ forall g' group', groups !! g' = Some group' ->
           m ∈ MeshGroup.meshes group' -> g' = g.

(** Every value of the tuple is in the range of its field. *)
Fixpoint fits (fmt : list code) : tuple fmt -> bool :=
  match fmt return tuple fmt -> bool with
  | [] => fun _ => true
  | c :: fmt' =>
      let int (v : Z * tuple fmt') : bool := in_range c v.1 && fits fmt' v.2 in
      match c return tuple (c :: fmt') -> bool with
      | x_ => fun v => fits fmt' v
      | s_ n => fun v => fits fmt' v.2
      | B_ => int | H_ => int | h_ => int | I_ => int
      | i_ => int | Q_ => int | f_ => int
      end
  end.

(** The bytes [pack] gives for a tuple that fits. *)
Definition packed (fmt : list code) (v : tuple fmt) : bytes :=
  match pack fmt v with
  | Ok bs => bs
  | _ => []
  end.

(** The records of a segment-0 block, none when the block is absent. *)
Definition blockOf (fmdl : FmdlContainer.t) (blockID : Z) : list bytes :=
  default [] (FmdlContainer.segment0Blocks fmdl !! blockID).

(** [f] holds of 0, 1, ..., n - 1. *)
Definition allBelow (f : Z -> bool) (n : Z) : bool :=
  (Z.iter n (fun st : Z * bool => (st.1 + 1, st.2 && f st.1)) (0, true)).2.

(** What [encodeFloat16(parseFloat16(int16))] is to be: the pattern
    itself, but [0x7FFF] when the pattern decodes to NaN and [0] for the
    negative zero [0x8000]. *)
Definition reencoded (int16 : Z) : Z :=
  if float.isnan (parseFloat16 int16) then 0x7FFF
  else if int16 =? 0x8000 then 0
  else int16.

Definition reencodes (int16 : Z) : bool :=
  match encodeFloat16 (parseFloat16 int16) with
  | Ok int16' => int16' =? reencoded int16
  | _ => false
  end.

(** The buffer [pack_into] leaves: [bs] written over the bytes at place
    [o]. *)
Definition poke (buffer : bytes) (o : nat) (bs : bytes) : bytes :=
  take o buffer ++ bs ++ drop (o + length bs) buffer.

(** The face that [parseFaces] makes of three vertex indices. *)
Definition faceOf (indices : Z * Z * Z) : Face.t :=
  Face.init (Z.to_nat indices.1.1) (Z.to_nat indices.1.2) (Z.to_nat indices.2).

(** The three vertices of a face have the indices [indices] in
    [vertexIndices], each below 65536. *)
Definition faceIndexed (vertexIndices : gmap nat Z) (face : Face.t) (indices : Z * Z * Z)
  : Prop :=
  exists v1 v2 v3,
    Face.vertices face = [v1; v2; v3]
    /\ vertexIndices !! v1 = Some indices.1.1
    /\ vertexIndices !! v2 = Some indices.1.2
    /\ vertexIndices !! v3 = Some indices.2
    /\ 0 <= indices.1.1 < 65536 /\ 0 <= indices.1.2 < 65536 /\ 0 <= indices.2 < 65536.

(** The mesh IDs of a list of ranges [(firstMeshID, meshCount)]. *)
Definition expand (ranges : list (Z * Z)) : list Z :=
  flat_map (fun r => range r.1 (r.1 + r.2)) ranges.

(** No range of the list continues the one before it. *)
Fixpoint maximalRuns (ranges : list (Z * Z)) : Prop :=
  match ranges with
  | r :: (r' :: _) as rest => r'.1 ≠ r.1 + r.2 /\ maximalRuns rest
  | _ => True
  end.

(** The bone IDs [parseBoneGroups] reads from a record of block 5: those
    of its first entries, as many as the record declares and no more than
    32. *)
Definition boneIDsRead (definition : bytes) : list Z :=
  map (fun i => u16_at definition (i * 2 + 4)) (range 0 (Z.min (u16_at definition 2) 32)).

(** A mesh record, 48 bytes of block 3, with another [boneGroupID], the
    16-bit field at offset 6. *)
Definition setBoneGroupID (definition : bytes) (boneGroupID : Z) : bytes :=
  poke definition 6 (le_encode 2 boneGroupID).

(** The container with record [k] of a segment-0 block replaced. *)
Definition replaceRecord (fmdl : FmdlContainer.t) (blockID : Z) (k : nat) (definition : bytes)
  : FmdlContainer.t :=
  FmdlContainer.set_segment0Blocks fmdl
    (alter (fun block => <[k := definition]> block) blockID
       (FmdlContainer.segment0Blocks fmdl)).

(** The blocks [writeStream] writes: those of the identifiers 0 to 63, in
    that order. *)
Definition written0 (self : FmdlContainer.t) (ids : list Z) : list (Z * list bytes) :=
  omap (fun i => pair i <$> FmdlContainer.segment0Blocks self !! i) ids.

Definition written1 (self : FmdlContainer.t) (ids : list Z) : list (Z * bytes) :=
  omap (fun i => pair i <$> FmdlContainer.segment1Blocks self !! i) ids.

(** Their descriptors [(blockID, entryCount, blockOffset)] and
    [(blockID, blockOffset, length)], from a first offset. *)
Fixpoint descriptors0 (offset : Z) (blocks : list (Z * list bytes)) : list (Z * Z * Z) :=
  match blocks with
  | [] => []
  | (i, entries) :: blocks' =>
      (i, len entries, offset) :: descriptors0 (offset + len (padded entries)) blocks'
  end.

Fixpoint descriptors1 (offset : Z) (blocks : list (Z * bytes)) : list (Z * Z * Z) :=
  match blocks with
  | [] => []
  | (i, block) :: blocks' => (i, offset, len block) :: descriptors1 (offset + len block) blocks'
  end.

Definition descriptor0 (d : Z * Z * Z) : bytes := packed [H_; H_; I_] (d.1.1, (d.1.2, (d.2, tt))).
Definition descriptor1 (d : Z * Z * Z) : bytes := packed [I_; I_; I_] (d.1.1, (d.1.2, (d.2, tt))).

Definition body0 (blocks : list (Z * list bytes)) : bytes :=
  concat (map (fun b => padded b.2) blocks).

Definition body1 (blocks : list (Z * bytes)) : bytes := concat (map snd blocks).

(** The length of the file [writeStream] writes. *)
Definition fileSize (self : FmdlContainer.t) : Z :=
  let table := 8 * len (written0 self (range 0 64)) + 12 * len (written1 self (range 0 64)) in
  64 + (table + len (FmdlContainer.padding table))
  + len (body0 (written0 self (range 0 64))) + len (body1 (written1 self (range 0 64))).

(** A container that [readStream] reads back as it is: the segment-0
    blocks are blocks of the table of entry sizes with entries of their size,
    fewer than 65536 each; the segment-1 blocks have identifiers below 64,
    and when there is a block 3, the blocks after it are empty; the version
    and the size of the file fit 32 bits. *)
Record wellFormed (self : FmdlContainer.t) : Prop := {
  wf_version : 0 <= FmdlContainer.version self < 2 ^ 32;
  wf_segment0 i entries :
    FmdlContainer.segment0Blocks self !! i = Some entries ->
    exists entrySize,
      FmdlContainer.SECTION0_BLOCK_ENTRY_SIZES !! i = Some entrySize
      /\ Forall (fun entry => len entry = entrySize) entries
      /\ len entries < 65536;
  wf_segment1 i block :
    FmdlContainer.segment1Blocks self !! i = Some block -> 0 <= i < 64;
  wf_strings i block :
    FmdlContainer.segment1Blocks self !! i = Some block ->
    is_Some (FmdlContainer.segment1Blocks self !! 3) -> 3 < i -> block = [];
  wf_size : fileSize self < 2 ^ 32;
}.

(** The map [{0: [1], 1: [0]}]. *)
Definition uvAliased : gmap Z (list Z) := <[0 := [1]]> (<[1 := [0]]> ∅).

(** What the calls of [addMeshFormatAssignment] leave of a state: the
    records added to blocks 10 and 11, and the other blocks as they
    were. *)
Record extends (fmdl : FmdlContainer.t) (meshFormats vertexFormats : list bytes)
    (fmdl' : FmdlContainer.t) : Prop := {
  extends_10 : blockOf fmdl' 10 = blockOf fmdl 10 ++ meshFormats;
  extends_11 : blockOf fmdl' 11 = blockOf fmdl 11 ++ vertexFormats;
  extends_other b : b ≠ 10 -> b ≠ 11 -> blockOf fmdl' b = blockOf fmdl b;
}.

(** A vertex format record of a type that is not a UV channel. *)
Definition nonUvRecord (record : bytes) : Prop :=
  exists datumType datumFormat offset,
    record = packed [B_; B_; H_] (datumType, (datumFormat, (offset, tt)))
    /\ fits [B_; B_; H_] (datumType, (datumFormat, (offset, tt))) = true
    /\ datumType ∉ uvTypes.

(** The state of [addMeshFormatAssignment] before the loop over the UV
    channels: the vertex format records written, the room taken in the two
    buffers, and the number of entries of each mesh format. *)
Record datumState (fmdl0 : FmdlContainer.t) (vertexFormats : list bytes)
    (size count1 count2 count3 : Z) (st : assignmentState) : Prop := {
  ds_extends : extends fmdl0 [] vertexFormats (as_fmdl st);
  ds_records : Forall nonUvRecord vertexFormats;
  ds_offset0 : as_bufferOffsets st !! 0 = Some 12;
  ds_offset1 : as_bufferOffsets st !! 1 = Some size;
  ds_type0 : as_typeEntries st !! 0 = Some 1;
  ds_type1 : as_typeEntries st !! 1 = Some count1;
  ds_type2 : as_typeEntries st !! 2 = Some count2;
  ds_type3 : as_typeEntries st !! 3 = Some count3;
  ds_count3 : 0 <= count3;
  ds_uvOffsets : as_uvOffsets st = ∅;
}.

(** * Properties *)

(** ** The result monad *)

Lemma foldM_app {A S : Type} (f : S -> A -> result S) (s : S) (l1 l2 : list A) :
  foldM f s (l1 ++ l2) = s' ← foldM f s l1; foldM f s' l2.
Proof.
  revert s. induction l1 as [|a l1 IH]; intros s; simpl; [done|].
  destruct (f s a); simpl; auto.
Qed.

Lemma bind_Ok {A B : Type} (m : result A) (f : A -> result B) (b : B) :
  m ≫= f = Ok b -> exists a, m = Ok a /\ f a = Ok b.
Proof. destruct m as [a| |]; simpl; [|done..]. eauto. Qed.

Lemma bind_Ok_l {A B : Type} (a : A) (f : A -> result B) : Ok a ≫= f = f a.
Proof. reflexivity. Qed.

Lemma mapM_app {A B : Type} (f : A -> result B) (l1 l2 : list A) :
  mapM f (l1 ++ l2) = ys1 ← mapM f l1; ys2 ← mapM f l2; Ok (ys1 ++ ys2).
Proof.
  induction l1 as [|a l1 IH]; simpl.
  - destruct (mapM f l2); done.
  - destruct (f a); simpl; [|done..]. rewrite IH.
    destruct (mapM f l1); simpl; [|done..]. destruct (mapM f l2); done.
Qed.

Lemma mapM_length {A B : Type} (f : A -> result B) (l : list A) (ys : list B) :
  mapM f l = Ok ys -> length ys = length l.
Proof.
  revert ys. induction l as [|a l IH]; intros ys; simpl.
  - by intros [= <-].
  - destruct (f a); simpl; [|done..]. destruct (mapM f l); simpl; [|done..].
    intros [= <-]. simpl. f_equal. by apply IH.
Qed.

(** ** Fields of records *)

Lemma le_decode_nonneg (b : bytes) : 0 <= le_decode b.
Proof. induction b as [|x b IH]; simpl; [lia|]. unfold byte_val. lia. Qed.

Lemma unpack_from_H (b : bytes) (offset : Z) :
  0 <= offset -> offset + 2 <= len b ->
  unpack_from [H_] b offset = Ok (u16_at b offset, tt).
Proof.
  intros H0 H. unfold unpack_from. change (calcsize [H_]) with 2%nat.
  case_decide; [done | lia].
Qed.

Lemma unpack_from_HH (b : bytes) (offset : Z) :
  0 <= offset -> offset + 4 <= len b ->
  unpack_from [H_; H_] b offset = Ok (u16_at b offset, (u16_at b (offset + 2), tt)).
Proof.
  intros H0 H. unfold unpack_from. change (calcsize [H_; H_]) with 4%nat.
  case_decide; [|lia].
  unfold u16_at. simpl. rewrite drop_drop. do 6 f_equal. lia.
Qed.

Lemma ref_in_range {A : Type} (l : list A) (i : Z) :
  0 <= i < len l -> ref l i = Ok (Z.to_nat i).
Proof. intros H. unfold ref. case_decide; [done | lia]. Qed.

Lemma index_in_range {A : Type} (l : list A) (i : Z) (a : A) :
  0 <= i -> l !! Z.to_nat i = Some a -> index l i = Ok a.
Proof.
  intros H0 Hl. unfold index. rewrite ref_in_range; simpl.
  - by rewrite Hl.
  - apply lookup_lt_Some in Hl. unfold len. lia.
Qed.

(** ** Faces (C1) *)

(** The three checks of a face are read by Python as
    [(not index1 < n) and index2 < n and index3 < n]: a triple raises
    [InvalidFmdl] only if its first index alone is out of range. *)
Lemma parseFace_cases {Vertex : Type} (vertexBuffer : bytes) (vertexBufferOffset : Z)
    (vertices : list Vertex) (faceVertexIndex index1 index2 index3 : Z) :
  unpack_from [H_; H_; H_] vertexBuffer (faceVertexIndex * 2 + vertexBufferOffset)
    = Ok (index1, (index2, (index3, tt))) ->
  0 <= index1 -> 0 <= index2 -> 0 <= index3 ->
  parseFace vertexBuffer vertexBufferOffset vertices faceVertexIndex =
    if decide (index1 < len vertices ∧ index2 < len vertices ∧ index3 < len vertices)
    then Ok (Face.init (Z.to_nat index1) (Z.to_nat index2) (Z.to_nat index3))
    else if decide (index2 < len vertices ∧ index3 < len vertices)
    then Raise (InvalidFmdl "Invalid vertex referenced by face" [])
    else Raise IndexError.
Proof.
  intros Hu H1 H2 H3. unfold parseFace. rewrite Hu. simpl.
  unfold ref.
  repeat (case_decide || case_match); simpl in *;
    repeat match goal with
           | H : (_ <? _) = true |- _ => apply Z.ltb_lt in H
           | H : (_ <? _) = false |- _ => apply Z.ltb_ge in H
           | H : negb _ = true |- _ => apply negb_true_iff in H
           | H : negb _ = false |- _ => apply negb_false_iff in H
           | H : _ && _ = true |- _ => apply andb_true_iff in H; destruct H
           | H : _ && _ = false |- _ => apply andb_false_iff in H; destruct H
           end; try done; try lia.
Qed.

(** C1, at the failing input: a mesh of one vertex and the triple
    (0, 1, 0).  The second index is out of range, the check does not fire,
    and the lookup of the vertex ends in [IndexError], not in
    [InvalidFmdl]. *)
Theorem parseFaces_second_index_out_of_range :
  parseFaces Examples.oneFace 0 0 3 [()] = Raise IndexError.
Proof. reflexivity. Qed.

(** ** Textures (C4) *)

(** A texture whose filename string is out of range ends in [NameError]:
    the name the raise statement calls, [InvalidFdml], is not defined. *)
Lemma parseTexture_filename_out_of_range (strings : list string) (definition : bytes)
    (filenameStringID directoryStringID : Z) :
  unpack [H_; H_] definition = Ok (filenameStringID, (directoryStringID, tt)) ->
  len strings <= filenameStringID ->
  parseTexture strings definition = Raise (NameError "InvalidFdml").
Proof.
  intros Hu Hlen. unfold parseTexture. rewrite Hu. simpl.
  case_decide; [done | lia].
Qed.

(** C4, at the failing input: a model with one string and a texture record
    whose filename is string 5.  The read ends in [NameError], not in
    [InvalidFmdl]. *)
Theorem parseTextures_filename_out_of_range :
  parseTextures Examples.oneTexture ["a"%string] = Raise (NameError "InvalidFdml").
Proof. reflexivity. Qed.

(** ** The half-float codec (C3) *)

(** C3, as stated, fails on negative zero: [encodeFloat16] takes the sign
    from [floatValue < 0.0], which is false for [-0.0], so the sign bit is
    not set and the decoder returns [+0.0]. *)
Lemma half_float_negative_zero_sign_lost :
  encodeFloat16 Examples.negativeZero = Ok 0
  /\ decode_encode Examples.negativeZero = Ok (S754_zero false)
  /\ decode_encode Examples.negativeZero <> Ok Examples.negativeZero.
Proof. repeat split; try reflexivity. discriminate. Qed.

(** C3, amended: the samples of the half-float codec, with
    [decode(encode(-0.0))] being [+0.0].  [decode(0x0001)] is exactly
    2^-24, which lies between 5.96e-8 and 5.97e-8. *)
Theorem half_float_samples :
  encodeFloat16 float.one = Ok 0x3C00
  /\ encodeFloat16 (float.neg float.two) = Ok 0xC000
  /\ encodeFloat16 (float.of_int 65504) = Ok 0x7BFF
  /\ parseFloat16 0x0001 = float.pow2 (-24)
  /\ (exists q, float.to_Q (parseFloat16 0x0001) = Some q
                /\ (596 # 10 ^ 10 <= q)%Q /\ (q <= 597 # 10 ^ 10)%Q)
  /\ parseFloat16 0xFC00 = float.neg float.inf
  /\ decode_encode float.inf = Ok float.inf
  /\ decode_encode float.nan = Ok float.nan
  /\ decode_encode (S754_zero true) = Ok (S754_zero false).
Proof.
  repeat split; try reflexivity.
  eexists. split; [reflexivity|]. split; vm_compute; discriminate.
Qed.

(** ** Bone groups (C10) *)

Lemma parseBoneGroup_entries {Bone : Type} (bones : list Bone) (definition : bytes)
    (entries : list Z) (boneGroup : list nat) :
  Forall (fun i => 0 <= i /\ i * 2 + 6 <= len definition) entries ->
  let boneIDs := map (fun i => u16_at definition (i * 2 + 4)) entries in
  (Forall (fun boneID => boneID < len bones) boneIDs ->
   foldM (parseBoneGroupEntry bones definition) boneGroup entries
   = Ok (boneGroup ++ map Z.to_nat boneIDs))
  /\ (Exists (fun boneID => ¬ boneID < len bones) boneIDs ->
      exists boneID, boneID ∈ boneIDs /\ ¬ boneID < len bones /\
        foldM (parseBoneGroupEntry bones definition) boneGroup entries
        = Raise (invalidBoneID boneID)).
Proof.
  intros Hent. revert boneGroup.
  induction Hent as [|i entries [Hi0 Hi] Hent IH]; intros boneGroup.
  - simpl. split; [intros _; by rewrite app_nil_r | intros H; inversion H].
  - cbn [foldM map].
    assert (Hhead : parseBoneGroupEntry bones definition boneGroup i
                    = if decide (¬ u16_at definition (i * 2 + 4) < len bones)
                      then Raise (invalidBoneID (u16_at definition (i * 2 + 4)))
                      else bone ← ref bones (u16_at definition (i * 2 + 4));
                           Ok (boneGroup ++ [bone])).
    { unfold parseBoneGroupEntry. by rewrite unpack_from_H by lia. }
    rewrite Hhead. clear Hhead.
    pose proof (le_decode_nonneg (take 2 (drop (Z.to_nat (i * 2 + 4)) definition))) as Hnn.
    fold (u16_at definition (i * 2 + 4)) in Hnn.
    case_decide as Hbad.
    + split.
      * intros HF. inversion HF; subst. lia.
      * intros _. eexists. split; [apply list_elem_of_here|]. split; [exact Hbad | done].
    + rewrite ref_in_range by lia. simpl.
      destruct (IH (boneGroup ++ [Z.to_nat (u16_at definition (i * 2 + 4))])) as [IH1 IH2].
      split.
      * intros HF. inversion HF; subst. rewrite IH1 by done. by rewrite <- app_assoc.
      * intros HE. inversion HE; subst; [done|].
        destruct IH2 as (id & Hin & Hlt & Heq); [done|].
        exists id. split; [by apply list_elem_of_further|]. done.
Qed.

Lemma range_bounds (a b i : Z) : i ∈ range a b -> a <= i < b.
Proof.
  unfold range. intros H. apply list_elem_of_In, in_map_iff in H.
  destruct H as (k & <- & Hk). apply in_seq in Hk. lia.
Qed.

(** A record of block 5 (68 bytes) is read as the bone IDs of its first
    entries, as many as it declares but no more than 32; the only error is
    the one for a bone ID out of range. *)
Lemma parseBoneGroup_read {Bone : Type} (bones : list Bone) (definition : bytes) :
  length definition = 68%nat ->
  (Forall (fun boneID => boneID < len bones) (boneIDsRead definition) ->
   parseBoneGroup bones definition
   = Ok {| BoneGroup.bones := map Z.to_nat (boneIDsRead definition) |})
  /\ (Exists (fun boneID => ¬ boneID < len bones) (boneIDsRead definition) ->
      exists boneID, boneID ∈ boneIDsRead definition /\ ¬ boneID < len bones /\
        parseBoneGroup bones definition = Raise (invalidBoneID boneID)).
Proof.
  intros Hlen. unfold boneIDsRead.
  assert (Hent : Forall (fun i => 0 <= i /\ i * 2 + 6 <= len definition)
                   (range 0 (Z.min (u16_at definition 2) 32))).
  { apply Forall_forall. intros i Hi. apply range_bounds in Hi.
    unfold len. rewrite Hlen. lia. }
  destruct (parseBoneGroup_entries bones definition _ [] Hent) as [H1 H2].
  unfold parseBoneGroup. rewrite unpack_from_HH by (unfold len; lia). simpl.
  change (0 + 2) with 2.
  assert (Hcount : (if u16_at definition 2 >? 32 then 32 else u16_at definition 2)
                   = Z.min (u16_at definition 2) 32).
  { destruct (u16_at definition 2 >? 32) eqn:Hgt; lia. }
  rewrite Hcount. split.
  - intros HF. by rewrite H1.
  - intros HE. destruct (H2 HE) as (id & Hin & Hlt & Heq).
    exists id. by rewrite Heq.
Qed.

(** ** The container (C2, C5) *)

(** Case analysis on the first call of [f] in the goal. *)
Ltac case_call f :=
  match goal with
  | |- context [f ?a ?b] => destruct (f a b) eqn:?; simpl; [|done..]
  end.

Lemma foldM_invariant {A S : Type} (P : S -> Prop) (f : S -> A -> result S) (l : list A)
    (s s' : S) :
  (forall s a s', P s -> f s a = Ok s' -> P s') ->
  P s -> foldM f s l = Ok s' -> P s'.
Proof.
  intros Hstep. revert s. induction l as [|a l IH]; intros s Hs; simpl.
  - by intros [= <-].
  - destruct (f s a) as [s1| |] eqn:Hf; simpl; [|done..]. eauto.
Qed.

Lemma len_app {A : Type} (l1 l2 : list A) : len (l1 ++ l2) = len l1 + len l2.
Proof. unfold len. rewrite length_app. lia. Qed.

Lemma len_nonneg {A : Type} (l : list A) : 0 <= len l.
Proof. unfold len. lia. Qed.

Lemma padding_pads (n : Z) : 0 <= n -> (n + len (FmdlContainer.padding n)) mod 16 = 0.
Proof.
  intros Hn. unfold FmdlContainer.padding. case_decide as Hmod.
  - unfold len. rewrite length_replicate.
    pose proof (Z.mod_pos_bound n 16 ltac:(lia)).
    rewrite Z2Nat.id by lia.
    replace (n + (16 - n mod 16)) with (16 * (n / 16 + 1)) by (pose proof (Z.div_mod n 16); lia).
    rewrite Z.mul_comm. apply Z.mod_mul. lia.
  - change (len (@nil byte)) with 0. rewrite Z.add_0_r. lia.
Qed.

Lemma writeSegment0Block_step (self : FmdlContainer.t) (i : Z)
    (st st' : FmdlContainer.sections) :
  FmdlContainer.writeSegment0Block self st i = Ok st' ->
  FmdlContainer.blocks st' =
    FmdlContainer.blocks st ++
    option_list (padded <$> FmdlContainer.segment0Blocks self !! i)
  /\ (FmdlContainer.offset st mod 16 = 0 -> FmdlContainer.offset st' mod 16 = 0).
Proof.
  unfold FmdlContainer.writeSegment0Block.
  destruct (FmdlContainer.segment0Blocks self !! i) as [entries|]; simpl.
  - case_call pack. intros [= <-]. simpl. split; [done|].
    intros Hst. rewrite len_app.
    pose proof (padding_pads (len (concat entries)) (len_nonneg _)) as Hp.
    rewrite <- Zplus_mod_idemp_l, Hst, Z.add_0_l. exact Hp.
  - intros [= <-]. by rewrite app_nil_r.
Qed.

(** What the first loop of [writeStream] has done after a part of
    [range(64)]: the blocks are those of the identifiers seen, each padded,
    and the offset is a multiple of 16. *)
Lemma writeSegment0Block_blocks (self : FmdlContainer.t) (ids : list Z)
    (st st' : FmdlContainer.sections) :
  foldM (FmdlContainer.writeSegment0Block self) st ids = Ok st' ->
  FmdlContainer.blocks st' =
    FmdlContainer.blocks st ++
    map padded (omap (fun i => FmdlContainer.segment0Blocks self !! i) ids)
  /\ (FmdlContainer.offset st mod 16 = 0 -> FmdlContainer.offset st' mod 16 = 0).
Proof.
  revert st. induction ids as [|i ids IH]; intros st; cbn [foldM].
  - intros [= <-]. simpl. by rewrite app_nil_r.
  - destruct (FmdlContainer.writeSegment0Block self st i) as [st1| |] eqn:Hstep;
      simpl; [|done..].
    apply writeSegment0Block_step in Hstep. destruct Hstep as [Hb1 Ho1].
    intros Hrest. apply IH in Hrest. destruct Hrest as [Hb Ho].
    split; [|tauto].
    rewrite Hb, Hb1, <- app_assoc. f_equal.
    by destruct (FmdlContainer.segment0Blocks self !! i).
Qed.

Lemma writeSegment1Block_step (self : FmdlContainer.t) (i : Z)
    (st st' : FmdlContainer.sections) :
  FmdlContainer.writeSegment1Block self st i = Ok st' ->
  FmdlContainer.blocks st' =
    FmdlContainer.blocks st ++ option_list (FmdlContainer.segment1Blocks self !! i).
Proof.
  unfold FmdlContainer.writeSegment1Block.
  destruct (FmdlContainer.segment1Blocks self !! i) as [block|]; simpl.
  - case_call pack. by intros [= <-].
  - intros [= <-]. by rewrite app_nil_r.
Qed.

Lemma writeSegment1Block_blocks (self : FmdlContainer.t) (ids : list Z)
    (st st' : FmdlContainer.sections) :
  foldM (FmdlContainer.writeSegment1Block self) st ids = Ok st' ->
  FmdlContainer.blocks st' =
    FmdlContainer.blocks st ++ omap (fun i => FmdlContainer.segment1Blocks self !! i) ids.
Proof.
  revert st. induction ids as [|i ids IH]; intros st; cbn [foldM].
  - intros [= <-]. simpl. by rewrite app_nil_r.
  - destruct (FmdlContainer.writeSegment1Block self st i) as [st1| |] eqn:Hstep;
      simpl; [|done..].
    apply writeSegment1Block_step in Hstep.
    intros Hrest. apply IH in Hrest.
    rewrite Hrest, Hstep, <- app_assoc. f_equal.
    by destruct (FmdlContainer.segment1Blocks self !! i).
Qed.

Lemma le_encode_length (n : nat) (z : Z) : length (le_encode n z) = n.
Proof. revert z. induction n as [|n IH]; intros z; simpl; [done|]. by rewrite IH. Qed.

Lemma pack_length (fmt : list code) (v : tuple fmt) (b : bytes) :
  pack fmt v = Ok b -> length b = calcsize fmt.
Proof.
  unfold pack. revert v b. induction fmt as [|c fmt IH]; intros v b.
  - simpl. by intros [= <-].
  - assert (Hint : forall w : Z * tuple fmt,
      (if in_range c w.1
       then bs ← pack_fields fmt w.2;
            Ok (le_encode (size c)
                  (if w.1 <? 0 then w.1 + 2 ^ (8 * Z.of_nat (size c)) else w.1) ++ bs)
       else Raise struct_error) = Ok b -> length b = calcsize (c :: fmt)).
    { intros w. destruct (in_range c w.1); [|done].
      destruct (pack_fields fmt w.2) as [bs| |] eqn:Hp; simpl; [|done..].
      intros [= <-]. rewrite length_app, le_encode_length. apply IH in Hp.
      unfold calcsize in *. simpl. lia. }
    destruct c; simpl in *; try apply Hint.
    + destruct (pack_fields fmt v) as [bs| |] eqn:Hp; simpl; [|done..].
      intros [= <-]. simpl. apply IH in Hp. unfold calcsize in *. simpl. lia.
    + destruct v as [x v]. simpl.
      destruct (pack_fields fmt v) as [bs| |] eqn:Hp; simpl; [|done..].
      intros [= <-]. rewrite length_app, length_take, length_app, length_replicate.
      apply IH in Hp. unfold calcsize in *. simpl. lia.
Qed.

(** C2, as stated, fails for segment-1 blocks: a container whose
    segment-1 block 0 is one byte long is written with that block one byte
    long. *)
Lemma writeStream_segment1_block_not_padded :
  exists c, FmdlContainer.writeStream_chunks Examples.oneByteBlock = Ok c
    /\ FmdlContainer.section1Blocks c = [Examples.of_ints [9]]
    /\ ¬ Forall (fun block : bytes => len block mod 16 = 0)
          (FmdlContainer.section0Blocks c ++ FmdlContainer.section1Blocks c).
Proof.
  eexists. split; [vm_compute; reflexivity|]. split; [reflexivity|].
  intros H. apply Forall_app in H. destruct H as [_ H].
  inversion H as [|? ? Hbad]; subst. vm_compute in Hbad. discriminate.
Qed.

(** C2, amended: for every container written by the container writer,
    every emitted segment-0 block is its records followed by zero bytes up
    to a multiple of 16 bytes, and so are the descriptor table and the
    64-byte header; the segment-1 blocks are emitted as they are stored, in
    the order of their identifiers, without padding. *)
Theorem writeStream_pads_segment0_blocks (self : FmdlContainer.t) (c : FmdlContainer.chunks) :
  FmdlContainer.writeStream_chunks self = Ok c ->
  Forall (fun block : bytes => len block mod 16 = 0) (FmdlContainer.section0Blocks c)
  /\ FmdlContainer.section0Blocks c =
       map padded (omap (fun i => FmdlContainer.segment0Blocks self !! i) (range 0 64))
  /\ len (FmdlContainer.descriptorTable c) mod 16 = 0
  /\ len (FmdlContainer.header c) = 64
  /\ FmdlContainer.section1Blocks c =
       omap (fun i => FmdlContainer.segment1Blocks self !! i) (range 0 64).
Proof.
  unfold FmdlContainer.writeStream_chunks. generalize (range 0 64) as ids. intros ids H.
  apply bind_Ok in H as (s0 & H0 & H). cbv zeta in H.
  apply bind_Ok in H as (s1 & H1 & H). cbv zeta in H.
  apply bind_Ok in H as (header & Hh & H).
  injection H as <-. cbn [FmdlContainer.section0Blocks FmdlContainer.section1Blocks
                            FmdlContainer.descriptorTable FmdlContainer.header].
  apply writeSegment0Block_blocks in H0. destruct H0 as [Hb Ho].
  apply writeSegment1Block_blocks in H1.
  cbn [FmdlContainer.blocks FmdlContainer.offset app] in Hb, Ho, H1.
  specialize (Ho eq_refl).
  case_decide; [done|]. rewrite app_nil_r.
  split; [|split; [|split; [|split]]].
  - rewrite Hb. apply Forall_forall. intros block Hin.
    apply list_elem_of_In, in_map_iff in Hin. destruct Hin as (entries & <- & _).
    unfold padded. rewrite len_app. apply padding_pads, len_nonneg.
  - exact Hb.
  - rewrite len_app. apply padding_pads, len_nonneg.
  - apply pack_length in Hh. unfold len. rewrite Hh. reflexivity.
  - exact H1.
Qed.

Lemma writeStream_pads_segment0_blocks_witness :
  exists c, FmdlContainer.writeStream_chunks Examples.oneByteBlock = Ok c
    /\ Forall (fun block : bytes => len block mod 16 = 0) (FmdlContainer.section0Blocks c).
Proof.
  eexists. split; [vm_compute; reflexivity|].
  refine (proj1 (writeStream_pads_segment0_blocks Examples.oneByteBlock _ _)).
  vm_compute. reflexivity.
Defined.

(** [read_block] returns the [n] bytes at the position when the content
    has them. *)
Lemma read_block_exact (s : stream.t) (n : Z) (error : exn) :
  0 <= n -> 0 <= stream.position s -> stream.position s + n <= len (stream.content s) ->
  read_block_result s n error.
Proof.
  intros Hn Hpos Hfit. unfold read_block_result, FmdlContainer.read_block, stream.bytearray.
  destruct (n <? 0) eqn:Hneg; [lia|]. simpl.
  rewrite length_replicate.
  set (data := take (Z.to_nat n) (drop (Z.to_nat (stream.position s)) (stream.content s))).
  assert (Hdata : length data = Z.to_nat n).
  { unfold data. rewrite length_take, length_drop. unfold len in Hfit. lia. }
  clearbody data.
  rewrite drop_ge by (rewrite length_replicate; lia).
  rewrite app_nil_r. unfold len. rewrite Hdata.
  case_decide as Hne; [done|].
  do 3 f_equal. lia.
Qed.

(** C5, as stated, fails for two descriptors of the string block: one
    whose block is there already, which the duplicate check refuses, and
    one whose offset lies past the end of the file, where the clamped
    length is negative and [bytearray] raises [ValueError]. *)
Lemma readSegment1Block_clamp_can_fail :
  FmdlContainer.readSegment1Block 68 72
    (Examples.withStrings, Examples.open Examples.overlongStrings) (3, 0, 1000)
  = Raise (InvalidFmdl "Duplicate segment 1 block %d" [3])
  /\ FmdlContainer.readSegment1Block 68 72
       (FmdlContainer.init, Examples.open Examples.stringsPastEnd) (3, 100, 0)
     = Raise ValueError
  /\ FmdlContainer.readStream FmdlContainer.init (Examples.open Examples.stringsPastEnd)
     = Raise ValueError.
Proof. repeat split; vm_compute; reflexivity. Qed.

(** C5, amended: for a segment-1 descriptor whose block identifier has not
    been seen before and whose absolute offset is not past the end of the
    file, if the declared length exceeds the bytes that remain or the
    identifier is 3, the block stored is the rest of the file from the
    absolute offset, so its length is the file length minus the absolute
    offset, and no error is raised. *)
Theorem readSegment1Block_clamps (self : FmdlContainer.t) (s : stream.t)
    (section1Offset blockID sectionOffset length : Z) :
  let fileLength := len (stream.content s) in
  let absoluteOffset := sectionOffset + section1Offset in
  FmdlContainer.segment1Blocks self !! blockID = None ->
  0 <= absoluteOffset <= fileLength ->
  length > fileLength - absoluteOffset \/ blockID = 3 ->
  exists block s',
    FmdlContainer.readSegment1Block section1Offset fileLength (self, s)
      (blockID, sectionOffset, length)
    = Ok (FmdlContainer.set_segment1Blocks self
            (<[blockID := block]> (FmdlContainer.segment1Blocks self)), s')
    /\ block = drop (Z.to_nat absoluteOffset) (stream.content s)
    /\ len block = fileLength - absoluteOffset.
Proof.
  intros fileLength absoluteOffset Hfresh Hoff Hclamp.
  unfold FmdlContainer.readSegment1Block.
  case_decide as Hdup; [rewrite Hfresh in Hdup; by destruct Hdup|].
  fold absoluteOffset.
  assert (Hlen : (if (fileLength - absoluteOffset <? length) || (blockID =? 3)
                  then fileLength - absoluteOffset else length)
                 = fileLength - absoluteOffset).
  { destruct Hclamp as [Hgt | ->].
    - destruct (fileLength - absoluteOffset <? length) eqn:Hlt; [done | lia].
    - by rewrite orb_true_r. }
  rewrite Hlen.
  pose proof (read_block_exact (stream.seek s absoluteOffset) (fileLength - absoluteOffset)
                (InvalidFmdl "Unexpected end of file reading section 1 block %d" [blockID]))
    as Hread.
  unfold read_block_result in Hread. simpl in Hread.
  rewrite Hread by (fold fileLength; lia). simpl.
  eexists _, _. split; [reflexivity|]. fold fileLength.
  assert (Hall : take (Z.to_nat (fileLength - absoluteOffset))
                   (drop (Z.to_nat absoluteOffset) (stream.content s))
                 = drop (Z.to_nat absoluteOffset) (stream.content s)).
  { apply take_ge. rewrite length_drop. unfold fileLength, len. lia. }
  rewrite Hall. split; [done|].
  unfold len. rewrite length_drop. unfold fileLength, len in *. lia.
Qed.

Lemma readSegment1Block_clamps_witness :
  exists block s',
    FmdlContainer.readSegment1Block 68 72
      (FmdlContainer.init, Examples.open Examples.overlongStrings) (3, 0, 1000)
    = Ok (FmdlContainer.set_segment1Blocks FmdlContainer.init
            (<[3 := block]> (FmdlContainer.segment1Blocks FmdlContainer.init)), s')
    /\ block = Examples.of_ints [97; 0; 98; 0]
    /\ len block = 4.
Proof.
  refine (readSegment1Block_clamps FmdlContainer.init
            (Examples.open Examples.overlongStrings) 68 3 0 1000 _ _ _).
  - reflexivity.
  - vm_compute. split; discriminate.
  - right. reflexivity.
Defined.

(** The boundary case of the specification, on a whole file: the string
    block of [overlongStrings] declares 1000 bytes, the file has 4 left,
    and the read succeeds with these 4 bytes. *)
Example readStream_overlong_strings :
  FmdlContainer.segment1Blocks
    <$> FmdlContainer.readStream FmdlContainer.init (Examples.open Examples.overlongStrings)
  = Ok {[ 3 := Examples.of_ints [97; 0; 98; 0] ]}.
Proof. vm_compute. reflexivity. Qed.

(** ** Meshes and their bone groups (C9) *)

Lemma scanFormatEntry_boneIndices (st st' : formatState) (entry : Z * Z * Z * Z) :
  scanFormatEntry st entry = Ok st' ->
  fs_boneIndices st' =
    fs_boneIndices st || (datumTypeOf entry =? FmdlVertexDatumType.boneIndices).
Proof.
  destruct entry as [[[datumType datumFormat] offset] increment].
  unfold scanFormatEntry. case_decide; [done|]. by intros [= <-].
Qed.

Lemma scanFormat_boneIndices (format : list (Z * Z * Z * Z)) (st st' : formatState) :
  foldM scanFormatEntry st format = Ok st' ->
  fs_boneIndices st' = true <->
  fs_boneIndices st = true \/ FmdlVertexDatumType.boneIndices ∈ map datumTypeOf format.
Proof.
  revert st. induction format as [|entry format IH]; intros st; cbn [foldM map].
  - intros [= <-]. split; [auto|]. intros [H|H]; [done|]. by apply elem_of_nil in H.
  - intros H. apply bind_Ok in H as (st1 & Hstep & Hrest).
    apply scanFormatEntry_boneIndices in Hstep. apply IH in Hrest.
    rewrite Hrest, Hstep, orb_true_iff, Z.eqb_eq, elem_of_cons. intuition congruence.
Qed.

Section MeshRecord.
Context {MaterialInstance : Type}.
Variables (fmdl : FmdlContainer.t) (faceIndices : list (Z * Z)) (bufferOffsets : list Z)
  (meshFormats : list (list (Z * Z * Z * Z))) (materialInstances : list MaterialInstance).

Lemma meshOfRecord_boneGroup (boneGroups : list BoneGroup.t) (record : meshRecord)
    (mesh : Mesh.t) :
  meshOfRecord fmdl boneGroups faceIndices bufferOffsets meshFormats materialInstances record
    = Ok mesh ->
  exists format,
    index meshFormats (mr_meshFormatID record) = Ok format
    /\ (is_Some (Mesh.boneGroup mesh)
        <-> FmdlVertexDatumType.boneIndices ∈ map datumTypeOf format).
Proof.
  unfold meshOfRecord. cbv zeta. intros H.
  case_decide; [done|].
  apply bind_Ok in H as (format & Hformat & H). exists format. split; [done|].
  apply bind_Ok in H as (st & Hst & H).
  apply scanFormat_boneIndices in Hst. cbn [fs_boneIndices formatState_init] in Hst.
  destruct (fs_uv3 st && negb (fs_uv2 st)); [done|].
  destruct (fs_uv2 st && negb (fs_uv1 st)); [done|].
  destruct (fs_uv1 st && negb (fs_uv0 st)); [done|].
  destruct (negb (eqb (fs_boneWeights st) (fs_boneIndices st))); [done|].
  apply bind_Ok in H as (uvEqualities & _ & H).
  case_decide; [done|].
  apply bind_Ok in H as (materialInstance & _ & H).
  apply bind_Ok in H as (boneGroup & HboneGroup & H).
  case_decide; [done|].
  apply bind_Ok in H as ([lodFirst lodCount] & _ & H).
  apply bind_Ok in H as (vertices & _ & H).
  apply bind_Ok in H as (faceBufferOffset & _ & H).
  apply bind_Ok in H as (faces & _ & H).
  injection H as <-. cbn [Mesh.boneGroup].
  destruct (fs_boneIndices st); cbn [negb] in HboneGroup.
  - case_decide; [done|].
    apply bind_Ok in HboneGroup as (g & _ & HboneGroup). injection HboneGroup as <-.
    split; [|eauto]. intros _. by destruct (proj1 Hst eq_refl).
  - injection HboneGroup as <-. split; [by intros [? ?]|].
    intros Hin. assert (false = true) by (apply Hst; by right). done.
Qed.

Lemma meshOfRecord_ignores_boneGroupID (boneGroups boneGroups' : list BoneGroup.t)
    (record : meshRecord) (boneGroupID' : Z) :
  (forall format, index meshFormats (mr_meshFormatID record) = Ok format ->
                  FmdlVertexDatumType.boneIndices ∉ map datumTypeOf format) ->
  meshOfRecord fmdl boneGroups faceIndices bufferOffsets meshFormats materialInstances record
  = meshOfRecord fmdl boneGroups' faceIndices bufferOffsets meshFormats materialInstances
      (with_boneGroupID record boneGroupID').
Proof.
  intros Habsent. unfold meshOfRecord, with_boneGroupID. cbv zeta.
  cbn [mr_alphaEnum mr_shadowEnum mr_materialInstanceID mr_boneGroupID mr_meshFormatID
       mr_vertexCount mr_firstFaceVertexIndex mr_faceVertexCount mr_firstFaceIndexID].
  case_decide; [done|].
  destruct (index meshFormats (mr_meshFormatID record)) as [format| |] eqn:Hformat;
    [|done..].
  rewrite !bind_Ok_l.
  destruct (foldM scanFormatEntry formatState_init format) as [st| |] eqn:Hst; [|done..].
  rewrite !bind_Ok_l.
  assert (Hbi : fs_boneIndices st = false).
  { apply scanFormat_boneIndices in Hst. cbn [fs_boneIndices formatState_init] in Hst.
    destruct (fs_boneIndices st); [|done].
    destruct (proj1 Hst eq_refl) as [?|Hin]; [done|]. by apply Habsent in Hin. }
  rewrite Hbi. reflexivity.
Qed.
End MeshRecord.

(** The example model reads as one mesh of three vertices and one face,
    without a bone group, although its record names bone group 7 and the
    model has no bone group at all. *)
Example parseMeshes_triangle :
  (fun meshes => map (fun mesh => (length (Mesh.vertices mesh), Mesh.faces mesh,
                                   Mesh.boneGroup mesh)) meshes)
    <$> parseMeshes Examples.triangle (@nil unit) [()]
  = Ok [(3%nat, [Face.init 0 1 2], None)].
Proof. vm_compute. reflexivity. Qed.

(** ** Parent links (C7) *)

#[global] Instance Bone_TreeNodeLaws : TreeNodeLaws Bone.t.
Proof. by split. Qed.

#[global] Instance MeshGroup_TreeNodeLaws : TreeNodeLaws MeshGroup.t.
Proof. by split. Qed.

Lemma ancestor_add (parent : nat -> option nat) (a b i : nat) :
  ancestor parent (a + b) i = ancestor parent a i ≫= ancestor parent b.
Proof.
  revert i. induction a as [|a IH]; intros i; simpl; [done|].
  destruct (parent i) as [p|]; simpl; [apply IH | done].
Qed.

(** A node on a cycle has ancestors of every order. *)
Lemma ancestor_cycle (parent : nat -> option nat) (i k m : nat) :
  (0 < k)%nat -> ancestor parent k i = Some i -> is_Some (ancestor parent m i).
Proof.
  intros Hk Hcycle. induction (lt_wf m) as [m _ IH].
  destruct (decide (m < k)%nat) as [Hlt | Hge].
  - replace k with (m + (k - m))%nat in Hcycle by lia.
    rewrite ancestor_add in Hcycle.
    destruct (ancestor parent m i); [eauto | done].
  - replace m with (k + (m - k))%nat by lia.
    rewrite ancestor_add, Hcycle. simpl. apply IH. lia.
Qed.

Lemma filter_iff_in {A : Type} (P1 P2 : A -> Prop)
    `{!forall x, Decision (P1 x), !forall x, Decision (P2 x)} (l : list A) :
  (forall x, x ∈ l -> P1 x <-> P2 x) -> filter P1 l = filter P2 l.
Proof.
  induction l as [|a l IH]; intros Hiff; [done|].
  rewrite !filter_cons.
  rewrite IH by (intros x Hx; apply Hiff; by right).
  destruct (decide (P1 a)) as [H1|H1], (decide (P2 a)) as [H2|H2]; try done.
  - destruct H2. apply Hiff; [by left | done].
  - destruct H1. apply Hiff; [by left | done].
Qed.

Lemma lookup_alter_alter {A : Type} (f g : A -> A) (a b i : nat) (l : list A) :
  alter f a (alter g b l) !! i
  = (fun x => (if decide (a = i) then f else id) ((if decide (b = i) then g else id) x))
    <$> l !! i.
Proof.
  destruct (decide (a = i)) as [->|Ha], (decide (b = i)) as [->|Hb].
  - rewrite !list_lookup_alter_eq. by destruct (l !! i).
  - by rewrite list_lookup_alter_eq, list_lookup_alter_ne.
  - by rewrite list_lookup_alter_ne, list_lookup_alter_eq.
  - rewrite !list_lookup_alter_ne by done. by destruct (l !! i).
Qed.

Section ParentLinks.
Context {N : Type} `{TreeNodeLaws N}.
Variables (invalid : Z -> exn) (loop : exn).

(** *** The second loop *)

Lemma parentOf_app_l (l : list Z) (x : Z) (i : nat) :
  (i < length l)%nat -> parentOf (l ++ [x]) i = parentOf l i.
Proof. intros Hi. unfold parentOf. by rewrite lookup_app_l. Qed.

Lemma parentOf_app_ne (l : list Z) (x : Z) (i : nat) :
  i ≠ length l -> parentOf (l ++ [x]) i = parentOf l i.
Proof.
  intros Hi. unfold parentOf. destruct (decide (i < length l)%nat).
  - by rewrite lookup_app_l.
  - rewrite !lookup_ge_None_2; [done | lia |]. rewrite length_app. simpl. lia.
Qed.

Lemma parentOf_ge (l : list Z) (i : nat) : (length l <= i)%nat -> parentOf l i = None.
Proof. intros Hi. unfold parentOf. by rewrite lookup_ge_None_2. Qed.

Lemma parentOf_last (l : list Z) (x : Z) :
  parentOf (l ++ [x]) (length l) = if x >=? 0 then Some (Z.to_nat x) else None.
Proof.
  unfold parentOf. rewrite lookup_app_r by lia. by rewrite Nat.sub_diag.
Qed.

Lemma childrenOf_snoc (l : list Z) (x : Z) (p : nat) :
  childrenOf (l ++ [x]) p =
    childrenOf l p ++ (if decide (parentOf (l ++ [x]) (length l) = Some p)
                       then [length l] else []).
Proof.
  unfold childrenOf. rewrite length_app. simpl. rewrite Nat.add_1_r, seq_S, filter_app.
  f_equal.
  apply filter_iff_in. intros i Hi. apply elem_of_seq in Hi.
  by rewrite parentOf_app_l by lia.
Qed.

Lemma resolveParent_linked (l : list Z) (x : Z) (nodes nodes' : list N) :
  (length l < length nodes)%nat ->
  linked l nodes ->
  resolveParent invalid nodes (length l, x) = Ok nodes' ->
  length nodes' = length nodes /\ linked (l ++ [x]) nodes' /\ x < len nodes.
Proof.
  intros Hlen Hlinked. unfold resolveParent.
  destruct (x >=? 0) eqn:Hx.
  - case_decide as Hvalid; [done|].
    rewrite ref_in_range by lia. simpl. intros [= <-].
    rewrite !length_alter. split; [done|]. split; [|lia].
    intros i node Hi.
    rewrite childrenOf_snoc, parentOf_last, Hx.
    rewrite lookup_alter_alter in Hi.
    apply fmap_Some in Hi. destruct Hi as (node0 & Hnode0 & Hnode).
    destruct (Hlinked i node0 Hnode0) as [Hp Hc].
    subst node. split.
    + destruct (decide (length l = i)) as [<-|Hne].
      * rewrite parentOf_last, Hx.
        case_decide; simpl; by rewrite ?parent_add_child, parent_set_parent.
      * rewrite parentOf_app_ne by done.
        case_decide; simpl; by rewrite ?parent_add_child.
    + destruct (decide (Z.to_nat x = i)) as [Heq|Hne], (decide (length l = i)); simpl;
        rewrite ?children_add_child, ?children_set_parent, Hc.
      * by rewrite decide_True by congruence.
      * by rewrite decide_True by congruence.
      * by rewrite decide_False, app_nil_r by congruence.
      * by rewrite decide_False, app_nil_r by congruence.
  - intros [= <-]. split; [done|]. split; [|unfold len; lia].
    intros i node Hi. destruct (Hlinked i node Hi) as [Hp Hc].
    rewrite childrenOf_snoc, parentOf_last, Hx, decide_False, app_nil_r by done.
    split; [|done].
    destruct (decide (i = length l)) as [->|Hne].
    + rewrite parentOf_last, Hx, Hp. by apply parentOf_ge.
    + by rewrite parentOf_app_ne.
Qed.

Lemma zip_seq_snoc (l : list Z) (x : Z) :
  zip (seq 0 (length (l ++ [x]))) (l ++ [x]) = zip (seq 0 (length l)) l ++ [(length l, x)].
Proof.
  rewrite length_app. change (length [x]) with 1%nat. rewrite Nat.add_1_r, seq_S.
  rewrite zip_with_app by apply length_seq. done.
Qed.

Lemma linked_nil (nodes : list N) :
  Forall fresh nodes ->
  linked [] nodes.
Proof.
  intros Hfresh i node Hi. apply (Forall_lookup_1 _ _ _ _ Hfresh) in Hi. done.
Qed.

Lemma resolveParents_linked (parentIDs : list Z) (nodes nodes' : list N) :
  (length parentIDs <= length nodes)%nat ->
  linked [] nodes ->
  resolveParents invalid nodes parentIDs = Ok nodes' ->
  length nodes' = length nodes /\ linked parentIDs nodes'
  /\ Forall (fun parentID => parentID < len nodes) parentIDs.
Proof.
  unfold resolveParents. intros Hlen Hfresh. revert nodes' Hlen.
  induction parentIDs as [|x l IH] using rev_ind; intros nodes' Hlen.
  - simpl. intros [= <-]. done.
  - rewrite zip_seq_snoc, foldM_app. intros Hfold.
    apply bind_Ok in Hfold as (nodes1 & Hfold & Hstep). simpl in Hstep.
    apply bind_Ok in Hstep as (nodes2 & Hstep & Hret). injection Hret as <-.
    rewrite length_app in Hlen. simpl in Hlen.
    destruct (IH nodes1 ltac:(lia) Hfold) as (Hlen1 & Hlinked1 & Hvalid1).
    apply (resolveParent_linked l x) in Hstep; [|lia|done].
    destruct Hstep as (Hlen2 & Hlinked2 & Hvalid2).
    split; [lia|]. split; [done|].
    apply Forall_app. split; [done|]. constructor; [|done].
    unfold len in *. lia.
Qed.

(** The second loop raises nothing but the error for a parent out of
    range, and raises nothing when every parent is in range. *)
Lemma resolveParent_outcome (nodes : list N) (item : nat * Z) :
  (exists nodes', resolveParent invalid nodes item = Ok nodes'
                  /\ length nodes' = length nodes)
  \/ (¬ item.2 < len nodes /\ resolveParent invalid nodes item = Raise (invalid item.2)).
Proof.
  destruct item as [i x]. unfold resolveParent. simpl.
  destruct (x >=? 0) eqn:Hx; [|left; eauto].
  case_decide as Hvalid; [right; done|]. left.
  rewrite ref_in_range by lia. simpl. eexists. split; [done|].
  by rewrite !length_alter.
Qed.

Lemma resolveParents_outcome (items : list (nat * Z)) (nodes : list N) :
  (exists nodes', foldM (resolveParent invalid) nodes items = Ok nodes'
                  /\ length nodes' = length nodes)
  \/ (exists parentID, parentID ∈ items.*2 /\ ¬ parentID < len nodes
        /\ foldM (resolveParent invalid) nodes items = Raise (invalid parentID)).
Proof.
  revert nodes. induction items as [|item items IH]; intros nodes; cbn [foldM].
  - left. eauto.
  - destruct (resolveParent_outcome nodes item) as [(nodes1 & -> & Hlen1) | [Hbad ->]].
    + rewrite bind_Ok_l. destruct (IH nodes1) as [(nodes' & -> & Hlen) | (x & Hin & Hbad & ->)].
      * left. eexists. split; [done | lia].
      * right. exists x. split; [by apply list_elem_of_further|].
        split; [|done]. unfold len in *. lia.
    + right. exists item.2. split; [apply list_elem_of_here | done].
Qed.

(** *** The third loop *)

Lemma walkParents_outcome (nodes : list N) (fuel : nat) (seen : list nat) (node : nat) :
  (forall i p, parentIn nodes i = Some p -> (p < length nodes)%nat) ->
  NoDup seen ->
  (forall i, i ∈ seen -> (i < length nodes)%nat) ->
  (length nodes < fuel + length seen)%nat ->
  walkParents loop fuel nodes seen node = Ok ()
  \/ walkParents loop fuel nodes seen node = Raise loop.
Proof.
  intros Hclosed. revert seen node.
  induction fuel as [|fuel IH]; intros seen node Hnodup Hseen Hfuel.
  - exfalso. assert (length seen <= length (seq 0 (length nodes)))%nat as Hle.
    { apply NoDup_incl_length; [by apply NoDup_ListNoDup|]. intros i Hi. apply in_seq.
      apply list_elem_of_In, Hseen in Hi. lia. }
    rewrite length_seq in Hle. lia.
  - simpl. fold (parentIn nodes node).
    destruct (parentIn nodes node) as [p|] eqn:Hp; [|by left].
    case_decide as Hin; [by right|].
    apply IH.
    + apply NoDup_app. split; [done|]. split; [|apply NoDup_singleton].
      intros i Hi Hi'. apply list_elem_of_singleton in Hi'. by subst.
    + intros i Hi. apply elem_of_app in Hi. destruct Hi as [Hi|Hi]; [by apply Hseen|].
      apply list_elem_of_singleton in Hi. subst i.
      unfold parentIn in Hp. destruct (nodes !! node) eqn:Hnode; [|done].
      by apply lookup_lt_Some in Hnode.
    + rewrite length_app. simpl. lia.
Qed.

Lemma walkParents_loop (nodes : list N) (fuel : nat) (seen : list nat) (node : nat) :
  (forall i, i ∈ seen -> exists k, (0 < k)%nat /\ ancestor (parentIn nodes) k i = Some node) ->
  walkParents loop fuel nodes seen node = Raise loop ->
  hasCycle (parentIn nodes).
Proof.
  revert seen node. induction fuel as [|fuel IH]; intros seen node Hseen; [done|].
  simpl. fold (parentIn nodes node).
  destruct (parentIn nodes node) as [p|] eqn:Hp; [|done].
  case_decide as Hin.
  - intros _. destruct (Hseen node Hin) as (k & Hk & Hanc). by exists node, k.
  - apply IH. intros i Hi. apply elem_of_app in Hi. destruct Hi as [Hi|Hi].
    + destruct (Hseen i Hi) as (k & Hk & Hanc). exists (k + 1)%nat. split; [lia|].
      rewrite ancestor_add, Hanc. simpl. by rewrite Hp.
    + apply list_elem_of_singleton in Hi. subst i. exists 1%nat. split; [lia|].
      simpl. by rewrite Hp.
Qed.

Lemma walkParents_endless (nodes : list N) (fuel : nat) (seen : list nat) (node : nat) :
  (forall m, is_Some (ancestor (parentIn nodes) m node)) ->
  walkParents loop fuel nodes seen node ≠ Ok ().
Proof.
  revert seen node. induction fuel as [|fuel IH]; intros seen node Hendless; [done|].
  simpl. fold (parentIn nodes node).
  destruct (parentIn nodes node) as [p|] eqn:Hp.
  - case_decide; [done|]. apply IH. intros m.
    specialize (Hendless (S m)). simpl in Hendless. by rewrite Hp in Hendless.
  - specialize (Hendless 1%nat). simpl in Hendless. rewrite Hp in Hendless.
    by destruct Hendless.
Qed.

End ParentLinks.

Lemma ancestor_ext (f g : nat -> option nat) (k i : nat) :
  (forall j, f j = g j) -> ancestor f k i = ancestor g k i.
Proof.
  intros Hext. revert i. induction k as [|k IH]; intros i; simpl; [done|].
  rewrite Hext. destruct (g i); simpl; [apply IH | done].
Qed.

Lemma hasCycle_ext (f g : nat -> option nat) :
  (forall j, f j = g j) -> hasCycle f -> hasCycle g.
Proof.
  intros Hext (i & k & Hk & Hcycle). exists i, k. split; [done|].
  by rewrite <- (ancestor_ext f g).
Qed.

Lemma foldM_unit_outcome {A : Type} (g : A -> result unit) (e : exn) (l : list A) :
  (forall x, g x = Ok () \/ g x = Raise e) ->
  (foldM (fun _ x => g x) () l = Ok () /\ Forall (fun x => g x = Ok ()) l)
  \/ (foldM (fun _ x => g x) () l = Raise e /\ Exists (fun x => g x = Raise e) l).
Proof.
  intros Hg. induction l as [|x l IH]; cbn [foldM].
  - left. done.
  - destruct (Hg x) as [Hok|Hraise].
    + rewrite Hok, bind_Ok_l. destruct IH as [[-> Hall]|[-> Hex]].
      * left. split; [done|]. by constructor.
      * right. split; [done|]. by apply Exists_cons_tl.
    + rewrite Hraise. right. split; [done|]. by apply Exists_cons_hd.
Qed.

Section Tree.
Context {N : Type} `{TreeNodeLaws N}.
Variables (invalid : Z -> exn) (loop : exn).

Lemma checkParentLoops_outcome (nodes : list N) :
  (forall i p, parentIn nodes i = Some p -> (p < length nodes)%nat) ->
  (checkParentLoops loop nodes = Ok () /\ ¬ hasCycle (parentIn nodes))
  \/ (checkParentLoops loop nodes = Raise loop /\ hasCycle (parentIn nodes)).
Proof.
  intros Hclosed. unfold checkParentLoops.
  assert (Hwalk : forall node,
    walkParents loop (S (length nodes)) nodes [] node = Ok ()
    \/ walkParents loop (S (length nodes)) nodes [] node = Raise loop).
  { intros node. apply walkParents_outcome; [done | apply NoDup_nil_2 | | simpl; lia].
    intros i Hi. by apply elem_of_nil in Hi. }
  destruct (foldM_unit_outcome
              (fun node => walkParents loop (S (length nodes)) nodes [] node) loop
              (seq 0 (length nodes)) Hwalk) as [[Hok Hall]|[Hraise Hex]].
  - left. split; [done|]. intros (i & k & Hk & Hcycle).
    assert (Hi : i ∈ seq 0 (length nodes)).
    { apply list_elem_of_In, in_seq. split; [lia|]. simpl.
      destruct k as [|k]; [lia|]. simpl in Hcycle.
      destruct (parentIn nodes i) as [p|] eqn:Hp; [|done].
      unfold parentIn in Hp. destruct (nodes !! i) eqn:Hnode; [|done].
      by apply lookup_lt_Some in Hnode. }
    rewrite Forall_forall in Hall. specialize (Hall i Hi).
    eapply walkParents_endless; [|exact Hall].
    intros m. by apply (ancestor_cycle _ i k m).
  - right. split; [done|]. apply Exists_exists in Hex. destruct Hex as (i & _ & Hi).
    eapply walkParents_loop; [|exact Hi].
    intros j Hj. by apply elem_of_nil in Hj.
Qed.

(** The second and the third loop together, from nodes that have no
    parent and no children yet: they end in the error for a parent out of
    range, or in the error for a loop, and then the parent links have a
    cycle, or in the linked nodes, and then they have none. *)
Lemma parentLinks_outcome (nodes : list N) (parentIDs : list Z) :
  length parentIDs = length nodes ->
  Forall fresh nodes ->
  let r := linkParents invalid loop nodes parentIDs in
  (exists parentID, parentID ∈ parentIDs /\ ¬ parentID < len nodes
                    /\ r = Raise (invalid parentID))
  \/ (Forall (fun parentID => parentID < len nodes) parentIDs
      /\ hasCycle (parentOf parentIDs) /\ r = Raise loop)
  \/ (Forall (fun parentID => parentID < len nodes) parentIDs
      /\ ¬ hasCycle (parentOf parentIDs)
      /\ exists nodes', r = Ok nodes' /\ length nodes' = length nodes
                        /\ linked parentIDs nodes').
Proof.
  intros Hlen Hfresh r. subst r. unfold linkParents.
  destruct (resolveParents_outcome invalid (zip (seq 0 (length parentIDs)) parentIDs) nodes)
    as [(nodes' & Hresolve & _) | (x & Hin & Hbad & Hraise)].
  2:{ left. exists x. split; [|split; [done|]].
      - rewrite snd_zip in Hin; [done|]. rewrite length_seq. lia.
      - unfold resolveParents. by rewrite Hraise. }
  right. fold (resolveParents invalid nodes parentIDs) in Hresolve.
  pose proof Hresolve as Hspec.
  apply resolveParents_linked in Hspec; [|lia | by apply linked_nil].
  destruct Hspec as (Hlen' & Hlinked & Hvalid).
  assert (Hparent : forall i, parentIn nodes' i = parentOf parentIDs i).
  { intros i. unfold parentIn. destruct (nodes' !! i) as [node|] eqn:Hnode; simpl.
    - by destruct (Hlinked i node Hnode).
    - symmetry. apply parentOf_ge. apply lookup_ge_None in Hnode. lia. }
  assert (Hclosed : forall i p, parentIn nodes' i = Some p -> (p < length nodes')%nat).
  { intros i p. rewrite Hparent. unfold parentOf.
    destruct (parentIDs !! i) as [x|] eqn:Hx; simpl; [|done].
    destruct (x >=? 0) eqn:Hpos; [|done]. intros [= <-].
    apply (Forall_lookup_1 _ _ _ _ Hvalid) in Hx. unfold len in Hx. lia. }
  rewrite Hresolve, bind_Ok_l.
  destruct (checkParentLoops_outcome nodes' Hclosed) as [[-> Hno]|[-> Hyes]].
  - right. split; [done|]. split.
    + intros Hcycle. apply Hno. by apply (hasCycle_ext (parentOf parentIDs)).
    + by exists nodes'.
  - left. split; [done|]. split; [|done].
    by apply (hasCycle_ext (parentIn nodes')).
Qed.
End Tree.

Lemma mapM_Forall {A B : Type} (P : B -> Prop) (f : A -> result B) (l : list A)
    (ys : list B) :
  (forall a b, f a = Ok b -> P b) -> mapM f l = Ok ys -> Forall P ys.
Proof.
  intros Hf. revert ys. induction l as [|a l IH]; intros ys; cbn [mapM].
  - intros [= <-]. constructor.
  - intros H. apply bind_Ok in H as (y & Hy & H). apply bind_Ok in H as (ys' & Hys & H).
    injection H as <-. constructor; eauto.
Qed.

Lemma parseBone_fresh {BoundingBox : Type} (strings : list string)
    (boundingBoxes : list BoundingBox) (definition : bytes) (item : Bone.t * Z) :
  parseBone strings boundingBoxes definition = Ok item -> fresh item.1.
Proof.
  unfold parseBone. intros H. apply bind_Ok in H as (fields & _ & H).
  cbn in fields.
  destruct fields as (nameStringID & parentBoneID & boundingBoxID & unknown & padding
    & localX & localY & localZ & localW & worldX & worldY & worldZ & worldW & []).
  case_decide; [done|]. apply bind_Ok in H as (name & _ & H).
  case_decide; [done|]. apply bind_Ok in H as (boundingBox & _ & H).
  injection H as <-. by split.
Qed.

Lemma parseMeshGroup_fresh (strings : list string) (definition : bytes)
    (item : MeshGroup.t * Z) :
  parseMeshGroup strings definition = Ok item ->
  fresh item.1 /\ MeshGroup.meshes item.1 = [] /\ MeshGroup.boundingBox item.1 = None.
Proof.
  unfold parseMeshGroup. intros H. apply bind_Ok in H as (fields & _ & H).
  cbn in fields. destruct fields as (nameStringID & invisible & parentID & unknown & []).
  case_decide; [done|]. apply bind_Ok in H as (name & _ & H).
  injection H as <-. by repeat split.
Qed.

(** The three outcomes of [parseBones] once its first loop has succeeded. *)
Lemma parseBones_outcome {BoundingBox : Type} (fmdl : FmdlContainer.t)
    (strings : list string) (boundingBoxes : list BoundingBox) (block : list bytes)
    (items : list (Bone.t * Z)) :
  FmdlContainer.segment0Blocks fmdl !! 0 = Some block ->
  mapM (parseBone strings boundingBoxes) block = Ok items ->
  let parentIDs := items.*2 in
  let r := parseBones fmdl strings boundingBoxes in
  (exists parentID, parentID ∈ parentIDs /\ ¬ parentID < len items
                    /\ r = Raise (invalidBoneParent parentID))
  \/ (Forall (fun parentID => parentID < len items) parentIDs
      /\ hasCycle (parentOf parentIDs) /\ r = Raise boneParentLoop)
  \/ (Forall (fun parentID => parentID < len items) parentIDs
      /\ ¬ hasCycle (parentOf parentIDs)
      /\ exists bones, r = Ok bones /\ length bones = length items
                       /\ linked parentIDs bones).
Proof.
  intros Hblock Hitems parentIDs r. subst r parentIDs. unfold parseBones.
  rewrite Hblock, Hitems, bind_Ok_l.
  assert (Hlen : len items = len items.*1) by (unfold len; by rewrite length_fmap).
  rewrite Hlen.
  replace (length items) with (length items.*1) by apply length_fmap.
  apply parentLinks_outcome.
  - by rewrite !length_fmap.
  - apply Forall_fmap. apply (mapM_Forall _ _ _ _ (parseBone_fresh strings boundingBoxes)) in Hitems.
    exact Hitems.
Qed.

(** ** Mesh groups and their meshes (C8) *)

Lemma is_InvalidFmdl_Raise {A : Type} (message : string) (args : list Z) :
  is_InvalidFmdl (@Raise A (InvalidFmdl message args)).
Proof. by exists message, args. Qed.

Lemma is_InvalidFmdl_bind {A B : Type} (m : result A) (f : A -> result B) :
  is_InvalidFmdl m -> is_InvalidFmdl (m ≫= f).
Proof. intros (message & args & ->). apply is_InvalidFmdl_Raise. Qed.

Lemma assignmentError_InvalidFmdl {A : Type} (r : result A) :
  raises assignmentError r -> is_InvalidFmdl r.
Proof. intros (e & -> & He). destruct He; apply is_InvalidFmdl_Raise. Qed.

Lemma elem_of_range (a b i : Z) : i ∈ range a b <-> a <= i < b.
Proof.
  split; [apply range_bounds|]. intros Hi. unfold range.
  apply list_elem_of_In, in_map_iff. exists (Z.to_nat (i - a)). split; [lia|].
  apply in_seq. lia.
Qed.

Lemma range_snoc (k : nat) : range 0 (Z.of_nat (S k)) = range 0 (Z.of_nat k) ++ [Z.of_nat k].
Proof.
  unfold range. rewrite !Z.sub_0_r, !Nat2Z.id, seq_S, map_app. done.
Qed.

Lemma index_lookup {A : Type} (l : list A) (i : Z) (a : A) :
  0 <= i -> l !! Z.to_nat i = Some a -> index l i = Ok a.
Proof. apply index_in_range. Qed.

Lemma assignMesh_step (meshGroupID : Z) (assignments : list (option Z)) (k : Z)
    (a : option Z) :
  0 <= k < len assignments ->
  assignments !! Z.to_nat k = Some a ->
  assignMesh meshGroupID assignments k =
    if decide (a ≠ None) then Raise (doubleAssignment k)
    else Ok (<[Z.to_nat k := Some meshGroupID]> assignments).
Proof.
  intros Hk Ha. unfold assignMesh. rewrite (index_in_range _ _ a) by (done || lia).
  rewrite bind_Ok_l. case_decide; [done|]. by rewrite ref_in_range.
Qed.

(** The loop over the range of one assignment: it assigns every mesh of
    the range, all of them unassigned before, or stops at a mesh of the range
    that is assigned already. *)
Lemma assignMesh_fold (meshGroupID : Z) (ks : list Z) (assignments : list (option Z)) :
  Forall (fun k => 0 <= k < len assignments) ks ->
  (exists assignments',
     foldM (assignMesh meshGroupID) assignments ks = Ok assignments'
     /\ length assignments' = length assignments
     /\ Forall (fun k => assignments !! Z.to_nat k = Some None) ks
     /\ forall i, (Z.of_nat i ∈ ks -> assignments' !! i = Some (Some meshGroupID))
                  /\ (Z.of_nat i ∉ ks -> assignments' !! i = assignments !! i))
  \/ (exists k, k ∈ ks
        /\ foldM (assignMesh meshGroupID) assignments ks = Raise (doubleAssignment k)).
Proof.
  intros Hks. revert assignments Hks.
  induction ks as [|k ks IH]; intros assignments Hks; cbn [foldM].
  - left. exists assignments. repeat split; try done.
    intros Hi. by apply elem_of_nil in Hi.
  - apply Forall_cons in Hks. destruct Hks as [Hk Hks].
    destruct (assignments !! Z.to_nat k) as [a|] eqn:Ha.
    2:{ apply lookup_ge_None in Ha. unfold len in Hk. lia. }
    rewrite (assignMesh_step _ _ _ a) by done.
    case_decide as Hassigned.
    { right. exists k. split; [apply list_elem_of_here | done]. }
    subst a. rewrite bind_Ok_l.
    set (assignments1 := <[Z.to_nat k := Some meshGroupID]> assignments).
    assert (Hlen1 : length assignments1 = length assignments) by apply length_insert.
    destruct (IH assignments1) as [(assignments' & -> & Hlen & Hnone & Hnew) | (k' & Hin & ->)].
    { unfold len. rewrite Hlen1. exact Hks. }
    + left. exists assignments'. split; [done|]. split; [lia|]. split.
      * constructor; [done|]. rewrite Forall_forall in Hnone |- *. intros k' Hk'.
        specialize (Hnone k' Hk'). unfold assignments1 in Hnone.
        destruct (decide (Z.to_nat k = Z.to_nat k')) as [Heq|Hne].
        -- rewrite <- Heq, list_lookup_insert_eq in Hnone; [done|].
           unfold len in Hk. lia.
        -- by rewrite list_lookup_insert_ne in Hnone.
      * intros i. destruct (Hnew i) as [Hnew1 Hnew2]. split.
        -- intros Hi. destruct (decide (Z.of_nat i ∈ ks)) as [Hin|Hnotin]; [auto|].
           apply elem_of_cons in Hi. destruct Hi as [Hi|Hi]; [|done].
           rewrite Hnew2 by done. unfold assignments1. subst k.
           rewrite Nat2Z.id. apply list_lookup_insert_eq. unfold len in Hk. lia.
        -- intros Hi. apply not_elem_of_cons in Hi. destruct Hi as [Hne Hnotin].
           rewrite Hnew2 by done. unfold assignments1.
           apply list_lookup_insert_ne. lia.
    + right. exists k'. split; [by apply list_elem_of_further | done].
Qed.

Lemma raises_bind {A B : Type} (P : exn -> Prop) (m : result A) (f : A -> result B) :
  raises P m -> raises P (m ≫= f).
Proof. intros (e & -> & He). by exists e. Qed.

Lemma raises_Raise {A : Type} (P : exn -> Prop) (e : exn) : P e -> raises P (@Raise A e).
Proof. intros He. by exists e. Qed.

Lemma coverCount_snoc (done : list (Z * Z * Z * Z)) (a : Z * Z * Z * Z) (m : Z) :
  coverCount (done ++ [a]) m
  = (coverCount done m + if decide (covers a m) then 1 else 0)%nat.
Proof.
  unfold coverCount. rewrite filter_app, length_app. f_equal.
  rewrite filter_cons, filter_nil. by case_decide.
Qed.

Section Assign.
Context {BoundingBox Mesh : Type}.
Variables (boundingBoxes : list BoundingBox) (meshes : list Mesh)
  (groups0 : list MeshGroup.t).

Lemma assignMeshes_outcome (done : list (Z * Z * Z * Z))
    (st : list MeshGroup.t * list (option Z)) (a : Z * Z * Z * Z) :
  unsigned a ->
  assigning groups0 (length meshes) done st ->
  raises assignmentError (assignMeshes boundingBoxes meshes st a)
  \/ exists st', assignMeshes boundingBoxes meshes st a = Ok st'
                 /\ assigning groups0 (length meshes) (done ++ [a]) st'.
Proof.
  destruct st as [groups assignments].
  destruct a as [[[meshGroupID firstMeshIndex] meshCount] boundingBoxID].
  intros (Hg & Hfirst & Hcount & Hbb) [Hlen Hlinks Hmeshes Hnone Hsome Honce Hrange].
  simpl in *.
  assert (HG : length groups = length groups0) by (symmetry; by eapply Forall2_length).
  unfold assignMeshes.
  case_decide as Hgroup; [left; apply raises_Raise; constructor|].
  case_decide as Hmesh; [left; apply raises_Raise; constructor|].
  case_decide as Hbox; [left; apply raises_Raise; constructor|].
  destruct (assignMesh_fold meshGroupID (range firstMeshIndex (firstMeshIndex + meshCount))
              assignments)
    as [(assignments' & -> & Hlen' & Hfree & Hnew) | (k & _ & ->)].
  { apply Forall_forall. intros k Hk. apply elem_of_range in Hk.
    unfold len in *. lia. }
  2:{ left. apply raises_Raise. constructor. }
  rewrite bind_Ok_l.
  destruct (groups !! Z.to_nat meshGroupID) as [meshGroup|] eqn:HmeshGroup.
  2:{ apply lookup_ge_None in HmeshGroup. unfold len in *. lia. }
  rewrite (index_in_range _ _ meshGroup) by done. rewrite bind_Ok_l.
  rewrite (ref_in_range boundingBoxes) by lia. rewrite bind_Ok_l.
  case_decide as Hconflict; [left; apply raises_Raise; constructor|].
  rewrite (ref_in_range groups) by lia. rewrite bind_Ok_l.
  right. eexists. split; [done|].
  split; simpl.
  - lia.
  - apply Forall2_alter_r; [done|]. by intros g0 g _ _ [? ?].
  - apply Forall_alter; [done|]. auto.
  - intros i Hi. rewrite coverCount_snoc.
    destruct (Hnew i) as [Hin Hout].
    case_decide as Hcovers.
    + rewrite Hin by (apply elem_of_range; exact Hcovers). split; [done | lia].
    + rewrite Hout by (rewrite elem_of_range; exact Hcovers).
      rewrite Hnone by done. lia.
  - intros i g. destruct (Hnew i) as [Hin Hout].
    destruct (decide (Z.of_nat i ∈ range firstMeshIndex (firstMeshIndex + meshCount)))
      as [Hi|Hi].
    + rewrite Hin by done. intros [= <-]. unfold len in *. lia.
    + rewrite Hout by done. apply Hsome.
  - intros m. rewrite coverCount_snoc. case_decide as Hcovers; [|specialize (Honce m); lia].
    assert (Hzero : coverCount done m = 0%nat); [|lia].
    unfold covers in Hcovers. simpl in Hcovers.
    assert (Hm : m ∈ range firstMeshIndex (firstMeshIndex + meshCount))
      by (by apply elem_of_range).
    rewrite Forall_forall in Hfree. specialize (Hfree m Hm).
    replace m with (Z.of_nat (Z.to_nat m)) by lia.
    apply Hnone; [unfold len in *; lia | done].
  - intros m. rewrite coverCount_snoc. case_decide as Hcovers.
    + intros _. unfold covers in Hcovers. simpl in Hcovers. unfold len in *. lia.
    + rewrite Nat.add_0_r. apply Hrange.
Qed.

Lemma assignMeshes_fold (todo done : list (Z * Z * Z * Z))
    (st : list MeshGroup.t * list (option Z)) :
  Forall unsigned todo ->
  assigning groups0 (length meshes) done st ->
  raises assignmentError (foldM (assignMeshes boundingBoxes meshes) st todo)
  \/ exists st', foldM (assignMeshes boundingBoxes meshes) st todo = Ok st'
                 /\ assigning groups0 (length meshes) (done ++ todo) st'.
Proof.
  revert done st. induction todo as [|a todo IH]; intros done st Htodo Hst; cbn [foldM].
  - right. exists st. by rewrite app_nil_r.
  - apply Forall_cons in Htodo. destruct Htodo as [Ha Htodo].
    destruct (assignMeshes_outcome done st a Ha Hst) as [Hraise | (st1 & -> & Hst1)].
    + left. by apply raises_bind.
    + rewrite bind_Ok_l. replace (done ++ a :: todo) with ((done ++ [a]) ++ todo)
        by (by rewrite <- app_assoc).
      by apply IH.
Qed.
End Assign.

Section Collect.
Context {Mesh : Type}.
Variables (meshes : list Mesh) (groups0 : list MeshGroup.t)
  (assignments : list (option Z)).
Hypothesis assignments_length : length assignments = length meshes.
Hypothesis assignments_some : forall i, (i < length meshes)%nat ->
  exists g, assignments !! i = Some (Some g) /\ 0 <= g < len groups0.

Lemma collectMesh_fold (groups : list MeshGroup.t) (k : nat) :
  Forall2 sameLinks groups0 groups ->
  Forall (fun g => MeshGroup.meshes g = []) groups ->
  (k <= length meshes)%nat ->
  exists groups',
    foldM (collectMesh meshes assignments) groups (range 0 (Z.of_nat k)) = Ok groups'
    /\ Forall2 sameLinks groups0 groups'
    /\ forall j group, groups' !! j = Some group ->
         MeshGroup.meshes group = collected assignments k j.
Proof.
  intros Hlinks Hmeshes. induction k as [|k IH]; intros Hk.
  - exists groups. split; [done|]. split; [done|]. intros j group Hj.
    by apply (Forall_lookup_1 _ _ _ _ Hmeshes) in Hj.
  - destruct IH as (groups1 & Hfold & Hlinks1 & Hmeshes1); [lia|].
    rewrite range_snoc, foldM_app, Hfold, bind_Ok_l. cbn [foldM].
    destruct (assignments_some k) as (g & Hg & Hrange); [lia|].
    assert (HG : length groups1 = length groups0) by (symmetry; by eapply Forall2_length).
    unfold collectMesh. rewrite (index_in_range _ _ (Some g)) by (lia || by rewrite Nat2Z.id).
    rewrite bind_Ok_l.
    rewrite (ref_in_range groups1) by (unfold len in *; lia). rewrite bind_Ok_l.
    rewrite (ref_in_range meshes) by (unfold len; lia). rewrite !bind_Ok_l.
    eexists. split; [done|]. split.
    + apply Forall2_alter_r; [done|]. by intros g0 g' _ _ [? ?].
    + intros j group Hj. unfold collected.
      rewrite seq_S, filter_app, filter_cons, filter_nil. cbn [Nat.add].
      fold (collected assignments k j).
      destruct (decide (Z.to_nat g = j)) as [<-|Hne].
      * rewrite decide_True by (rewrite Hg; do 2 f_equal; lia).
        rewrite list_lookup_alter_eq in Hj.
        apply fmap_Some in Hj. destruct Hj as (group1 & Hgroup1 & ->). simpl.
        rewrite Nat2Z.id. f_equal. by apply Hmeshes1.
      * rewrite decide_False by (rewrite Hg; intros [= ->]; lia).
        rewrite list_lookup_alter_ne in Hj by done.
        rewrite app_nil_r. by apply Hmeshes1.
Qed.
End Collect.

Section Rest.
Context {BoundingBox Mesh : Type}.
Variables (boundingBoxes : list BoundingBox) (meshes : list Mesh)
  (groups0 : list MeshGroup.t) (assignmentList : list (Z * Z * Z * Z)).

Lemma assignAndCollect_outcome :
  Forall unsigned assignmentList ->
  Forall (fun g => MeshGroup.meshes g = []) groups0 ->
  raises assignmentError
    (assignAndCollect boundingBoxes meshes groups0 assignmentList)
  \/ exists groups,
       assignAndCollect boundingBoxes meshes groups0 assignmentList = Ok groups
       /\ Forall2 sameLinks groups0 groups
       /\ (forall m, 0 <= m < len meshes -> coverCount assignmentList m = 1%nat)
       /\ eachMeshInOneGroup (length meshes) groups.
Proof.
  intros Hunsigned Hmeshes0. unfold assignAndCollect.
  destruct (assignMeshes_fold boundingBoxes meshes groups0 assignmentList []
              (groups0, map (fun _ => @None Z) meshes) Hunsigned)
    as [Hraise | ([groups assignments] & -> & Hst)].
  { split; simpl; try done.
    - by rewrite length_map.
    - apply Forall_Forall2_diag. apply Forall_forall. by intros g _.
    - intros i Hi. split; [done|]. intros _.
      rewrite list_lookup_fmap. destruct (meshes !! i) eqn:Hm; [done|].
      apply lookup_ge_None in Hm. lia.
    - intros i g. rewrite list_lookup_fmap. by destruct (meshes !! i).
    - intros m. unfold coverCount. simpl. lia. }
  { left. by apply raises_bind. }
  rewrite bind_Ok_l. simpl in Hst.
  destruct Hst as [Hlen Hlinks Hmeshes Hnone Hsome Honce Hrange]. simpl in *.
  case_decide as Hunassigned; [left; apply raises_Raise; constructor|].
  assert (Hall : forall i, (i < length meshes)%nat ->
            exists g, assignments !! i = Some (Some g) /\ 0 <= g < len groups0).
  { intros i Hi. destruct (assignments !! i) as [[g|]|] eqn:Ha.
    - exists g. split; [done|]. by apply (Hsome i).
    - destruct Hunassigned. by apply list_elem_of_lookup_2 in Ha.
    - apply lookup_ge_None in Ha. lia. }
  destruct (collectMesh_fold meshes groups0 assignments Hlen Hall groups (length meshes))
    as (groups' & Hfold & Hlinks' & Hcollected); [done..|].
  right. exists groups'. unfold len at 1. rewrite Hlen, Hfold.
  split; [done|]. split; [done|]. split.
  - intros m Hm. specialize (Honce m).
    assert (coverCount assignmentList m ≠ 0%nat); [|lia].
    intros Hzero. replace m with (Z.of_nat (Z.to_nat m)) in Hzero by lia.
    apply Hnone in Hzero; [|unfold len in Hm; lia].
    destruct (Hall (Z.to_nat m)) as (g & Hg & _); [unfold len in Hm; lia|]. congruence.
  - intros m Hm. destruct (Hall m Hm) as (g & Hg & Hgrange).
    assert (HG : length groups' = length groups0) by (symmetry; by eapply Forall2_length).
    destruct (groups' !! Z.to_nat g) as [group|] eqn:Hgroup.
    2:{ apply lookup_ge_None in Hgroup. unfold len in *. lia. }
    exists (Z.to_nat g), group. split; [done|].
    rewrite (Hcollected _ _ Hgroup). unfold collected. split; [|split].
    + apply list_elem_of_filter. rewrite Z2Nat.id by lia. split; [done|].
      apply elem_of_seq. lia.
    + apply NoDup_filter, NoDup_seq.
    + intros g' group' Hgroup' Hin. rewrite (Hcollected _ _ Hgroup') in Hin.
      apply list_elem_of_filter in Hin. destruct Hin as [Hin _].
      rewrite Hg in Hin. injection Hin as ->. by rewrite Nat2Z.id.
Qed.
End Rest.

Lemma resolveParents_Forall {N : Type} `{TreeNode N} (P : N -> Prop) (invalid : Z -> exn)
    (nodes nodes' : list N) (parentIDs : list Z) :
  (forall p node, P node -> P (node_set_parent p node)) ->
  (forall c node, P node -> P (node_add_child c node)) ->
  Forall P nodes ->
  resolveParents invalid nodes parentIDs = Ok nodes' ->
  Forall P nodes'.
Proof.
  intros Hset Hadd HP. unfold resolveParents.
  apply foldM_invariant; [|done].
  intros s [i x] s' Hs. unfold resolveParent.
  destruct (x >=? 0); [|by intros [= <-]].
  case_decide; [done|]. intros Hstep.
  apply bind_Ok in Hstep as (p & _ & Hstep). injection Hstep as <-.
  apply Forall_alter; [|by auto]. apply Forall_alter; [done | by auto].
Qed.

Lemma linkParents_Ok {N : Type} `{TreeNode N} (invalid : Z -> exn) (loop : exn)
    (nodes nodes' : list N) (parentIDs : list Z) :
  linkParents invalid loop nodes parentIDs = Ok nodes' ->
  resolveParents invalid nodes parentIDs = Ok nodes'.
Proof.
  unfold linkParents. intros H0. apply bind_Ok in H0 as (nodes1 & Hresolve & H0).
  apply bind_Ok in H0 as (? & _ & H0). by injection H0 as <-.
Qed.

Lemma unpack_outcome (fmt : list code) (b : bytes) :
  (exists v, unpack fmt b = Ok v) \/ unpack fmt b = Raise struct_error.
Proof. unfold unpack. case_decide; eauto. Qed.

Lemma parseMeshGroupAssignment_outcome (definition : bytes) :
  (exists a, parseMeshGroupAssignment definition = Ok a /\ unsigned a)
  \/ parseMeshGroupAssignment definition = Raise struct_error.
Proof.
  unfold parseMeshGroupAssignment, unpack. case_decide; [|by right].
  left. rewrite bind_Ok_l. cbn.
  eexists. split; [done|]. unfold unsigned, decode. cbn.
  repeat split; apply le_decode_nonneg.
Qed.

Lemma mapM_outcome {A B : Type} (P : B -> Prop) (e : exn) (f : A -> result B)
    (l : list A) :
  (forall a, (exists b, f a = Ok b /\ P b) \/ f a = Raise e) ->
  (exists ys, mapM f l = Ok ys /\ Forall P ys) \/ mapM f l = Raise e.
Proof.
  intros Hf. induction l as [|a l IH]; cbn [mapM].
  - left. eauto.
  - destruct (Hf a) as [(b & -> & Hb) | ->]; [|by right].
    rewrite bind_Ok_l. destruct IH as [(ys & -> & Hys) | ->]; [|by right].
    left. eexists. split; [done|]. by constructor.
Qed.

Lemma parseMeshGroupAssignments_outcome (fmdl : FmdlContainer.t) :
  (exists assignmentList,
     parseMeshGroupAssignments fmdl = Ok assignmentList /\ Forall unsigned assignmentList)
  \/ parseMeshGroupAssignments fmdl = Raise struct_error.
Proof.
  unfold parseMeshGroupAssignments.
  destruct (FmdlContainer.segment0Blocks fmdl !! 2) as [block|]; [|left; eauto].
  apply mapM_outcome, parseMeshGroupAssignment_outcome.
Qed.

Lemma linked_sameLinks (parentIDs : list Z) (groups0 groups : list MeshGroup.t) :
  Forall2 sameLinks groups0 groups -> linked parentIDs groups0 -> linked parentIDs groups.
Proof.
  intros Hsame Hlinked i group Hgroup.
  destruct (Forall2_lookup_r _ _ _ _ _ Hsame Hgroup) as (group0 & Hgroup0 & Hparent & Hchildren).
  destruct (Hlinked i group0 Hgroup0) as [Hp Hc].
  simpl in *. split; congruence.
Qed.

(** The outcomes of [parseMeshGroups] once its first loop has succeeded. *)
Lemma parseMeshGroups_outcome {BoundingBox Mesh : Type} (fmdl : FmdlContainer.t)
    (strings : list string) (boundingBoxes : list BoundingBox) (meshes : list Mesh)
    (items : list (MeshGroup.t * Z)) :
  mapM (parseMeshGroup strings) (default [] (FmdlContainer.segment0Blocks fmdl !! 1))
    = Ok items ->
  let parentIDs := items.*2 in
  let r := parseMeshGroups fmdl strings boundingBoxes meshes in
  (exists parentID, parentID ∈ parentIDs /\ ¬ parentID < len items
                    /\ r = Raise (invalidMeshGroupParent parentID))
  \/ (Forall (fun parentID => parentID < len items) parentIDs
      /\ hasCycle (parentOf parentIDs) /\ r = Raise meshGroupParentLoop)
  \/ (Forall (fun parentID => parentID < len items) parentIDs
      /\ ¬ hasCycle (parentOf parentIDs)
      /\ (parseMeshGroupAssignments fmdl = Raise struct_error /\ r = Raise struct_error
          \/ exists assignmentList,
               parseMeshGroupAssignments fmdl = Ok assignmentList
               /\ (raises assignmentError r
                   \/ exists groups,
                        r = Ok groups /\ length groups = length items
                        /\ linked parentIDs groups
                        /\ (forall m, 0 <= m < len meshes ->
                                      coverCount assignmentList m = 1%nat)
                        /\ eachMeshInOneGroup (length meshes) groups))).
Proof.
  intros Hitems parentIDs r. subst r parentIDs. unfold parseMeshGroups. cbv zeta.
  rewrite Hitems, bind_Ok_l.
  assert (Hfresh : Forall (fun item : MeshGroup.t * Z =>
            fresh item.1 /\ MeshGroup.meshes item.1 = []
            /\ MeshGroup.boundingBox item.1 = None) items).
  { apply (mapM_Forall _ _ _ _ (parseMeshGroup_fresh strings)) in Hitems. exact Hitems. }
  assert (Hlen : len items = len items.*1) by (unfold len; by rewrite length_fmap).
  rewrite Hlen. replace (length items) with (length items.*1) by apply length_fmap.
  destruct (parentLinks_outcome invalidMeshGroupParent meshGroupParentLoop items.*1 items.*2)
    as [(x & Hin & Hbad & Hraise) | [(Hvalid & Hcycle & Hraise)
        | (Hvalid & Hnocycle & groups0 & Hok & Hlen0 & Hlinked)]].
  { by rewrite !length_fmap. }
  { apply Forall_fmap. eapply Forall_impl; [exact Hfresh|]. by intros item [? _]. }
  - left. exists x. by rewrite Hraise.
  - right. left. by rewrite Hraise.
  - right. right. split; [done|]. split; [done|]. rewrite Hok, bind_Ok_l.
    destruct (parseMeshGroupAssignments_outcome fmdl) as [(assignmentList & Hlist & Huns) | Hlist];
      [|left; by rewrite Hlist].
    right. exists assignmentList. split; [done|]. rewrite Hlist, bind_Ok_l.
    assert (Hmeshes0 : Forall (fun g => MeshGroup.meshes g = []) groups0).
    { apply linkParents_Ok in Hok.
      apply (resolveParents_Forall (fun g => MeshGroup.meshes g = []) _ _ _ _) in Hok;
        [done | done | done |].
      apply Forall_fmap. eapply Forall_impl; [exact Hfresh|]. by intros item (_ & ? & _). }
    destruct (assignAndCollect_outcome boundingBoxes meshes groups0 assignmentList Huns Hmeshes0)
      as [Hraise | (groups & -> & Hsame & Hcover & Hone)]; [by left|].
    right. exists groups. split; [done|]. split.
    { apply Forall2_length in Hsame. lia. }
    split; [|done]. by apply (linked_sameLinks _ groups0).
Qed.

Lemma NoDup_range (a b : Z) : NoDup (range a b).
Proof.
  unfold range. apply NoDup_fmap_2_strong; [|apply NoDup_seq].
  intros x y _ _ Hxy. lia.
Qed.

(** The loop over the range of one assignment stops at the first mesh of
    the range that is assigned already. *)
Lemma assignMesh_fold_double (meshGroupID : Z) (ks : list Z)
    (assignments : list (option Z)) :
  Forall (fun k => 0 <= k < len assignments) ks ->
  NoDup ks ->
  Exists (fun k => assignments !! Z.to_nat k ≠ Some None) ks ->
  exists k, k ∈ ks /\ assignments !! Z.to_nat k ≠ Some None
    /\ foldM (assignMesh meshGroupID) assignments ks = Raise (doubleAssignment k).
Proof.
  intros Hks Hnodup Hex. revert assignments Hks Hex.
  induction ks as [|k ks IH]; intros assignments Hks Hex; [inversion Hex|].
  apply Forall_cons in Hks. destruct Hks as [Hk Hks].
  apply NoDup_cons in Hnodup. destruct Hnodup as [Hnotin Hnodup].
  cbn [foldM].
  destruct (assignments !! Z.to_nat k) as [a|] eqn:Ha.
  2:{ apply lookup_ge_None in Ha. unfold len in Hk. lia. }
  rewrite (assignMesh_step _ _ _ a) by done.
  case_decide as Hassigned.
  { exists k. split; [apply list_elem_of_here|]. split; [congruence | done]. }
  subst a. rewrite bind_Ok_l.
  assert (Hother : forall k', k' ∈ ks ->
            <[Z.to_nat k := Some meshGroupID]> assignments !! Z.to_nat k'
            = assignments !! Z.to_nat k').
  { intros k' Hk'. apply list_lookup_insert_ne. intros Heq.
    rewrite Forall_forall in Hks. specialize (Hks k' Hk').
    assert (k = k') by lia. by subst. }
  destruct (IH Hnodup (<[Z.to_nat k := Some meshGroupID]> assignments))
    as (k' & Hin & Hk' & Hraise).
  - unfold len. rewrite length_insert. exact Hks.
  - apply Exists_cons in Hex. destruct Hex as [Hex|Hex]; [done|].
    apply Exists_exists in Hex. destruct Hex as (k' & Hin & Hk').
    apply Exists_exists. exists k'. split; [done|]. by rewrite Hother.
  - exists k'. split; [by apply list_elem_of_further|]. split; [|done].
    by rewrite <- Hother.
Qed.

Section Messages.
Context {BoundingBox Mesh : Type}.
Variables (boundingBoxes : list BoundingBox) (meshes : list Mesh).

(** An assignment whose references are in range and whose range holds a
    mesh that is assigned already ends in the error for a double
    assignment. *)
Lemma assignMeshes_double (groups : list MeshGroup.t) (assignments : list (option Z))
    (a : Z * Z * Z * Z) (m : Z) :
  unsigned a ->
  a.1.1.1 < len groups -> a.1.1.2 + a.1.2 <= len meshes -> a.2 < len boundingBoxes ->
  len assignments = len meshes ->
  covers a m -> assignments !! Z.to_nat m ≠ Some None ->
  exists k, covers a k /\ assignments !! Z.to_nat k ≠ Some None
    /\ assignMeshes boundingBoxes meshes (groups, assignments) a
       = Raise (doubleAssignment k).
Proof.
  destruct a as [[[meshGroupID firstMeshIndex] meshCount] boundingBoxID].
  unfold unsigned, covers. simpl.
  intros (Hg & Hfirst & Hcount & Hbb) Hgroup Hmesh Hbox Hlen Hm Hassigned.
  unfold assignMeshes.
  case_decide; [done|]. case_decide; [done|]. case_decide; [done|].
  destruct (assignMesh_fold_double meshGroupID
              (range firstMeshIndex (firstMeshIndex + meshCount)) assignments)
    as (k & Hk & Hk' & ->).
  - apply Forall_forall. intros k Hk. apply elem_of_range in Hk. lia.
  - apply NoDup_range.
  - apply Exists_exists. exists m. split; [by apply elem_of_range | done].
  - exists k. apply elem_of_range in Hk. done.
Qed.

Lemma assigning_init (groups0 : list MeshGroup.t) :
Forall (fun g => MeshGroup.meshes g = []) groups0 ->
assigning groups0 (length meshes) [] (groups0, map (fun _ => @None Z) meshes).
Proof.
intros Hmeshes0. split; simpl; try done.
- by rewrite length_map.
- apply Forall_Forall2_diag. apply Forall_forall. by intros g _.
- intros i Hi. split; [done|]. intros _.
  rewrite list_lookup_fmap. destruct (meshes !! i) eqn:Hm; [done|].
  apply lookup_ge_None in Hm. lia.
- intros i g. rewrite list_lookup_fmap. by destruct (meshes !! i).
- intros m. unfold coverCount. simpl. lia.
Qed.

(** The state of the loop over the assignments after a prefix of them
  that raises nothing. *)
Lemma assignMeshes_state (groups0 : list MeshGroup.t) (done : list (Z * Z * Z * Z))
  (st : list MeshGroup.t * list (option Z)) :
Forall (fun g => MeshGroup.meshes g = []) groups0 ->
Forall unsigned done ->
foldM (assignMeshes boundingBoxes meshes) (groups0, map (fun _ => @None Z) meshes) done
  = Ok st ->
assigning groups0 (length meshes) done st.
Proof.
intros Hmeshes0 Hdone Hfold.
destruct (assignMeshes_fold boundingBoxes meshes groups0 done [] _ Hdone
            (assigning_init groups0 Hmeshes0))
  as [(e & He & _) | (st' & Hst' & Hinv)]; [congruence|].
rewrite Hfold in Hst'. by injection Hst' as <-.
Qed.

(** When the loop over the assignments raises nothing and no assignment
  covers mesh [m], the read ends in the error for an unassigned mesh. *)
Lemma assignAndCollect_unassigned (groups0 : list MeshGroup.t)
  (assignmentList : list (Z * Z * Z * Z)) (st : list MeshGroup.t * list (option Z))
  (m : Z) :
Forall unsigned assignmentList ->
Forall (fun g => MeshGroup.meshes g = []) groups0 ->
foldM (assignMeshes boundingBoxes meshes) (groups0, map (fun _ => @None Z) meshes)
  assignmentList = Ok st ->
0 <= m < len meshes ->
coverCount assignmentList m = 0%nat ->
assignAndCollect boundingBoxes meshes groups0 assignmentList = Raise meshNotAssigned.
Proof.
intros Huns Hmeshes0 Hfold Hm Hzero.
pose proof (assignMeshes_state groups0 assignmentList st Hmeshes0 Huns Hfold) as Hinv.
unfold assignAndCollect. rewrite Hfold, bind_Ok_l.
destruct st as [groups assignments].
destruct Hinv as [_ _ _ Hnone _ _ _]. simpl in *.
rewrite decide_True; [done|].
apply (list_elem_of_lookup_2 _ (Z.to_nat m)).
apply Hnone; [unfold len in Hm; lia|]. by rewrite Z2Nat.id by lia.
Qed.

(** The first assignment that covers a mesh covered before, when its
  references are in range, ends the read in the error for a double
  assignment. *)
Lemma assignAndCollect_double (groups0 : list MeshGroup.t)
  (done rest : list (Z * Z * Z * Z)) (a : Z * Z * Z * Z)
  (st : list MeshGroup.t * list (option Z)) (m : Z) :
Forall (fun g => MeshGroup.meshes g = []) groups0 ->
Forall unsigned (done ++ a :: rest) ->
foldM (assignMeshes boundingBoxes meshes) (groups0, map (fun _ => @None Z) meshes) done
  = Ok st ->
a.1.1.1 < len groups0 -> a.1.1.2 + a.1.2 <= len meshes -> a.2 < len boundingBoxes ->
covers a m -> coverCount done m ≠ 0%nat ->
exists k, covers a k /\ coverCount done k ≠ 0%nat
  /\ assignAndCollect boundingBoxes meshes groups0 (done ++ a :: rest)
     = Raise (doubleAssignment k).
Proof.
intros Hmeshes0 Huns Hfold Hgroup Hmesh Hbox Hm Hcovered.
apply Forall_app in Huns. destruct Huns as [Hdone Huns].
apply Forall_cons in Huns. destruct Huns as [Ha _].
pose proof (assignMeshes_state groups0 done st Hmeshes0 Hdone Hfold) as Hinv.
destruct st as [groups assignments].
destruct Hinv as [Hlen Hlinks _ Hnone _ _ _]. simpl in *.
assert (HG : length groups = length groups0) by (symmetry; by eapply Forall2_length).
assert (Hin : forall k, covers a k -> 0 <= k < len meshes).
{ intros k Hk. destruct Ha as (_ & ? & ? & _). unfold covers in Hk. lia. }
destruct (assignMeshes_double groups assignments a m)
  as (k & Hk & Hassigned & Hraise); try done.
- unfold len in *. lia.
- unfold len in *. lia.
- intros Hfree. apply Hcovered. specialize (Hin m Hm).
  replace m with (Z.of_nat (Z.to_nat m)) by lia.
  apply Hnone; [unfold len in Hin; lia | done].
- exists k. split; [done|]. split.
  + intros Hzero. apply Hassigned. specialize (Hin k Hk).
    apply Hnone; [unfold len in Hin; lia|]. by rewrite Z2Nat.id by lia.
  + unfold assignAndCollect. rewrite foldM_app, Hfold, bind_Ok_l. cbn [foldM].
    by rewrite Hraise.
Qed.
End Messages.

(** [parseMeshGroups] after its first three loops. *)
Lemma parseMeshGroups_assign {BoundingBox Mesh : Type} (fmdl : FmdlContainer.t)
    (strings : list string) (boundingBoxes : list BoundingBox) (meshes : list Mesh)
    (items : list (MeshGroup.t * Z)) (groups0 : list MeshGroup.t)
    (assignmentList : list (Z * Z * Z * Z)) :
  mapM (parseMeshGroup strings) (default [] (FmdlContainer.segment0Blocks fmdl !! 1))
    = Ok items ->
  linkParents invalidMeshGroupParent meshGroupParentLoop items.*1 items.*2 = Ok groups0 ->
  parseMeshGroupAssignments fmdl = Ok assignmentList ->
  parseMeshGroups fmdl strings boundingBoxes meshes
    = assignAndCollect boundingBoxes meshes groups0 assignmentList
  /\ Forall unsigned assignmentList
  /\ Forall (fun g => MeshGroup.meshes g = []) groups0.
Proof.
  intros Hitems Hlink Hlist. unfold parseMeshGroups. cbv zeta.
  rewrite Hitems, bind_Ok_l, Hlink, bind_Ok_l, Hlist, bind_Ok_l.
  split; [done|]. split.
  - destruct (parseMeshGroupAssignments_outcome fmdl) as [(l & Hl & Huns) | Hl]; congruence.
  - apply linkParents_Ok in Hlink.
    apply (resolveParents_Forall (fun g => MeshGroup.meshes g = []) _ _ _ _) in Hlink;
      [done | done | done |].
    apply Forall_fmap.
    apply (mapM_Forall _ _ _ _ (parseMeshGroup_fresh strings)) in Hitems.
    eapply Forall_impl; [exact Hitems|]. by intros item (_ & ? & _).
Qed.

Lemma assignmentError_not_loop (e : exn) : assignmentError e -> e ≠ meshGroupParentLoop.
Proof. intros He. destruct He; unfold doubleAssignment, meshNotAssigned; discriminate. Qed.

Example parseBones_two_bone_cycle :
  parseBones Examples.twoBoneCycle [""] [tt] = Raise boneParentLoop.
Proof. vm_compute. reflexivity. Qed.

Example parseMeshGroups_two_group_cycle :
  parseMeshGroups Examples.twoGroupCycle [""] [tt] [tt] = Raise meshGroupParentLoop.
Proof. vm_compute. reflexivity. Qed.

Example parseMeshGroups_ungrouped :
  parseMeshGroups Examples.ungrouped [""] [tt] [tt] = Raise meshNotAssigned.
Proof. vm_compute. reflexivity. Qed.

Example parseMeshGroups_grouped_twice :
  parseMeshGroups Examples.groupedTwice [""] [tt] [tt] = Raise (doubleAssignment 0).
Proof. vm_compute. reflexivity. Qed.

(** C7: for the bones and for the mesh groups of a container whose records
    the first loop reads, a cycle in the parent links the records name ends
    the read in InvalidFmdl, with the parent-loop message when every parent
    ID is in range; without a cycle that error is not raised (and the read of
    the bones succeeds when every parent ID is in range); and after a read
    that succeeds every node has the parent its record names and as children
    the nodes whose records name it, in the order of the records. *)
Theorem parent_cycles_detected :
  (forall (BoundingBox : Type) (fmdl : FmdlContainer.t) (strings : list string)
          (boundingBoxes : list BoundingBox) (block : list bytes)
          (items : list (Bone.t * Z)),
     FmdlContainer.segment0Blocks fmdl !! 0 = Some block ->
     mapM (parseBone strings boundingBoxes) block = Ok items ->
     let parentIDs := items.*2 in
     let valid := Forall (fun parentID => parentID < len items) parentIDs in
     let r := parseBones fmdl strings boundingBoxes in
     (hasCycle (parentOf parentIDs) ->
        is_InvalidFmdl r /\ (valid -> r = Raise boneParentLoop))
     /\ (¬ hasCycle (parentOf parentIDs) ->
        r ≠ Raise boneParentLoop /\ (valid -> exists bones, r = Ok bones))
     /\ (forall bones, r = Ok bones ->
           length bones = length items /\ linked parentIDs bones))
  /\ (forall (BoundingBox Mesh : Type) (fmdl : FmdlContainer.t) (strings : list string)
             (boundingBoxes : list BoundingBox) (meshes : list Mesh)
             (items : list (MeshGroup.t * Z)),
     mapM (parseMeshGroup strings) (default [] (FmdlContainer.segment0Blocks fmdl !! 1))
       = Ok items ->
     let parentIDs := items.*2 in
     let valid := Forall (fun parentID => parentID < len items) parentIDs in
     let r := parseMeshGroups fmdl strings boundingBoxes meshes in
     (hasCycle (parentOf parentIDs) ->
        is_InvalidFmdl r /\ (valid -> r = Raise meshGroupParentLoop))
     /\ (¬ hasCycle (parentOf parentIDs) -> r ≠ Raise meshGroupParentLoop)
     /\ (forall groups, r = Ok groups ->
           length groups = length items /\ linked parentIDs groups)).
Proof.
  split.
  - intros BoundingBox fmdl strings boundingBoxes block items Hblock Hitems parentIDs valid r.
    destruct (parseBones_outcome fmdl strings boundingBoxes block items Hblock Hitems)
      as [(x & Hin & Hbad & Hraise) | [(Hvalid & Hcycle & Hraise)
          | (Hvalid & Hnocycle & bones & Hok & Hlen & Hlinked)]];
      subst parentIDs valid r.
    + assert (Hinvalid : ¬ Forall (fun parentID => parentID < len items) items.*2).
      { intros Hvalid. rewrite Forall_forall in Hvalid. by apply Hbad, Hvalid. }
      rewrite Hraise.
      split; [intros _; split; [by eexists _, _ | done]|].
      split; [intros _; split; [discriminate | done]|].
      discriminate.
    + rewrite Hraise.
      split; [intros _; split; [by eexists _, _ | done]|].
      split; [done | discriminate].
    + rewrite Hok.
      split; [done|].
      split; [intros _; split; [discriminate | by exists bones]|].
      by intros bones' [= <-].
  - intros BoundingBox Mesh fmdl strings boundingBoxes meshes items Hitems parentIDs valid r.
    destruct (parseMeshGroups_outcome fmdl strings boundingBoxes meshes items Hitems)
      as [(x & Hin & Hbad & Hraise) | [(Hvalid & Hcycle & Hraise)
          | (Hvalid & Hnocycle & [[_ Hraise] | (assignmentList & _ &
               [(e & Hraise & He) | (groups & Hok & Hlen & Hlinked & _)])])]];
      subst parentIDs valid r.
    + assert (Hinvalid : ¬ Forall (fun parentID => parentID < len items) items.*2).
      { intros Hvalid. rewrite Forall_forall in Hvalid. by apply Hbad, Hvalid. }
      rewrite Hraise.
      split; [intros _; split; [by eexists _, _ | done]|].
      split; discriminate.
    + rewrite Hraise.
      split; [intros _; split; [by eexists _, _ | done]|].
      split; [done | discriminate].
    + rewrite Hraise. split; [done|]. split; discriminate.
    + rewrite Hraise. split; [done|]. split; [|discriminate].
      intros _ [= ->]. by apply (assignmentError_not_loop _ He).
    + rewrite Hok. split; [done|]. split; [discriminate|].
      by intros groups' [= <-].
Qed.

Lemma parent_cycles_detected_witness :
  hasCycle (parentOf [1; 0])
  /\ parseBones Examples.twoBoneCycle [""] [tt] = Raise boneParentLoop
  /\ parseMeshGroups Examples.twoGroupCycle [""] [tt] [tt] = Raise meshGroupParentLoop
  /\ exists bones, parseBones Examples.boneFamily [""] [tt] = Ok bones
       /\ linked [-1; 0; 0] bones.
Proof.
  assert (Hcycle : hasCycle (parentOf [1; 0])).
  { exists 0%nat, 2%nat. split; [lia | reflexivity]. }
  split; [exact Hcycle|].
  split; [|split].
  - pose (block := [Examples.boneRecord 1; Examples.boneRecord 0]).
    pose (items := Examples.value [] (mapM (parseBone [""] [tt]) block)).
    destruct (proj1 parent_cycles_detected unit Examples.twoBoneCycle [""] [tt] block items)
      as [Hloop _].
    + vm_compute. reflexivity.
    + vm_compute. reflexivity.
    + apply Hloop; [exact Hcycle|].
      repeat constructor; vm_compute; reflexivity.
  - pose (items := Examples.value []
                     (mapM (parseMeshGroup [""])
                        [Examples.meshGroupRecord 1; Examples.meshGroupRecord 0])).
    destruct (proj2 parent_cycles_detected unit unit Examples.twoGroupCycle [""] [tt] [tt] items)
      as [Hloop _].
    + vm_compute. reflexivity.
    + apply Hloop; [exact Hcycle|].
      repeat constructor; vm_compute; reflexivity.
  - pose (block := [Examples.boneRecord (-1); Examples.boneRecord 0; Examples.boneRecord 0]).
    pose (items := Examples.value [] (mapM (parseBone [""] [tt]) block)).
    destruct (proj1 parent_cycles_detected unit Examples.boneFamily [""] [tt] block items)
      as (_ & _ & Hlinked).
    + vm_compute. reflexivity.
    + vm_compute. reflexivity.
    + eexists. split; [vm_compute; reflexivity|].
      apply Hlinked. vm_compute. reflexivity.
Defined.

(** C8: after a read of the mesh groups that succeeds, every mesh is in
    the list of exactly one mesh group, once.  When the records of the groups
    and of the assignments are read and some mesh index is covered by no
    assignment, or by two, the read ends in InvalidFmdl: with the message for
    an unassigned mesh when no assignment covers the mesh and the loop over
    the assignments raises nothing, and with the message for a double
    assignment at the first assignment that covers a mesh covered before,
    when the references of that assignment are in range. *)
Theorem every_mesh_in_one_group {BoundingBox Mesh : Type} (fmdl : FmdlContainer.t)
    (strings : list string) (boundingBoxes : list BoundingBox) (meshes : list Mesh) :
  let r := parseMeshGroups fmdl strings boundingBoxes meshes in
  let block := default [] (FmdlContainer.segment0Blocks fmdl !! 1) in
  let noGroup := map (fun _ => @None Z) meshes in
  (forall groups, r = Ok groups -> eachMeshInOneGroup (length meshes) groups)
  /\ (forall items assignmentList m,
        mapM (parseMeshGroup strings) block = Ok items ->
        parseMeshGroupAssignments fmdl = Ok assignmentList ->
        0 <= m < len meshes ->
        coverCount assignmentList m ≠ 1%nat ->
        is_InvalidFmdl r)
  /\ (forall items groups0 assignmentList st m,
        mapM (parseMeshGroup strings) block = Ok items ->
        linkParents invalidMeshGroupParent meshGroupParentLoop items.*1 items.*2
          = Ok groups0 ->
        parseMeshGroupAssignments fmdl = Ok assignmentList ->
        foldM (assignMeshes boundingBoxes meshes) (groups0, noGroup) assignmentList
          = Ok st ->
        0 <= m < len meshes ->
        coverCount assignmentList m = 0%nat ->
        r = Raise meshNotAssigned)
  /\ (forall items groups0 done rest meshGroupID firstMeshIndex meshCount boundingBoxID st m,
        let a := (meshGroupID, firstMeshIndex, meshCount, boundingBoxID) in
        mapM (parseMeshGroup strings) block = Ok items ->
        linkParents invalidMeshGroupParent meshGroupParentLoop items.*1 items.*2
          = Ok groups0 ->
        parseMeshGroupAssignments fmdl = Ok (done ++ a :: rest) ->
        foldM (assignMeshes boundingBoxes meshes) (groups0, noGroup) done = Ok st ->
        meshGroupID < len groups0 ->
        firstMeshIndex + meshCount <= len meshes ->
        boundingBoxID < len boundingBoxes ->
        covers a m ->
        coverCount done m ≠ 0%nat ->
        exists k, covers a k /\ coverCount done k ≠ 0%nat
                  /\ r = Raise (doubleAssignment k)).
Proof.
  intros r block noGroup. subst r block noGroup.
  split; [|split; [|split]].
  - intros groups Hok.
    destruct (mapM (parseMeshGroup strings)
                (default [] (FmdlContainer.segment0Blocks fmdl !! 1))) as [items| |] eqn:Hitems.
    2,3: by (unfold parseMeshGroups in Hok; cbv zeta in Hok; rewrite Hitems in Hok).
    destruct (parseMeshGroups_outcome fmdl strings boundingBoxes meshes items Hitems)
      as [(x & _ & _ & Hraise) | [(_ & _ & Hraise)
          | (_ & _ & [[_ Hraise] | (assignmentList & _ &
               [(e & Hraise & _) | (groups' & Hok' & _ & _ & _ & Hone)])])]];
      try congruence.
    rewrite Hok in Hok'. by injection Hok' as <-.
  - intros items assignmentList m Hitems Hlist Hm Hcount.
    destruct (parseMeshGroups_outcome fmdl strings boundingBoxes meshes items Hitems)
      as [(x & _ & _ & Hraise) | [(_ & _ & Hraise)
          | (_ & _ & [[Hfail _] | (assignmentList' & Hlist' &
               [Hraise | (groups' & _ & _ & _ & Hcover & _)])])]].
    + rewrite Hraise. apply is_InvalidFmdl_Raise.
    + rewrite Hraise. apply is_InvalidFmdl_Raise.
    + congruence.
    + by apply assignmentError_InvalidFmdl.
    + rewrite Hlist in Hlist'. injection Hlist' as <-.
      by specialize (Hcover m Hm).
  - intros items groups0 assignmentList st m Hitems Hlink Hlist Hfold Hm Hzero.
    destruct (parseMeshGroups_assign fmdl strings boundingBoxes meshes items groups0
                assignmentList Hitems Hlink Hlist) as (-> & Huns & Hmeshes0).
    by apply (assignAndCollect_unassigned _ _ _ _ st m).
  - intros items groups0 done rest meshGroupID firstMeshIndex meshCount boundingBoxID st m a
      Hitems Hlink Hlist Hfold Hgroup Hmesh Hbox Hm Hcovered.
    destruct (parseMeshGroups_assign fmdl strings boundingBoxes meshes items groups0
                (done ++ a :: rest) Hitems Hlink Hlist) as (-> & Huns & Hmeshes0).
    by apply (assignAndCollect_double _ _ _ _ _ _ st m).
Qed.

Lemma every_mesh_in_one_group_witness :
  (exists groups,
     parseMeshGroups Examples.grouped [""] [tt] [tt] = Ok groups
     /\ eachMeshInOneGroup 1 groups)
  /\ parseMeshGroups Examples.ungrouped [""] [tt] [tt] = Raise meshNotAssigned
  /\ exists k, coverCount [(0, 0, 1, 0)] k ≠ 0%nat
       /\ parseMeshGroups Examples.groupedTwice [""] [tt] [tt] = Raise (doubleAssignment k).
Proof.
  pose (items := Examples.value [] (mapM (parseMeshGroup [""]) [Examples.meshGroupRecord (-1)])).
  pose (groups0 := Examples.value []
                     (linkParents invalidMeshGroupParent meshGroupParentLoop items.*1 items.*2)).
  split; [|split].
  - eexists. split; [vm_compute; reflexivity|].
    apply (proj1 (every_mesh_in_one_group Examples.grouped [""] [tt] [tt])).
    vm_compute. reflexivity.
  - apply (proj1 (proj2 (proj2 (every_mesh_in_one_group Examples.ungrouped [""] [tt] [tt])))
             items groups0 [] (groups0, [None]) 0).
    + vm_compute. reflexivity.
    + vm_compute. reflexivity.
    + vm_compute. reflexivity.
    + vm_compute. reflexivity.
    + unfold len. simpl. lia.
    + vm_compute. reflexivity.
  - destruct (proj2 (proj2 (proj2 (every_mesh_in_one_group Examples.groupedTwice [""] [tt] [tt])))
                items groups0 [(0, 0, 1, 0)] [] 0 0 1 0
                (Examples.value (groups0, [])
                   (foldM (assignMeshes [tt] [tt]) (groups0, [None]) [(0, 0, 1, 0)])) 0)
      as (k & _ & Hk & Hraise).
    + vm_compute. reflexivity.
    + vm_compute. reflexivity.
    + vm_compute. reflexivity.
    + vm_compute. reflexivity.
    + vm_compute. reflexivity.
    + unfold len. simpl. lia.
    + vm_compute. reflexivity.
    + unfold covers. simpl. lia.
    + vm_compute. discriminate.
    + exists k. split; [exact Hk | exact Hraise].
Defined.

(** ** [unpack] after [pack] *)

Lemma byte_val_of (z : Z) : byte_val (byte_of z) = z mod 256.
Proof.
  unfold byte_val, byte_of.
  assert (Hz : 0 <= z mod 256 < 256) by (apply Z.mod_pos_bound; lia).
  destruct (Byte.of_N (Z.to_N (z mod 256))) as [b|] eqn:Hb.
  - apply Byte.to_of_N in Hb. rewrite Hb. lia.
  - apply Byte.of_N_None_iff in Hb. lia.
Qed.

Lemma le_decode_encode (n : nat) (z : Z) :
  0 <= z < 2 ^ (8 * Z.of_nat n) -> le_decode (le_encode n z) = z.
Proof.
  revert z. induction n as [|n IH]; intros z Hz.
  - simpl in *. lia.
  - cbn [le_encode le_decode]. rewrite byte_val_of.
    replace (8 * Z.of_nat (S n)) with (8 + 8 * Z.of_nat n) in Hz by lia.
    rewrite Z.pow_add_r in Hz by lia. change (2 ^ 8) with 256 in Hz.
    rewrite IH.
    + pose proof (Z.div_mod z 256). lia.
    + split; [apply Z.div_pos; lia|]. apply Z.div_lt_upper_bound; lia.
Qed.

Lemma decode_encode_field (c : code) (z : Z) :
  (forall n, c ≠ s_ n) -> c ≠ x_ ->
  in_range c z = true ->
  decode c (le_encode (size c)
              (if z <? 0 then z + 2 ^ (8 * Z.of_nat (size c)) else z)) = z.
Proof.
  intros Hs Hx Hz.
  destruct c; try done; try (by destruct (Hs n));
    unfold in_range, decode, signed in *; cbn [size] in *;
    apply andb_prop in Hz; destruct Hz as [Hlo Hhi];
    apply Z.leb_le in Hlo; apply Z.ltb_lt in Hhi;
    try (rewrite (proj2 (Z.ltb_ge z 0)) by lia; apply le_decode_encode; lia).
  - destruct (Z.ltb_spec z 0).
    + rewrite le_decode_encode by (cbn in *; lia).
      rewrite (proj2 (Z.ltb_ge _ _)); cbn in *; lia.
    + rewrite le_decode_encode by (cbn in *; lia).
      rewrite (proj2 (Z.ltb_lt _ _)); cbn in *; lia.
  - destruct (Z.ltb_spec z 0).
    + rewrite le_decode_encode by (cbn in *; lia).
      rewrite (proj2 (Z.ltb_ge _ _)); cbn in *; lia.
    + rewrite le_decode_encode by (cbn in *; lia).
      rewrite (proj2 (Z.ltb_lt _ _)); cbn in *; lia.
Qed.

(** A format without [s] fields: what [pack] writes, [unpack] reads. *)
Lemma unpack_fields_pack (fmt : list code) (v : tuple fmt) (bs : bytes) :
  Forall (fun c => forall n, c ≠ s_ n) fmt ->
  pack fmt v = Ok bs -> unpack_fields fmt bs = v.
Proof.
  unfold pack. intros Hfmt. revert v bs.
  induction fmt as [|c fmt IH]; intros v bs Hpack.
  - by destruct v.
  - apply Forall_cons in Hfmt. destruct Hfmt as [Hc Hfmt].
    specialize (IH Hfmt).
    assert (Hint : forall (v : Z * tuple fmt) bs, c ≠ x_ ->
              (if in_range c v.1
               then bs ← pack_fields fmt v.2;
                    Ok (le_encode (size c)
                          (if v.1 <? 0 then v.1 + 2 ^ (8 * Z.of_nat (size c)) else v.1) ++ bs)
               else Raise struct_error) = Ok bs ->
              decode c (take (size c) bs) = v.1
              /\ unpack_fields fmt (drop (size c) bs) = v.2).
    { intros [z v'] bs' Hx H. simpl in *.
      destruct (in_range c z) eqn:Hz; [|done].
      apply bind_Ok in H as (bs'' & Hbs'' & H). injection H as <-.
      rewrite take_app_length' by (symmetry; apply le_encode_length).
      rewrite drop_app_length' by (symmetry; apply le_encode_length).
      split; [by apply decode_encode_field | by apply IH]. }
    destruct c; cbn [pack_fields unpack_fields] in *.
    + apply bind_Ok in Hpack as (bs' & Hbs' & H). injection H as <-.
      cbn. rewrite drop_0. by apply IH.
    + by destruct (Hc n).
    + destruct (Hint v bs) as [H1 H2]; [done | done |]. destruct v. simpl in *. congruence.
    + destruct (Hint v bs) as [H1 H2]; [done | done |]. destruct v. simpl in *. congruence.
    + destruct (Hint v bs) as [H1 H2]; [done | done |]. destruct v. simpl in *. congruence.
    + destruct (Hint v bs) as [H1 H2]; [done | done |]. destruct v. simpl in *. congruence.
    + destruct (Hint v bs) as [H1 H2]; [done | done |]. destruct v. simpl in *. congruence.
    + destruct (Hint v bs) as [H1 H2]; [done | done |]. destruct v. simpl in *. congruence.
    + destruct (Hint v bs) as [H1 H2]; [done | done |]. destruct v. simpl in *. congruence.
Qed.

Lemma unpack_pack (fmt : list code) (v : tuple fmt) (bs : bytes) :
  Forall (fun c => forall n, c ≠ s_ n) fmt ->
  pack fmt v = Ok bs -> unpack fmt bs = Ok v.
Proof.
  intros Hfmt Hpack. unfold unpack.
  rewrite decide_True by (by eapply pack_length).
  f_equal. by apply unpack_fields_pack.
Qed.

Lemma pack_fits (fmt : list code) (v : tuple fmt) :
  fits fmt v = true -> pack fmt v = Ok (packed fmt v).
Proof.
  intros Hfits. assert (H : exists bs, pack fmt v = Ok bs); [|destruct H as [bs H];
    unfold packed; by rewrite H].
  unfold pack. induction fmt as [|c fmt IH]; [by eexists|].
  assert (Hint : forall v : Z * tuple fmt,
            in_range c v.1 && fits fmt v.2 = true ->
            exists bs,
              (if in_range c v.1
               then bs ← pack_fields fmt v.2;
                    Ok (le_encode (size c)
                          (if v.1 <? 0 then v.1 + 2 ^ (8 * Z.of_nat (size c)) else v.1) ++ bs)
               else Raise struct_error) = Ok bs).
  { intros [z v'] H. simpl in *. apply andb_prop in H. destruct H as [-> H].
    destruct (IH v' H) as [bs ->]. by eexists. }
  destruct c; cbn [fits pack_fields] in *; try by apply Hint.
  - destruct (IH v Hfits) as [bs ->]. by eexists.
  - destruct (IH v.2 Hfits) as [bs ->]. by eexists.
Qed.

Lemma unpack_packed (fmt : list code) (v : tuple fmt) :
  Forall (fun c => forall n, c ≠ s_ n) fmt ->
  fits fmt v = true -> unpack fmt (packed fmt v) = Ok v.
Proof. intros Hfmt Hfits. apply unpack_pack; [done|]. by apply pack_fits. Qed.

(** ** The blocks of the container under the writer *)

Lemma newSegment0BlockDescriptorID_eq (fmdl : FmdlContainer.t) (blockID : Z) :
  (newSegment0BlockDescriptorID fmdl blockID).1 = len (blockOf fmdl blockID)
  /\ forall b, blockOf (newSegment0BlockDescriptorID fmdl blockID).2 b = blockOf fmdl b.
Proof.
  unfold newSegment0BlockDescriptorID, blockOf.
  destruct (FmdlContainer.segment0Blocks fmdl !! blockID) as [block|] eqn:Hblock; simpl.
  - by rewrite Hblock.
  - rewrite lookup_insert_eq. split; [done|]. intros b.
    destruct (decide (b = blockID)) as [->|Hne].
    + by rewrite lookup_insert_eq, Hblock.
    + by rewrite lookup_insert_ne.
Qed.

Lemma addSegment0Block_eq (fmdl : FmdlContainer.t) (blockID : Z) (block : bytes) :
  (addSegment0Block fmdl blockID block).1 = len (blockOf fmdl blockID)
  /\ forall b, blockOf (addSegment0Block fmdl blockID block).2 b
               = if decide (b = blockID) then blockOf fmdl blockID ++ [block]
                 else blockOf fmdl b.
Proof.
  unfold addSegment0Block.
  destruct (newSegment0BlockDescriptorID_eq fmdl blockID) as [Hid Hblocks].
  destruct (newSegment0BlockDescriptorID fmdl blockID) as [ID fmdl'] eqn:Hnew.
  simpl in *. split; [done|]. intros b. rewrite <- !Hblocks. unfold blockOf. simpl.
  case_decide as Hb.
  - subst b. rewrite lookup_alter_eq.
    assert (Hsome : is_Some (FmdlContainer.segment0Blocks fmdl' !! blockID)).
    { unfold newSegment0BlockDescriptorID in Hnew.
      destruct (FmdlContainer.segment0Blocks fmdl !! blockID) eqn:Hblock;
        injection Hnew as <- <-; simpl; [by rewrite Hblock | by rewrite lookup_insert_eq]. }
    destruct Hsome as [entries ->]. done.
  - by rewrite lookup_alter_ne.
Qed.

(** ** The writer's records, read back *)

Lemma mapM_snoc {A B : Type} (f : A -> result B) (l : list A) (a : A) (ys : list B) (y : B) :
  mapM f l = Ok ys -> f a = Ok y -> mapM f (l ++ [a]) = Ok (ys ++ [y]).
Proof. intros Hl Ha. rewrite mapM_app, Hl, bind_Ok_l. cbn [mapM]. by rewrite Ha. Qed.

Lemma mapM_nil_block {B : Type} (f : bytes -> result B) (fmdl : FmdlContainer.t) (blockID : Z) :
  match FmdlContainer.segment0Blocks fmdl !! blockID with
  | None => Ok []
  | Some block => mapM f block
  end = mapM f (blockOf fmdl blockID).
Proof. unfold blockOf. by destruct (FmdlContainer.segment0Blocks fmdl !! blockID). Qed.

(** A reader that maps [f] over the records of block [blockID], after a
    record that [f] reads as [y] is added to that block. *)
Lemma mapM_addSegment0Block {B : Type} (f : bytes -> result B) (fmdl : FmdlContainer.t)
    (blockID : Z) (block : bytes) (ys : list B) (y : B) :
  mapM f (blockOf fmdl blockID) = Ok ys -> f block = Ok y ->
  (addSegment0Block fmdl blockID block).1 = len ys
  /\ mapM f (blockOf (addSegment0Block fmdl blockID block).2 blockID) = Ok (ys ++ [y]).
Proof.
  intros Hys Hy. destruct (addSegment0Block_eq fmdl blockID block) as [-> Hblocks].
  split.
  - unfold len. f_equal. symmetry. by eapply mapM_length.
  - rewrite Hblocks, decide_True by done. by apply mapM_snoc.
Qed.

Ltac fits_tac :=
  cbn [fits in_range size fst snd]; rewrite ?andb_true_iff, ?Z.leb_le, ?Z.ltb_lt;
  cbn; repeat split; lia.

Ltac no_s_tac := repeat constructor; discriminate.

(** X1: [addSegment0Block] returns the place at which the record is
    stored: the record is appended to its block, the block being created
    when it is missing, the ID returned is the number of records the block
    had, the record is the one at that ID afterwards, and no other block of
    either segment changes. *)
Theorem addSegment0Block_stores (fmdl : FmdlContainer.t) (blockID : Z) (block : bytes) :
  let ID := (addSegment0Block fmdl blockID block).1 in
  let fmdl' := (addSegment0Block fmdl blockID block).2 in
  ID = len (blockOf fmdl blockID)
  /\ FmdlContainer.segment0Blocks fmdl' !! blockID = Some (blockOf fmdl blockID ++ [block])
  /\ (entries ← getitem (FmdlContainer.segment0Blocks fmdl') blockID; index entries ID)
     = Ok block
  /\ (forall b, b ≠ blockID ->
        FmdlContainer.segment0Blocks fmdl' !! b = FmdlContainer.segment0Blocks fmdl !! b)
  /\ FmdlContainer.segment1Blocks fmdl' = FmdlContainer.segment1Blocks fmdl
  /\ FmdlContainer.version fmdl' = FmdlContainer.version fmdl.
Proof.
  intros ID fmdl'. subst ID fmdl'.
  assert (Hblock : FmdlContainer.segment0Blocks (addSegment0Block fmdl blockID block).2
                     !! blockID = Some (blockOf fmdl blockID ++ [block])).
  { unfold addSegment0Block, newSegment0BlockDescriptorID, blockOf.
    destruct (FmdlContainer.segment0Blocks fmdl !! blockID) as [entries|] eqn:Hentries; simpl.
    - by rewrite lookup_alter_eq, Hentries.
    - by rewrite lookup_alter_eq, lookup_insert_eq. }
  destruct (addSegment0Block_eq fmdl blockID block) as [Hid _].
  split; [done|]. split; [done|]. split.
  { unfold getitem. rewrite Hblock, bind_Ok_l, Hid.
    apply index_in_range.
    - apply len_nonneg.
    - unfold len. rewrite Nat2Z.id. apply list_lookup_middle. done. }
  split; [|split].
  - intros b Hb. unfold addSegment0Block, newSegment0BlockDescriptorID.
    destruct (FmdlContainer.segment0Blocks fmdl !! blockID) as [entries|] eqn:Hentries; simpl.
    + by rewrite lookup_alter_ne.
    + rewrite lookup_alter_ne by done. by rewrite lookup_insert_ne.
  - unfold addSegment0Block, newSegment0BlockDescriptorID.
    by destruct (FmdlContainer.segment0Blocks fmdl !! blockID).
  - unfold addSegment0Block, newSegment0BlockDescriptorID.
    by destruct (FmdlContainer.segment0Blocks fmdl !! blockID).
Qed.

Lemma pack_not_fits (fmt : list code) (v : tuple fmt) :
  fits fmt v = false -> pack fmt v = Raise struct_error.
Proof.
  unfold pack. induction fmt as [|c fmt IH]; [done|].
  assert (Hint : forall v : Z * tuple fmt,
            in_range c v.1 && fits fmt v.2 = false ->
            (if in_range c v.1
             then bs ← pack_fields fmt v.2;
                  Ok (le_encode (size c)
                        (if v.1 <? 0 then v.1 + 2 ^ (8 * Z.of_nat (size c)) else v.1) ++ bs)
             else Raise struct_error) = Raise struct_error).
  { intros [z v'] H. simpl in *. destruct (in_range c z); [|done].
    simpl in H. by rewrite (IH v' H). }
  destruct c; cbn [fits pack_fields] in *; try by apply Hint.
  - intros H. by rewrite (IH v H).
  - intros H. by rewrite (IH v.2 H).
Qed.

(** A writer that packs a record and adds it to block [blockID], followed
    by a reader that maps [f] over the records of that block. *)
Lemma record_round_trip {B : Type} (f : bytes -> result B) (fmdl : FmdlContainer.t)
    (blockID : Z) (fmt : list code) (v : tuple fmt) (ys : list B) :
  mapM f (blockOf fmdl blockID) = Ok ys ->
  fits fmt v = true ->
  exists fmdl',
    (block ← pack fmt v; Ok (addSegment0Block fmdl blockID block)) = Ok (len ys, fmdl')
    /\ mapM f (blockOf fmdl' blockID) = (y ← f (packed fmt v); Ok (ys ++ [y]))
    /\ forall b, b ≠ blockID -> blockOf fmdl' b = blockOf fmdl b.
Proof.
  intros Hys Hfits. rewrite (pack_fits _ _ Hfits), bind_Ok_l.
  destruct (addSegment0Block_eq fmdl blockID (packed fmt v)) as [Hid Hblocks].
  exists (addSegment0Block fmdl blockID (packed fmt v)).2. split; [|split].
  - destruct (addSegment0Block fmdl blockID (packed fmt v)) as [ID fmdl']. simpl in *.
    rewrite Hid. unfold len. do 3 f_equal. symmetry. by eapply mapM_length.
  - rewrite Hblocks, decide_True by done. rewrite mapM_app, Hys, bind_Ok_l. cbn [mapM].
    destruct (f (packed fmt v)); done.
  - intros b Hb. by rewrite Hblocks, decide_False.
Qed.

(** X2: a mesh format record written by [addMeshFormat] is read back by
    [parseMeshFormats] after the records the block had, as
    [(bufferID, bufferOffset, bufferOffsetIncrement, vertexFormatEntryCount)];
    the ID returned is its place in that list.  A buffer offset that does
    not fit 32 bits raises [struct.error]. *)
Theorem addMeshFormat_read_back (fmdl : FmdlContainer.t)
    (bufferID vertexFormatEntryCount bufferOffsetIncrement meshFormatType bufferOffset : Z)
    (definitions : list (Z * Z * Z * Z)) :
  parseMeshFormats fmdl = Ok definitions ->
  0 <= bufferID < 256 -> 0 <= vertexFormatEntryCount < 256 ->
  0 <= bufferOffsetIncrement < 256 -> 0 <= meshFormatType < 256 ->
  (0 <= bufferOffset < 2 ^ 32 ->
   exists fmdl',
     addMeshFormat fmdl bufferID vertexFormatEntryCount bufferOffsetIncrement meshFormatType
       bufferOffset = Ok (len definitions, fmdl')
     /\ parseMeshFormats fmdl'
        = Ok (definitions
              ++ [(bufferID, bufferOffset, bufferOffsetIncrement, vertexFormatEntryCount)]))
  /\ (¬ 0 <= bufferOffset < 2 ^ 32 ->
      addMeshFormat fmdl bufferID vertexFormatEntryCount bufferOffsetIncrement meshFormatType
        bufferOffset = Raise struct_error).
Proof.
  intros Hdefs Hb Hc Hi Ht. unfold parseMeshFormats in *. rewrite mapM_nil_block in Hdefs.
  split.
  - intros Ho.
    destruct (record_round_trip parseMeshFormat fmdl 10 [B_; B_; B_; B_; I_]
                (bufferID, (vertexFormatEntryCount, (bufferOffsetIncrement, (meshFormatType,
                 (bufferOffset, tt))))) definitions Hdefs) as (fmdl' & Hadd & Hread & _);
      [fits_tac|].
    exists fmdl'. split; [exact Hadd|]. rewrite mapM_nil_block, Hread.
    unfold parseMeshFormat. rewrite unpack_packed; [done | no_s_tac | fits_tac].
  - intros Ho. unfold addMeshFormat. rewrite pack_not_fits; [done|].
    cbn [fits in_range size fst snd].
    rewrite !andb_false_iff, !Z.leb_gt, !Z.ltb_ge. cbn. lia.
Qed.

Lemma addMeshFormat_read_back_witness :
  exists fmdl',
    addMeshFormat (Examples.container [] []) 1 2 8 3 100 = Ok (0, fmdl')
    /\ parseMeshFormats fmdl' = Ok [(1, 100, 8, 2)].
Proof.
  apply (proj1 (addMeshFormat_read_back (Examples.container [] []) 1 2 8 3 100 []
                  eq_refl ltac:(lia) ltac:(lia) ltac:(lia) ltac:(lia))).
  lia.
Defined.

(** X3: [addVertexFormat] writes any datum type and datum format that
    fits a byte, and [parseVertexFormats] reads the record back after the
    records the block had when the type is one of the ten datum types and
    the format one of the five datum formats; for another type or format
    the read ends in InvalidFmdl. *)
Theorem addVertexFormat_read_back (fmdl : FmdlContainer.t) (datumType datumFormat offset : Z)
    (definitions : list (Z * Z * Z)) :
  parseVertexFormats fmdl = Ok definitions ->
  0 <= datumType < 256 -> 0 <= datumFormat < 256 -> 0 <= offset < 65536 ->
  exists fmdl',
    addVertexFormat fmdl datumType datumFormat offset = Ok (len definitions, fmdl')
    /\ parseVertexFormats fmdl'
       = if decide (datumType ∉ datumTypes)
         then Raise (InvalidFmdl "Invalid vertex datum type %s" [datumType])
         else if decide (datumFormat ∉ datumFormats)
         then Raise (InvalidFmdl "Invalid vertex datum format %s" [datumFormat])
         else Ok (definitions ++ [(datumType, datumFormat, offset)]).
Proof.
  intros Hdefs Ht Hf Ho. unfold parseVertexFormats in *. rewrite mapM_nil_block in Hdefs.
  destruct (record_round_trip parseVertexFormat fmdl 11 [B_; B_; H_]
              (datumType, (datumFormat, (offset, tt))) definitions Hdefs)
    as (fmdl' & Hadd & Hread & _); [fits_tac|].
  exists fmdl'. split; [exact Hadd|]. rewrite mapM_nil_block, Hread.
  unfold parseVertexFormat. rewrite unpack_packed; [| no_s_tac | fits_tac].
  rewrite bind_Ok_l. cbn. by repeat case_decide.
Qed.

Lemma addVertexFormat_read_back_witness :
  exists fmdl',
    addVertexFormat (Examples.container [] []) FmdlVertexDatumType.uv0
      FmdlVertexDatumFormat.doubleFloat16 8 = Ok (0, fmdl')
    /\ parseVertexFormats fmdl'
       = Ok [(FmdlVertexDatumType.uv0, FmdlVertexDatumFormat.doubleFloat16, 8)].
Proof.
  apply (addVertexFormat_read_back (Examples.container [] []) FmdlVertexDatumType.uv0
           FmdlVertexDatumFormat.doubleFloat16 8 [] eq_refl);
    unfold FmdlVertexDatumType.uv0, FmdlVertexDatumFormat.doubleFloat16; lia.
Defined.

(** X4: a mesh-group assignment written by [addMeshGroupAssignment] is
    read back by [parseMeshGroupAssignments] after the records the block
    had, as [(meshGroupID, firstMeshID, meshCount, boundingBoxID)], the
    order of the writer's arguments; the ID returned is its place in that
    list. *)
Theorem addMeshGroupAssignment_read_back (fmdl : FmdlContainer.t)
    (meshGroupID firstMeshID meshCount boundingBoxID : Z)
    (assignments : list (Z * Z * Z * Z)) :
  parseMeshGroupAssignments fmdl = Ok assignments ->
  0 <= meshGroupID < 65536 -> 0 <= firstMeshID < 65536 ->
  0 <= meshCount < 65536 -> 0 <= boundingBoxID < 65536 ->
  exists fmdl',
    addMeshGroupAssignment fmdl meshGroupID firstMeshID meshCount boundingBoxID
      = Ok (len assignments, fmdl')
    /\ parseMeshGroupAssignments fmdl'
       = Ok (assignments ++ [(meshGroupID, firstMeshID, meshCount, boundingBoxID)]).
Proof.
  intros Hlist Hg Hf Hc Hb. unfold parseMeshGroupAssignments in *.
  rewrite mapM_nil_block in Hlist.
  destruct (record_round_trip parseMeshGroupAssignment fmdl 2
              [x_; x_; x_; x_; H_; H_; H_; H_; x_; x_; x_; x_; H_;
               x_; x_; x_; x_; x_; x_; x_; x_; x_; x_; x_; x_; x_; x_]
              (meshGroupID, (meshCount, (firstMeshID, (boundingBoxID, (0, tt)))))
              assignments Hlist) as (fmdl' & Hadd & Hread & _); [fits_tac|].
  exists fmdl'. split; [exact Hadd|]. rewrite mapM_nil_block, Hread.
  unfold parseMeshGroupAssignment. rewrite unpack_packed; [done | no_s_tac | fits_tac].
Qed.

Lemma addMeshGroupAssignment_read_back_witness :
  exists fmdl',
    addMeshGroupAssignment (Examples.container [] []) 2 5 3 1 = Ok (0, fmdl')
    /\ parseMeshGroupAssignments fmdl' = Ok [(2, 5, 3, 1)].
Proof.
  apply (addMeshGroupAssignment_read_back (Examples.container [] []) 2 5 3 1 [] eq_refl); lia.
Defined.

(** X5: a buffer descriptor written by [addBufferOffset] is read back by
    [parseBufferOffsets] after the offsets the block had, as its offset;
    the ID returned is its place in that list. *)
Theorem addBufferOffset_read_back (fmdl : FmdlContainer.t) (last : bool) (length offset : Z)
    (bufferOffsets : list Z) :
  parseBufferOffsets fmdl = Ok bufferOffsets ->
  0 <= length < 2 ^ 32 -> 0 <= offset < 2 ^ 32 ->
  exists fmdl',
    addBufferOffset fmdl last length offset = Ok (len bufferOffsets, fmdl')
    /\ parseBufferOffsets fmdl' = Ok (bufferOffsets ++ [offset]).
Proof.
  intros Hlist Hl Ho. unfold parseBufferOffsets in *. rewrite mapM_nil_block in Hlist.
  destruct (record_round_trip parseBufferOffset fmdl 14 [I_; I_; I_; x_; x_; x_; x_]
              ((if last then 1 else 0), (length, (offset, tt))) bufferOffsets Hlist)
    as (fmdl' & Hadd & Hread & _); [destruct last; fits_tac|].
  exists fmdl'. split; [exact Hadd|]. rewrite mapM_nil_block, Hread.
  assert (Hrecord : unpack [I_; I_; I_; I_]
            (packed [I_; I_; I_; x_; x_; x_; x_]
               ((if last then 1 else 0), (length, (offset, tt))))
          = Ok ((if last then 1 else 0), (length, (offset, (0, tt))))).
  { replace (packed [I_; I_; I_; x_; x_; x_; x_]
               ((if last then 1 else 0), (length, (offset, tt))))
      with (packed [I_; I_; I_; I_] ((if last then 1 else 0), (length, (offset, (0, tt))))).
    - apply unpack_packed; [no_s_tac | destruct last; fits_tac].
    - unfold packed, pack. cbn [pack_fields fst snd].
      destruct (in_range I_ (if last then 1 else 0)); [|done].
      destruct (in_range I_ length); [|done].
      destruct (in_range I_ offset); [|done]. reflexivity. }
  unfold parseBufferOffset. by rewrite Hrecord.
Qed.

Lemma addBufferOffset_read_back_witness :
  exists fmdl',
    addBufferOffset (Examples.container [] []) true 6 36 = Ok (0, fmdl')
    /\ parseBufferOffsets fmdl' = Ok [36].
Proof.
  apply (addBufferOffset_read_back (Examples.container [] []) true 6 36 [] eq_refl); lia.
Defined.

(** X6: a face index written by [addFaceIndex] for a list of faces is read
    back by [parseFaceIndices] after the records the block had, as first
    face vertex 0 and three face vertices per face. *)
Theorem addFaceIndex_read_back (fmdl : FmdlContainer.t) (faces : list Face.t)
    (faceIndices : list (Z * Z)) :
  parseFaceIndices fmdl = Ok faceIndices ->
  len faces * 3 < 2 ^ 32 ->
  exists fmdl',
    addFaceIndex fmdl faces = Ok (len faceIndices, fmdl')
    /\ parseFaceIndices fmdl' = Ok (faceIndices ++ [(0, len faces * 3)]).
Proof.
  intros Hlist Hfaces. unfold parseFaceIndices in *. rewrite mapM_nil_block in Hlist.
  pose proof (len_nonneg faces) as Hlen.
  destruct (record_round_trip parseFaceIndex fmdl 17 [I_; I_] (0, (len faces * 3, tt))
              faceIndices Hlist) as (fmdl' & Hadd & Hread & _); [fits_tac|].
  exists fmdl'. split; [exact Hadd|]. rewrite mapM_nil_block, Hread.
  unfold parseFaceIndex. rewrite unpack_packed; [done | no_s_tac | fits_tac].
Qed.

Lemma addFaceIndex_read_back_witness :
  exists fmdl',
    addFaceIndex (Examples.container [] []) [Face.init 0 1 2] = Ok (0, fmdl')
    /\ parseFaceIndices fmdl' = Ok [(0, 3)].
Proof.
  apply (addFaceIndex_read_back (Examples.container [] []) [Face.init 0 1 2] [] eq_refl).
  unfold len. simpl. lia.
Defined.

(** X7: [parseLevelsOfDetail] reads back the level count that
    [addLevelsOfDetail] wrote when the container had no level-of-detail
    record before; when it had some, the added record makes the read end in
    InvalidFmdl, the reader taking one record only. *)
Theorem addLevelsOfDetail_read_back (fmdl : FmdlContainer.t) (levels : Z) :
  0 <= levels < 2 ^ 32 ->
  exists fmdl',
    addLevelsOfDetail fmdl levels = Ok fmdl'
    /\ parseLevelsOfDetail fmdl'
       = if decide (blockOf fmdl 16 = []) then Ok levels
         else Raise (InvalidFmdl
                       "Unexpected Level Of Detail specification, expected 1 record, found %s"
                       [len (blockOf fmdl 16) + 1]).
Proof.
  intros Hlevels. unfold addLevelsOfDetail.
  rewrite pack_fits by fits_tac. rewrite bind_Ok_l.
  set (block := packed [I_; f_; f_; f_] _).
  eexists. split; [done|].
  assert (Hblock : FmdlContainer.segment0Blocks (addSegment0Block fmdl 16 block).2 !! 16
                   = Some (blockOf fmdl 16 ++ [block])).
  { unfold addSegment0Block, newSegment0BlockDescriptorID, blockOf.
    destruct (FmdlContainer.segment0Blocks fmdl !! 16) as [entries|] eqn:Hentries; simpl.
    - by rewrite lookup_alter_eq, Hentries.
    - by rewrite lookup_alter_eq, lookup_insert_eq. }
  unfold parseLevelsOfDetail. rewrite Hblock.
  destruct (decide (blockOf fmdl 16 = [])) as [Hold|Hold].
  - rewrite Hold. cbn [app].
    rewrite decide_False by (unfold len; simpl; lia).
    rewrite index_in_range with (a := block) by done. rewrite bind_Ok_l.
    subst block. rewrite unpack_packed; [done | no_s_tac | fits_tac].
  - assert (Hlen : len (blockOf fmdl 16 ++ [block]) = len (blockOf fmdl 16) + 1).
    { unfold len. rewrite length_app. simpl. lia. }
    assert (Hpos : 0 < len (blockOf fmdl 16)).
    { unfold len. destruct (blockOf fmdl 16); [done | simpl; lia]. }
    rewrite decide_True by lia. by rewrite Hlen.
Qed.

Lemma addLevelsOfDetail_read_back_witness :
  exists fmdl',
    addLevelsOfDetail (Examples.container [] []) 1 = Ok fmdl'
    /\ parseLevelsOfDetail fmdl' = Ok 1.
Proof. apply (addLevelsOfDetail_read_back (Examples.container [] []) 1). lia. Defined.

(** ** The half-float codec on all bit patterns *)

Lemma allBelow_spec (f : Z -> bool) (n : Z) :
  allBelow f n = true -> forall i, 0 <= i < n -> f i = true.
Proof.
  unfold allBelow. intros Hall i Hi.
  rewrite iter_nat_of_Z in Hall by lia.
  assert (Hiter : forall k : nat,
            let st := nat_rect (fun _ => (Z * bool)%type) (0, true)
                        (fun _ st => (st.1 + 1, st.2 && f st.1)) k in
            st.1 = Z.of_nat k
            /\ (st.2 = true -> forall j, 0 <= j < Z.of_nat k -> f j = true)).
  { induction k as [|k [IH1 IH2]]; [simpl; split; [done | lia]|].
    cbn [nat_rect]. cbv zeta in *. cbn [fst snd]. rewrite IH1. split; [lia|].
    intros H j Hj. apply andb_prop in H. destruct H as [H1 H2].
    destruct (decide (j = Z.of_nat k)) as [->|]; [done|]. apply IH2; [done | lia]. }
  destruct (Hiter (Z.abs_nat n)) as [_ H]. apply H; [done | lia].
Qed.

Lemma reencodes_all : allBelow reencodes 65536 = true.
Proof. vm_compute. reflexivity. Qed.

(** X8: for every 16-bit pattern, encoding the half float it decodes to
    gives the pattern back, with two exceptions: every NaN pattern comes
    back as [0x7FFF], and the negative zero [0x8000] as [0]. *)
Theorem encodeFloat16_parseFloat16 (int16 : Z) :
  0 <= int16 < 65536 ->
  encodeFloat16 (parseFloat16 int16)
  = Ok (if float.isnan (parseFloat16 int16) then 0x7FFF
        else if int16 =? 0x8000 then 0
        else int16).
Proof.
  intros Hrange. pose proof (allBelow_spec _ _ reencodes_all int16 Hrange) as H.
  unfold reencodes in H.
  destruct (encodeFloat16 (parseFloat16 int16)) as [int16'| |]; try done.
  apply Z.eqb_eq in H. by rewrite H.
Qed.

Lemma encodeFloat16_parseFloat16_witness :
  encodeFloat16 (parseFloat16 0x3C00) = Ok 0x3C00.
Proof. apply (encodeFloat16_parseFloat16 0x3C00). lia. Defined.

(** ** [pack_into] and the fields of a buffer *)

Lemma length_poke (buffer : bytes) (o : nat) (bs : bytes) :
  (o + length bs <= length buffer)%nat -> length (poke buffer o bs) = length buffer.
Proof.
  intros H. unfold poke. rewrite !length_app, length_take, length_drop. lia.
Qed.

Lemma lookup_poke (buffer : bytes) (o : nat) (bs : bytes) (i : nat) :
  (o + length bs <= length buffer)%nat ->
  poke buffer o bs !! i
  = if decide (o <= i < o + length bs)%nat then bs !! (i - o)%nat else buffer !! i.
Proof.
  intros H. unfold poke.
  destruct (decide (i < o)%nat) as [Hlt|Hge].
  - rewrite lookup_app_l by (rewrite length_take; lia).
    rewrite lookup_take_lt by lia. rewrite decide_False by lia. done.
  - rewrite lookup_app_r by (rewrite length_take; lia).
    rewrite length_take, Nat.min_l by lia.
    destruct (decide (i < o + length bs)%nat) as [Hin|Hout].
    + rewrite lookup_app_l by lia. rewrite decide_True by lia. done.
    + rewrite lookup_app_r by lia. rewrite lookup_drop, decide_False by lia.
      f_equal. lia.
Qed.

Lemma pack_into_eq (fmt : list code) (buffer : bytes) (offset : Z) (v : tuple fmt) :
  fits fmt v = true -> 0 <= offset -> offset + Z.of_nat (calcsize fmt) <= len buffer ->
  pack_into fmt buffer offset v = Ok (poke buffer (Z.to_nat offset) (packed fmt v)).
Proof.
  intros Hfits H0 Hlen. unfold pack_into. rewrite (pack_fits _ _ Hfits), bind_Ok_l.
  rewrite decide_True by done. unfold poke.
  rewrite (pack_length fmt v) by (by apply pack_fits). done.
Qed.

Lemma u16_at_ext (d e : bytes) (offset : Z) :
  0 <= offset ->
  (forall i, (Z.to_nat offset <= i < Z.to_nat offset + 2)%nat -> d !! i = e !! i) ->
  u16_at d offset = u16_at e offset.
Proof.
  intros H0 H. unfold u16_at. f_equal. apply list_eq. intros i.
  destruct (decide (i < 2)%nat) as [Hi|Hi].
  - rewrite !lookup_take_lt, !lookup_drop by lia. apply H. lia.
  - by rewrite !lookup_take_ge by lia.
Qed.

Lemma u16_at_poke_other (buffer : bytes) (o : nat) (bs : bytes) (offset : Z) :
  (o + length bs <= length buffer)%nat -> 0 <= offset ->
  offset + 2 <= Z.of_nat o \/ Z.of_nat (o + length bs) <= offset ->
  u16_at (poke buffer o bs) offset = u16_at buffer offset.
Proof.
  intros Hlen H0 Hother. apply u16_at_ext; [done|]. intros i Hi.
  rewrite lookup_poke by done. rewrite decide_False by lia. done.
Qed.

Lemma u16_at_poke_H (buffer : bytes) (offset v : Z) :
  0 <= offset -> offset + 2 <= len buffer -> 0 <= v < 65536 ->
  u16_at (poke buffer (Z.to_nat offset) (packed [H_] (v, tt))) offset = v.
Proof.
  intros H0 Hlen Hv.
  assert (Hpacked : packed [H_] (v, tt) = le_encode 2 v).
  { unfold packed, pack. cbn [pack_fields fst snd].
    replace (in_range H_ v) with true
      by (symmetry; unfold in_range; cbn; rewrite andb_true_iff, Z.leb_le, Z.ltb_lt; lia).
    cbn [mbind]. rewrite (proj2 (Z.ltb_ge v 0)) by lia. done. }
  rewrite Hpacked. rewrite <- (le_decode_encode 2 v) at 2 by (cbn; lia).
  unfold u16_at, poke. f_equal.
  rewrite drop_app_length' by (rewrite length_take; unfold len in Hlen; lia).
  by rewrite take_app_length' by done.
Qed.
(** ** Bone groups, written and read back *)

Section BoneGroupWritten.
Variables (boneGroup : BoneGroup.t) (boneIndices : gmap nat Z).
Hypothesis bones_count : len (BoneGroup.bones boneGroup) <= 32.
Hypothesis bones_indexed :
  Forall (fun bone => exists boneIndex,
            boneIndices !! bone = Some boneIndex /\ 0 <= boneIndex < 65536)
    (BoneGroup.bones boneGroup).

Lemma addBoneGroupEntry_fold (descriptor0 : bytes) (k : nat) :
  length descriptor0 = 68%nat ->
  (k <= length (BoneGroup.bones boneGroup))%nat ->
  exists descriptor boneGroupIndices,
    foldM (addBoneGroupEntry boneGroup boneIndices) (descriptor0, ∅) (range 0 (Z.of_nat k))
    = Ok (descriptor, boneGroupIndices)
    /\ length descriptor = 68%nat
    /\ u16_at descriptor 0 = u16_at descriptor0 0
    /\ u16_at descriptor 2 = u16_at descriptor0 2
    /\ (forall j bone, (j < k)%nat -> BoneGroup.bones boneGroup !! j = Some bone ->
          boneIndices !! bone = Some (u16_at descriptor (Z.of_nat j * 2 + 4))
          /\ exists i, boneGroupIndices !! bone = Some (Z.of_nat i)
                       /\ BoneGroup.bones boneGroup !! i = Some bone
                       /\ (j <= i < k)%nat).
Proof.
  intros Hlen0. induction k as [|k IH]; intros Hk.
  - exists descriptor0, ∅. split; [done|]. do 3 (split; [done|]). intros j bone Hj. lia.
  - destruct IH as (d & g & Hfold & Hlen & H0 & H2 & Hentries); [lia|].
    rewrite range_snoc, foldM_app, Hfold, bind_Ok_l. cbn [foldM].
    destruct (BoneGroup.bones boneGroup !! k) as [bone|] eqn:Hbone.
    2:{ apply lookup_ge_None in Hbone. lia. }
    destruct (proj1 (Forall_forall _ _) bones_indexed bone) as (boneIndex & Hindex & Hrange).
    { by eapply list_elem_of_lookup_2. }
    unfold addBoneGroupEntry.
    rewrite (index_in_range _ _ bone) by (lia || by rewrite Nat2Z.id).
    rewrite bind_Ok_l.
    match goal with
    | |- context [match ?x with Some _ => _ | None => Raise KeyError end] =>
        replace x with (Some boneIndex) by (symmetry; exact Hindex)
    end.
    rewrite bind_Ok_l.
    rewrite pack_into_eq; [| fits_tac | lia |].
    2:{ change (calcsize [H_]) with 2%nat. unfold len in *. lia. }
    rewrite bind_Ok_l. eexists _, _. split; [done|].
    assert (Hsize : length (packed [H_] (boneIndex, tt)) = 2%nat).
    { apply (pack_length [H_] (boneIndex, tt)). apply pack_fits. fits_tac. }
    assert (Hpoke : (Z.to_nat (Z.of_nat k * 2 + 4) + length (packed [H_] (boneIndex, tt))
                     <= length d)%nat).
    { rewrite Hsize. unfold len in *. lia. }
    split; [by rewrite length_poke|].
    split; [rewrite u16_at_poke_other by (done || lia); done|].
    split; [rewrite u16_at_poke_other by (done || lia); done|].
    intros j bone' Hj Hbone'.
    destruct (decide (j = k)) as [->|Hne].
    + assert (bone' = bone) by congruence. subst bone'.
      rewrite u16_at_poke_H by (unfold len in *; lia). split; [done|].
      exists k. rewrite lookup_insert_eq. split; [done|]. split; [done | lia].
    + destruct (Hentries j bone') as (Hidx & i & Hg & Hi & Hji); [lia | done |].
      rewrite u16_at_poke_other by (done || lia). split; [done|].
      destruct (decide (bone' = bone)) as [->|Hbne].
      * exists k. rewrite lookup_insert_eq. split; [done|]. split; [done | lia].
      * exists i. rewrite lookup_insert_ne by done. split; [done|]. split; [done | lia].
Qed.
End BoneGroupWritten.

(** X9: a bone group of at most 32 bones, each with an index below
    65536 in [boneIndices], is written by [addBoneGroup] as one record of 68
    bytes appended to block 5, and [parseBoneGroup] reads that record back as
    the group of the bones at these indices, in order, when the indices are
    bones of the list read against.  The dictionary returned maps every bone
    of the group to a place where the group has it. *)
Theorem addBoneGroup_read_back {Bone : Type} (fmdl : FmdlContainer.t) (boneGroup : BoneGroup.t)
    (boneIndices : gmap nat Z) (bones : list Bone) (boneIDs : list Z) :
  len (BoneGroup.bones boneGroup) <= 32 ->
  Forall2 (fun bone boneID => boneIndices !! bone = Some boneID /\ 0 <= boneID < 65536)
    (BoneGroup.bones boneGroup) boneIDs ->
  exists descriptor boneGroupIndices fmdl',
    addBoneGroup fmdl (Some boneGroup) boneIndices
    = Ok ((len (blockOf fmdl 5), boneGroupIndices), fmdl')
    /\ blockOf fmdl' 5 = blockOf fmdl 5 ++ [descriptor]
    /\ length descriptor = 68%nat
    /\ (forall i bone, BoneGroup.bones boneGroup !! i = Some bone ->
          exists j, boneGroupIndices !! bone = Some (Z.of_nat j)
                    /\ BoneGroup.bones boneGroup !! j = Some bone)
    /\ (Forall (fun boneID => boneID < len bones) boneIDs ->
        parseBoneGroup bones descriptor = Ok {| BoneGroup.bones := map Z.to_nat boneIDs |}).
Proof.
  intros Hcount Hindexed.
  assert (Hall : Forall (fun bone => exists boneIndex,
                     boneIndices !! bone = Some boneIndex /\ 0 <= boneIndex < 65536)
                   (BoneGroup.bones boneGroup)).
  { apply Forall_forall. intros bone Hbone.
    apply list_elem_of_lookup_1 in Hbone. destruct Hbone as [i Hi].
    destruct (Forall2_lookup_l _ _ _ _ _ Hindexed Hi) as (boneID & _ & H). by exists boneID. }
  pose proof (len_nonneg (BoneGroup.bones boneGroup)) as Hnn.
  unfold addBoneGroup. rewrite Z.gtb_ltb, (proj2 (Z.ltb_ge _ _)) by lia.
  change (stream.bytearray 68) with (@Ok bytes (replicate 68 Byte.x00)).
  rewrite bind_Ok_l.
  rewrite pack_into_eq; [| fits_tac | lia | by vm_compute].
  rewrite bind_Ok_l.
  set (descriptor0 := poke _ _ _).
  assert (Hlen0 : length descriptor0 = 68%nat).
  { subst descriptor0. rewrite length_poke; [done|].
    rewrite (pack_length [H_; H_] (4, (len (BoneGroup.bones boneGroup), tt)))
      by (apply pack_fits; fits_tac).
    vm_compute. lia. }
  assert (Hcount0 : u16_at descriptor0 2 = len (BoneGroup.bones boneGroup)).
  { subst descriptor0.
    assert (Hpacked : packed [H_; H_] (4, (len (BoneGroup.bones boneGroup), tt))
                      = le_encode 2 4 ++ le_encode 2 (len (BoneGroup.bones boneGroup))).
    { unfold packed, pack. cbn [pack_fields fst snd].
      replace (in_range H_ (len (BoneGroup.bones boneGroup))) with true
        by (symmetry; unfold in_range; cbn; rewrite andb_true_iff, Z.leb_le, Z.ltb_lt; lia).
      cbn [in_range]. cbn [mbind].
      rewrite (proj2 (Z.ltb_ge (len (BoneGroup.bones boneGroup)) 0)) by lia. done. }
    rewrite Hpacked. unfold u16_at, poke.
    transitivity (le_decode (le_encode 2 (len (BoneGroup.bones boneGroup))));
      [reflexivity | apply le_decode_encode; cbn; lia]. }
  destruct (addBoneGroupEntry_fold boneGroup boneIndices Hcount Hall descriptor0
              (length (BoneGroup.bones boneGroup)) Hlen0)
    as (descriptor & boneGroupIndices & Hfold & Hlen & _ & H2 & Hentries); [done|].
  fold (len (BoneGroup.bones boneGroup)) in Hfold. rewrite Hfold, bind_Ok_l.
  destruct (addSegment0Block_eq fmdl 5 descriptor) as [Hid Hblocks].
  exists descriptor, boneGroupIndices, (addSegment0Block fmdl 5 descriptor).2.
  split; [|split; [|split; [|split]]].
  - destruct (addSegment0Block fmdl 5 descriptor) as [ID fmdl']. simpl in *. by rewrite Hid.
  - by rewrite Hblocks, decide_True.
  - done.
  - intros i bone Hbone.
    destruct (Hentries i bone) as (_ & j & Hj & Hbonej & _); [by eapply lookup_lt_Some | done |].
    by exists j.
  - intros Hvalid.
    assert (HboneIDs : map (fun i => u16_at descriptor (i * 2 + 4))
                         (range 0 (len (BoneGroup.bones boneGroup))) = boneIDs).
    { apply list_eq. intros i. unfold range. rewrite Z.sub_0_r. unfold len.
      rewrite Nat2Z.id, !list_lookup_fmap.
      destruct (BoneGroup.bones boneGroup !! i) as [bone|] eqn:Hbone.
      - rewrite lookup_seq_lt by (by eapply lookup_lt_Some). simpl.
        destruct (Forall2_lookup_l _ _ _ _ _ Hindexed Hbone) as (boneID & -> & HboneID & _).
        destruct (Hentries i bone) as (Hidx & _); [by eapply lookup_lt_Some | done |].
        rewrite HboneID in Hidx. by injection Hidx as ->.
      - pose proof Hbone as Hge. apply lookup_ge_None in Hge.
        rewrite lookup_seq_ge by done. simpl. symmetry. apply lookup_ge_None.
        apply Forall2_length in Hindexed. lia. }
    unfold parseBoneGroup. rewrite unpack_from_HH by (unfold len; lia).
    rewrite bind_Ok_l. cbn beta iota. change (0 + 2) with 2. rewrite H2, Hcount0.
    rewrite Z.gtb_ltb, (proj2 (Z.ltb_ge _ _)) by lia.
    destruct (parseBoneGroup_entries bones descriptor
                (range 0 (len (BoneGroup.bones boneGroup))) []) as [Hread _].
    { apply Forall_forall. intros i Hi. apply range_bounds in Hi. unfold len in *. lia. }
    cbv zeta in Hread. rewrite HboneIDs in Hread. by rewrite Hread.
Qed.

Lemma addBoneGroup_read_back_witness :
  exists descriptor boneGroupIndices fmdl',
    addBoneGroup (Examples.container [] []) (Some {| BoneGroup.bones := [1; 0]%nat |})
      {[ 0%nat := 0; 1%nat := 1 ]}
    = Ok ((0, boneGroupIndices), fmdl')
    /\ blockOf fmdl' 5 = [descriptor]
    /\ parseBoneGroup [tt; tt] descriptor = Ok {| BoneGroup.bones := [1; 0]%nat |}.
Proof.
  destruct (addBoneGroup_read_back (Examples.container [] [])
              {| BoneGroup.bones := [1; 0]%nat |} {[ 0%nat := 0; 1%nat := 1 ]}
              [tt; tt] [1; 0])
    as (descriptor & boneGroupIndices & fmdl' & Hadd & Hblock & _ & _ & Hread).
  - unfold len. simpl. lia.
  - repeat constructor; (vm_compute; reflexivity) || lia.
  - exists descriptor, boneGroupIndices, fmdl'. split; [exact Hadd|]. split; [exact Hblock|].
    apply Hread. repeat constructor; unfold len; simpl; lia.
Defined.

(** ** What a successful read refers to *)

Lemma ref_Ok_lt {A : Type} (l : list A) (i : Z) (r : nat) :
  ref l i = Ok r -> (r < length l)%nat.
Proof.
  unfold ref, len. intros H. repeat case_decide; try done; injection H as <-; lia.
Qed.

Lemma parseBoneGroupEntry_fold_valid {Bone : Type} (bones : list Bone) (definition : bytes)
    (entries : list Z) (boneGroup boneGroup' : list nat) :
  foldM (parseBoneGroupEntry bones definition) boneGroup entries = Ok boneGroup' ->
  exists added, boneGroup' = boneGroup ++ added
    /\ length added = length entries
    /\ Forall (fun bone => (bone < length bones)%nat) added.
Proof.
  revert boneGroup. induction entries as [|i entries IH]; intros boneGroup; cbn [foldM].
  - intros [= <-]. exists []. by rewrite app_nil_r.
  - intros H. apply bind_Ok in H as (boneGroup1 & Hentry & H).
    destruct (IH _ H) as (added & -> & Hlen & Hvalid).
    unfold parseBoneGroupEntry in Hentry.
    apply bind_Ok in Hentry as ([boneID []] & _ & Hentry).
    case_decide; [done|]. apply bind_Ok in Hentry as (bone & Hbone & Hentry).
    injection Hentry as <-. exists (bone :: added). rewrite <- app_assoc.
    split; [done|]. split; [simpl; lia|]. constructor; [|done]. by eapply ref_Ok_lt.
Qed.

(** X10: in the bone groups [parseBoneGroups] returns, one per record of
    block 5, every group has at most 32 bones and every bone of a group is a
    bone of the list read against. *)
Theorem parseBoneGroups_valid {Bone : Type} (fmdl : FmdlContainer.t) (bones : list Bone)
    (boneGroups : list BoneGroup.t) :
  parseBoneGroups fmdl bones = Ok boneGroups ->
  length boneGroups = length (blockOf fmdl 5)
  /\ Forall (fun boneGroup =>
               len (BoneGroup.bones boneGroup) <= 32
               /\ Forall (fun bone => (bone < length bones)%nat) (BoneGroup.bones boneGroup))
       boneGroups.
Proof.
  unfold parseBoneGroups. rewrite mapM_nil_block. intros Hread. split.
  - by apply mapM_length in Hread.
  - eapply mapM_Forall; [|exact Hread]. clear Hread.
    intros definition boneGroup Hgroup. unfold parseBoneGroup in Hgroup.
    apply bind_Ok in Hgroup as ([unknown [entryCount []]] & Hunpack & Hgroup).
    apply bind_Ok in Hgroup as (group & Hfold & Hgroup). injection Hgroup as <-. simpl.
    destruct (parseBoneGroupEntry_fold_valid _ _ _ _ _ Hfold) as (added & -> & Hlen & Hvalid).
    simpl. split; [|done]. unfold len. rewrite Hlen. unfold range.
    rewrite length_map, length_seq. destruct (entryCount >? 32) eqn:Hcount; [lia|].
    rewrite Z.gtb_ltb in Hcount. apply Z.ltb_ge in Hcount. lia.
Qed.

Lemma parseBoneGroups_valid_witness :
  exists boneGroups,
    parseBoneGroups (Examples.container [(5, [Examples.bigBoneGroup])] []) (replicate 40 tt)
    = Ok boneGroups
    /\ Forall (fun boneGroup =>
                 len (BoneGroup.bones boneGroup) <= 32
                 /\ Forall (fun bone => (bone < 40)%nat) (BoneGroup.bones boneGroup))
         boneGroups.
Proof.
  eexists. split; [vm_compute; reflexivity|].
  apply (parseBoneGroups_valid (Examples.container [(5, [Examples.bigBoneGroup])] [])
           (replicate 40 tt)).
  vm_compute. reflexivity.
Defined.

(** X11: [parseFaces], for a buffer offset and a first index that are not
    negative, returns one face per started triple of [faceVertexCount], and
    every vertex of every face it returns is a vertex of the list read
    against. *)
Theorem parseFaces_valid {Vertex : Type} (fmdl : FmdlContainer.t)
    (vertexBufferOffset firstFaceVertexIndex faceVertexCount : Z) (vertices : list Vertex)
    (faces : list Face.t) :
  0 <= vertexBufferOffset -> 0 <= firstFaceVertexIndex ->
  parseFaces fmdl vertexBufferOffset firstFaceVertexIndex faceVertexCount vertices = Ok faces ->
  length faces = Z.to_nat ((faceVertexCount + 2) / 3)
  /\ Forall (fun face => exists v1 v2 v3,
               Face.vertices face = [v1; v2; v3]
               /\ (v1 < length vertices)%nat /\ (v2 < length vertices)%nat
               /\ (v3 < length vertices)%nat) faces.
Proof.
  intros Hoffset Hfirst. unfold parseFaces.
  destruct (FmdlContainer.segment1Blocks fmdl !! 2) as [vertexBuffer|]; [|done].
  intros Hread. split.
  - apply mapM_length in Hread. rewrite Hread. unfold range_step.
    rewrite length_map, length_seq. do 2 f_equal. lia.
  - eapply mapM_Forall; [|exact Hread]. clear Hread.
    intros faceVertexIndex face Hface. unfold parseFace in Hface.
    apply bind_Ok in Hface as ([index1 [index2 [index3 []]]] & _ & Hface).
    destruct (negb (index1 <? len vertices) && (index2 <? len vertices)
              && (index3 <? len vertices)); [done|].
    apply bind_Ok in Hface as (v1 & Hv1 & Hface).
    apply bind_Ok in Hface as (v2 & Hv2 & Hface).
    apply bind_Ok in Hface as (v3 & Hv3 & Hface). injection Hface as <-.
    exists v1, v2, v3. split; [done|].
    repeat split; by eapply ref_Ok_lt.
Qed.

Lemma parseFaces_valid_witness :
  exists faces,
    parseFaces Examples.triangle 36 0 3 [tt; tt; tt] = Ok faces
    /\ length faces = 1%nat.
Proof.
  eexists. split; [vm_compute; reflexivity|].
  apply (parseFaces_valid Examples.triangle 36 0 3 [tt; tt; tt]); [lia | lia |].
  vm_compute. reflexivity.
Defined.

(** ** Faces, written and read back *)

Lemma unpack_fields_take (fmt : list code) (bs : bytes) :
  unpack_fields fmt (take (calcsize fmt) bs) = unpack_fields fmt bs.
Proof.
  revert bs. induction fmt as [|c fmt IH]; intros bs; [done|].
  assert (Htake : take (size c) (take (calcsize (c :: fmt)) bs) = take (size c) bs).
  { rewrite take_take. f_equal. unfold calcsize. simpl. lia. }
  assert (Hdrop : unpack_fields fmt (drop (size c) (take (calcsize (c :: fmt)) bs))
                  = unpack_fields fmt (drop (size c) bs)).
  { rewrite <- (IH (drop (size c) bs)). f_equal.
    rewrite take_drop_commute. done. }
  destruct c; cbn [unpack_fields]; rewrite ?Hdrop; try done;
    try (f_equal; f_equal; exact Htake).
  f_equal. exact Htake.
Qed.

(** [unpack_from] reads the bytes of the format at the offset. *)
Lemma unpack_from_slice (fmt : list code) (bs : bytes) (offset : Z) :
  0 <= offset -> offset + Z.of_nat (calcsize fmt) <= len bs ->
  unpack_from fmt bs offset
  = Ok (unpack_fields fmt (take (calcsize fmt) (drop (Z.to_nat offset) bs))).
Proof.
  intros H0 Hlen. unfold unpack_from. rewrite decide_True by done.
  by rewrite unpack_fields_take.
Qed.

Lemma slice_ext (d e : bytes) (o o' n : nat) :
  (forall i, (i < n)%nat -> d !! (o + i)%nat = e !! (o' + i)%nat) ->
  take n (drop o d) = take n (drop o' e).
Proof.
  intros H. apply list_eq. intros i.
  destruct (decide (i < n)%nat) as [Hi|Hi].
  - rewrite !lookup_take_lt, !lookup_drop by lia. by apply H.
  - by rewrite !lookup_take_ge by lia.
Qed.

Lemma slice_poke_same (buffer : bytes) (o : nat) (bs : bytes) :
  (o + length bs <= length buffer)%nat ->
  take (length bs) (drop o (poke buffer o bs)) = bs.
Proof.
  intros H. unfold poke.
  rewrite drop_app_length' by (rewrite length_take; lia).
  by rewrite take_app_length.
Qed.

Lemma slice_poke_other (buffer : bytes) (o : nat) (bs : bytes) (o' n : nat) :
  (o + length bs <= length buffer)%nat ->
  (o' + n <= o \/ o + length bs <= o')%nat ->
  take n (drop o' (poke buffer o bs)) = take n (drop o' buffer).
Proof.
  intros Hlen Hother. apply slice_ext. intros i Hi.
  rewrite lookup_poke by done. rewrite decide_False by lia. done.
Qed.

Lemma slice_middle (prefix d suffix : bytes) (o n : nat) :
  (o + n <= length d)%nat ->
  take n (drop (length prefix + o) (prefix ++ d ++ suffix)) = take n (drop o d).
Proof.
  intros H. apply slice_ext. intros i Hi.
  rewrite lookup_app_r by lia. rewrite lookup_app_l by lia. f_equal. lia.
Qed.

Lemma mapM_Forall2 {A B : Type} (f : A -> result B) (l : list A) (ys : list B) :
  Forall2 (fun a y => f a = Ok y) l ys -> mapM f l = Ok ys.
Proof.
  induction 1 as [|a y l ys Ha _ IH]; [done|]. cbn [mapM]. by rewrite Ha, bind_Ok_l, IH.
Qed.

Section FacesWritten.
Variables (faces : list Face.t) (vertexIndices : gmap nat Z) (triples : list (Z * Z * Z)).
Hypothesis faces_indexed : Forall2 (faceIndexed vertexIndices) faces triples.

Lemma addFace_fold (buffer0 : bytes) (k : nat) :
  length buffer0 = (6 * length faces)%nat ->
  (k <= length faces)%nat ->
  exists buffer,
    foldM (addFace faces vertexIndices) buffer0 (range 0 (Z.of_nat k)) = Ok buffer
    /\ length buffer = length buffer0
    /\ forall j t, (j < k)%nat -> triples !! j = Some t ->
         take 6 (drop (6 * j) buffer) = packed [H_; H_; H_] (t.1.1, (t.1.2, (t.2, tt))).
Proof.
  intros Hlen0. induction k as [|k IH]; intros Hk.
  - exists buffer0. split; [done|]. split; [done|]. intros j t Hj. lia.
  - destruct IH as (buffer & Hfold & Hlen & Hslices); [lia|].
    rewrite range_snoc, foldM_app, Hfold, bind_Ok_l. cbn [foldM].
    destruct (faces !! k) as [face|] eqn:Hface.
    2:{ apply lookup_ge_None in Hface. lia. }
    destruct (Forall2_lookup_l _ _ _ _ _ faces_indexed Hface)
      as ([[i1 i2] i3] & Htriple & v1 & v2 & v3 & Hvertices & Hv1 & Hv2 & Hv3 & Hr1 & Hr2 & Hr3).
    simpl in *.
    assert (Hpacked : length (packed [H_; H_; H_] (i1, (i2, (i3, tt)))) = 6%nat).
    { apply (pack_length [H_; H_; H_] (i1, (i2, (i3, tt)))). apply pack_fits. fits_tac. }
    assert (Hstep : addFace faces vertexIndices buffer (Z.of_nat k)
                    = Ok (poke buffer (6 * k) (packed [H_; H_; H_] (i1, (i2, (i3, tt)))))).
    { unfold addFace.
      rewrite (index_in_range _ _ face) by (lia || by rewrite Nat2Z.id).
      rewrite !bind_Ok_l, Hvertices.
      rewrite (index_in_range [v1; v2; v3] 0 v1) by done.
      rewrite (index_in_range [v1; v2; v3] 1 v2) by done.
      rewrite (index_in_range [v1; v2; v3] 2 v3) by done.
      rewrite !bind_Ok_l.
      replace (vertexIndices !! v1) with (Some i1) by (symmetry; exact Hv1).
      replace (vertexIndices !! v2) with (Some i2) by (symmetry; exact Hv2).
      replace (vertexIndices !! v3) with (Some i3) by (symmetry; exact Hv3).
      rewrite !bind_Ok_l.
      rewrite pack_into_eq; [| fits_tac | lia |].
      - do 2 f_equal. lia.
      - change (calcsize [H_; H_; H_]) with 6%nat. unfold len. lia. }
    rewrite Hstep, bind_Ok_l. eexists. split; [done|].
    split; [rewrite length_poke; [done | lia]|].
    intros j t Hj Ht. destruct (decide (j = k)) as [->|Hne].
    + assert (t = (i1, i2, i3)) by congruence. subst t. simpl.
      rewrite <- Hpacked at 1. apply slice_poke_same. lia.
    + rewrite slice_poke_other by lia. apply Hslices; [lia | done].
Qed.
End FacesWritten.

(** X12: [addFaces] appends six bytes per face to a face buffer of even
    length and returns half the length the buffer had; when the vertices of
    every face have indices below 65536 in [vertexIndices], [parseFaces],
    reading the extended buffer where it lies in segment-1 block 2, from the
    index returned and for three face vertices per face, returns the faces of
    the vertices at these indices, in order. *)
Theorem addFaces_read_back (fmdl : FmdlContainer.t) (faces : list Face.t) (faceBuffer : bytes)
    (vertexIndices : gmap nat Z) (triples : list (Z * Z * Z)) :
  Forall2 (faceIndexed vertexIndices) faces triples ->
  len faceBuffer mod 2 = 0 ->
  exists faceBuffer',
    addFaces fmdl faces faceBuffer vertexIndices = Ok (len faceBuffer / 2, faceBuffer')
    /\ len faceBuffer' = len faceBuffer + 6 * len faces
    /\ forall (Vertex : Type) (vertices : list Vertex) (fmdl' : FmdlContainer.t)
              (before after : bytes),
         FmdlContainer.segment1Blocks fmdl' !! 2 = Some (before ++ faceBuffer' ++ after) ->
         Forall (fun t => t.1.1 < len vertices /\ t.1.2 < len vertices /\ t.2 < len vertices)
           triples ->
         parseFaces fmdl' (len before) (len faceBuffer / 2) (len faces * 3) vertices
         = Ok (map faceOf triples).
Proof.
  intros Hindexed Heven. unfold addFaces.
  assert (Hbytearray : stream.bytearray (len faces * 6)
                       = Ok (replicate (6 * length faces) Byte.x00)).
  { unfold stream.bytearray. rewrite (proj2 (Z.ltb_ge _ _)) by (unfold len; lia).
    do 2 f_equal. unfold len. lia. }
  rewrite Hbytearray, bind_Ok_l.
  destruct (addFace_fold faces vertexIndices triples Hindexed
              (replicate (6 * length faces) Byte.x00) (length faces))
    as (buffer & Hfold & Hlen & Hslices); [by rewrite length_replicate | done |].
  fold (len faces) in Hfold. rewrite Hfold, bind_Ok_l.
  rewrite length_replicate in Hlen.
  exists (faceBuffer ++ buffer). split; [done|]. split.
  { rewrite len_app. unfold len. lia. }
  intros Vertex vertices fmdl' before after Hblock Hvalid.
  unfold parseFaces. rewrite Hblock. apply mapM_Forall2.
  unfold range_step.
  replace (Z.to_nat ((len faceBuffer / 2 + len faces * 3 - len faceBuffer / 2 + 3 - 1) / 3))
    with (length faces).
  2:{ unfold len. replace (Z.of_nat (length faceBuffer) / 2 + Z.of_nat (length faces) * 3
                           - Z.of_nat (length faceBuffer) / 2 + 3 - 1)
        with (2 + Z.of_nat (length faces) * 3) by lia.
      rewrite Z.div_add by lia. change (2 / 3) with 0. lia. }
  apply Forall2_fmap. apply Forall2_same_length_lookup. split.
  { rewrite length_seq. by apply Forall2_length in Hindexed. }
  intros j k [[i1 i2] i3] Hk Ht. simpl.
  apply lookup_seq in Hk. destruct Hk as [-> Hj]. simpl.
  destruct (proj1 (Forall_forall _ _) Hvalid (i1, i2, i3)) as (Hb1 & Hb2 & Hb3);
    [by eapply list_elem_of_lookup_2|]. cbn [fst snd] in *.
  destruct (Forall2_lookup_r _ _ _ _ _ Hindexed Ht)
    as (face & Hface & v1 & v2 & v3 & _ & _ & _ & _ & Hr1 & Hr2 & Hr3). cbn [fst snd] in *.
  pose proof (Z.div_mod (len faceBuffer) 2 ltac:(lia)) as Hdiv.
  assert (Hposition : (len faceBuffer / 2 + 3 * Z.of_nat j) * 2 + len before
                      = Z.of_nat (length before + (length faceBuffer + 6 * j))).
  { unfold len in *. lia. }
  rewrite (parseFace_cases _ _ _ _ i1 i2 i3); [| | lia..].
  - rewrite decide_True by done. done.
  - rewrite Hposition. rewrite unpack_from_slice; [|lia|].
    2:{ change (calcsize [H_; H_; H_]) with 6%nat. unfold len.
        rewrite !length_app. lia. }
    rewrite Nat2Z.id. change (calcsize [H_; H_; H_]) with 6%nat.
    rewrite slice_middle by (rewrite length_app; lia).
    rewrite drop_app_add'  by done.
    rewrite (Hslices j (i1, i2, i3)) by done. cbn [fst snd].
    f_equal. apply unpack_fields_pack; [no_s_tac|]. apply pack_fits. fits_tac.
Qed.

Lemma addFaces_read_back_witness :
  exists faceBuffer',
    addFaces (Examples.container [] []) [Face.init 0 1 2; Face.init 2 1 0] []
      {[ 0%nat := 0; 1%nat := 1; 2%nat := 2 ]} = Ok (0, faceBuffer')
    /\ parseFaces (Examples.container [] [(2, faceBuffer')]) 0 0 6 [tt; tt; tt]
       = Ok [Face.init 0 1 2; Face.init 2 1 0].
Proof.
  destruct (addFaces_read_back (Examples.container [] []) [Face.init 0 1 2; Face.init 2 1 0] []
              {[ 0%nat := 0; 1%nat := 1; 2%nat := 2 ]} [(0, 1, 2); (2, 1, 0)])
    as (faceBuffer' & Hadd & _ & Hread).
  - repeat constructor.
    + exists 0%nat, 1%nat, 2%nat. simpl. repeat split; (vm_compute; reflexivity) || lia.
    + exists 2%nat, 1%nat, 0%nat. simpl. repeat split; (vm_compute; reflexivity) || lia.
  - reflexivity.
  - exists faceBuffer'. split; [exact Hadd|].
    apply (Hread unit [tt; tt; tt] (Examples.container [] [(2, faceBuffer')]) [] []).
    + simpl. rewrite app_nil_r. reflexivity.
    + repeat constructor; unfold len; simpl; lia.
Defined.

(** ** The mesh ranges of a mesh group *)

Lemma range_succ (a b : Z) : a <= b -> range a (b + 1) = range a b ++ [b].
Proof.
  intros H. unfold range. replace (Z.to_nat (b + 1 - a)) with (S (Z.to_nat (b - a))) by lia.
  rewrite seq_S, map_app. simpl. do 2 f_equal. lia.
Qed.

Lemma expand_snoc (ranges : list (Z * Z)) (r : Z * Z) :
  expand (ranges ++ [r]) = expand ranges ++ range r.1 (r.1 + r.2).
Proof. unfold expand. rewrite flat_map_app. simpl. by rewrite app_nil_r. Qed.

Lemma maximalRuns_snoc (ranges : list (Z * Z)) (r r' : Z * Z) :
  maximalRuns (ranges ++ [r]) -> r'.1 ≠ r.1 + r.2 -> maximalRuns ((ranges ++ [r]) ++ [r']).
Proof.
  induction ranges as [|r0 ranges IH]; [simpl; tauto|].
  intros Hruns Hne. destruct ranges as [|r1 ranges]; simpl in *; [tauto|].
  destruct Hruns as [H0 Hruns]. split; [done|]. by apply IH.
Qed.

Lemma maximalRuns_last (ranges : list (Z * Z)) (r r' : Z * Z) :
  maximalRuns (ranges ++ [r]) -> r'.1 = r.1 -> r.2 <= r'.2 ->
  (forall r0, last ranges = Some r0 -> r.1 ≠ r0.1 + r0.2) ->
  maximalRuns (ranges ++ [r']).
Proof.
  induction ranges as [|r0 ranges IH]; [done|].
  intros Hruns H1 H2 Hlast. destruct ranges as [|r1 ranges]; simpl in *.
  - split; [|done]. rewrite H1. apply Hlast. done.
  - destruct Hruns as [H0 Hruns]. split; [done|]. apply IH; [done..|].
    intros r2 Hr2. apply Hlast. done.
Qed.

Lemma addMeshToAssignments_nil (meshIndices : gmap nat Z) (mesh : nat) (meshID : Z) :
  meshIndices !! mesh = Some meshID ->
  addMeshToAssignments meshIndices [] mesh = Ok [(meshID, 1)].
Proof.
  intros Hmesh. unfold addMeshToAssignments.
  replace (meshIndices !! mesh) with (Some meshID) by (symmetry; exact Hmesh).
  done.
Qed.

Lemma addMeshToAssignments_snoc (meshIndices : gmap nat Z) (init : list (Z * Z))
    (firstMeshID meshCount : Z) (mesh : nat) (meshID : Z) :
  meshIndices !! mesh = Some meshID ->
  addMeshToAssignments meshIndices (init ++ [(firstMeshID, meshCount)]) mesh
  = Ok (if meshID =? firstMeshID + meshCount then init ++ [(firstMeshID, meshCount + 1)]
        else (init ++ [(firstMeshID, meshCount)]) ++ [(meshID, 1)]).
Proof.
  intros Hmesh. unfold addMeshToAssignments.
  replace (meshIndices !! mesh) with (Some meshID) by (symmetry; exact Hmesh).
  rewrite bind_Ok_l.
  assert (Hlen : len (init ++ [(firstMeshID, meshCount)]) - 1 = len init).
  { rewrite len_app. unfold len. simpl. lia. }
  pose proof (len_nonneg init) as Hnn.
  rewrite Z.gtb_ltb, (proj2 (Z.ltb_lt _ _)) by lia.
  rewrite Hlen.
  rewrite (index_in_range _ _ (firstMeshID, meshCount))
    by (done || (unfold len; rewrite Nat2Z.id; by apply list_lookup_middle)).
  rewrite bind_Ok_l. cbn beta iota.
  destruct (meshID =? firstMeshID + meshCount); [|done].
  rewrite ref_in_range by (rewrite len_app; unfold len in *; simpl; lia).
  rewrite bind_Ok_l. unfold len. rewrite Nat2Z.id.
  rewrite insert_app_r_alt by done. by rewrite Nat.sub_diag.
Qed.

Lemma range_one (a : Z) : range a (a + 1) = [a].
Proof. unfold range. replace (a + 1 - a) with 1 by lia. simpl. f_equal. lia. Qed.

Lemma maximalRuns_init_last (init : list (Z * Z)) (r r0 : Z * Z) :
  maximalRuns (init ++ [r]) -> last init = Some r0 -> r.1 ≠ r0.1 + r0.2.
Proof.
  intros Hruns Hr0. apply last_Some in Hr0. destruct Hr0 as [init' ->].
  rewrite <- app_assoc in Hruns. simpl in Hruns.
  induction init' as [|r1 init' IH]; simpl in *; [tauto|].
  destruct init'; simpl in *; tauto.
Qed.

(** The state of the loop over the meshes of the group, after the meshes
    with the IDs [meshIDs]. *)
Lemma addMeshToAssignments_fold (meshIndices : gmap nat Z) (meshes : list nat)
    (meshIDs : list Z) :
  Forall2 (fun mesh meshID => meshIndices !! mesh = Some meshID) meshes meshIDs ->
  exists ranges,
    foldM (addMeshToAssignments meshIndices) [] meshes = Ok ranges
    /\ expand ranges = meshIDs
    /\ Forall (fun r => 1 <= r.2) ranges
    /\ maximalRuns ranges.
Proof.
  intros Hindexed.
  assert (Hgen : forall ranges0 done,
            expand ranges0 = done -> Forall (fun r => 1 <= r.2) ranges0 ->
            maximalRuns ranges0 ->
            exists ranges,
              foldM (addMeshToAssignments meshIndices) ranges0 meshes = Ok ranges
              /\ expand ranges = done ++ meshIDs
              /\ Forall (fun r => 1 <= r.2) ranges
              /\ maximalRuns ranges).
  { induction Hindexed as [|mesh meshID meshes meshIDs Hmesh _ IH];
      intros ranges0 done Hexpand Hcounts Hruns.
    - exists ranges0. by rewrite app_nil_r.
    - cbn [foldM].
      replace (done ++ meshID :: meshIDs) with ((done ++ [meshID]) ++ meshIDs)
        by (by rewrite <- app_assoc).
      destruct (decide (ranges0 = [])) as [->|Hne].
      { rewrite (addMeshToAssignments_nil _ _ meshID Hmesh), bind_Ok_l.
        apply IH; [|by repeat constructor | done].
        unfold expand in *. simpl in *. subst done. by rewrite app_nil_r, range_one. }
      destruct (exists_last Hne) as (init & [firstMeshID meshCount] & ->).
      rewrite (addMeshToAssignments_snoc _ _ _ _ _ meshID Hmesh), bind_Ok_l.
      pose proof Hcounts as Hcounts'.
      apply Forall_app in Hcounts'. destruct Hcounts' as [Hinit Hlast].
      apply Forall_cons in Hlast. destruct Hlast as [Hlast _]. simpl in Hlast.
      pose proof Hexpand as Hexpand'. rewrite expand_snoc in Hexpand'. simpl in Hexpand'.
      destruct (Z.eqb_spec meshID (firstMeshID + meshCount)) as [->|Hother].
      + apply IH.
        * rewrite expand_snoc. simpl. rewrite <- Hexpand', <- app_assoc. f_equal.
          rewrite Z.add_assoc. apply range_succ. lia.
        * apply Forall_app. split; [done|]. repeat constructor. simpl. lia.
        * eapply maximalRuns_last; [exact Hruns | done | simpl; lia |].
          intros r0 Hr0. by apply (maximalRuns_init_last init (firstMeshID, meshCount) r0).
      + apply IH.
        * rewrite expand_snoc. simpl. by rewrite Hexpand, range_one.
        * apply Forall_app. split; [done|]. by repeat constructor.
        * by apply maximalRuns_snoc. }
  destruct (Hgen [] [] eq_refl) as (ranges & Hfold & Hexpand & Hcounts & Hruns);
    [constructor | done |].
  by exists ranges.
Qed.

Lemma addMeshGroupAssignment_appends (fmdl : FmdlContainer.t)
    (meshGroupID firstMeshID meshCount boundingBoxID : Z)
    (assignments : list (Z * Z * Z * Z)) :
  parseMeshGroupAssignments fmdl = Ok assignments ->
  0 <= meshGroupID < 65536 -> 0 <= firstMeshID < 65536 ->
  0 <= meshCount < 65536 -> 0 <= boundingBoxID < 65536 ->
  exists ID fmdl',
    addMeshGroupAssignment fmdl meshGroupID firstMeshID meshCount boundingBoxID
      = Ok (ID, fmdl')
    /\ parseMeshGroupAssignments fmdl'
       = Ok (assignments ++ [(meshGroupID, firstMeshID, meshCount, boundingBoxID)]).
Proof.
  intros Hlist Hg Hf Hc Hb. unfold parseMeshGroupAssignments in *.
  rewrite mapM_nil_block in Hlist.
  destruct (record_round_trip parseMeshGroupAssignment fmdl 2
              [x_; x_; x_; x_; H_; H_; H_; H_; x_; x_; x_; x_; H_;
               x_; x_; x_; x_; x_; x_; x_; x_; x_; x_; x_; x_; x_; x_]
              (meshGroupID, (meshCount, (firstMeshID, (boundingBoxID, (0, tt)))))
              assignments Hlist) as (fmdl' & Hadd & Hread & _); [fits_tac|].
  exists (len assignments), fmdl'. split; [exact Hadd|]. rewrite mapM_nil_block, Hread.
  unfold parseMeshGroupAssignment. rewrite unpack_packed; [done | no_s_tac | fits_tac].
Qed.

Lemma addMeshRange_fold (meshGroupID boundingBoxID : Z) (ranges : list (Z * Z))
    (fmdl : FmdlContainer.t) (assignments : list (Z * Z * Z * Z)) :
  0 <= meshGroupID < 65536 -> 0 <= boundingBoxID < 65536 ->
  Forall (fun r => 0 <= r.1 < 65536 /\ 0 <= r.2 < 65536) ranges ->
  parseMeshGroupAssignments fmdl = Ok assignments ->
  exists fmdl',
    foldM (addMeshRange meshGroupID boundingBoxID) fmdl ranges = Ok fmdl'
    /\ parseMeshGroupAssignments fmdl'
       = Ok (assignments ++ map (fun r => (meshGroupID, r.1, r.2, boundingBoxID)) ranges).
Proof.
  intros Hg Hb Hranges. revert fmdl assignments.
  induction Hranges as [|[firstMeshID meshCount] ranges [Hf Hc] _ IH];
    intros fmdl assignments Hlist.
  - exists fmdl. by rewrite app_nil_r.
  - simpl in Hf, Hc. cbn [foldM].
    destruct (addMeshGroupAssignment_appends fmdl meshGroupID firstMeshID meshCount
                boundingBoxID assignments Hlist Hg Hf Hc Hb) as (ID & fmdl1 & Hadd & Hlist1).
    assert (Hstep : addMeshRange meshGroupID boundingBoxID fmdl (firstMeshID, meshCount)
                    = Ok fmdl1).
    { unfold addMeshRange. by rewrite Hadd. }
    rewrite Hstep, bind_Ok_l.
    destruct (IH fmdl1 _ Hlist1) as (fmdl' & -> & Hlist').
    exists fmdl'. split; [done|]. rewrite Hlist', <- app_assoc. done.
Qed.

Lemma expand_bounds (ranges : list (Z * Z)) (r : Z * Z) :
  r ∈ ranges -> 1 <= r.2 -> r.1 ∈ expand ranges /\ r.1 + r.2 - 1 ∈ expand ranges.
Proof.
  intros Hr Hcount. unfold expand.
  split; apply list_elem_of_In, in_flat_map; exists r;
    (split; [by apply list_elem_of_In|]); apply list_elem_of_In, elem_of_range; lia.
Qed.

(** X13: the loop of [addMeshGroup] over the meshes of a group, whose
    mesh IDs are below 65535, turns them into ranges
    [(firstMeshID, meshCount)] that, expanded, give the mesh IDs back in the
    order of the group; no range is empty and none continues the one before
    it.  The ranges are written as mesh-group assignments in that order, and
    an empty range [(0, 0)] when the group has no mesh:
    [parseMeshGroupAssignments] reads them back, after the assignments the
    container had. *)
Theorem addMeshRanges_read_back (fmdl : FmdlContainer.t) (meshes : list nat)
    (meshIndices : gmap nat Z) (meshIDs : list Z) (meshGroupID boundingBoxID : Z)
    (assignments : list (Z * Z * Z * Z)) :
  Forall2 (fun mesh meshID => meshIndices !! mesh = Some meshID) meshes meshIDs ->
  Forall (fun meshID => 0 <= meshID < 65535) meshIDs ->
  0 <= meshGroupID < 65536 -> 0 <= boundingBoxID < 65536 ->
  parseMeshGroupAssignments fmdl = Ok assignments ->
  exists ranges fmdl',
    foldM (addMeshToAssignments meshIndices) [] meshes = Ok ranges
    /\ expand ranges = meshIDs
    /\ Forall (fun r => 1 <= r.2) ranges
    /\ maximalRuns ranges
    /\ addMeshRanges fmdl meshes meshIndices meshGroupID boundingBoxID = Ok fmdl'
    /\ parseMeshGroupAssignments fmdl'
       = Ok (assignments
             ++ if decide (meshes = []) then [(meshGroupID, 0, 0, boundingBoxID)]
                else map (fun r => (meshGroupID, r.1, r.2, boundingBoxID)) ranges).
Proof.
  intros Hindexed Hids Hg Hb Hlist.
  destruct (addMeshToAssignments_fold meshIndices meshes meshIDs Hindexed)
    as (ranges & Hfold & Hexpand & Hcounts & Hruns).
  assert (Hfit : Forall (fun r => 0 <= r.1 < 65536 /\ 0 <= r.2 < 65536) ranges).
  { apply Forall_forall. intros r Hr.
    pose proof (proj1 (Forall_forall _ _) Hcounts r Hr) as Hcount.
    destruct (expand_bounds ranges r Hr Hcount) as [Hfirst Hlast].
    rewrite Hexpand in Hfirst, Hlast. rewrite Forall_forall in Hids.
    specialize (Hids _ Hfirst) as Hfirst'. specialize (Hids _ Hlast) as Hlast'.
    simpl in *. lia. }
  destruct (addMeshRange_fold meshGroupID boundingBoxID ranges fmdl assignments Hg Hb Hfit
              Hlist) as (fmdl1 & Hwrite & Hread).
  unfold addMeshRanges. rewrite Hfold, bind_Ok_l, Hwrite, bind_Ok_l.
  destruct (decide (meshes = [])) as [->|Hmeshes].
  - simpl in Hfold. injection Hfold as <-. simpl in *. rewrite app_nil_r in Hread.
    destruct (addMeshGroupAssignment_appends fmdl1 meshGroupID 0 0 boundingBoxID assignments
                Hread Hg ltac:(lia) ltac:(lia) Hb) as (ID & fmdl' & Hadd & Hread').
    exists [], fmdl'. rewrite Hadd. repeat split; done.
  - assert (Hne : ranges ≠ []).
    { intros ->. simpl in Hexpand. subst meshIDs.
      apply Forall2_length in Hindexed. by destruct meshes. }
    exists ranges, fmdl1. do 4 (split; [done|]). split; [|done].
    destruct ranges; [done|]. done.
Qed.

Lemma addMeshRanges_read_back_witness :
  exists fmdl',
    addMeshRanges (Examples.container [] []) [0; 1; 3; 2]%nat
      {[ 0%nat := 5; 1%nat := 6; 2%nat := 7; 3%nat := 9 ]} 1 0 = Ok fmdl'
    /\ parseMeshGroupAssignments fmdl' = Ok [(1, 5, 2, 0); (1, 9, 1, 0); (1, 7, 1, 0)].
Proof.
  destruct (addMeshRanges_read_back (Examples.container [] []) [0; 1; 3; 2]%nat
              {[ 0%nat := 5; 1%nat := 6; 2%nat := 7; 3%nat := 9 ]} [5; 6; 9; 7] 1 0 [])
    as (ranges & fmdl' & Hranges & _ & _ & _ & Hadd & Hread).
  - repeat constructor.
  - repeat constructor; lia.
  - lia.
  - lia.
  - reflexivity.
  - exists fmdl'. split; [exact Hadd|]. rewrite Hread.
    vm_compute in Hranges. injection Hranges as <-. reflexivity.
Defined.

(** ** What the container reader refuses *)

Lemma read_block_short (s : stream.t) (n : Z) (error : exn) :
  0 <= stream.position s -> 0 < n ->
  len (stream.content s) < stream.position s + n ->
  FmdlContainer.read_block s n error = Raise error.
Proof.
  intros Hpos Hn Hshort. unfold FmdlContainer.read_block, stream.bytearray.
  rewrite (proj2 (Z.ltb_ge _ _)) by lia. rewrite bind_Ok_l.
  unfold stream.readinto. cbv zeta. rewrite length_replicate.
  set (data := take (Z.to_nat n) (drop (Z.to_nat (stream.position s)) (stream.content s))).
  assert (Hdata : (length data < Z.to_nat n)%nat).
  { unfold data. rewrite length_take, length_drop. unfold len in *. lia. }
  rewrite decide_True; [done|].
  unfold len. rewrite length_app, length_drop, length_replicate. lia.
Qed.

(** X14: [readStream] refuses with InvalidFmdl a stream that has fewer
    than 56 bytes left, whatever they are, and a stream whose next four
    bytes are not [FMDL], whatever follows them. *)
Theorem readStream_refuses (self : FmdlContainer.t) (s : stream.t) :
  0 <= stream.position s ->
  (len (stream.content s) < stream.position s + 56 ->
   FmdlContainer.readStream self s = Raise (InvalidFmdl "Incomplete header" []))
  /\ (stream.position s + 56 <= len (stream.content s) ->
      take 4 (drop (Z.to_nat (stream.position s)) (stream.content s)) ≠ FmdlContainer.MAGIC ->
      FmdlContainer.readStream self s = Raise (InvalidFmdl "Unexpected magic number" [])).
Proof.
  intros Hpos. split.
  - intros Hshort. unfold FmdlContainer.readStream.
    by rewrite read_block_short by lia.
  - intros Hfit Hmagic. unfold FmdlContainer.readStream.
    pose proof (read_block_exact s 56 (InvalidFmdl "Incomplete header" [])
                  ltac:(lia) Hpos Hfit) as Hread.
    unfold read_block_result in Hread. rewrite Hread, bind_Ok_l. cbn beta iota.
    set (header := take (Z.to_nat 56) (drop (Z.to_nat (stream.position s)) (stream.content s))).
    assert (Hlen : length header = 56%nat).
    { unfold header. rewrite length_take, length_drop. unfold len in Hfit. lia. }
    unfold unpack. rewrite decide_True by (rewrite Hlen; reflexivity).
    rewrite bind_Ok_l. cbn [unpack_fields]. cbn beta iota.
    rewrite decide_True; [done|].
    cbn [fst]. unfold header. rewrite take_take. exact Hmagic.
Qed.

Lemma readStream_refuses_witness :
  FmdlContainer.readStream FmdlContainer.init (Examples.open (Examples.of_ints [70; 77; 68]))
  = Raise (InvalidFmdl "Incomplete header" []).
Proof.
  apply (proj1 (readStream_refuses FmdlContainer.init
                  (Examples.open (Examples.of_ints [70; 77; 68])) ltac:(simpl; lia))).
  unfold len. simpl. lia.
Defined.


(** ** Bone groups on read (C10) *)

Lemma mapM_map {A B : Type} (f : A -> result B) (g : A -> B) (l : list A) :
  Forall (fun a => f a = Ok (g a)) l -> mapM f l = Ok (map g l).
Proof.
  induction 1 as [|a l Ha _ IH]; [done|]. cbn [mapM map]. by rewrite Ha, bind_Ok_l, IH.
Qed.

Lemma mapM_Exists_Raise {A B : Type} (P : exn -> Prop) (f : A -> result B) (l : list A) :
  Forall (fun a => (exists b, f a = Ok b) \/ raises P (f a)) l ->
  Exists (fun a => raises P (f a)) l ->
  raises P (mapM f l).
Proof.
  induction 1 as [|a l Ha _ IH]; intros Hexists; [by apply Exists_nil in Hexists|].
  cbn [mapM]. destruct Ha as [[b Hb] | (e & He & HP)].
  - rewrite Hb, bind_Ok_l. apply Exists_cons in Hexists as [(e & He & _) | Hexists];
      [congruence|].
    destruct (IH Hexists) as (e & He & HP). exists e. by rewrite He.
  - exists e. by rewrite He.
Qed.

(** C10: [parseBoneGroups] reads each record of block 5 (68 bytes each) as
    the bone IDs of its first entries, as many as the record declares and no
    more than 32.  When these bone IDs exist, the read returns one group per
    record with exactly these bones; otherwise it raises the error for a
    bone ID out of range, and no other.  So a record that declares more than
    32 entries is read, without an error for the count, as the group of its
    first 32 bone IDs.  On write a group of more than 32 bones is refused. *)
Theorem boneGroup_count_clamped_on_read :
  (forall (Bone : Type) (fmdl : FmdlContainer.t) (bones : list Bone),
     Forall (fun definition => length definition = 68%nat) (blockOf fmdl 5) ->
     (Forall (fun definition => Forall (fun boneID => boneID < len bones)
                                  (boneIDsRead definition)) (blockOf fmdl 5) ->
      parseBoneGroups fmdl bones
      = Ok (map (fun definition =>
                   {| BoneGroup.bones := map Z.to_nat (boneIDsRead definition) |})
              (blockOf fmdl 5)))
     /\ (Exists (fun definition => Exists (fun boneID => ¬ boneID < len bones)
                                     (boneIDsRead definition)) (blockOf fmdl 5) ->
         exists boneID,
           ¬ boneID < len bones
           /\ parseBoneGroups fmdl bones = Raise (invalidBoneID boneID))
     /\ (forall (boneGroups : list BoneGroup.t) (k : nat) (definition : bytes),
           parseBoneGroups fmdl bones = Ok boneGroups ->
           blockOf fmdl 5 !! k = Some definition ->
           32 < u16_at definition 2 ->
           boneGroups !! k
           = Some {| BoneGroup.bones :=
                       map (fun i => Z.to_nat (u16_at definition (i * 2 + 4)))
                         (range 0 32) |}))
  /\ (forall (fmdl : FmdlContainer.t) (boneGroup : BoneGroup.t) (boneIndices : gmap nat Z),
        32 < len (BoneGroup.bones boneGroup) ->
        addBoneGroup fmdl (Some boneGroup) boneIndices
        = Raise (InvalidFmdl "Too many bones in bone group" [])).
Proof.
  split.
  - intros Bone fmdl bones Hlen.
    assert (Hvalid :
      Forall (fun definition => Forall (fun boneID => boneID < len bones)
                                  (boneIDsRead definition)) (blockOf fmdl 5) ->
      parseBoneGroups fmdl bones
      = Ok (map (fun definition =>
                   {| BoneGroup.bones := map Z.to_nat (boneIDsRead definition) |})
              (blockOf fmdl 5))).
    { intros Hids. unfold parseBoneGroups. rewrite mapM_nil_block. apply mapM_map.
      apply Forall_forall. intros definition Hin.
      rewrite Forall_forall in Hlen, Hids.
      by apply (parseBoneGroup_read bones definition (Hlen _ Hin)), Hids. }
    assert (Hinvalid :
      Exists (fun definition => Exists (fun boneID => ¬ boneID < len bones)
                                  (boneIDsRead definition)) (blockOf fmdl 5) ->
      exists boneID,
        ¬ boneID < len bones
        /\ parseBoneGroups fmdl bones = Raise (invalidBoneID boneID)).
    { intros Hids. unfold parseBoneGroups. rewrite mapM_nil_block.
      destruct (mapM_Exists_Raise
                  (fun e => exists boneID, ¬ boneID < len bones /\ e = invalidBoneID boneID)
                  (parseBoneGroup bones) (blockOf fmdl 5)) as (e & He & boneID & Hid & ->).
      - apply Forall_forall. intros definition Hin. rewrite Forall_forall in Hlen.
        destruct (parseBoneGroup_read bones definition (Hlen _ Hin)) as [Hok Hraise].
        destruct (decide (Forall (fun boneID => boneID < len bones) (boneIDsRead definition)))
          as [Hall | Hsome].
        + left. eexists. by apply Hok.
        + right. apply not_Forall_Exists in Hsome; [|apply _].
          destruct (Hraise Hsome) as (boneID & _ & Hid & Heq).
          exists (invalidBoneID boneID). split; [done|]. by exists boneID.
      - apply Exists_exists in Hids as (definition & Hin & Hsome).
        apply Exists_exists. exists definition. split; [done|].
        rewrite Forall_forall in Hlen.
        destruct (parseBoneGroup_read bones definition (Hlen _ Hin)) as [_ Hraise].
        destruct (Hraise Hsome) as (boneID & _ & Hid & Heq).
        exists (invalidBoneID boneID). split; [done|]. by exists boneID.
      - by exists boneID. }
    split; [exact Hvalid|]. split; [exact Hinvalid|].
    intros boneGroups k definition Hread Hk Hcount.
    destruct (decide (Forall (fun definition => Forall (fun boneID => boneID < len bones)
                                                  (boneIDsRead definition)) (blockOf fmdl 5)))
      as [Hall | Hsome].
    + rewrite (Hvalid Hall) in Hread. injection Hread as <-.
      rewrite list_lookup_fmap, Hk. cbn. unfold boneIDsRead.
      rewrite Z.min_r by lia. by rewrite map_map.
    + apply not_Forall_Exists in Hsome; [|apply _].
      assert (Hbad : Exists (fun definition =>
                        Exists (fun boneID => ¬ boneID < len bones) (boneIDsRead definition))
                       (blockOf fmdl 5)).
      { eapply Exists_impl; [exact Hsome|]. intros definition' Hnot.
        apply not_Forall_Exists in Hnot; [done | apply _]. }
      destruct (Hinvalid Hbad) as (boneID & _ & Heq). congruence.
  - intros fmdl boneGroup boneIndices Hlen. unfold addBoneGroup.
    destruct (len (BoneGroup.bones boneGroup) >? 32) eqn:Hgt; [done | lia].
Qed.

Lemma boneGroup_count_clamped_witness :
  parseBoneGroups
    (Examples.container [(5, [Examples.bigBoneGroup; Examples.boneGroupRecord [3; 1]])] [])
    (replicate 32 ())
  = Ok [{| BoneGroup.bones := seq 0 32 |}; {| BoneGroup.bones := [3; 1]%nat |}].
Proof.
  pose proof (proj1 (proj1 boneGroup_count_clamped_on_read unit
                       (Examples.container
                          [(5, [Examples.bigBoneGroup; Examples.boneGroupRecord [3; 1]])] [])
                       (replicate 32 ()) ltac:(by repeat constructor))) as Hread.
  rewrite Hread; [reflexivity|].
  vm_compute. repeat constructor.
Defined.

(** ** The bone group of a mesh (C9) *)

Lemma mapM_Ok_Forall2 {A B : Type} (f : A -> result B) (l : list A) (ys : list B) :
  mapM f l = Ok ys -> Forall2 (fun a y => f a = Ok y) l ys.
Proof.
  revert ys. induction l as [|a l IH]; intros ys; cbn [mapM].
  - intros [= <-]. constructor.
  - intros H. apply bind_Ok in H as (y & Hy & H). apply bind_Ok in H as (ys' & Hys & H).
    injection H as <-. constructor; [done|]. by apply IH.
Qed.

Lemma mapM_insert {A B : Type} (f : A -> result B) (l : list A) (k : nat) (a a' : A) :
  l !! k = Some a -> f a' = f a -> mapM f (<[k := a']> l) = mapM f l.
Proof.
  revert k. induction l as [|x l IH]; intros k Hk Hf; [done|].
  destruct k as [|k].
  - injection Hk as ->. cbn [mapM]. change (<[0%nat := a']> (a :: l)) with (a' :: l).
    cbn [mapM]. by rewrite Hf.
  - change (<[S k := a']> (x :: l)) with (x :: <[k := a']> l).
    cbn [mapM]. by rewrite (IH k).
Qed.

Lemma mapM_ext {A B : Type} (f g : A -> result B) (l : list A) :
  (forall a, f a = g a) -> mapM f l = mapM g l.
Proof. intros Hfg. induction l as [|a l IH]; [done|]. cbn [mapM]. by rewrite Hfg, IH. Qed.

(** A mesh record with another [boneGroupID] unpacks to the same fields
    but this one. *)
Lemma unpackMesh_setBoneGroupID (definition : bytes) (record : meshRecord) (boneGroupID : Z) :
  unpackMesh definition = Ok record -> 0 <= boneGroupID < 65536 ->
  unpackMesh (setBoneGroupID definition boneGroupID)
  = Ok (with_boneGroupID record boneGroupID).
Proof.
  intros Hrecord Hid. unfold unpackMesh, unpack in *.
  case_decide as Hlen; [|done].
  do 48 (destruct definition as [|? definition]; [done|]).
  destruct definition; [|done]. clear Hlen.
  rewrite bind_Ok_l in Hrecord. cbn in Hrecord. injection Hrecord as <-.
  unfold setBoneGroupID, poke. cbn [le_encode length take drop app Nat.add].
  rewrite decide_True by done. rewrite bind_Ok_l. cbn.
  unfold with_boneGroupID. cbn. do 2 f_equal.
  change (byte_val (byte_of boneGroupID) + 256 * (byte_val (byte_of (boneGroupID / 256)) + 256 * 0))
    with (le_decode (le_encode 2 boneGroupID)).
  apply le_decode_encode. cbn. lia.
Qed.

Section MeshBoneGroup.
Context {MaterialInstance : Type}.
Variables (fmdl : FmdlContainer.t) (faceIndices : list (Z * Z)) (bufferOffsets : list Z)
  (meshFormats : list (list (Z * Z * Z * Z))) (materialInstances : list MaterialInstance).

(** The bone group of a mesh read with a format that has bone indices is
    the group of the list that the record names. *)
Lemma meshOfRecord_boneGroup_value (boneGroups : list BoneGroup.t) (record : meshRecord)
    (mesh : Mesh.t) :
  meshOfRecord fmdl boneGroups faceIndices bufferOffsets meshFormats materialInstances record
    = Ok mesh ->
  exists format,
    index meshFormats (mr_meshFormatID record) = Ok format
    /\ (is_Some (Mesh.boneGroup mesh)
        <-> FmdlVertexDatumType.boneIndices ∈ map datumTypeOf format)
    /\ (FmdlVertexDatumType.boneIndices ∈ map datumTypeOf format ->
        exists boneGroup,
          mr_boneGroupID record < len boneGroups
          /\ index boneGroups (mr_boneGroupID record) = Ok boneGroup
          /\ Mesh.boneGroup mesh = Some boneGroup).
Proof.
  intros Hmesh.
  destruct (meshOfRecord_boneGroup fmdl faceIndices bufferOffsets meshFormats
              materialInstances boneGroups record mesh Hmesh) as (format & Hformat & Hiff).
  exists format. split; [done|]. split; [done|]. intros Hin.
  revert Hmesh. unfold meshOfRecord. cbv zeta. intros H.
  case_decide; [done|]. rewrite Hformat, bind_Ok_l in H.
  apply bind_Ok in H as (st & Hst & H).
  apply scanFormat_boneIndices in Hst. cbn [fs_boneIndices formatState_init] in Hst.
  assert (Hbi : fs_boneIndices st = true) by (apply Hst; by right).
  destruct (fs_uv3 st && negb (fs_uv2 st)); [done|].
  destruct (fs_uv2 st && negb (fs_uv1 st)); [done|].
  destruct (fs_uv1 st && negb (fs_uv0 st)); [done|].
  destruct (negb (eqb (fs_boneWeights st) (fs_boneIndices st))); [done|].
  apply bind_Ok in H as (uvEqualities & _ & H).
  case_decide; [done|].
  apply bind_Ok in H as (materialInstance & _ & H).
  apply bind_Ok in H as (boneGroup & HboneGroup & H).
  case_decide; [done|].
  apply bind_Ok in H as ([lodFirst lodCount] & _ & H).
  apply bind_Ok in H as (vertices & _ & H).
  apply bind_Ok in H as (faceBufferOffset & _ & H).
  apply bind_Ok in H as (faces & _ & H).
  injection H as <-. cbn [Mesh.boneGroup].
  rewrite Hbi in HboneGroup. cbn [negb] in HboneGroup.
  case_decide as Hbound; [done|].
  apply bind_Ok in HboneGroup as (g & Hg & HboneGroup). injection HboneGroup as <-.
  exists g. split; [lia|]. done.
Qed.

End MeshBoneGroup.

(** The readers of the other blocks do not see a record of block 3. *)
Lemma replaceRecord_lookup (fmdl : FmdlContainer.t) (k : nat) (definition : bytes)
    (blockID : Z) :
  blockID ≠ 3 ->
  FmdlContainer.segment0Blocks (replaceRecord fmdl 3 k definition) !! blockID
  = FmdlContainer.segment0Blocks fmdl !! blockID.
Proof. intros Hne. unfold replaceRecord. cbn. by rewrite lookup_alter_ne. Qed.

Lemma replaceRecord_lookup_3 (fmdl : FmdlContainer.t) (k : nat) (definition : bytes) :
  FmdlContainer.segment0Blocks (replaceRecord fmdl 3 k definition) !! 3
  = (fun block => <[k := definition]> block) <$> FmdlContainer.segment0Blocks fmdl !! 3.
Proof. unfold replaceRecord. cbn. by rewrite lookup_alter. Qed.

Lemma meshOfRecord_replaceRecord {MaterialInstance : Type} (fmdl : FmdlContainer.t) (k : nat)
    (definition : bytes) (boneGroups : list BoneGroup.t) (faceIndices : list (Z * Z))
    (bufferOffsets : list Z) (meshFormats : list (list (Z * Z * Z * Z)))
    (materialInstances : list MaterialInstance) (record : meshRecord) :
  meshOfRecord (replaceRecord fmdl 3 k definition) boneGroups faceIndices bufferOffsets
    meshFormats materialInstances record
  = meshOfRecord fmdl boneGroups faceIndices bufferOffsets meshFormats materialInstances
      record.
Proof. reflexivity. Qed.

(** C9: in the meshes [parseMeshes] returns, one per record of block 3, a
    mesh has a bone group if and only if the format of the mesh has an entry
    of type [boneIndices], and the group is then the one of the bone groups
    read from block 5 that the record's [boneGroupID] names.  When the
    format has no such entry, the [boneGroupID] of the record plays no part:
    whatever 16-bit value the record holds there, in range or not, the
    outcome of [parseMeshes], value or error, is the same. *)
Theorem mesh_boneGroup_iff_boneIndices {Bone MaterialInstance : Type}
    (fmdl : FmdlContainer.t) (bones : list Bone) (materialInstances : list MaterialInstance) :
  (forall meshes,
     parseMeshes fmdl bones materialInstances = Ok meshes ->
     Forall2 (fun definition mesh =>
                exists boneGroups bufferOffsets meshFormats record format,
                  parseBoneGroups fmdl bones = Ok boneGroups
                  /\ parseBufferOffsets fmdl = Ok bufferOffsets
                  /\ parseMeshFormatAssignments fmdl bufferOffsets = Ok meshFormats
                  /\ unpackMesh definition = Ok record
                  /\ index meshFormats (mr_meshFormatID record) = Ok format
                  /\ (is_Some (Mesh.boneGroup mesh)
                      <-> FmdlVertexDatumType.boneIndices ∈ map datumTypeOf format)
                  /\ (FmdlVertexDatumType.boneIndices ∈ map datumTypeOf format ->
                      exists boneGroup,
                        mr_boneGroupID record < len boneGroups
                        /\ index boneGroups (mr_boneGroupID record) = Ok boneGroup
                        /\ Mesh.boneGroup mesh = Some boneGroup))
       (blockOf fmdl 3) meshes)
  /\ (forall (k : nat) (definition : bytes) (record : meshRecord) (boneGroupID : Z),
        blockOf fmdl 3 !! k = Some definition ->
        unpackMesh definition = Ok record ->
        0 <= boneGroupID < 65536 ->
        (forall bufferOffsets meshFormats format,
           parseBufferOffsets fmdl = Ok bufferOffsets ->
           parseMeshFormatAssignments fmdl bufferOffsets = Ok meshFormats ->
           index meshFormats (mr_meshFormatID record) = Ok format ->
           FmdlVertexDatumType.boneIndices ∉ map datumTypeOf format) ->
        parseMeshes (replaceRecord fmdl 3 k (setBoneGroupID definition boneGroupID))
          bones materialInstances
        = parseMeshes fmdl bones materialInstances).
Proof.
  split.
  - intros meshes. unfold parseMeshes, blockOf.
    destruct (FmdlContainer.segment0Blocks fmdl !! 3) as [block|]; cbn [default].
    2: { intros [= <-]. constructor. }
    intros H.
    apply bind_Ok in H as (boneGroups & HboneGroups & H).
    apply bind_Ok in H as (levelsOfDetail & _ & H).
    apply bind_Ok in H as (faceIndices & _ & H).
    apply bind_Ok in H as (bufferOffsets & HbufferOffsets & H).
    apply bind_Ok in H as (meshFormats & HmeshFormats & H).
    case_decide; [done|].
    apply mapM_Ok_Forall2 in H. eapply Forall2_impl; [exact H|].
    intros definition mesh Hmesh. cbv beta in Hmesh. unfold parseMesh in Hmesh.
    apply bind_Ok in Hmesh as (record & Hrecord & Hmesh).
    apply meshOfRecord_boneGroup_value in Hmesh as (format & Hformat & Hiff & Hvalue).
    by exists boneGroups, bufferOffsets, meshFormats, record, format.
  - intros k definition record boneGroupID Hk Hrecord Hid Habsent.
    unfold blockOf in Hk. unfold parseMeshes.
    rewrite replaceRecord_lookup_3.
    destruct (FmdlContainer.segment0Blocks fmdl !! 3) as [block|]; [|done].
    cbn [default fmap option_fmap option_map] in *.
    assert (HboneGroups :
      parseBoneGroups (replaceRecord fmdl 3 k (setBoneGroupID definition boneGroupID)) bones
      = parseBoneGroups fmdl bones).
    { unfold parseBoneGroups. by rewrite replaceRecord_lookup. }
    assert (Hlod :
      parseLevelsOfDetail (replaceRecord fmdl 3 k (setBoneGroupID definition boneGroupID))
      = parseLevelsOfDetail fmdl).
    { unfold parseLevelsOfDetail. by rewrite replaceRecord_lookup. }
    assert (HfaceIndices :
      parseFaceIndices (replaceRecord fmdl 3 k (setBoneGroupID definition boneGroupID))
      = parseFaceIndices fmdl).
    { unfold parseFaceIndices. by rewrite replaceRecord_lookup. }
    assert (HbufferOffsets :
      parseBufferOffsets (replaceRecord fmdl 3 k (setBoneGroupID definition boneGroupID))
      = parseBufferOffsets fmdl).
    { unfold parseBufferOffsets. by rewrite replaceRecord_lookup. }
    assert (HmeshFormats : forall bufferOffsets,
      parseMeshFormatAssignments
        (replaceRecord fmdl 3 k (setBoneGroupID definition boneGroupID)) bufferOffsets
      = parseMeshFormatAssignments fmdl bufferOffsets).
    { intros bufferOffsets.
      unfold parseMeshFormatAssignments, parseMeshFormats, parseVertexFormats.
      by rewrite !replaceRecord_lookup. }
    rewrite HboneGroups, Hlod, HfaceIndices, HbufferOffsets.
    destruct (parseBoneGroups fmdl bones) as [boneGroups| |]; [|done..].
    rewrite !bind_Ok_l.
    destruct (parseLevelsOfDetail fmdl) as [levelsOfDetail| |]; [|done..].
    rewrite !bind_Ok_l.
    destruct (parseFaceIndices fmdl) as [faceIndices| |]; [|done..].
    rewrite !bind_Ok_l.
    destruct (parseBufferOffsets fmdl) as [bufferOffsets| |] eqn:Hoffsets; [|done..].
    rewrite !bind_Ok_l. rewrite HmeshFormats.
    destruct (parseMeshFormatAssignments fmdl bufferOffsets) as [meshFormats| |] eqn:Hformats;
      [|done..].
    rewrite !bind_Ok_l. case_decide; [done|].
    rewrite (mapM_ext _ (parseMesh fmdl boneGroups faceIndices bufferOffsets meshFormats
                           materialInstances)) by done.
    apply (mapM_insert _ _ _ definition); [done|].
    unfold parseMesh.
    rewrite (unpackMesh_setBoneGroupID definition record boneGroupID Hrecord Hid), Hrecord.
    rewrite !bind_Ok_l. symmetry.
    apply meshOfRecord_ignores_boneGroupID. intros format Hformat.
    by apply (Habsent bufferOffsets meshFormats format).
Qed.

Lemma mesh_boneGroup_iff_boneIndices_witness :
  (exists mesh,
     parseMeshes (Examples.skinned 1) (replicate 9 ()) [()] = Ok [mesh]
     /\ Mesh.boneGroup mesh = Some {| BoneGroup.bones := [7; 8]%nat |})
  /\ parseMeshes (replaceRecord Examples.triangle 3 0
                    (setBoneGroupID Examples.triangleMesh 9)) (@nil unit) [()]
     = parseMeshes Examples.triangle (@nil unit) [()].
Proof.
  split.
  - eexists. split; [vm_compute; reflexivity|].
    match goal with
    | |- Mesh.boneGroup ?mesh = _ =>
        pose proof (proj1 (mesh_boneGroup_iff_boneIndices (Examples.skinned 1)
                             (replicate 9 ()) [()]) [mesh] ltac:(vm_compute; reflexivity))
          as Hread
    end.
    change (blockOf (Examples.skinned 1) 3) with [Examples.meshRecordOf 1] in Hread.
    apply Forall2_cons_1 in Hread as [Hmesh _].
    destruct Hmesh as (boneGroups & bufferOffsets & meshFormats & record & format
                       & HboneGroups & HbufferOffsets & HmeshFormats & Hrecord & Hformat
                       & _ & Hvalue).
    vm_compute in HboneGroups. injection HboneGroups as <-.
    vm_compute in HbufferOffsets. injection HbufferOffsets as <-.
    vm_compute in HmeshFormats. injection HmeshFormats as <-.
    vm_compute in Hrecord. injection Hrecord as <-.
    vm_compute in Hformat. injection Hformat as <-.
    destruct Hvalue as (boneGroup & _ & HboneGroup & Hgroup).
    { apply list_elem_of_In. right. right. left. reflexivity. }
    vm_compute in HboneGroup. injection HboneGroup as <-. exact Hgroup.
  - apply (proj2 (mesh_boneGroup_iff_boneIndices Examples.triangle (@nil unit) [()])
             0%nat Examples.triangleMesh Examples.triangleRecord 9).
    + reflexivity.
    + vm_compute. reflexivity.
    + lia.
    + intros bufferOffsets meshFormats format HbufferOffsets HmeshFormats Hformat.
      vm_compute in HbufferOffsets. injection HbufferOffsets as <-.
      vm_compute in HmeshFormats. injection HmeshFormats as <-.
      vm_compute in Hformat. injection Hformat as <-.
      intros Hin. apply list_elem_of_In in Hin. destruct Hin as [Heq | []]. discriminate Heq.
Defined.

(** The skinned example: its mesh has the bone group its record names, and
    a record that names a bone group that does not exist is refused. *)
Example parseMeshes_skinned :
  (fun meshes => map (fun mesh => (length (Mesh.vertices mesh), Mesh.faces mesh,
                                   Mesh.boneGroup mesh)) meshes)
    <$> parseMeshes (Examples.skinned 1) (replicate 9 ()) [()]
  = Ok [(3%nat, [Face.init 0 1 2], Some {| BoneGroup.bones := [7; 8]%nat |})]
  /\ parseMeshes (Examples.skinned 2) (replicate 9 ()) [()]
     = Raise (InvalidFmdl "Invalid bone group ID %d referenced by mesh" [2]).
Proof. split; vm_compute; reflexivity. Qed.

(** ** The container, written and read back *)

Lemma bitmap_bound (bitmap i : Z) :
  0 <= bitmap < 2 ^ 64 -> 0 <= i < 64 -> 0 <= Z.lor bitmap (Z.shiftl 1 i) < 2 ^ 64.
Proof.
  intros Hb Hi. rewrite Z.shiftl_1_l.
  assert (Hp : 0 < 2 ^ i) by (apply Z.pow_pos_nonneg; lia).
  split; [apply Z.lor_nonneg; lia|].
  apply Z.log2_lt_pow2.
  - assert (0 <= Z.lor bitmap (2 ^ i)) by (apply Z.lor_nonneg; lia).
    assert (Z.lor bitmap (2 ^ i) ≠ 0); [|lia].
    intros H0. apply Z.lor_eq_0_iff in H0. lia.
  - rewrite Z.log2_lor by lia. rewrite Z.log2_pow2 by lia.
    destruct (decide (bitmap = 0)) as [->|Hne]; [simpl; lia|].
    assert (Z.log2 bitmap < 64) by (apply Z.log2_lt_pow2; lia). lia.
Qed.

Lemma len_padded_nonneg (entries : list bytes) : 0 <= len (padded entries).
Proof. apply len_nonneg. Qed.

Lemma len_body0_cons (i : Z) (entries : list bytes) (blocks : list (Z * list bytes)) :
  len (body0 ((i, entries) :: blocks)) = len (padded entries) + len (body0 blocks).
Proof. unfold body0. cbn [map concat snd]. by rewrite len_app. Qed.

Lemma len_body1_cons (i : Z) (block : bytes) (blocks : list (Z * bytes)) :
  len (body1 ((i, block) :: blocks)) = len block + len (body1 blocks).
Proof. unfold body1. cbn [map concat snd]. by rewrite len_app. Qed.

Lemma writeSegment0Block_Some (self : FmdlContainer.t) (st : FmdlContainer.sections) (i : Z)
    (entries : list bytes) :
  FmdlContainer.segment0Blocks self !! i = Some entries ->
  0 <= i < 64 -> len entries < 65536 -> 0 <= FmdlContainer.offset st < 2 ^ 32 ->
  FmdlContainer.writeSegment0Block self st i
  = Ok {| FmdlContainer.bitmap := Z.lor (FmdlContainer.bitmap st) (Z.shiftl 1 i);
          FmdlContainer.descriptors :=
            FmdlContainer.descriptors st
            ++ [descriptor0 (i, len entries, FmdlContainer.offset st)];
          FmdlContainer.blocks := FmdlContainer.blocks st ++ [padded entries];
          FmdlContainer.offset := FmdlContainer.offset st + len (padded entries) |}.
Proof.
  intros Hentries Hi Hcount Hoffset. unfold FmdlContainer.writeSegment0Block.
  rewrite Hentries. pose proof (len_nonneg entries).
  rewrite pack_fits by fits_tac. done.
Qed.

Lemma writeSegment0Block_None (self : FmdlContainer.t) (st : FmdlContainer.sections) (i : Z) :
  FmdlContainer.segment0Blocks self !! i = None ->
  FmdlContainer.writeSegment0Block self st i = Ok st.
Proof. intros H. unfold FmdlContainer.writeSegment0Block. by rewrite H. Qed.

Lemma writeSegment1Block_Some (self : FmdlContainer.t) (st : FmdlContainer.sections) (i : Z)
    (block : bytes) :
  FmdlContainer.segment1Blocks self !! i = Some block ->
  0 <= i < 64 -> 0 <= FmdlContainer.offset st -> FmdlContainer.offset st + len block < 2 ^ 32 ->
  FmdlContainer.writeSegment1Block self st i
  = Ok {| FmdlContainer.bitmap := Z.lor (FmdlContainer.bitmap st) (Z.shiftl 1 i);
          FmdlContainer.descriptors :=
            FmdlContainer.descriptors st
            ++ [descriptor1 (i, FmdlContainer.offset st, len block)];
          FmdlContainer.blocks := FmdlContainer.blocks st ++ [block];
          FmdlContainer.offset := FmdlContainer.offset st + len block |}.
Proof.
  intros Hblock Hi Hoffset Hsize. unfold FmdlContainer.writeSegment1Block.
  rewrite Hblock. pose proof (len_nonneg block).
  rewrite pack_fits by fits_tac. done.
Qed.

Lemma writeSegment1Block_None (self : FmdlContainer.t) (st : FmdlContainer.sections) (i : Z) :
  FmdlContainer.segment1Blocks self !! i = None ->
  FmdlContainer.writeSegment1Block self st i = Ok st.
Proof. intros H. unfold FmdlContainer.writeSegment1Block. by rewrite H. Qed.

Section Written.
Variable self : FmdlContainer.t.

Lemma writeSegment0Block_fold (ids : list Z) (st : FmdlContainer.sections) :
  Forall (fun i => 0 <= i < 64) ids ->
  Forall (fun b : Z * list bytes => len b.2 < 65536) (written0 self ids) ->
  0 <= FmdlContainer.offset st ->
  FmdlContainer.offset st + len (body0 (written0 self ids)) < 2 ^ 32 ->
  0 <= FmdlContainer.bitmap st < 2 ^ 64 ->
  exists bitmap,
    0 <= bitmap < 2 ^ 64
    /\ foldM (FmdlContainer.writeSegment0Block self) st ids
       = Ok {| FmdlContainer.bitmap := bitmap;
               FmdlContainer.descriptors :=
                 FmdlContainer.descriptors st
                 ++ map descriptor0 (descriptors0 (FmdlContainer.offset st) (written0 self ids));
               FmdlContainer.blocks :=
                 FmdlContainer.blocks st ++ map (fun b => padded b.2) (written0 self ids);
               FmdlContainer.offset :=
                 FmdlContainer.offset st + len (body0 (written0 self ids)) |}.
Proof.
  revert st. induction ids as [|i ids IH]; intros st Hids Hcounts Hoffset Hsize Hbitmap.
  - exists (FmdlContainer.bitmap st). split; [done|]. cbn. rewrite !app_nil_r, Z.add_0_r.
    by destruct st.
  - apply Forall_cons in Hids. destruct Hids as [Hi Hids].
    cbn [foldM]. unfold written0 in *. cbn [omap list_omap] in *.
    destruct (FmdlContainer.segment0Blocks self !! i) as [entries|] eqn:Hentries;
      cbn [fmap option_fmap option_map] in *.
    + apply Forall_cons in Hcounts. destruct Hcounts as [Hcount Hcounts]. simpl in Hcount.
      rewrite len_body0_cons in Hsize.
      pose proof (len_padded_nonneg entries) as Hpad.
      pose proof (len_nonneg (body0 (omap (fun i => pair i <$>
                    FmdlContainer.segment0Blocks self !! i) ids))) as Hrest.
      rewrite (writeSegment0Block_Some self st i entries) by (done || lia).
      rewrite bind_Ok_l.
      destruct (IH {| FmdlContainer.bitmap := Z.lor (FmdlContainer.bitmap st) (Z.shiftl 1 i);
                      FmdlContainer.descriptors :=
                        FmdlContainer.descriptors st
                        ++ [descriptor0 (i, len entries, FmdlContainer.offset st)];
                      FmdlContainer.blocks := FmdlContainer.blocks st ++ [padded entries];
                      FmdlContainer.offset :=
                        FmdlContainer.offset st + len (padded entries) |})
        as (bitmap & Hb & ->); cbn [FmdlContainer.offset FmdlContainer.bitmap]; try done.
      * lia.
      * lia.
      * by apply bitmap_bound.
      * exists bitmap. split; [done|]. f_equal.
        cbn [FmdlContainer.descriptors FmdlContainer.blocks FmdlContainer.offset
             descriptors0 map snd].
        rewrite len_body0_cons. rewrite <- !app_assoc. f_equal. lia.
    + rewrite (writeSegment0Block_None self st i) by done. rewrite bind_Ok_l. by apply IH.
Qed.

Lemma writeSegment1Block_fold (ids : list Z) (st : FmdlContainer.sections) :
  Forall (fun i => 0 <= i < 64) ids ->
  0 <= FmdlContainer.offset st ->
  FmdlContainer.offset st + len (body1 (written1 self ids)) < 2 ^ 32 ->
  0 <= FmdlContainer.bitmap st < 2 ^ 64 ->
  exists bitmap,
    0 <= bitmap < 2 ^ 64
    /\ foldM (FmdlContainer.writeSegment1Block self) st ids
       = Ok {| FmdlContainer.bitmap := bitmap;
               FmdlContainer.descriptors :=
                 FmdlContainer.descriptors st
                 ++ map descriptor1 (descriptors1 (FmdlContainer.offset st) (written1 self ids));
               FmdlContainer.blocks :=
                 FmdlContainer.blocks st ++ map snd (written1 self ids);
               FmdlContainer.offset :=
                 FmdlContainer.offset st + len (body1 (written1 self ids)) |}.
Proof.
  revert st. induction ids as [|i ids IH]; intros st Hids Hoffset Hsize Hbitmap.
  - exists (FmdlContainer.bitmap st). split; [done|]. cbn. rewrite !app_nil_r, Z.add_0_r.
    by destruct st.
  - apply Forall_cons in Hids. destruct Hids as [Hi Hids].
    cbn [foldM]. unfold written1 in *. cbn [omap list_omap] in *.
    destruct (FmdlContainer.segment1Blocks self !! i) as [block|] eqn:Hblock;
      cbn [fmap option_fmap option_map] in *.
    + rewrite len_body1_cons in Hsize.
      pose proof (len_nonneg (body1 (omap (fun i => pair i <$>
                    FmdlContainer.segment1Blocks self !! i) ids))) as Hrest.
      pose proof (len_nonneg block) as Hnn.
      rewrite (writeSegment1Block_Some self st i block) by (done || lia).
      rewrite bind_Ok_l.
      destruct (IH {| FmdlContainer.bitmap := Z.lor (FmdlContainer.bitmap st) (Z.shiftl 1 i);
                      FmdlContainer.descriptors :=
                        FmdlContainer.descriptors st
                        ++ [descriptor1 (i, FmdlContainer.offset st, len block)];
                      FmdlContainer.blocks := FmdlContainer.blocks st ++ [block];
                      FmdlContainer.offset := FmdlContainer.offset st + len block |})
        as (bitmap & Hb & ->); cbn [FmdlContainer.offset FmdlContainer.bitmap]; try done.
      * lia.
      * lia.
      * by apply bitmap_bound.
      * exists bitmap. split; [done|]. f_equal.
        cbn [FmdlContainer.descriptors FmdlContainer.blocks FmdlContainer.offset
             descriptors1 map snd].
        rewrite len_body1_cons. rewrite <- !app_assoc. f_equal. lia.
    + rewrite (writeSegment1Block_None self st i) by done. rewrite bind_Ok_l. by apply IH.
Qed.
End Written.

(** *** Reading at a place of the content *)

Lemma read_block_at (content pre x post : bytes) (position : Z) (error : exn) :
  content = pre ++ x ++ post -> position = len pre ->
  FmdlContainer.read_block {| stream.content := content; stream.position := position |}
    (len x) error
  = Ok (x, {| stream.content := content; stream.position := position + len x |}).
Proof.
  intros -> ->.
  pose proof (read_block_exact {| stream.content := pre ++ x ++ post;
                                  stream.position := len pre |} (len x) error) as Hread.
  unfold read_block_result in Hread. cbn [stream.content stream.position] in Hread.
  rewrite Hread; [| apply len_nonneg | apply len_nonneg | rewrite !len_app; pose proof (len_nonneg post); lia].
  do 2 f_equal. unfold len. rewrite !Nat2Z.id.
  rewrite drop_app_length. by rewrite take_app_length.
Qed.

Lemma descriptor0_length (d : Z * Z * Z) :
  0 <= d.1.1 < 65536 -> 0 <= d.1.2 < 65536 -> 0 <= d.2 < 2 ^ 32 ->
  len (descriptor0 d) = 8.
Proof.
  intros H1 H2 H3. unfold descriptor0, len.
  rewrite (pack_length [H_; H_; I_] (d.1.1, (d.1.2, (d.2, tt)))); [done|].
  apply pack_fits. fits_tac.
Qed.

Lemma descriptor1_length (d : Z * Z * Z) :
  0 <= d.1.1 < 2 ^ 32 -> 0 <= d.1.2 < 2 ^ 32 -> 0 <= d.2 < 2 ^ 32 ->
  len (descriptor1 d) = 12.
Proof.
  intros H1 H2 H3. unfold descriptor1, len.
  rewrite (pack_length [I_; I_; I_] (d.1.1, (d.1.2, (d.2, tt)))); [done|].
  apply pack_fits. fits_tac.
Qed.

(** The loop over the segment-0 descriptors reads the descriptors that
    lie at the position. *)
Lemma readSection0Descriptor_fold (content : bytes) (descriptors : list (Z * Z * Z)) :
  Forall (fun d => 0 <= d.1.1 < 65536 /\ 0 <= d.1.2 < 65536 /\ 0 <= d.2 < 2 ^ 32)
    descriptors ->
  forall (pre post : bytes) (acc : list (Z * Z * Z)) (ids : list Z),
    content = pre ++ concat (map descriptor0 descriptors) ++ post ->
    length ids = length descriptors ->
    foldM FmdlContainer.readSection0Descriptor
      (acc, {| stream.content := content; stream.position := len pre |}) ids
    = Ok (acc ++ descriptors,
          {| stream.content := content;
             stream.position := len pre + 8 * len descriptors |}).
Proof.
  induction 1 as [|d descriptors (H1 & H2 & H3) _ IH]; intros pre post acc ids Hcontent Hids.
  - destruct ids; [|done]. cbn. rewrite app_nil_r. do 3 f_equal. unfold len. simpl. lia.
  - destruct ids as [|i ids]; [done|]. cbn [foldM].
    assert (Hstep : FmdlContainer.readSection0Descriptor
                      (acc, {| stream.content := content; stream.position := len pre |}) i
                    = Ok (acc ++ [d], {| stream.content := content;
                                         stream.position := len pre + 8 |})).
    { unfold FmdlContainer.readSection0Descriptor.
      rewrite <- (descriptor0_length d) by done.
      rewrite (read_block_at content pre (descriptor0 d)
                 (concat (map descriptor0 descriptors) ++ post)); [| | done].
      2:{ rewrite Hcontent. cbn [map concat]. by rewrite <- !app_assoc. }
      rewrite bind_Ok_l. cbn beta iota. unfold descriptor0.
      rewrite unpack_packed; [| no_s_tac | fits_tac].
      rewrite bind_Ok_l. cbn beta iota. by destruct d as [[? ?] ?]. }
    rewrite Hstep, bind_Ok_l.
    replace (len pre + 8) with (len (pre ++ descriptor0 d))
      by (rewrite len_app, descriptor0_length by done; lia).
    rewrite (IH (pre ++ descriptor0 d) post).
    + rewrite <- app_assoc. do 3 f_equal. rewrite len_app, descriptor0_length by done.
      unfold len. simpl. lia.
    + rewrite Hcontent. cbn [map concat]. by rewrite <- !app_assoc.
    + simpl in Hids. lia.
Qed.

Lemma readSection1Descriptor_fold (content : bytes) (descriptors : list (Z * Z * Z)) :
  Forall (fun d => 0 <= d.1.1 < 2 ^ 32 /\ 0 <= d.1.2 < 2 ^ 32 /\ 0 <= d.2 < 2 ^ 32)
    descriptors ->
  forall (pre post : bytes) (acc : list (Z * Z * Z)) (ids : list Z),
    content = pre ++ concat (map descriptor1 descriptors) ++ post ->
    length ids = length descriptors ->
    foldM FmdlContainer.readSection1Descriptor
      (acc, {| stream.content := content; stream.position := len pre |}) ids
    = Ok (acc ++ descriptors,
          {| stream.content := content;
             stream.position := len pre + 12 * len descriptors |}).
Proof.
  induction 1 as [|d descriptors (H1 & H2 & H3) _ IH]; intros pre post acc ids Hcontent Hids.
  - destruct ids; [|done]. cbn. rewrite app_nil_r. do 3 f_equal. unfold len. simpl. lia.
  - destruct ids as [|i ids]; [done|]. cbn [foldM].
    assert (Hstep : FmdlContainer.readSection1Descriptor
                      (acc, {| stream.content := content; stream.position := len pre |}) i
                    = Ok (acc ++ [d], {| stream.content := content;
                                         stream.position := len pre + 12 |})).
    { unfold FmdlContainer.readSection1Descriptor.
      rewrite <- (descriptor1_length d) by done.
      rewrite (read_block_at content pre (descriptor1 d)
                 (concat (map descriptor1 descriptors) ++ post)); [| | done].
      2:{ rewrite Hcontent. cbn [map concat]. by rewrite <- !app_assoc. }
      rewrite bind_Ok_l. cbn beta iota. unfold descriptor1.
      rewrite unpack_packed; [| no_s_tac | fits_tac].
      rewrite bind_Ok_l. cbn beta iota. by destruct d as [[? ?] ?]. }
    rewrite Hstep, bind_Ok_l.
    replace (len pre + 12) with (len (pre ++ descriptor1 d))
      by (rewrite len_app, descriptor1_length by done; lia).
    rewrite (IH (pre ++ descriptor1 d) post).
    + rewrite <- app_assoc. do 3 f_equal. rewrite len_app, descriptor1_length by done.
      unfold len. simpl. lia.
    + rewrite Hcontent. cbn [map concat]. by rewrite <- !app_assoc.
    + simpl in Hids. lia.
Qed.

(** The loop over the entries of a segment-0 block reads the entries that
    lie at the position. *)
Lemma readSection0Entry_fold (content : bytes) (blockID entrySize : Z)
    (entries : list bytes) :
  Forall (fun entry => len entry = entrySize) entries ->
  forall (pre post : bytes) (acc : list bytes) (ids : list Z),
    content = pre ++ concat entries ++ post ->
    length ids = length entries ->
    foldM (FmdlContainer.readSection0Entry blockID entrySize)
      (acc, {| stream.content := content; stream.position := len pre |}) ids
    = Ok (acc ++ entries,
          {| stream.content := content;
             stream.position := len pre + len (concat entries) |}).
Proof.
  induction 1 as [|entry entries Hsize _ IH]; intros pre post acc ids Hcontent Hids.
  - destruct ids; [|done]. cbn. rewrite app_nil_r. do 3 f_equal. unfold len. simpl. lia.
  - destruct ids as [|i ids]; [done|]. cbn [foldM].
    assert (Hstep : FmdlContainer.readSection0Entry blockID entrySize
                      (acc, {| stream.content := content; stream.position := len pre |}) i
                    = Ok (acc ++ [entry], {| stream.content := content;
                                             stream.position := len pre + len entry |})).
    { unfold FmdlContainer.readSection0Entry. rewrite <- Hsize.
      rewrite (read_block_at content pre entry (concat entries ++ post)); [done | | done].
      rewrite Hcontent. cbn [concat]. by rewrite <- !app_assoc. }
    rewrite Hstep, bind_Ok_l.
    replace (len pre + len entry) with (len (pre ++ entry)) by (by rewrite len_app).
    rewrite (IH (pre ++ entry) post).
    + rewrite <- app_assoc. do 3 f_equal. cbn [concat]. rewrite !len_app. lia.
    + rewrite Hcontent. cbn [concat]. by rewrite <- !app_assoc.
    + simpl in Hids. lia.
Qed.

Lemma written0_cons_Some (self : FmdlContainer.t) (i : Z) (ids : list Z) (entries : list bytes) :
  FmdlContainer.segment0Blocks self !! i = Some entries ->
  written0 self (i :: ids) = (i, entries) :: written0 self ids.
Proof. intros H. unfold written0. cbn [omap list_omap]. by rewrite H. Qed.

Lemma written0_cons_None (self : FmdlContainer.t) (i : Z) (ids : list Z) :
  FmdlContainer.segment0Blocks self !! i = None ->
  written0 self (i :: ids) = written0 self ids.
Proof. intros H. unfold written0. cbn [omap list_omap]. by rewrite H. Qed.

Lemma written1_cons_Some (self : FmdlContainer.t) (i : Z) (ids : list Z) (block : bytes) :
  FmdlContainer.segment1Blocks self !! i = Some block ->
  written1 self (i :: ids) = (i, block) :: written1 self ids.
Proof. intros H. unfold written1. cbn [omap list_omap]. by rewrite H. Qed.

Lemma written1_cons_None (self : FmdlContainer.t) (i : Z) (ids : list Z) :
  FmdlContainer.segment1Blocks self !! i = None ->
  written1 self (i :: ids) = written1 self ids.
Proof. intros H. unfold written1. cbn [omap list_omap]. by rewrite H. Qed.

Section ReadBack.
Variables (self : FmdlContainer.t) (content : bytes).
Hypothesis self_wellFormed : wellFormed self.

(** The loop over the segment-0 descriptors of the written blocks stores
    the blocks of [self] with these identifiers. *)
Lemma readSegment0Block_fold (section0Offset : Z) (ids : list Z) :
  NoDup ids ->
  forall (pre post : bytes) (offset : Z) (c : FmdlContainer.t) (position : Z),
    content = pre ++ body0 (written0 self ids) ++ post ->
    len pre = section0Offset + offset ->
    (forall i, i ∈ ids -> FmdlContainer.segment0Blocks c !! i = None) ->
    exists c' position',
      foldM (FmdlContainer.readSegment0Block section0Offset)
        (c, {| stream.content := content; stream.position := position |})
        (descriptors0 offset (written0 self ids))
      = Ok (c', {| stream.content := content; stream.position := position' |})
      /\ FmdlContainer.version c' = FmdlContainer.version c
      /\ FmdlContainer.segment1Blocks c' = FmdlContainer.segment1Blocks c
      /\ forall k, FmdlContainer.segment0Blocks c' !! k
                   = if decide (k ∈ ids) then FmdlContainer.segment0Blocks self !! k
                     else FmdlContainer.segment0Blocks c !! k.
Proof.
  induction 1 as [|i ids Hnotin Hnodup IH]; intros pre post offset c position Hcontent Hpre Hfresh.
  - exists c, position. split; [done|]. split; [done|]. split; [done|].
    intros k. rewrite decide_False; [done|]. apply not_elem_of_nil.
  - destruct (FmdlContainer.segment0Blocks self !! i) as [entries|] eqn:Hentries.
    + rewrite (written0_cons_Some self i ids entries Hentries) in *.
      destruct (wf_segment0 self self_wellFormed i entries Hentries)
        as (entrySize & Hsize & Hsizes & Hcount).
      cbn [descriptors0 foldM].
      assert (Hbody : body0 ((i, entries) :: written0 self ids)
                      = padded entries ++ body0 (written0 self ids)) by done.
      rewrite Hbody in Hcontent.
      assert (Hstep : FmdlContainer.readSegment0Block section0Offset
                        (c, {| stream.content := content; stream.position := position |})
                        (i, len entries, offset)
                      = Ok (FmdlContainer.set_segment0Blocks c
                              (<[i := entries]> (FmdlContainer.segment0Blocks c)),
                            {| stream.content := content;
                               stream.position := len pre + len (concat entries) |})).
      { unfold FmdlContainer.readSegment0Block. rewrite Hsize.
        rewrite decide_False.
        2:{ rewrite Hfresh by apply list_elem_of_here. by intros [? ?]. }
        unfold stream.seek. cbn [stream.content].
        replace (offset + section0Offset) with (len pre) by lia.
        rewrite (readSection0Entry_fold content i entrySize entries Hsizes pre
                   (FmdlContainer.padding (len (concat entries))
                    ++ body0 (written0 self ids) ++ post)).
        - done.
        - rewrite Hcontent. unfold padded. by rewrite <- !app_assoc.
        - unfold range. rewrite length_map, length_seq. unfold len. lia. }
      rewrite Hstep, bind_Ok_l.
      destruct (IH (pre ++ padded entries) post (offset + len (padded entries))
                  (FmdlContainer.set_segment0Blocks c
                     (<[i := entries]> (FmdlContainer.segment0Blocks c)))
                  (len pre + len (concat entries)))
        as (c' & position' & Hfold & Hversion & Hsegment1 & Hlookup).
      * rewrite Hcontent. by rewrite <- !app_assoc.
      * rewrite len_app. lia.
      * intros k Hk. cbn. rewrite lookup_insert_ne by (intros ->; done).
        apply Hfresh. by apply list_elem_of_further.
      * exists c', position'. split; [done|]. split; [done|]. split; [done|].
        intros k. rewrite Hlookup. cbn.
        destruct (decide (k = i)) as [->|Hne].
        -- rewrite decide_False by done. rewrite decide_True by apply list_elem_of_here.
           by rewrite lookup_insert_eq.
        -- rewrite lookup_insert_ne by done.
           destruct (decide (k ∈ ids)) as [Hin|Hout].
           ++ by rewrite decide_True by (by apply list_elem_of_further).
           ++ rewrite decide_False; [done|]. intros Hin.
              apply elem_of_cons in Hin. by destruct Hin.
    + rewrite (written0_cons_None self i ids Hentries) in *.
      destruct (IH pre post offset c position Hcontent Hpre)
        as (c' & position' & Hfold & Hversion & Hsegment1 & Hlookup).
      { intros k Hk. apply Hfresh. by apply list_elem_of_further. }
      exists c', position'. split; [done|]. split; [done|]. split; [done|].
      intros k. rewrite Hlookup.
      destruct (decide (k = i)) as [->|Hne].
      * rewrite decide_False by done. rewrite decide_True by apply list_elem_of_here.
        rewrite Hentries. apply Hfresh, list_elem_of_here.
      * destruct (decide (k ∈ ids)) as [Hin|Hout].
        -- by rewrite decide_True by (by apply list_elem_of_further).
        -- rewrite decide_False; [done|]. intros Hin.
           apply elem_of_cons in Hin. by destruct Hin.
Qed.

Lemma written1_empty (ids : list Z) :
  is_Some (FmdlContainer.segment1Blocks self !! 3) ->
  Forall (fun i => 3 < i) ids ->
  body1 (written1 self ids) = [].
Proof.
  intros Hstrings. induction 1 as [|i ids Hi _ IH]; [done|].
  destruct (FmdlContainer.segment1Blocks self !! i) as [block|] eqn:Hblock.
  - rewrite (written1_cons_Some self i ids block Hblock).
    rewrite (wf_strings self self_wellFormed i block Hblock Hstrings Hi). exact IH.
  - by rewrite (written1_cons_None self i ids Hblock).
Qed.

(** The loop over the segment-1 descriptors of the written blocks stores
    the blocks of [self] with these identifiers. *)
Lemma readSegment1Block_fold (section1Offset : Z) (ids : list Z) :
  StronglySorted Z.lt ids ->
  forall (pre : bytes) (offset : Z) (c : FmdlContainer.t) (position : Z),
    content = pre ++ body1 (written1 self ids) ->
    len pre = section1Offset + offset ->
    (forall i, i ∈ ids -> FmdlContainer.segment1Blocks c !! i = None) ->
    exists c' position',
      foldM (FmdlContainer.readSegment1Block section1Offset (len content))
        (c, {| stream.content := content; stream.position := position |})
        (descriptors1 offset (written1 self ids))
      = Ok (c', {| stream.content := content; stream.position := position' |})
      /\ FmdlContainer.version c' = FmdlContainer.version c
      /\ FmdlContainer.segment0Blocks c' = FmdlContainer.segment0Blocks c
      /\ forall k, FmdlContainer.segment1Blocks c' !! k
                   = if decide (k ∈ ids) then FmdlContainer.segment1Blocks self !! k
                     else FmdlContainer.segment1Blocks c !! k.
Proof.
  induction 1 as [|i ids Hsorted IH Hlt]; intros pre offset c position Hcontent Hpre Hfresh.
  - exists c, position. split; [done|]. split; [done|]. split; [done|].
    intros k. rewrite decide_False; [done|]. apply not_elem_of_nil.
  - assert (Hnotin : i ∉ ids).
    { intros Hin. rewrite Forall_forall in Hlt. specialize (Hlt i Hin). lia. }
    destruct (FmdlContainer.segment1Blocks self !! i) as [block|] eqn:Hblock.
    + rewrite (written1_cons_Some self i ids block Hblock) in *.
      cbn [descriptors1 foldM].
      assert (Hbody : body1 ((i, block) :: written1 self ids)
                      = block ++ body1 (written1 self ids)) by done.
      rewrite Hbody in Hcontent.
      assert (Hstep : FmdlContainer.readSegment1Block section1Offset (len content)
                        (c, {| stream.content := content; stream.position := position |})
                        (i, offset, len block)
                      = Ok (FmdlContainer.set_segment1Blocks c
                              (<[i := block]> (FmdlContainer.segment1Blocks c)),
                            {| stream.content := content;
                               stream.position := len pre + len block |})).
      { unfold FmdlContainer.readSegment1Block.
        rewrite decide_False.
        2:{ rewrite Hfresh by apply list_elem_of_here. by intros [? ?]. }
        cbv zeta. unfold stream.seek. cbn [stream.content].
        replace (offset + section1Offset) with (len pre) by lia.
        assert (Hremaining : len content - len pre
                             = len block + len (body1 (written1 self ids))).
        { rewrite Hcontent, !len_app. lia. }
        assert (Hlength : (if (len content - len pre <? len block) || (i =? 3)
                           then len content - len pre else len block) = len block).
        { pose proof (len_nonneg (body1 (written1 self ids))).
          rewrite (proj2 (Z.ltb_ge _ _)) by lia. simpl.
          destruct (Z.eqb_spec i 3) as [->|]; [|done].
          rewrite Hremaining, written1_empty; [unfold len; simpl; lia | by eexists |].
          exact Hlt. }
        rewrite Hlength.
        rewrite (read_block_at content pre block (body1 (written1 self ids))); done. }
      rewrite Hstep, bind_Ok_l.
      destruct (IH (pre ++ block) (offset + len block)
                  (FmdlContainer.set_segment1Blocks c
                     (<[i := block]> (FmdlContainer.segment1Blocks c)))
                  (len pre + len block))
        as (c' & position' & Hfold & Hversion & Hsegment0 & Hlookup).
      * rewrite Hcontent. by rewrite <- !app_assoc.
      * rewrite len_app. lia.
      * intros k Hk. cbn. rewrite lookup_insert_ne by (intros ->; done).
        apply Hfresh. by apply list_elem_of_further.
      * exists c', position'. split; [done|]. split; [done|]. split; [done|].
        intros k. rewrite Hlookup. cbn.
        destruct (decide (k = i)) as [->|Hne].
        -- rewrite decide_False by done. rewrite decide_True by apply list_elem_of_here.
           by rewrite lookup_insert_eq.
        -- rewrite lookup_insert_ne by done.
           destruct (decide (k ∈ ids)) as [Hin|Hout].
           ++ by rewrite decide_True by (by apply list_elem_of_further).
           ++ rewrite decide_False; [done|]. intros Hin.
              apply elem_of_cons in Hin. by destruct Hin.
    + rewrite (written1_cons_None self i ids Hblock) in *.
      destruct (IH pre offset c position Hcontent Hpre)
        as (c' & position' & Hfold & Hversion & Hsegment0 & Hlookup).
      { intros k Hk. apply Hfresh. by apply list_elem_of_further. }
      exists c', position'. split; [done|]. split; [done|]. split; [done|].
      intros k. rewrite Hlookup.
      destruct (decide (k = i)) as [->|Hne].
      * rewrite decide_False by done. rewrite decide_True by apply list_elem_of_here.
        rewrite Hblock. apply Hfresh, list_elem_of_here.
      * destruct (decide (k ∈ ids)) as [Hin|Hout].
        -- by rewrite decide_True by (by apply list_elem_of_further).
        -- rewrite decide_False; [done|]. intros Hin.
           apply elem_of_cons in Hin. by destruct Hin.
Qed.
End ReadBack.

(** *** The file that [writeStream] writes *)

Lemma write_chunks (chunks : list bytes) (pre : bytes) :
  fold_left stream.write chunks {| stream.content := pre; stream.position := len pre |}
  = {| stream.content := pre ++ concat chunks;
       stream.position := len pre + len (concat chunks) |}.
Proof.
  revert pre. induction chunks as [|chunk chunks IH]; intros pre.
  - cbn. rewrite app_nil_r. f_equal. unfold len. simpl. lia.
  - cbn [fold_left concat].
    assert (Hwrite : stream.write {| stream.content := pre; stream.position := len pre |} chunk
                     = {| stream.content := pre ++ chunk;
                          stream.position := len (pre ++ chunk) |}).
    { unfold stream.write. cbn [stream.content stream.position]. unfold len.
      rewrite Nat2Z.id, Nat.sub_diag. cbn [replicate]. rewrite app_nil_r, firstn_all.
      rewrite drop_ge by lia. rewrite app_nil_r. f_equal. rewrite length_app. lia. }
    rewrite Hwrite, IH. rewrite <- app_assoc. f_equal. rewrite !len_app. lia.
Qed.

Lemma padded_mod (entries : list bytes) : len (padded entries) mod 16 = 0.
Proof. unfold padded. rewrite len_app. apply padding_pads, len_nonneg. Qed.

Lemma body0_mod (blocks : list (Z * list bytes)) : len (body0 blocks) mod 16 = 0.
Proof.
  induction blocks as [|[i entries] blocks IH]; [done|].
  rewrite len_body0_cons. rewrite Z.add_mod by lia. by rewrite padded_mod, IH.
Qed.

Lemma descriptors0_length (offset : Z) (blocks : list (Z * list bytes)) :
  length (descriptors0 offset blocks) = length blocks.
Proof.
  revert offset. induction blocks as [|[i entries] blocks IH]; intros offset; [done|].
  simpl. by rewrite IH.
Qed.

Lemma descriptors1_length (offset : Z) (blocks : list (Z * bytes)) :
  length (descriptors1 offset blocks) = length blocks.
Proof.
  revert offset. induction blocks as [|[i block] blocks IH]; intros offset; [done|].
  simpl. by rewrite IH.
Qed.

Lemma descriptors0_fit (offset : Z) (blocks : list (Z * list bytes)) :
  Forall (fun b => 0 <= b.1 < 64 /\ len b.2 < 65536) blocks ->
  0 <= offset -> offset + len (body0 blocks) < 2 ^ 32 ->
  Forall (fun d => 0 <= d.1.1 < 65536 /\ 0 <= d.1.2 < 65536 /\ 0 <= d.2 < 2 ^ 32)
    (descriptors0 offset blocks).
Proof.
  intros Hblocks. revert offset.
  induction Hblocks as [|[i entries] blocks [Hi Hcount] _ IH]; intros offset Hoffset Hsize;
    [constructor|].
  rewrite len_body0_cons in Hsize. simpl in *.
  pose proof (len_padded_nonneg entries). pose proof (len_nonneg (body0 blocks)).
  pose proof (len_nonneg entries).
  constructor; [simpl; lia|]. apply IH; lia.
Qed.

Lemma descriptors1_fit (offset : Z) (blocks : list (Z * bytes)) :
  Forall (fun b => 0 <= b.1 < 64) blocks ->
  0 <= offset -> offset + len (body1 blocks) < 2 ^ 32 ->
  Forall (fun d => 0 <= d.1.1 < 2 ^ 32 /\ 0 <= d.1.2 < 2 ^ 32 /\ 0 <= d.2 < 2 ^ 32)
    (descriptors1 offset blocks).
Proof.
  intros Hblocks. revert offset.
  induction Hblocks as [|[i block] blocks Hi _ IH]; intros offset Hoffset Hsize;
    [constructor|].
  rewrite len_body1_cons in Hsize. simpl in *.
  pose proof (len_nonneg block). pose proof (len_nonneg (body1 blocks)).
  constructor; [simpl; lia|]. apply IH; lia.
Qed.

Lemma len_descriptors0 (descriptors : list (Z * Z * Z)) :
  Forall (fun d => 0 <= d.1.1 < 65536 /\ 0 <= d.1.2 < 65536 /\ 0 <= d.2 < 2 ^ 32)
    descriptors ->
  len (concat (map descriptor0 descriptors)) = 8 * len descriptors.
Proof.
  induction 1 as [|d descriptors (H1 & H2 & H3) _ IH]; [done|].
  cbn [map concat]. rewrite len_app, IH, descriptor0_length by done.
  unfold len. simpl. lia.
Qed.

Lemma len_descriptors1 (descriptors : list (Z * Z * Z)) :
  Forall (fun d => 0 <= d.1.1 < 2 ^ 32 /\ 0 <= d.1.2 < 2 ^ 32 /\ 0 <= d.2 < 2 ^ 32)
    descriptors ->
  len (concat (map descriptor1 descriptors)) = 12 * len descriptors.
Proof.
  induction 1 as [|d descriptors (H1 & H2 & H3) _ IH]; [done|].
  cbn [map concat]. rewrite len_app, IH, descriptor1_length by done.
  unfold len. simpl. lia.
Qed.

Lemma written0_bounds (self : FmdlContainer.t) (ids : list Z) :
  wellFormed self -> Forall (fun i => 0 <= i < 64) ids ->
  Forall (fun b => 0 <= b.1 < 64 /\ len b.2 < 65536) (written0 self ids).
Proof.
  intros Hwf. induction 1 as [|i ids Hi _ IH]; [constructor|].
  destruct (FmdlContainer.segment0Blocks self !! i) as [entries|] eqn:Hentries.
  - rewrite (written0_cons_Some self i ids entries Hentries).
    destruct (wf_segment0 self Hwf i entries Hentries) as (size & _ & _ & Hcount).
    by constructor.
  - by rewrite (written0_cons_None self i ids Hentries).
Qed.

Lemma written1_bounds (self : FmdlContainer.t) (ids : list Z) :
  Forall (fun i => 0 <= i < 64) ids ->
  Forall (fun b => 0 <= b.1 < 64) (written1 self ids).
Proof.
  induction 1 as [|i ids Hi _ IH]; [constructor|].
  destruct (FmdlContainer.segment1Blocks self !! i) as [block|] eqn:Hblock.
  - rewrite (written1_cons_Some self i ids block Hblock). by constructor.
  - by rewrite (written1_cons_None self i ids Hblock).
Qed.

Lemma written0_length (self : FmdlContainer.t) (ids : list Z) :
  (length (written0 self ids) <= length ids)%nat.
Proof.
  induction ids as [|i ids IH]; [done|].
  destruct (FmdlContainer.segment0Blocks self !! i) as [entries|] eqn:Hentries.
  - rewrite (written0_cons_Some self i ids entries Hentries). simpl. lia.
  - rewrite (written0_cons_None self i ids Hentries). simpl. lia.
Qed.

Lemma written1_length (self : FmdlContainer.t) (ids : list Z) :
  (length (written1 self ids) <= length ids)%nat.
Proof.
  induction ids as [|i ids IH]; [done|].
  destruct (FmdlContainer.segment1Blocks self !! i) as [block|] eqn:Hblock.
  - rewrite (written1_cons_Some self i ids block Hblock). simpl. lia.
  - rewrite (written1_cons_None self i ids Hblock). simpl. lia.
Qed.

Lemma range_sorted (a b : Z) : StronglySorted Z.lt (range a b).
Proof.
  unfold range. generalize (Z.to_nat (b - a)) as n. intros n.
  generalize 0%nat as s. induction n as [|n IH]; intros s; [constructor|].
  cbn [seq map]. constructor; [apply IH|].
  apply Forall_forall. intros x Hx. apply list_elem_of_In, in_map_iff in Hx.
  destruct Hx as (k & <- & Hk). apply in_seq in Hk. lia.
Qed.

Lemma range_0_64 : Forall (fun i => 0 <= i < 64) (range 0 64).
Proof. apply Forall_forall. intros i Hi. by apply elem_of_range in Hi. Qed.

Lemma entry_size_range (i entrySize : Z) :
  FmdlContainer.SECTION0_BLOCK_ENTRY_SIZES !! i = Some entrySize -> 0 <= i < 64.
Proof.
  intros H. unfold FmdlContainer.SECTION0_BLOCK_ENTRY_SIZES in H.
  apply elem_of_list_to_map_2 in H.
  repeat (apply elem_of_cons in H; destruct H as [[= -> _]|H]; [lia|]).
  by apply not_elem_of_nil in H.
Qed.

(** The header [writeStream] packs, and its first 56 bytes as
    [readStream] unpacks them. *)
Lemma header_pack (version bitmap0 bitmap1 count0 count1 offset0 length0 offset1 length1 : Z) :
  0 <= version < 2 ^ 32 -> 0 <= bitmap0 < 2 ^ 64 -> 0 <= bitmap1 < 2 ^ 64 ->
  0 <= count0 < 2 ^ 32 -> 0 <= count1 < 2 ^ 32 ->
  0 <= offset0 < 2 ^ 32 -> 0 <= length0 < 2 ^ 32 ->
  0 <= offset1 < 2 ^ 32 -> 0 <= length1 < 2 ^ 32 ->
  let fields := (version, (64, (bitmap0, (bitmap1, (count0, (count1, (offset0, (length0,
                 (offset1, (length1, tt)))))))))) in
  exists first,
    pack [s_ 4; I_; Q_; Q_; Q_; I_; I_; I_; I_; I_; I_; Q_]
      (FmdlContainer.MAGIC, (version, (64, (bitmap0, (bitmap1, (count0, (count1, (offset0,
       (length0, (offset1, (length1, (0, tt))))))))))))
    = Ok (first ++ replicate 8 Byte.x00)
    /\ len first = 56
    /\ unpack [s_ 4; I_; Q_; Q_; Q_; I_; I_; I_; I_; I_; I_] first
       = Ok (FmdlContainer.MAGIC, fields).
Proof.
  intros Hv Hb0 Hb1 Hc0 Hc1 Ho0 Hl0 Ho1 Hl1 fields.
  exists (FmdlContainer.MAGIC ++ packed [I_; Q_; Q_; Q_; I_; I_; I_; I_; I_; I_] fields).
  assert (Hfits : fits [I_; Q_; Q_; Q_; I_; I_; I_; I_; I_; I_] fields = true)
    by (subst fields; fits_tac).
  assert (Hlen : length (packed [I_; Q_; Q_; Q_; I_; I_; I_; I_; I_; I_] fields) = 52%nat).
  { apply (pack_length [I_; Q_; Q_; Q_; I_; I_; I_; I_; I_; I_] fields). by apply pack_fits. }
  assert (Hranges : in_range I_ version = true /\ in_range Q_ bitmap0 = true
                    /\ in_range Q_ bitmap1 = true /\ in_range I_ count0 = true
                    /\ in_range I_ count1 = true /\ in_range I_ offset0 = true
                    /\ in_range I_ length0 = true /\ in_range I_ offset1 = true
                    /\ in_range I_ length1 = true).
  { unfold in_range. cbn [size]. rewrite !andb_true_iff, !Z.leb_le, !Z.ltb_lt.
    cbn. repeat split; lia. }
  destruct Hranges as (R1 & R2 & R3 & R4 & R5 & R6 & R7 & R8 & R9).
  split; [|split].
  - unfold packed, pack. subst fields. cbn [pack_fields fst snd].
    rewrite R1, R2, R3, R4, R5, R6, R7, R8, R9.
    change (in_range Q_ 64) with true. change (in_range Q_ 0) with true.
    cbn [mbind result_bind]. cbn [size].
    rewrite !(proj2 (Z.ltb_ge _ 0)) by lia.
    rewrite <- !app_assoc. reflexivity.
  - rewrite len_app. unfold len. rewrite Hlen. reflexivity.
  - unfold unpack. rewrite decide_True by (rewrite length_app, Hlen; reflexivity).
    f_equal.
    change (unpack_fields (s_ 4 :: ?fmt) ?bs)
      with (take 4 bs, unpack_fields fmt (drop 4 bs)).
    f_equal.
    change (drop 4 (FmdlContainer.MAGIC ++ ?l)) with l.
    apply unpack_fields_pack; [no_s_tac | by apply pack_fits].
Qed.

(** The definitions of the writer and the reader as equations, for
    rewriting. *)
Lemma writeStream_chunks_eq (self : FmdlContainer.t) :
  FmdlContainer.writeStream_chunks self
  = ltac:(let body := eval unfold FmdlContainer.writeStream_chunks
                      in (FmdlContainer.writeStream_chunks self) in exact body).
Proof. reflexivity. Qed.

Lemma writeStream_eq (self : FmdlContainer.t) (s : stream.t) :
  FmdlContainer.writeStream self s
  = c ← FmdlContainer.writeStream_chunks self;
    Ok (fold_left stream.write (FmdlContainer.totalContent c) s).
Proof. reflexivity. Qed.

Lemma readStream_eq (self : FmdlContainer.t) (s : stream.t) :
  FmdlContainer.readStream self s
  = ltac:(let body := eval unfold FmdlContainer.readStream
                      in (FmdlContainer.readStream self s) in exact body).
Proof. reflexivity. Qed.

Lemma fileSize_eq (self : FmdlContainer.t) :
  fileSize self
  = 64 + (8 * len (written0 self (range 0 64)) + 12 * len (written1 self (range 0 64))
          + len (FmdlContainer.padding
                   (8 * len (written0 self (range 0 64)) + 12 * len (written1 self (range 0 64)))))
    + len (body0 (written0 self (range 0 64))) + len (body1 (written1 self (range 0 64))).
Proof. reflexivity. Qed.

Lemma length_range (a b : Z) : length (range a b) = Z.to_nat (b - a).
Proof. unfold range. by rewrite length_map, length_seq. Qed.

Lemma totalContent_eq (header descriptorTable : bytes) (section0Blocks section1Blocks : list bytes) :
  FmdlContainer.totalContent
    {| FmdlContainer.header := header; FmdlContainer.descriptorTable := descriptorTable;
       FmdlContainer.section0Blocks := section0Blocks;
       FmdlContainer.section1Blocks := section1Blocks |}
  = [header] ++ [descriptorTable] ++ section0Blocks ++ section1Blocks.
Proof. reflexivity. Qed.

Lemma write_chunks_empty (chunks : list bytes) :
  fold_left stream.write chunks {| stream.content := []; stream.position := 0 |}
  = {| stream.content := concat chunks; stream.position := len (concat chunks) |}.
Proof. exact (write_chunks chunks []). Qed.

Lemma body0_eq (blocks : list (Z * list bytes)) :
  body0 blocks = concat (map (fun b => padded b.2) blocks).
Proof. reflexivity. Qed.

Lemma body1_eq (blocks : list (Z * bytes)) : body1 blocks = concat (map snd blocks).
Proof. reflexivity. Qed.

Lemma len_descriptors0_eq (offset : Z) (blocks : list (Z * list bytes)) :
  len (descriptors0 offset blocks) = len blocks.
Proof. unfold len. by rewrite descriptors0_length. Qed.

Lemma len_descriptors1_eq (offset : Z) (blocks : list (Z * bytes)) :
  len (descriptors1 offset blocks) = len blocks.
Proof. unfold len. by rewrite descriptors1_length. Qed.

Lemma length_range_len {A : Type} (l : list A) : length (range 0 (len l)) = length l.
Proof. rewrite length_range. unfold len. lia. Qed.

Lemma container_eq (a b : FmdlContainer.t) :
  FmdlContainer.version a = FmdlContainer.version b ->
  FmdlContainer.segment0Blocks a = FmdlContainer.segment0Blocks b ->
  FmdlContainer.segment1Blocks a = FmdlContainer.segment1Blocks b ->
  a = b.
Proof. destruct a, b. cbn. by intros -> -> ->. Qed.

Lemma seek_eq (content : bytes) (position offset : Z) :
  stream.seek {| stream.content := content; stream.position := position |} offset
  = {| stream.content := content; stream.position := offset |}.
Proof. reflexivity. Qed.

Lemma seek_end_eq (content : bytes) (position : Z) :
  stream.seek_end {| stream.content := content; stream.position := position |}
  = {| stream.content := content; stream.position := len content |}.
Proof. reflexivity. Qed.

Lemma tell_eq (content : bytes) (position : Z) :
  stream.tell {| stream.content := content; stream.position := position |} = position.
Proof. reflexivity. Qed.

Section RoundTrip.
Variable self : FmdlContainer.t.
Hypothesis self_wellFormed : wellFormed self.

Local Abbreviation L0 := (written0 self (range 0 64)).
Local Abbreviation L1 := (written1 self (range 0 64)).
Local Abbreviation table :=
  (concat (map descriptor0 (descriptors0 0 L0) ++ map descriptor1 (descriptors1 0 L1))).

Lemma written_sizes :
  len table = 8 * len L0 + 12 * len L1
  /\ len L0 <= 64 /\ len L1 <= 64
  /\ 64 + len (table ++ FmdlContainer.padding (len table)) + len (body0 L0) + len (body1 L1)
     = fileSize self
  /\ Forall (fun d => 0 <= d.1.1 < 65536 /\ 0 <= d.1.2 < 65536 /\ 0 <= d.2 < 2 ^ 32)
       (descriptors0 0 L0)
  /\ Forall (fun d => 0 <= d.1.1 < 2 ^ 32 /\ 0 <= d.1.2 < 2 ^ 32 /\ 0 <= d.2 < 2 ^ 32)
       (descriptors1 0 L1).
Proof.
  pose proof (wf_size self self_wellFormed) as Hsize. rewrite fileSize_eq in Hsize.
  pose proof (len_nonneg (FmdlContainer.padding (8 * len L0 + 12 * len L1))).
  pose proof (len_nonneg (body0 L0)). pose proof (len_nonneg (body1 L1)).
  pose proof (len_nonneg L0). pose proof (len_nonneg L1).
  assert (Hfit0 : Forall (fun d => 0 <= d.1.1 < 65536 /\ 0 <= d.1.2 < 65536 /\ 0 <= d.2 < 2 ^ 32)
                 (descriptors0 0 L0)).
  { apply descriptors0_fit; [|lia|lia].
    apply written0_bounds; [done | apply range_0_64]. }
  assert (Hfit1 : Forall (fun d => 0 <= d.1.1 < 2 ^ 32 /\ 0 <= d.1.2 < 2 ^ 32 /\ 0 <= d.2 < 2 ^ 32)
                 (descriptors1 0 L1)).
  { apply descriptors1_fit; [|lia|lia]. apply written1_bounds, range_0_64. }
  assert (Htable : len table = 8 * len L0 + 12 * len L1).
  { rewrite concat_app, len_app, len_descriptors0, len_descriptors1 by done.
    unfold len. by rewrite descriptors0_length, descriptors1_length. }
  assert (Hlen0 : len L0 <= 64).
  { pose proof (written0_length self (range 0 64)) as Hle.
    rewrite length_range in Hle. unfold len. lia. }
  assert (Hlen1 : len L1 <= 64).
  { pose proof (written1_length self (range 0 64)) as Hle.
    rewrite length_range in Hle. unfold len. lia. }
  repeat split; try done.
  rewrite fileSize_eq, len_app, Htable. lia.
Qed.

Lemma writeStream_chunks_written :
  exists bitmap0 bitmap1 first,
    FmdlContainer.writeStream_chunks self
    = Ok {| FmdlContainer.header := first ++ replicate 8 Byte.x00;
            FmdlContainer.descriptorTable := table ++ FmdlContainer.padding (len table);
            FmdlContainer.section0Blocks := map (fun b => padded b.2) L0;
            FmdlContainer.section1Blocks := map snd L1 |}
    /\ len first = 56
    /\ unpack [s_ 4; I_; Q_; Q_; Q_; I_; I_; I_; I_; I_; I_] first
       = Ok (FmdlContainer.MAGIC,
             (FmdlContainer.version self, (64, (bitmap0, (bitmap1, (len L0, (len L1,
              (64 + len (table ++ FmdlContainer.padding (len table)), (len (body0 L0),
               (64 + len (table ++ FmdlContainer.padding (len table)) + len (body0 L0),
                (len (body1 L1), tt))))))))))).
Proof.
  destruct written_sizes as (Htable & Hlen0 & Hlen1 & Hfile & Hfit0 & Hfit1).
  pose proof (wf_size self self_wellFormed) as Hsize. rewrite <- Hfile in Hsize.
  pose proof (len_nonneg (table ++ FmdlContainer.padding (len table))).
  pose proof (len_nonneg (body0 L0)). pose proof (len_nonneg (body1 L1)).
  pose proof (len_nonneg L0). pose proof (len_nonneg L1).
  destruct (writeSegment0Block_fold self (range 0 64)
              {| FmdlContainer.bitmap := 0; FmdlContainer.descriptors := [];
                 FmdlContainer.blocks := []; FmdlContainer.offset := 0 |})
    as (bitmap0 & Hbitmap0 & Hfold0).
  { apply range_0_64. }
  { eapply Forall_impl; [apply written0_bounds; [done | apply range_0_64]|].
    by intros b [_ Hb]. }
  { done. }
  { cbn [FmdlContainer.offset]. lia. }
  { cbn [FmdlContainer.bitmap]. lia. }
  destruct (writeSegment1Block_fold self (range 0 64)
              {| FmdlContainer.bitmap := 0; FmdlContainer.descriptors := [];
                 FmdlContainer.blocks := []; FmdlContainer.offset := 0 |})
    as (bitmap1 & Hbitmap1 & Hfold1).
  { apply range_0_64. }
  { done. }
  { cbn [FmdlContainer.offset]. lia. }
  { cbn [FmdlContainer.bitmap]. lia. }
  cbn [FmdlContainer.bitmap FmdlContainer.descriptors FmdlContainer.blocks
         FmdlContainer.offset] in Hfold0, Hfold1.
  rewrite !app_nil_l in Hfold0, Hfold1.
  rewrite Z.add_0_l in Hfold0, Hfold1.
  destruct (header_pack (FmdlContainer.version self) bitmap0 bitmap1 (len L0) (len L1)
              (64 + len (table ++ FmdlContainer.padding (len table))) (len (body0 L0))
              (64 + len (table ++ FmdlContainer.padding (len table)) + len (body0 L0))
              (len (body1 L1)))
    as (first & Hpack & Hfirst & Hunpack);
    [apply (wf_version self self_wellFormed) | done | done | lia..|].
  exists bitmap0, bitmap1, first. split; [|by split].
  rewrite writeStream_chunks_eq, Hfold0, bind_Ok_l. cbv zeta.
  rewrite Hfold1, bind_Ok_l.
  cbn [FmdlContainer.bitmap FmdlContainer.descriptors FmdlContainer.blocks FmdlContainer.offset].
  assert (Hpad : FmdlContainer.padding (len (body0 L0)) = []).
  { unfold FmdlContainer.padding. rewrite decide_False; [done|]. rewrite body0_mod. lia. }
  rewrite decide_False by (rewrite body0_mod; lia).
  rewrite Hpad, app_nil_r. change (len (@nil byte)) with 0. rewrite Z.add_0_r.
  replace (len (map descriptor0 (descriptors0 0 L0))) with (len L0)
    by (unfold len; by rewrite length_map, descriptors0_length).
  replace (len (map descriptor1 (descriptors1 0 L1))) with (len L1)
    by (unfold len; by rewrite length_map, descriptors1_length).
  rewrite Hpack. reflexivity.
Qed.

Lemma writeStream_then_readStream :
  exists s,
    FmdlContainer.writeStream self {| stream.content := []; stream.position := 0 |} = Ok s
    /\ len (stream.content s) = fileSize self
    /\ FmdlContainer.readStream FmdlContainer.init
         {| stream.content := stream.content s; stream.position := 0 |} = Ok self.
Proof.
  destruct writeStream_chunks_written as (bitmap0 & bitmap1 & first & Hchunks & Hfirst & Hunpack).
  destruct written_sizes as (Htable & Hlen0 & Hlen1 & Hfile & Hfit0 & Hfit1).
  assert (Hheader : len (first ++ replicate 8 Byte.x00) = 64).
  { rewrite len_app, Hfirst. reflexivity. }
  remember (FmdlContainer.padding (len table)) as pad eqn:Hpad.
  remember ((first ++ replicate 8 Byte.x00) ++ (table ++ pad) ++ body0 L0 ++ body1 L1)
    as content eqn:Hcontent.
  exists {| stream.content := content; stream.position := len content |}.
  split; [|split].
  - rewrite writeStream_eq, Hchunks, bind_Ok_l, totalContent_eq, write_chunks_empty.
    assert (Hwritten : concat ([first ++ replicate 8 Byte.x00] ++ [table ++ pad]
                          ++ map (fun b => padded b.2) L0 ++ map snd L1) = content).
    { rewrite Hcontent, !concat_app, !concat_cons, !concat_nil, !app_nil_r.
      by rewrite <- body0_eq, <- body1_eq. }
    by rewrite Hwritten.
  - cbn [stream.content]. rewrite Hcontent.
    rewrite (len_app (first ++ replicate 8 Byte.x00)), Hheader, <- Hfile, !len_app. lia.
  - cbn [stream.content]. rewrite readStream_eq.
    assert (Hread : FmdlContainer.read_block
                      {| stream.content := content; stream.position := 0 |} 56
                      (InvalidFmdl "Incomplete header" [])
                    = Ok (first, {| stream.content := content; stream.position := 56 |})).
    { rewrite <- Hfirst.
      rewrite (read_block_at content [] first
                 (replicate 8 Byte.x00 ++ (table ++ pad) ++ body0 L0 ++ body1 L1) 0);
        [by rewrite Z.add_0_l | | done].
      rewrite Hcontent, app_nil_l. by rewrite <- !app_assoc. }
    rewrite Hread, bind_Ok_l. cbv beta iota. rewrite Hunpack, bind_Ok_l. cbv beta iota.
    rewrite decide_False by (intros Hne; by apply Hne).
    cbv zeta. rewrite seek_eq.
    cbn [FmdlContainer.version FmdlContainer.segment0Blocks FmdlContainer.segment1Blocks
           FmdlContainer.init].
    assert (Hread0 : foldM FmdlContainer.readSection0Descriptor
                       ([], {| stream.content := content; stream.position := 64 |})
                       (range 0 (len L0))
                     = Ok (descriptors0 0 L0,
                           {| stream.content := content;
                              stream.position := 64 + 8 * len L0 |})).
    { pose proof (readSection0Descriptor_fold content (descriptors0 0 L0) Hfit0
                    (first ++ replicate 8 Byte.x00)
                    (concat (map descriptor1 (descriptors1 0 L1))
                     ++ pad ++ body0 L0 ++ body1 L1) [] (range 0 (len L0))) as Hfold.
      rewrite Hheader, len_descriptors0_eq, app_nil_l in Hfold. apply Hfold.
      - rewrite Hcontent, concat_app. by rewrite <- !app_assoc.
      - by rewrite descriptors0_length, length_range_len. }
    rewrite Hread0, bind_Ok_l. cbv beta iota.
    assert (Hread1 : foldM FmdlContainer.readSection1Descriptor
                       ([], {| stream.content := content;
                               stream.position := 64 + 8 * len L0 |})
                       (range 0 (len L1))
                     = Ok (descriptors1 0 L1,
                           {| stream.content := content;
                              stream.position := 64 + 8 * len L0 + 12 * len L1 |})).
    { assert (Hpre : len ((first ++ replicate 8 Byte.x00)
                          ++ concat (map descriptor0 (descriptors0 0 L0)))
                     = 64 + 8 * len L0).
      { by rewrite len_app, Hheader, len_descriptors0, len_descriptors0_eq. }
      pose proof (readSection1Descriptor_fold content (descriptors1 0 L1) Hfit1
                    ((first ++ replicate 8 Byte.x00)
                     ++ concat (map descriptor0 (descriptors0 0 L0)))
                    (pad ++ body0 L0 ++ body1 L1) [] (range 0 (len L1))) as Hfold.
      rewrite Hpre, len_descriptors1_eq, app_nil_l in Hfold. apply Hfold.
      - rewrite Hcontent, concat_app. by rewrite <- !app_assoc.
      - by rewrite descriptors1_length, length_range_len. }
    rewrite Hread1, bind_Ok_l. cbv beta iota.
    destruct (readSegment0Block_fold self content self_wellFormed
                (64 + len (table ++ pad))
                (range 0 64) (NoDup_range 0 64)
                ((first ++ replicate 8 Byte.x00) ++ (table ++ pad)) (body1 L1) 0
                {| FmdlContainer.version := FmdlContainer.version self;
                   FmdlContainer.segment0Blocks := ∅;
                   FmdlContainer.segment1Blocks := ∅ |}
                (64 + 8 * len L0 + 12 * len L1))
      as (c0 & position0 & Hfold0 & Hversion0 & Hsegment1 & Hsegment0).
    { rewrite Hcontent. by rewrite <- !app_assoc. }
    { rewrite len_app, Hheader. lia. }
    { intros i _. apply lookup_empty. }
    rewrite Hfold0, bind_Ok_l. cbv beta iota. rewrite seek_end_eq, tell_eq.
    destruct (readSegment1Block_fold self content self_wellFormed
                (64 + len (table ++ pad) + len (body0 L0))
                (range 0 64) (range_sorted 0 64)
                ((first ++ replicate 8 Byte.x00) ++ (table ++ pad) ++ body0 L0) 0
                c0 (len content))
      as (c1 & position1 & Hfold1 & Hversion1 & Hsegment0' & Hsegment1').
    { rewrite Hcontent. by rewrite <- !app_assoc. }
    { rewrite (len_app (first ++ replicate 8 Byte.x00)), Hheader, !len_app. lia. }
    { intros i _. rewrite Hsegment1. apply lookup_empty. }
    rewrite Hfold1, bind_Ok_l. cbv beta iota. f_equal.
    apply container_eq.
    + by rewrite Hversion1, Hversion0.
    + rewrite Hsegment0'. apply map_eq. intros k. rewrite Hsegment0.
      case_decide as Hk; [done|]. cbn [FmdlContainer.segment0Blocks].
      rewrite lookup_empty. symmetry.
      destruct (FmdlContainer.segment0Blocks self !! k) as [entries|] eqn:Hentries; [|done].
      exfalso. apply Hk, elem_of_range.
      destruct (wf_segment0 self self_wellFormed k entries Hentries) as (size & Hsize & _).
      by eapply entry_size_range.
    + apply map_eq. intros k. rewrite Hsegment1'.
      case_decide as Hk; [done|]. rewrite Hsegment1. cbn [FmdlContainer.segment1Blocks].
      rewrite lookup_empty. symmetry.
      destruct (FmdlContainer.segment1Blocks self !! k) as [block|] eqn:Hblock; [|done].
      exfalso. apply Hk, elem_of_range.
      exact (wf_segment1 self self_wellFormed k block Hblock).
Qed.

End RoundTrip.

(** X15: a container that is well formed is written by [writeStream] to an
    empty stream without error, as a file of [fileSize] bytes, and
    [readStream] of that file into an empty container gives the container
    back: the version, every segment-0 block with its entries and every
    segment-1 block. *)
Theorem writeStream_readStream (self : FmdlContainer.t) :
  wellFormed self ->
  exists s,
    FmdlContainer.writeStream self {| stream.content := []; stream.position := 0 |} = Ok s
    /\ len (stream.content s) = fileSize self
    /\ FmdlContainer.readStream FmdlContainer.init
         {| stream.content := stream.content s; stream.position := 0 |} = Ok self.
Proof. intros Hwf. exact (writeStream_then_readStream self Hwf). Qed.

Lemma writeStream_readStream_witness :
  exists s,
    FmdlContainer.writeStream Examples.triangle {| stream.content := []; stream.position := 0 |}
    = Ok s
    /\ len (stream.content s) = 362
    /\ FmdlContainer.readStream FmdlContainer.init
         {| stream.content := stream.content s; stream.position := 0 |} = Ok Examples.triangle.
Proof.
  destruct (writeStream_readStream Examples.triangle) as (s & Hwrite & Hsize & Hread).
  2: { exists s. split; [done|]. split; [|done]. rewrite Hsize. reflexivity. }
  split.
  - vm_compute. split; [discriminate | reflexivity].
  - intros i entries Hentries.
    apply elem_of_list_to_map_2 in Hentries.
    repeat (apply elem_of_cons in Hentries as [[= -> ->] | Hentries];
            [eexists; split; [reflexivity|]; split; [by repeat constructor | by vm_compute]|]).
    by apply not_elem_of_nil in Hentries.
  - intros i block Hblock. apply elem_of_list_to_map_2 in Hblock.
    apply elem_of_cons in Hblock as [[= -> ->] | Hblock]; [lia|].
    by apply not_elem_of_nil in Hblock.
  - intros i block Hblock [strings Hstrings]. vm_compute in Hstrings. discriminate.
  - vm_compute. reflexivity.
Defined.


(** ** UV aliasing through the writer and the reader (C6) *)

(** *** The writer *)

Lemma pack_Ok_packed (fmt : list code) (v : tuple fmt) (bs : bytes) :
  pack fmt v = Ok bs -> fits fmt v = true /\ bs = packed fmt v.
Proof.
  intros Hpack. destruct (fits fmt v) eqn:Hfits.
  - split; [done|]. rewrite (pack_fits _ _ Hfits) in Hpack. by injection Hpack as <-.
  - by rewrite (pack_not_fits _ _ Hfits) in Hpack.
Qed.

Lemma extends_refl (fmdl : FmdlContainer.t) : extends fmdl [] [] fmdl.
Proof. split; intros; by rewrite ?app_nil_r. Qed.

Lemma extends_new (fmdl fmdl0 : FmdlContainer.t) (meshFormats vertexFormats : list bytes)
    (blockID : Z) :
  extends fmdl0 meshFormats vertexFormats fmdl ->
  extends fmdl0 meshFormats vertexFormats (newSegment0BlockDescriptorID fmdl blockID).2.
Proof.
  intros [H10 H11 Hother].
  destruct (newSegment0BlockDescriptorID_eq fmdl blockID) as [_ Hblocks].
  split; intros; rewrite Hblocks; auto.
Qed.

Lemma extends_addVertexFormat (fmdl0 fmdl fmdl' : FmdlContainer.t)
    (meshFormats vertexFormats : list bytes) (datumType datumFormat offset ID : Z) :
  extends fmdl0 meshFormats vertexFormats fmdl ->
  addVertexFormat fmdl datumType datumFormat offset = Ok (ID, fmdl') ->
  fits [B_; B_; H_] (datumType, (datumFormat, (offset, tt))) = true
  /\ extends fmdl0 meshFormats
       (vertexFormats ++ [packed [B_; B_; H_] (datumType, (datumFormat, (offset, tt)))])
       fmdl'.
Proof.
  intros [H10 H11 Hother] Hadd. unfold addVertexFormat in Hadd.
  apply bind_Ok in Hadd as (block & Hpack & Hadd).
  apply pack_Ok_packed in Hpack as [Hfits ->]. split; [done|].
  destruct (addSegment0Block_eq fmdl 11
              (packed [B_; B_; H_] (datumType, (datumFormat, (offset, tt)))))
    as [_ Hblocks].
  assert (Hfmdl' : forall b, blockOf fmdl' b
                     = if decide (b = 11)
                       then blockOf fmdl 11
                            ++ [packed [B_; B_; H_] (datumType, (datumFormat, (offset, tt)))]
                       else blockOf fmdl b).
  { intros b. rewrite <- Hblocks. f_equal.
    assert (Hpair : addSegment0Block fmdl 11
                      (packed [B_; B_; H_] (datumType, (datumFormat, (offset, tt))))
                    = (ID, fmdl')) by congruence.
    by rewrite Hpair. }
  split.
  - by rewrite Hfmdl', decide_False, H10.
  - by rewrite Hfmdl', decide_True, H11, app_assoc.
  - intros b Hb10 Hb11. rewrite Hfmdl', decide_False by done. auto.
Qed.

Lemma emitVertexFormat_Ok (fmdl0 : FmdlContainer.t) (meshFormats vertexFormats : list bytes)
    (st st' : assignmentState) (datumType datumFormat offset : Z) :
  extends fmdl0 meshFormats vertexFormats (as_fmdl st) ->
  emitVertexFormat st datumType datumFormat offset = Ok st' ->
  fits [B_; B_; H_] (datumType, (datumFormat, (offset, tt))) = true
  /\ extends fmdl0 meshFormats
       (vertexFormats ++ [packed [B_; B_; H_] (datumType, (datumFormat, (offset, tt)))])
       (as_fmdl st')
  /\ as_formatEntries st' = as_formatEntries st
  /\ as_bufferOffsets st' = as_bufferOffsets st
  /\ as_typeEntries st' = as_typeEntries st
  /\ as_uvOffsets st' = as_uvOffsets st.
Proof.
  intros Hextends Hemit. unfold emitVertexFormat in Hemit.
  apply bind_Ok in Hemit as ([ID fmdl'] & Hadd & Hemit). injection Hemit as <-.
  destruct (extends_addVertexFormat _ _ _ _ _ _ _ _ _ Hextends Hadd) as [Hfits Hextends'].
  cbn [as_bufferOffsets as_fmdl as_typeEntries as_uvOffsets as_formatEntries].
  done.
Qed.

Lemma getitem_Some {V : Type} (d : gmap Z V) (key : Z) (v : V) :
  d !! key = Some v -> getitem d key = Ok v.
Proof. unfold getitem. by intros ->. Qed.

Lemma datumState_addDatum (fmdl0 : FmdlContainer.t) (vertexFormats : list bytes)
    (size count1 count2 count3 : Z) (st st' : assignmentState)
    (datumType datumFormat room : Z) :
  datumState fmdl0 vertexFormats size count1 count2 count3 st ->
  addDatum st 1 datumType datumFormat room = Ok st' ->
  datumType ∉ uvTypes ->
  datumState fmdl0
    (vertexFormats ++ [packed [B_; B_; H_] (datumType, (datumFormat, (size, tt)))])
    (size + room) count1 count2 count3 st'.
Proof.
  intros [Hextends Hrecords H0 H1 Ht0 Ht1 Ht2 Ht3 Hc3 Huv] Hadd Htype.
  unfold addDatum in Hadd. rewrite (getitem_Some _ _ _ H1), bind_Ok_l in Hadd.
  apply bind_Ok in Hadd as (st1 & Hemit & Hadd).
  destruct (emitVertexFormat_Ok _ _ _ _ _ _ _ _ Hextends Hemit)
    as (Hfits & Hextends' & Hentries & Hoffsets & Htypes & Huvs).
  rewrite Hoffsets, (getitem_Some _ _ _ H1), bind_Ok_l in Hadd.
  unfold growBuffer, appendFormatEntry in Hadd.
  cbn [as_bufferOffsets as_fmdl as_typeEntries as_uvOffsets as_formatEntries] in Hadd.
  rewrite Hoffsets, (getitem_Some _ _ _ H1), bind_Ok_l in Hadd. injection Hadd as <-.
  split; cbn [as_bufferOffsets as_fmdl as_typeEntries as_uvOffsets as_formatEntries];
    rewrite ?Htypes, ?Huvs, ?Hoffsets; try done.
  - apply Forall_app. split; [done|]. constructor; [|done].
    by exists datumType, datumFormat, size.
  - by rewrite lookup_insert_ne.
  - by rewrite lookup_insert_eq.
Qed.

Lemma datumState_countEntries (fmdl0 : FmdlContainer.t) (vertexFormats : list bytes)
    (size count1 count2 count3 : Z) (st st' : assignmentState) (type n : Z) :
  datumState fmdl0 vertexFormats size count1 count2 count3 st ->
  countEntries st type n = Ok st' ->
  0 <= n ->
  (type = 1 -> datumState fmdl0 vertexFormats size (count1 + n) count2 count3 st')
  /\ (type = 2 -> datumState fmdl0 vertexFormats size count1 (count2 + n) count3 st')
  /\ (type = 3 -> datumState fmdl0 vertexFormats size count1 count2 (count3 + n) st').
Proof.
  intros [Hextends Hrecords H0 H1 Ht0 Ht1 Ht2 Ht3 Hc3 Huv] Hcount Hn.
  unfold countEntries in Hcount.
  split; [|split]; intros ->.
  - rewrite (getitem_Some _ _ _ Ht1), bind_Ok_l in Hcount. injection Hcount as <-.
    split; cbn [as_bufferOffsets as_fmdl as_typeEntries as_uvOffsets as_formatEntries];
      rewrite ?lookup_insert_eq; rewrite ?lookup_insert_ne by done; done.
  - rewrite (getitem_Some _ _ _ Ht2), bind_Ok_l in Hcount. injection Hcount as <-.
    split; cbn [as_bufferOffsets as_fmdl as_typeEntries as_uvOffsets as_formatEntries];
      rewrite ?lookup_insert_eq; rewrite ?lookup_insert_ne by done; done.
  - rewrite (getitem_Some _ _ _ Ht3), bind_Ok_l in Hcount. injection Hcount as <-.
    split; cbn [as_bufferOffsets as_fmdl as_typeEntries as_uvOffsets as_formatEntries];
      rewrite ?lookup_insert_eq; rewrite ?lookup_insert_ne by done; try done. lia.
Qed.

Lemma addUv_aliased (fmdl0 : FmdlContainer.t) (vertexFields : VertexFields.t)
    (vertexFormats : list bytes) (size count1 count2 count3 : Z)
    (st st' : assignmentState) :
  VertexFields.uvEqualities vertexFields = uvAliased ->
  datumState fmdl0 vertexFormats size count1 count2 count3 st ->
  foldM (addUv vertexFields) st [0; 1] = Ok st' ->
  fits [B_; B_; H_] (FmdlVertexDatumType.uv0,
                     (FmdlVertexDatumFormat.doubleFloat16, (size, tt))) = true
  /\ fits [B_; B_; H_] (FmdlVertexDatumType.uv1,
                        (FmdlVertexDatumFormat.doubleFloat16, (size, tt))) = true
  /\ extends fmdl0 []
       (vertexFormats
        ++ [packed [B_; B_; H_] (FmdlVertexDatumType.uv0,
                                 (FmdlVertexDatumFormat.doubleFloat16, (size, tt)));
            packed [B_; B_; H_] (FmdlVertexDatumType.uv1,
                                 (FmdlVertexDatumFormat.doubleFloat16, (size, tt)))])
       (as_fmdl st')
  /\ as_bufferOffsets st' !! 0 = Some 12
  /\ as_bufferOffsets st' !! 1 = Some (size + 4)
  /\ as_typeEntries st' !! 0 = Some 1
  /\ as_typeEntries st' !! 1 = Some count1
  /\ as_typeEntries st' !! 2 = Some count2
  /\ as_typeEntries st' !! 3 = Some (count3 + 1 + 1).
Proof.
  intros Hequalities [Hextends Hrecords H0 H1 Ht0 Ht1 Ht2 Ht3 Hc3 Huv] Hfold.
  cbn [foldM] in Hfold. apply bind_Ok in Hfold as (sta & Ha & Hfold).
  apply bind_Ok in Hfold as (stb & Hb & Hfold). injection Hfold as <-.
  (* channel 0: no channel of its equalities has an offset yet *)
  unfold addUv in Ha. rewrite Hequalities, Huv in Ha. cbv zeta in Ha.
  change (default [] (uvAliased !! 0)) with [1] in Ha.
  change (head (filter (fun uv : Z => is_Some ((∅ : gmap Z Z) !! uv)) [1])) with (@None Z) in Ha.
  apply bind_Ok in Ha as (st1 & Ha & Hcounta).
  change (index uvTypes 0) with (Ok FmdlVertexDatumType.uv0) in Ha.
  rewrite bind_Ok_l, (getitem_Some _ _ _ H1), bind_Ok_l in Ha.
  apply bind_Ok in Ha as (st2 & Hemit & Ha).
  destruct (emitVertexFormat_Ok _ _ _ _ _ _ _ _ Hextends Hemit)
    as (Hfits0 & Hextends2 & Hentries2 & Hoffsets2 & Htypes2 & Huvs2).
  rewrite bind_Ok_l, Hoffsets2, (getitem_Some _ _ _ H1), bind_Ok_l in Ha.
  unfold appendFormatEntry, setUvOffset, growBuffer in Ha.
  cbn [as_bufferOffsets as_fmdl as_typeEntries as_uvOffsets as_formatEntries] in Ha.
  rewrite Hoffsets2, (getitem_Some _ _ _ H1), !bind_Ok_l in Ha. injection Ha as <-.
  unfold countEntries in Hcounta.
  cbn [as_bufferOffsets as_fmdl as_typeEntries as_uvOffsets as_formatEntries] in Hcounta.
  rewrite Htypes2, (getitem_Some _ _ _ Ht3), bind_Ok_l in Hcounta. injection Hcounta as <-.
  (* channel 1: channel 0 of its equalities has an offset *)
  unfold addUv in Hb. rewrite Hequalities in Hb. cbv zeta in Hb.
  cbn [as_bufferOffsets as_fmdl as_typeEntries as_uvOffsets as_formatEntries] in Hb.
  rewrite Huvs2, Huv in Hb.
  change (default [] (uvAliased !! 1)) with [0] in Hb.
  assert (Hhead : head (filter (fun uv : Z => is_Some ((<[0 := size]> (∅ : gmap Z Z)) !! uv))
                          [0]) = Some 0).
  { rewrite filter_cons_True; [done|]. rewrite lookup_insert_eq. by eexists. }
  rewrite Hhead in Hb. clear Hhead.
  apply bind_Ok in Hb as (st3 & Hb & Hcountb).
  change (index uvTypes 1) with (Ok FmdlVertexDatumType.uv1) in Hb.
  rewrite bind_Ok_l in Hb.
  rewrite (getitem_Some _ 0 size) in Hb by apply lookup_insert_eq.
  rewrite bind_Ok_l in Hb.
  eapply (emitVertexFormat_Ok fmdl0 []) in Hb
      as (Hfits1 & Hextends3 & Hentries3 & Hoffsets3 & Htypes3 & Huvs3);
    [|exact Hextends2].
  unfold countEntries in Hcountb. rewrite Htypes3 in Hcountb.
  cbn [as_bufferOffsets as_fmdl as_typeEntries as_uvOffsets as_formatEntries]
    in Hcountb, Hoffsets3, Htypes3.
  rewrite (getitem_Some _ 3 (count3 + 1)) in Hcountb by apply lookup_insert_eq.
  rewrite bind_Ok_l in Hcountb. injection Hcountb as <-.
  cbn [as_bufferOffsets as_fmdl as_typeEntries as_uvOffsets as_formatEntries].
  rewrite Hoffsets3, <- app_assoc in *.
  split; [done|]. split; [done|]. split; [exact Hextends3|].
  repeat split; rewrite ?lookup_insert_eq; rewrite ?lookup_insert_ne by done; done.
Qed.

Lemma extends_addMeshFormat (fmdl0 fmdl fmdl' : FmdlContainer.t)
    (meshFormats vertexFormats : list bytes)
    (bufferID count increment type offset ID : Z) :
  extends fmdl0 meshFormats vertexFormats fmdl ->
  addMeshFormat fmdl bufferID count increment type offset = Ok (ID, fmdl') ->
  fits [B_; B_; B_; B_; I_] (bufferID, (count, (increment, (type, (offset, tt))))) = true
  /\ extends fmdl0
       (meshFormats
        ++ [packed [B_; B_; B_; B_; I_]
              (bufferID, (count, (increment, (type, (offset, tt)))))])
       vertexFormats fmdl'.
Proof.
  intros [H10 H11 Hother] Hadd. unfold addMeshFormat in Hadd.
  apply bind_Ok in Hadd as (block & Hpack & Hadd).
  apply pack_Ok_packed in Hpack as [Hfits ->]. split; [done|].
  destruct (addSegment0Block_eq fmdl 10
              (packed [B_; B_; B_; B_; I_]
                 (bufferID, (count, (increment, (type, (offset, tt)))))))
    as [_ Hblocks].
  assert (Hfmdl' : forall b, blockOf fmdl' b
                     = if decide (b = 10)
                       then blockOf fmdl 10
                            ++ [packed [B_; B_; B_; B_; I_]
                                  (bufferID, (count, (increment, (type, (offset, tt)))))]
                       else blockOf fmdl b).
  { intros b. rewrite <- Hblocks. f_equal.
    assert (Hpair : addSegment0Block fmdl 10
                      (packed [B_; B_; B_; B_; I_]
                         (bufferID, (count, (increment, (type, (offset, tt))))))
                    = (ID, fmdl')) by congruence.
    by rewrite Hpair. }
  split.
  - by rewrite Hfmdl', decide_True, H10, app_assoc.
  - by rewrite Hfmdl', decide_False, H11.
  - intros b Hb10 Hb11. rewrite Hfmdl', decide_False by done. auto.
Qed.

Lemma extends_addDataMeshFormat (fmdl0 fmdl fmdl' : FmdlContainer.t)
    (meshFormats vertexFormats : list bytes) (typeEntries bufferOffsets : gmap Z Z)
    (vertexDataBufferOffset i count increment : Z) :
  extends fmdl0 meshFormats vertexFormats fmdl ->
  typeEntries !! i = Some count ->
  bufferOffsets !! 1 = Some increment ->
  addDataMeshFormat typeEntries bufferOffsets vertexDataBufferOffset fmdl i = Ok fmdl' ->
  (0 < count ->
   fits [B_; B_; B_; B_; I_]
     (1, (count, (increment, (i, (vertexDataBufferOffset, tt))))) = true
   /\ extends fmdl0
        (meshFormats
         ++ [packed [B_; B_; B_; B_; I_]
               (1, (count, (increment, (i, (vertexDataBufferOffset, tt)))))])
        vertexFormats fmdl')
  /\ exists added, extends fmdl0 (meshFormats ++ added) vertexFormats fmdl'.
Proof.
  intros Hextends Hcount Hincrement Hadd. unfold addDataMeshFormat in Hadd.
  rewrite (getitem_Some _ _ _ Hcount), bind_Ok_l in Hadd.
  destruct (count >? 0) eqn:Hpositive.
  - rewrite bind_Ok_l, (getitem_Some _ _ _ Hincrement), bind_Ok_l in Hadd.
    apply bind_Ok in Hadd as ([ID fmdl1] & Hadd & Hfmdl'). injection Hfmdl' as <-.
    destruct (extends_addMeshFormat _ _ _ _ _ _ _ _ _ _ _ Hextends Hadd) as [Hfits Hextends'].
    split; [done|]. by eexists.
  - injection Hadd as <-. split; [lia|]. exists []. by rewrite app_nil_r.
Qed.

(** What [addMeshFormatAssignment] writes for a mesh of two UV channels
    marked equal: the vertex formats of the two channels, last in
    block 11, have the same offset; the mesh format of type 3, last in
    block 10, holds them; and the record of block 9 names the mesh formats
    and the vertex formats written. *)
Lemma addMeshFormatAssignment_aliased (fmdl fmdl' : FmdlContainer.t)
    (vertexFields : VertexFields.t)
    (vertexPositionBufferOffset vertexDataBufferOffset : Z)
    (ID : Z) (formatEntries : list (Z * Z * Z * Z)) (positionSize dataSize : Z) :
  VertexFields.uvCount vertexFields = 2 ->
  VertexFields.uvEqualities vertexFields = uvAliased ->
  addMeshFormatAssignment fmdl vertexFields vertexPositionBufferOffset vertexDataBufferOffset
  = Ok ((ID, formatEntries, positionSize, dataSize), fmdl') ->
  exists (meshFormats vertexFormats : list bytes) (offset count increment : Z),
    Forall nonUvRecord vertexFormats
    /\ fits [B_; B_; H_] (FmdlVertexDatumType.uv0,
                          (FmdlVertexDatumFormat.doubleFloat16, (offset, tt))) = true
    /\ fits [B_; B_; H_] (FmdlVertexDatumType.uv1,
                          (FmdlVertexDatumFormat.doubleFloat16, (offset, tt))) = true
    /\ fits [B_; B_; B_; B_; I_]
         (1, (count, (increment, (3, (vertexDataBufferOffset, tt))))) = true
    /\ 2 <= count
    /\ fits [B_; B_; B_; B_; H_; H_]
         (len meshFormats + 1, (len vertexFormats + 2, (0, (2,
          (len (blockOf fmdl 10), (len (blockOf fmdl 11), tt)))))) = true
    /\ ID = len (blockOf fmdl 9)
    /\ blockOf fmdl' 9
       = blockOf fmdl 9
         ++ [packed [B_; B_; B_; B_; H_; H_]
               (len meshFormats + 1, (len vertexFormats + 2, (0, (2,
                (len (blockOf fmdl 10), (len (blockOf fmdl 11), tt))))))]
    /\ blockOf fmdl' 10
       = blockOf fmdl 10 ++ meshFormats
         ++ [packed [B_; B_; B_; B_; I_]
               (1, (count, (increment, (3, (vertexDataBufferOffset, tt)))))]
    /\ blockOf fmdl' 11
       = blockOf fmdl 11 ++ vertexFormats
         ++ [packed [B_; B_; H_] (FmdlVertexDatumType.uv0,
                                  (FmdlVertexDatumFormat.doubleFloat16, (offset, tt)));
             packed [B_; B_; H_] (FmdlVertexDatumType.uv1,
                                  (FmdlVertexDatumFormat.doubleFloat16, (offset, tt)))].
Proof.
  intros HuvCount Hequalities Hadd. unfold addMeshFormatAssignment in Hadd.
  destruct (newSegment0BlockDescriptorID_eq fmdl 10) as [Hfirst10 Hblocks1].
  destruct (newSegment0BlockDescriptorID fmdl 10) as [first10 fmdl1]. cbn in Hfirst10, Hblocks1.
  destruct (newSegment0BlockDescriptorID_eq fmdl1 11) as [Hfirst11 Hblocks2].
  destruct (newSegment0BlockDescriptorID fmdl1 11) as [first11 fmdl2]. cbn in Hfirst11, Hblocks2.
  rewrite Hblocks1 in Hfirst11. subst first10 first11.
  assert (Hextends : extends fmdl [] [] fmdl2).
  { split; intros; rewrite ?app_nil_r, Hblocks2, Hblocks1; done. }
  cbv zeta in Hadd.
  (* the position *)
  apply bind_Ok in Hadd as (st1 & Hposition & Hadd).
  apply bind_Ok in Hadd as (st2 & Hcount0 & Hadd).
  assert (Hstate : exists vertexFormats size count1 count2 count3,
            datumState fmdl vertexFormats size count1 count2 count3 st2).
  { unfold addDatum in Hposition.
    cbn [as_bufferOffsets as_fmdl as_typeEntries as_uvOffsets as_formatEntries] in Hposition.
    rewrite (getitem_Some _ 0 0), bind_Ok_l in Hposition by done.
    apply bind_Ok in Hposition as (st0 & Hemit & Hposition).
    eapply (emitVertexFormat_Ok fmdl []) in Hemit
        as (Hfits & Hextends' & Hentries & Hoffsets & Htypes & Huvs); [|exact Hextends].
    cbn [as_bufferOffsets as_fmdl as_typeEntries as_uvOffsets as_formatEntries]
      in Hoffsets, Htypes, Huvs.
    rewrite Hoffsets, (getitem_Some _ 0 0), bind_Ok_l in Hposition by done.
    unfold growBuffer, appendFormatEntry in Hposition.
    cbn [as_bufferOffsets as_fmdl as_typeEntries as_uvOffsets as_formatEntries] in Hposition.
    rewrite Hoffsets, (getitem_Some _ 0 0), bind_Ok_l in Hposition by done.
    injection Hposition as <-. unfold countEntries in Hcount0.
    cbn [as_bufferOffsets as_fmdl as_typeEntries as_uvOffsets as_formatEntries] in Hcount0.
    rewrite Htypes, (getitem_Some _ 0 0), bind_Ok_l in Hcount0 by done.
    injection Hcount0 as <-.
    eexists _, 0, 0, 0, 0.
    split; cbn [as_bufferOffsets as_fmdl as_typeEntries as_uvOffsets as_formatEntries];
      [exact Hextends' | | done..].
    constructor; [|done].
    eexists _, _, _. split; [done|]. split; [done|].
    unfold uvTypes. intros Hin. apply list_elem_of_In in Hin.
    repeat (destruct Hin as [Hin|Hin]; [discriminate Hin|]). done. }
  clear Hposition Hcount0 st1.
  (* the normal, the tangent, the colour and the bone mapping *)
  apply bind_Ok in Hadd as (st3 & Hnormal & Hadd).
  assert (Hstate3 : exists vertexFormats size count1 count2 count3,
            datumState fmdl vertexFormats size count1 count2 count3 st3).
  { destruct Hstate as (V & s & c1 & c2 & c3 & Hstate).
    destruct (VertexFields.hasNormal vertexFields).
    - apply bind_Ok in Hnormal as (st & Hdatum & Hcount).
      eapply datumState_addDatum in Hdatum; [|exact Hstate|].
      2: { unfold uvTypes. intros Hin. apply list_elem_of_In in Hin.
           repeat (destruct Hin as [Hin|Hin]; [discriminate Hin|]). done. }
      eapply datumState_countEntries in Hcount as (Hcount & _); [|exact Hdatum|lia].
      specialize (Hcount eq_refl). by eexists _, _, _, _, _.
    - injection Hnormal as <-. by eexists _, _, _, _, _. }
  clear Hstate Hnormal st2.
  apply bind_Ok in Hadd as (st4 & Htangent & Hadd).
  assert (Hstate4 : exists vertexFormats size count1 count2 count3,
            datumState fmdl vertexFormats size count1 count2 count3 st4).
  { destruct Hstate3 as (V & s & c1 & c2 & c3 & Hstate).
    destruct (VertexFields.hasTangent vertexFields).
    - apply bind_Ok in Htangent as (st & Hdatum & Hcount).
      eapply datumState_addDatum in Hdatum; [|exact Hstate|].
      2: { unfold uvTypes. intros Hin. apply list_elem_of_In in Hin.
           repeat (destruct Hin as [Hin|Hin]; [discriminate Hin|]). done. }
      eapply datumState_countEntries in Hcount as (Hcount & _); [|exact Hdatum|lia].
      specialize (Hcount eq_refl). by eexists _, _, _, _, _.
    - injection Htangent as <-. by eexists _, _, _, _, _. }
  clear Hstate3 Htangent st3.
  apply bind_Ok in Hadd as (st5 & Hcolor & Hadd).
  assert (Hstate5 : exists vertexFormats size count1 count2 count3,
            datumState fmdl vertexFormats size count1 count2 count3 st5).
  { destruct Hstate4 as (V & s & c1 & c2 & c3 & Hstate).
    destruct (VertexFields.hasColor vertexFields).
    - apply bind_Ok in Hcolor as (st & Hdatum & Hcount).
      eapply datumState_addDatum in Hdatum; [|exact Hstate|].
      2: { unfold uvTypes. intros Hin. apply list_elem_of_In in Hin.
           repeat (destruct Hin as [Hin|Hin]; [discriminate Hin|]). done. }
      eapply datumState_countEntries in Hcount as (_ & Hcount & _); [|exact Hdatum|lia].
      specialize (Hcount eq_refl). by eexists _, _, _, _, _.
    - injection Hcolor as <-. by eexists _, _, _, _, _. }
  clear Hstate4 Hcolor st4.
  apply bind_Ok in Hadd as (st6 & Hbones & Hadd).
  assert (Hstate6 : exists vertexFormats size count1 count2 count3,
            datumState fmdl vertexFormats size count1 count2 count3 st6).
  { destruct Hstate5 as (V & s & c1 & c2 & c3 & Hstate).
    destruct (VertexFields.hasBoneMapping vertexFields).
    - apply bind_Ok in Hbones as (st & Hweights & Hbones).
      apply bind_Ok in Hbones as (st' & Hindices & Hcount).
      eapply datumState_addDatum in Hweights; [|exact Hstate|].
      2: { unfold uvTypes. intros Hin. apply list_elem_of_In in Hin.
           repeat (destruct Hin as [Hin|Hin]; [discriminate Hin|]). done. }
      eapply datumState_addDatum in Hindices; [|exact Hweights|].
      2: { unfold uvTypes. intros Hin. apply list_elem_of_In in Hin.
           repeat (destruct Hin as [Hin|Hin]; [discriminate Hin|]). done. }
      eapply datumState_countEntries in Hcount as (_ & _ & Hcount); [|exact Hindices|lia].
      specialize (Hcount eq_refl). by eexists _, _, _, _, _.
    - injection Hbones as <-. by eexists _, _, _, _, _. }
  clear Hstate5 Hbones st5.
  destruct Hstate6 as (V & s & c1 & c2 & c3 & Hstate).
  (* the two UV channels *)
  apply bind_Ok in Hadd as (st7 & Huv & Hadd).
  rewrite HuvCount in Huv. change (range 0 2) with [0; 1] in Huv.
  pose proof (ds_records _ _ _ _ _ _ _ Hstate) as Hrecords.
  pose proof (ds_count3 _ _ _ _ _ _ _ Hstate) as Hcount3.
  destruct (addUv_aliased _ _ _ _ _ _ _ _ _ Hequalities Hstate Huv)
    as (Hfits0 & Hfits1 & Hextends7 & H0 & H1 & Ht0 & Ht1 & Ht2 & Ht3).
  clear Hstate Huv.
  (* the mesh formats *)
  rewrite (getitem_Some _ _ _ Ht0), bind_Ok_l in Hadd.
  rewrite (getitem_Some _ _ _ H0), bind_Ok_l in Hadd.
  apply bind_Ok in Hadd as ([ID0 fmdl8] & Hformat0 & Hadd).
  destruct (extends_addMeshFormat _ _ _ _ _ _ _ _ _ _ _ Hextends7 Hformat0)
    as [_ Hextends8].
  apply bind_Ok in Hadd as (fmdl9 & Hformats & Hadd).
  cbn [foldM] in Hformats.
  apply bind_Ok in Hformats as (fmdla & Hformat1 & Hformats).
  apply bind_Ok in Hformats as (fmdlb & Hformat2 & Hformats).
  apply bind_Ok in Hformats as (fmdlc & Hformat3 & Hformats). injection Hformats as <-.
  destruct (extends_addDataMeshFormat _ _ _ _ _ _ _ _ _ _ _ Hextends8 Ht1 H1 Hformat1)
    as (_ & M1 & Hextendsa).
  destruct (extends_addDataMeshFormat _ _ _ _ _ _ _ _ _ _ _ Hextendsa Ht2 H1 Hformat2)
    as (_ & M2 & Hextendsb).
  destruct (extends_addDataMeshFormat _ _ _ _ _ _ _ _ _ _ _ Hextendsb Ht3 H1 Hformat3)
    as (Hlast & _).
  destruct Hlast as [Hfits3 Hextendsc]; [lia|].
  (* the record of block 9 *)
  destruct (newSegment0BlockDescriptorID_eq fmdlc 10) as [Hnext10 Hblocks3].
  destruct (newSegment0BlockDescriptorID fmdlc 10) as [next10 fmdl10].
  cbn in Hnext10, Hblocks3.
  destruct (newSegment0BlockDescriptorID_eq fmdl10 11) as [Hnext11 Hblocks4].
  destruct (newSegment0BlockDescriptorID fmdl10 11) as [next11 fmdl11].
  cbn in Hnext11, Hblocks4.
  apply bind_Ok in Hadd as (block & Hpack & Hadd).
  apply pack_Ok_packed in Hpack as [Hfits9 ->].
  destruct (addSegment0Block_eq fmdl11 9
              (packed [B_; B_; B_; B_; H_; H_]
                 (next10 - len (blockOf fmdl 10),
                  (next11 - len (blockOf fmdl 11),
                   (0, (VertexFields.uvCount vertexFields,
                    (len (blockOf fmdl 10), (len (blockOf fmdl 11), tt))))))))
    as [HID Hblocks5].
  destruct (addSegment0Block fmdl11 9 _) as [ID' fmdl12]. cbn in HID, Hblocks5.
  rewrite !bind_Ok_l in Hadd.
  apply bind_Ok in Hadd as (size1 & _ & Hadd).
  injection Hadd as <- _ _ _ <-.
  destruct Hextendsc as [H10 H11 Hother].
  rewrite H10 in Hnext10. rewrite Hblocks3, H11 in Hnext11.
  assert (Hcounts : next10 - len (blockOf fmdl 10)
                    = len (([packed [B_; B_; B_; B_; I_]
                               (0, (1, (12, (0, (vertexPositionBufferOffset, tt)))))]
                            ++ M1) ++ M2) + 1
                    /\ next11 - len (blockOf fmdl 11) = len V + 2).
  { subst next10 next11. rewrite !len_app. unfold len. cbn [length]. lia. }
  destruct Hcounts as [Hcount10 Hcount11].
  rewrite Hcount10, Hcount11, HuvCount in *.
  exists (([packed [B_; B_; B_; B_; I_]
              (0, (1, (12, (0, (vertexPositionBufferOffset, tt)))))] ++ M1) ++ M2),
    V, s, (c3 + 1 + 1), (s + 4).
  split; [done|]. split; [done|]. split; [done|]. split; [done|]. split; [lia|].
  split; [done|]. split.
  { by rewrite HID, Hblocks4, Hblocks3, Hother. }
  split; [|split].
  - rewrite Hblocks5, decide_True, Hblocks4, Hblocks3, Hother by done. done.
  - rewrite Hblocks5, decide_False, Hblocks4, Hblocks3, H10 by done. done.
  - rewrite Hblocks5, decide_False, Hblocks4, Hblocks3, H11 by done. done.
Qed.

(** *** The reader *)

Lemma index_Ok_lookup {A : Type} (l : list A) (i : Z) (a : A) :
  0 <= i -> index l i = Ok a -> l !! Z.to_nat i = Some a.
Proof.
  intros Hi. unfold index, ref. case_decide as Hrange.
  - rewrite bind_Ok_l. by destruct (l !! Z.to_nat i) as [a'|]; intros [= <-].
  - case_decide; [lia | done].
Qed.

Lemma mapM_app_Ok {A B : Type} (f : A -> result B) (l1 l2 : list A) (ys : list B) :
  mapM f (l1 ++ l2) = Ok ys ->
  exists ys1 ys2, mapM f l1 = Ok ys1 /\ mapM f l2 = Ok ys2 /\ ys = ys1 ++ ys2.
Proof.
  rewrite mapM_app. intros H. apply bind_Ok in H as (ys1 & H1 & H).
  apply bind_Ok in H as (ys2 & H2 & H). injection H as <-. by exists ys1, ys2.
Qed.

Lemma mapM_Forall_elem {A B : Type} (P : B -> Prop) (f : A -> result B) (l : list A)
    (ys : list B) :
  (forall a b, a ∈ l -> f a = Ok b -> P b) -> mapM f l = Ok ys -> Forall P ys.
Proof.
  revert ys. induction l as [|a l IH]; intros ys Hf; cbn [mapM].
  - intros [= <-]. constructor.
  - intros H. apply bind_Ok in H as (y & Hy & H). apply bind_Ok in H as (ys' & Hys & H).
    injection H as <-. constructor.
    + eapply Hf; [apply list_elem_of_here | done].
    + apply IH; [|done]. intros a' b Hin. apply Hf. by apply list_elem_of_further.
Qed.

Lemma parseVertexFormat_packed (datumType datumFormat offset : Z) (entry : Z * Z * Z) :
  fits [B_; B_; H_] (datumType, (datumFormat, (offset, tt))) = true ->
  parseVertexFormat (packed [B_; B_; H_] (datumType, (datumFormat, (offset, tt)))) = Ok entry ->
  entry = (datumType, datumFormat, offset).
Proof.
  intros Hfits. unfold parseVertexFormat.
  rewrite unpack_packed by (done || no_s_tac). rewrite bind_Ok_l.
  repeat case_decide; try done. by intros [= <-].
Qed.

Lemma parseMeshFormat_packed (bufferID count increment type offset : Z) :
  fits [B_; B_; B_; B_; I_] (bufferID, (count, (increment, (type, (offset, tt))))) = true ->
  parseMeshFormat
    (packed [B_; B_; B_; B_; I_] (bufferID, (count, (increment, (type, (offset, tt))))))
  = Ok (bufferID, offset, increment, count).
Proof.
  intros Hfits. unfold parseMeshFormat. by rewrite unpack_packed by (done || no_s_tac).
Qed.

Lemma nonUvRecord_parse (record : bytes) (entry : Z * Z * Z) :
  nonUvRecord record -> parseVertexFormat record = Ok entry -> entry.1.1 ∉ uvTypes.
Proof.
  intros (datumType & datumFormat & offset & -> & Hfits & Htype) Hparse.
  by rewrite (parseVertexFormat_packed _ _ _ _ Hfits Hparse).
Qed.

Lemma meshFormatOffsets_lengths (meshFormatDefinitions : list (Z * Z * Z * Z))
    (bufferOffsets : list Z) (l : list Z) (st st' : list Z * list Z) :
  foldM (meshFormatOffsets meshFormatDefinitions bufferOffsets) st l = Ok st' ->
  length st.1 = length st.2 -> length st'.1 = length st'.2.
Proof.
  intros Hfold Hst.
  eapply (foldM_invariant (fun st : list Z * list Z => length st.1 = length st.2));
    [|exact Hst|exact Hfold].
  clear. intros [offsets increments] i [offsets' increments'] Hlen Hstep.
  unfold meshFormatOffsets in Hstep.
  apply bind_Ok in Hstep as ([[[bufferID bufferOffset] increment] count] & _ & Hstep).
  case_decide; [done|]. apply bind_Ok in Hstep as (base & _ & Hstep).
  injection Hstep as <- <-. cbn in *. rewrite !length_app, !length_replicate. lia.
Qed.

(** The offsets and increments of the vertex formats of an assignment
    whose last mesh format is known: its entries come last. *)
Lemma meshFormatOffsets_last (meshFormatDefinitions : list (Z * Z * Z * Z))
    (bufferOffsets : list Z) (first count : Z) (offsets increments : list Z)
    (bufferID bufferOffset increment entryCount : Z) :
  0 <= first -> 0 <= count ->
  meshFormatDefinitions !! Z.to_nat (first + count)
  = Some (bufferID, bufferOffset, increment, entryCount) ->
  foldM (meshFormatOffsets meshFormatDefinitions bufferOffsets) ([], [])
    (range first (first + (count + 1))) = Ok (offsets, increments) ->
  exists (before before' : list Z) (base : Z),
    length before = length before'
    /\ offsets = before ++ replicate (Z.to_nat entryCount) (base + bufferOffset)
    /\ increments = before' ++ replicate (Z.to_nat entryCount) increment.
Proof.
  intros Hfirst Hcount Hlast Hfold.
  replace (first + (count + 1)) with (first + count + 1) in Hfold by lia.
  rewrite (range_succ first (first + count)) in Hfold by lia.
  rewrite foldM_app in Hfold.
  apply bind_Ok in Hfold as ([before before'] & Hbefore & Hfold).
  apply meshFormatOffsets_lengths in Hbefore; [|done].
  cbn [foldM] in Hfold. apply bind_Ok in Hfold as (st & Hstep & Hfold).
  injection Hfold as ->. unfold meshFormatOffsets in Hstep.
  rewrite (index_in_range _ (first + count) _ ltac:(lia) Hlast), bind_Ok_l in Hstep.
  case_decide; [done|]. apply bind_Ok in Hstep as (base & _ & Hstep).
  injection Hstep as <- <-. by exists before, before', base.
Qed.

Lemma lookup_after {A : Type} (l1 l2 l3 : list A) (i : nat) :
  (l1 ++ l2 ++ l3) !! (length l1 + length l2 + i)%nat = l3 !! i.
Proof.
  rewrite lookup_app_r by lia. rewrite lookup_app_r by lia. f_equal. lia.
Qed.

Lemma lookup_within {A : Type} (l1 l2 l3 : list A) (i : nat) :
  (i < length l2)%nat -> (l1 ++ l2 ++ l3) !! (length l1 + i)%nat = l2 !! i.
Proof.
  intros Hi. rewrite lookup_app_r by lia. rewrite lookup_app_l by lia. f_equal. lia.
Qed.

Lemma lookup_replicate_end {A : Type} (before : list A) (n : nat) (x : A) (i : nat) :
  (length before <= i)%nat -> (i < length before + n)%nat ->
  (before ++ replicate n x) !! i = Some x.
Proof.
  intros Hle Hlt. rewrite lookup_app_r by done. apply lookup_replicate_2. lia.
Qed.

(** The format that [parseMeshFormatAssignment] reads for an assignment
    record whose vertex formats end with the two UV channels at one offset,
    and whose last mesh format holds both of them: the entries of the two
    channels come last and have the same offset. *)
Lemma parseMeshFormatAssignment_aliased
    (meshFormatsBefore meshFormats meshFormatsAfter : list (Z * Z * Z * Z))
    (vertexFormatsBefore vertexFormats vertexFormatsAfter : list (Z * Z * Z))
    (bufferOffsets : list Z) (offset bufferOffset increment count : Z)
    (format : list (Z * Z * Z * Z)) :
  Forall (fun entry : Z * Z * Z => entry.1.1 ∉ uvTypes) vertexFormats ->
  2 <= count ->
  fits [B_; B_; B_; B_; H_; H_]
    (len meshFormats + 1, (len vertexFormats + 2, (0, (2,
     (len meshFormatsBefore, (len vertexFormatsBefore, tt)))))) = true ->
  parseMeshFormatAssignment
    (meshFormatsBefore ++ meshFormats ++ [(1, bufferOffset, increment, count)]
     ++ meshFormatsAfter)
    (vertexFormatsBefore ++ vertexFormats
     ++ [(FmdlVertexDatumType.uv0, FmdlVertexDatumFormat.doubleFloat16, offset);
         (FmdlVertexDatumType.uv1, FmdlVertexDatumFormat.doubleFloat16, offset)]
     ++ vertexFormatsAfter)
    bufferOffsets
    (packed [B_; B_; B_; B_; H_; H_]
       (len meshFormats + 1, (len vertexFormats + 2, (0, (2,
        (len meshFormatsBefore, (len vertexFormatsBefore, tt)))))))
  = Ok format ->
  exists (entries : list (Z * Z * Z * Z)) (place : Z),
    format
    = entries
      ++ [(FmdlVertexDatumType.uv0, FmdlVertexDatumFormat.doubleFloat16, place, increment);
          (FmdlVertexDatumType.uv1, FmdlVertexDatumFormat.doubleFloat16, place, increment)]
    /\ Forall (fun entry => datumTypeOf entry ∉ uvTypes) entries.
Proof.
  intros Htypes Hcount Hfits. unfold parseMeshFormatAssignment.
  rewrite unpack_packed by (done || no_s_tac). rewrite bind_Ok_l. cbv beta iota.
  set (meshFormatDefinitions := meshFormatsBefore ++ meshFormats
         ++ [(1, bufferOffset, increment, count)] ++ meshFormatsAfter).
  set (vertexFormatDefinitions := vertexFormatsBefore ++ vertexFormats
         ++ [(FmdlVertexDatumType.uv0, FmdlVertexDatumFormat.doubleFloat16, offset);
             (FmdlVertexDatumType.uv1, FmdlVertexDatumFormat.doubleFloat16, offset)]
         ++ vertexFormatsAfter).
  intros Hparse. case_decide; [done|]. case_decide; [done|].
  apply bind_Ok in Hparse as ([offsets increments] & Hoffsets & Hparse).
  case_decide as Hlen; [done|].
  pose proof (len_nonneg meshFormatsBefore). pose proof (len_nonneg meshFormats).
  pose proof (len_nonneg vertexFormatsBefore). pose proof (len_nonneg vertexFormats).
  destruct (meshFormatOffsets_last meshFormatDefinitions bufferOffsets
              (len meshFormatsBefore) (len meshFormats) offsets increments
              1 bufferOffset increment count) as (before & before' & base & Hbefore & -> & ->);
    [lia | lia | | done |].
  { unfold meshFormatDefinitions, len. rewrite <- Nat2Z.inj_add, Nat2Z.id.
    rewrite <- (Nat.add_0_r (length meshFormatsBefore + length meshFormats)).
    by rewrite lookup_after. }
  rewrite len_app in Hlen. unfold len in Hlen. rewrite length_replicate in Hlen.
  replace (len vertexFormats + 2) with (len vertexFormats + 1 + 1) in Hparse by lia.
  rewrite !range_succ in Hparse by lia. rewrite <- app_assoc in Hparse.
  apply mapM_app_Ok in Hparse as (entries & last & Hentries & Hlast & ->).
  cbn [mapM app] in Hlast.
  apply bind_Ok in Hlast as (entry0 & Hentry0 & Hlast).
  apply bind_Ok in Hlast as (rest & Hrest & Hlast). injection Hlast as <-.
  apply bind_Ok in Hrest as (entry1 & Hentry1 & Hrest).
  rewrite bind_Ok_l in Hrest. injection Hrest as <-.
  exists entries, (base + bufferOffset + offset). split.
  - f_equal.
    assert (Hentry : forall i (entry : Z * Z * Z * Z) datumType,
              (i = 0 \/ i = 1)%nat ->
              vertexFormatDefinitions
                !! (length vertexFormatsBefore + length vertexFormats + i)%nat
              = Some (datumType, FmdlVertexDatumFormat.doubleFloat16, offset) ->
              meshVertexFormatEntry vertexFormatDefinitions
                (before ++ replicate (Z.to_nat count) (base + bufferOffset))
                (before' ++ replicate (Z.to_nat count) increment)
                (len vertexFormatsBefore) (len vertexFormats + Z.of_nat i) = Ok entry ->
              entry = (datumType, FmdlVertexDatumFormat.doubleFloat16,
                       base + bufferOffset + offset, increment)).
    { intros i entry datumType Hi Hdefinition. unfold meshVertexFormatEntry.
      rewrite (index_in_range (before ++ replicate (Z.to_nat count) (base + bufferOffset))
                 _ (base + bufferOffset)); [|lia|].
      2: { apply lookup_replicate_end; unfold len in *; lia. }
      rewrite bind_Ok_l.
      rewrite (index_in_range (before' ++ replicate (Z.to_nat count) increment)
                 _ increment); [|lia|].
      2: { apply lookup_replicate_end; unfold len in *; lia. }
      rewrite bind_Ok_l.
      rewrite (index_in_range vertexFormatDefinitions _
                 (datumType, FmdlVertexDatumFormat.doubleFloat16, offset)); [|lia|].
      2: { rewrite <- Hdefinition. f_equal. unfold len. lia. }
      rewrite bind_Ok_l. by intros [= <-]. }
    rewrite (Hentry 0%nat entry0 FmdlVertexDatumType.uv0);
      [|by left | unfold vertexFormatDefinitions; by rewrite lookup_after
       | by rewrite Z.add_0_r].
    rewrite (Hentry 1%nat entry1 FmdlVertexDatumType.uv1);
      [done | by right | unfold vertexFormatDefinitions; by rewrite lookup_after | done].
  - eapply mapM_Forall_elem; [|exact Hentries].
    intros i [[[datumType datumFormat] place] increment'] Hi Hentry.
    apply range_bounds in Hi. unfold meshVertexFormatEntry in Hentry.
    apply bind_Ok in Hentry as (blockOffset & _ & Hentry).
    apply bind_Ok in Hentry as (increment'' & _ & Hentry).
    apply bind_Ok in Hentry as ([[datumType' datumFormat'] vertexOffset] & Hdefinition & Hentry).
    injection Hentry as <- <- <- <-.
    apply index_Ok_lookup in Hdefinition; [|lia].
    replace (Z.to_nat (i + len vertexFormatsBefore))
      with (length vertexFormatsBefore + Z.to_nat i)%nat in Hdefinition
      by (unfold len; lia).
    unfold vertexFormatDefinitions in Hdefinition.
    rewrite lookup_within in Hdefinition by (unfold len in *; lia).
    rewrite Forall_forall in Htypes.
    apply list_elem_of_lookup_2 in Hdefinition. by apply Htypes in Hdefinition.
Qed.

(** The scan of a format by [parseMeshes] leaves the UV channels alone at
    an entry of another type. *)
Lemma scanFormat_nonUv (entries : list (Z * Z * Z * Z)) (st st' : formatState) :
  Forall (fun entry => datumTypeOf entry ∉ uvTypes) entries ->
  foldM scanFormatEntry st entries = Ok st' ->
  fs_uvCount st' = fs_uvCount st /\ fs_uvOffsets st' = fs_uvOffsets st.
Proof.
  intros Htypes. revert st. induction Htypes as [|entry entries Htype _ IH]; intros st.
  - by intros [= <-].
  - cbn [foldM]. intros Hscan. apply bind_Ok in Hscan as (st1 & Hstep & Hscan).
    destruct (IH _ Hscan) as [-> ->]. clear IH Hscan.
    destruct entry as [[[datumType datumFormat] offset] increment].
    unfold datumTypeOf, uvTypes in Htype. cbn in Htype.
    unfold scanFormatEntry in Hstep. case_decide; [done|]. injection Hstep as <-.
    cbn [fs_uvCount fs_uvOffsets].
    assert (Hne : forall uvType, uvType ∈ [FmdlVertexDatumType.uv0; FmdlVertexDatumType.uv1;
                                           FmdlVertexDatumType.uv2; FmdlVertexDatumType.uv3] ->
                                 (datumType =? uvType) = false).
    { intros uvType Hin. apply Z.eqb_neq. intros ->. done. }
    rewrite !Hne by (repeat constructor). done.
Qed.

(** A format that ends with the entries of the two UV channels at one
    place is scanned as two channels, each equal to the other. *)
Lemma scanFormat_aliased (entries : list (Z * Z * Z * Z)) (place increment : Z)
    (st : formatState) (uvEqualities : gmap Z (list Z)) :
  Forall (fun entry => datumTypeOf entry ∉ uvTypes) entries ->
  foldM scanFormatEntry formatState_init
    (entries
     ++ [(FmdlVertexDatumType.uv0, FmdlVertexDatumFormat.doubleFloat16, place, increment);
         (FmdlVertexDatumType.uv1, FmdlVertexDatumFormat.doubleFloat16, place, increment)])
  = Ok st ->
  foldM (uvEqualitiesOf (fs_uvOffsets st) (fs_uvCount st)) ∅ (range 0 (fs_uvCount st))
  = Ok uvEqualities ->
  fs_uvCount st = 2 /\ uvEqualities = uvAliased.
Proof.
  intros Htypes Hscan. rewrite foldM_app in Hscan.
  apply bind_Ok in Hscan as (st1 & Hentries & Hscan).
  destruct (scanFormat_nonUv _ _ _ Htypes Hentries) as [Hcount Hoffsets].
  cbn [fs_uvCount fs_uvOffsets formatState_init] in Hcount, Hoffsets.
  cbn [foldM] in Hscan. apply bind_Ok in Hscan as (st2 & Huv0 & Hscan).
  apply bind_Ok in Hscan as (st3 & Huv1 & Hscan). injection Hscan as <-.
  unfold scanFormatEntry in Huv0. case_decide; [done|]. injection Huv0 as <-.
  unfold scanFormatEntry in Huv1. case_decide; [done|]. injection Huv1 as <-.
  cbn [fs_uvCount fs_uvOffsets]. rewrite Hcount, Hoffsets.
  change (FmdlVertexDatumType.uv1 =? FmdlVertexDatumType.uv0) with false.
  change (FmdlVertexDatumType.uv0 =? FmdlVertexDatumType.uv0) with true.
  change (FmdlVertexDatumType.uv1 =? FmdlVertexDatumType.uv1) with true.
  cbn [orb]. change (0 + 1 + 1) with 2.
  change (range 0 2) with [0; 1]. cbn [foldM]. unfold uvEqualitiesOf.
  change (range 0 2) with [0; 1]. cbn [foldM]. unfold uvEquality.
  rewrite (getitem_Some _ 0 place) by (rewrite lookup_insert_ne by done; apply lookup_insert_eq).
  rewrite (getitem_Some _ 1 place) by apply lookup_insert_eq.
  repeat first
    [ rewrite bind_Ok_l
    | rewrite (decide_False (P := 0 ≠ 0)) by (intros Hne; by apply Hne)
    | rewrite (decide_False (P := 1 ≠ 1)) by (intros Hne; by apply Hne)
    | rewrite (decide_True (P := 0 ≠ 1)) by done
    | rewrite (decide_True (P := 1 ≠ 0)) by done
    | rewrite (decide_True (P := place = place)) by done ].
  cbn [app].
  intros [= <-]. split; [done|]. unfold uvAliased. by apply insert_insert_ne.
Qed.

Lemma meshOfRecord_vertexFields {MaterialInstance : Type} (fmdl : FmdlContainer.t)
    (boneGroups : list BoneGroup.t) (faceIndices : list (Z * Z)) (bufferOffsets : list Z)
    (meshFormats : list (list (Z * Z * Z * Z))) (materialInstances : list MaterialInstance)
    (record : meshRecord) (mesh : Mesh.t) :
  meshOfRecord fmdl boneGroups faceIndices bufferOffsets meshFormats materialInstances record
    = Ok mesh ->
  exists format st uvEqualities,
    index meshFormats (mr_meshFormatID record) = Ok format
    /\ foldM scanFormatEntry formatState_init format = Ok st
    /\ foldM (uvEqualitiesOf (fs_uvOffsets st) (fs_uvCount st)) ∅ (range 0 (fs_uvCount st))
       = Ok uvEqualities
    /\ VertexFields.uvCount (Mesh.vertexFields mesh) = fs_uvCount st
    /\ VertexFields.uvEqualities (Mesh.vertexFields mesh) = uvEqualities.
Proof.
  unfold meshOfRecord. cbv zeta. intros H.
  case_decide; [done|].
  apply bind_Ok in H as (format & Hformat & H).
  apply bind_Ok in H as (st & Hst & H).
  destruct (fs_uv3 st && negb (fs_uv2 st)); [done|].
  destruct (fs_uv2 st && negb (fs_uv1 st)); [done|].
  destruct (fs_uv1 st && negb (fs_uv0 st)); [done|].
  destruct (negb (eqb (fs_boneWeights st) (fs_boneIndices st))); [done|].
  apply bind_Ok in H as (uvEqualities & HuvEqualities & H).
  case_decide; [done|].
  apply bind_Ok in H as (materialInstance & _ & H).
  apply bind_Ok in H as (boneGroup & _ & H).
  case_decide; [done|].
  apply bind_Ok in H as ([lodFirst lodCount] & _ & H).
  apply bind_Ok in H as (vertices & _ & H).
  apply bind_Ok in H as (faceBufferOffset & _ & H).
  apply bind_Ok in H as (faces & _ & H).
  injection H as <-. by exists format, st, uvEqualities.
Qed.

(** The readers of blocks 10, 11 and 9 on a container that holds the
    records [addMeshFormatAssignment] wrote, and maybe records added
    later. *)
Lemma parseMeshFormatAssignments_aliased (fmdl fmdl' : FmdlContainer.t)
    (before9 before10 before11 added10 added11 after9 after10 after11 : list bytes)
    (offset count increment bufferOffset : Z) (bufferOffsets : list Z)
    (meshFormats : list (list (Z * Z * Z * Z))) :
  Forall nonUvRecord added11 ->
  fits [B_; B_; H_] (FmdlVertexDatumType.uv0,
                     (FmdlVertexDatumFormat.doubleFloat16, (offset, tt))) = true ->
  fits [B_; B_; H_] (FmdlVertexDatumType.uv1,
                     (FmdlVertexDatumFormat.doubleFloat16, (offset, tt))) = true ->
  fits [B_; B_; B_; B_; I_] (1, (count, (increment, (3, (bufferOffset, tt))))) = true ->
  2 <= count ->
  fits [B_; B_; B_; B_; H_; H_]
    (len added10 + 1, (len added11 + 2, (0, (2, (len before10, (len before11, tt))))))
  = true ->
  blockOf fmdl' 9
  = (before9
     ++ [packed [B_; B_; B_; B_; H_; H_]
           (len added10 + 1, (len added11 + 2, (0, (2, (len before10, (len before11, tt))))))])
    ++ after9 ->
  blockOf fmdl' 10
  = (before10 ++ added10
     ++ [packed [B_; B_; B_; B_; I_] (1, (count, (increment, (3, (bufferOffset, tt)))))])
    ++ after10 ->
  blockOf fmdl' 11
  = (before11 ++ added11
     ++ [packed [B_; B_; H_] (FmdlVertexDatumType.uv0,
                              (FmdlVertexDatumFormat.doubleFloat16, (offset, tt)));
         packed [B_; B_; H_] (FmdlVertexDatumType.uv1,
                              (FmdlVertexDatumFormat.doubleFloat16, (offset, tt)))])
    ++ after11 ->
  parseMeshFormatAssignments fmdl' bufferOffsets = Ok meshFormats ->
  exists (format entries : list (Z * Z * Z * Z)) (place : Z),
    meshFormats !! length before9 = Some format
    /\ format
       = entries
         ++ [(FmdlVertexDatumType.uv0, FmdlVertexDatumFormat.doubleFloat16, place, increment);
             (FmdlVertexDatumType.uv1, FmdlVertexDatumFormat.doubleFloat16, place, increment)]
    /\ Forall (fun entry => datumTypeOf entry ∉ uvTypes) entries.
Proof.
  intros Hrecords Hfits0 Hfits1 Hfits3 Hcount Hfits9 H9 H10 H11 Hparse.
  unfold parseMeshFormatAssignments in Hparse.
  assert (Hblock : FmdlContainer.segment0Blocks fmdl' !! 9 = Some (blockOf fmdl' 9)).
  { unfold blockOf in *. destruct (FmdlContainer.segment0Blocks fmdl' !! 9); [done|].
    cbn in H9. by destruct before9. }
  rewrite Hblock in Hparse.
  apply bind_Ok in Hparse as (meshFormatDefinitions & Hdefinitions10 & Hparse).
  apply bind_Ok in Hparse as (vertexFormatDefinitions & Hdefinitions11 & Hparse).
  unfold parseMeshFormats in Hdefinitions10. rewrite mapM_nil_block, H10 in Hdefinitions10.
  unfold parseVertexFormats in Hdefinitions11. rewrite mapM_nil_block, H11 in Hdefinitions11.
  rewrite H9 in Hparse.
  (* the mesh formats *)
  apply mapM_app_Ok in Hdefinitions10 as (defs & defsAfter & Hdefs & _ & ->).
  apply mapM_app_Ok in Hdefs as (defsBefore & defs' & HdefsBefore & Hdefs & ->).
  apply mapM_app_Ok in Hdefs as (defsAdded & last & HdefsAdded & Hlast & ->).
  cbn [mapM] in Hlast. rewrite (parseMeshFormat_packed _ _ _ _ _ Hfits3) in Hlast.
  injection Hlast as <-.
  apply mapM_length in HdefsBefore, HdefsAdded.
  (* the vertex formats *)
  apply mapM_app_Ok in Hdefinitions11 as (vdefs & vdefsAfter & Hvdefs & _ & ->).
  apply mapM_app_Ok in Hvdefs as (vdefsBefore & vdefs' & HvdefsBefore & Hvdefs & ->).
  apply mapM_app_Ok in Hvdefs as (vdefsAdded & last & HvdefsAdded & Hlast & ->).
  cbn [mapM] in Hlast.
  apply bind_Ok in Hlast as (entry0 & Hentry0 & Hlast).
  apply bind_Ok in Hlast as (rest & Hrest & Hlast). injection Hlast as <-.
  apply bind_Ok in Hrest as (entry1 & Hentry1 & Hrest). injection Hrest as <-.
  apply (parseVertexFormat_packed _ _ _ _ Hfits0) in Hentry0 as ->.
  apply (parseVertexFormat_packed _ _ _ _ Hfits1) in Hentry1 as ->.
  assert (Htypes : Forall (fun entry : Z * Z * Z => entry.1.1 ∉ uvTypes) vdefsAdded).
  { eapply mapM_Forall_elem; [|exact HvdefsAdded].
    intros record entry Hin. apply nonUvRecord_parse.
    rewrite Forall_forall in Hrecords. by apply Hrecords. }
  apply mapM_length in HvdefsBefore, HvdefsAdded.
  (* the assignments *)
  apply mapM_app_Ok in Hparse as (formats & formatsAfter & Hformats & _ & ->).
  apply mapM_app_Ok in Hformats as (formatsBefore & last & HformatsBefore & Hlast & ->).
  cbn [mapM] in Hlast. apply bind_Ok in Hlast as (format & Hformat & Hlast).
  injection Hlast as <-. apply mapM_length in HformatsBefore.
  replace (len added10) with (len defsAdded) in Hformat, Hfits9 by (unfold len; lia).
  replace (len added11) with (len vdefsAdded) in Hformat, Hfits9 by (unfold len; lia).
  replace (len before10) with (len defsBefore) in Hformat, Hfits9 by (unfold len; lia).
  replace (len before11) with (len vdefsBefore) in Hformat, Hfits9 by (unfold len; lia).
  rewrite <- !app_assoc in Hformat.
  destruct (parseMeshFormatAssignment_aliased _ _ _ _ _ _ _ _ _ _ _ _
              Htypes Hcount Hfits9 Hformat) as (entries & place & -> & Hentries).
  eexists _, entries, place. split; [|done].
  rewrite <- HformatsBefore, <- app_assoc.
  rewrite <- (Nat.add_0_r (length formatsBefore)). by rewrite lookup_app_r, Nat.add_0_r, Nat.sub_diag by lia.
Qed.

(** C6: [addMeshFormatAssignment], for vertex fields of two UV channels
    marked equal to each other, writes the vertex formats of the two channels
    last in block 11 with one and the same offset.  In every container that
    holds the records it wrote, with or without records added to blocks 9, 10
    and 11 afterwards, a mesh that [parseMeshes] reads with this format
    assignment has two UV channels and the equalities [{0: [1], 1: [0]}]. *)
Theorem uv_aliasing_round_trip (fmdl fmdl' : FmdlContainer.t)
    (vertexFields : VertexFields.t)
    (vertexPositionBufferOffset vertexDataBufferOffset : Z)
    (ID : Z) (formatEntries : list (Z * Z * Z * Z)) (positionSize dataSize : Z) :
  VertexFields.uvCount vertexFields = 2 ->
  VertexFields.uvEqualities vertexFields = uvAliased ->
  addMeshFormatAssignment fmdl vertexFields vertexPositionBufferOffset vertexDataBufferOffset
  = Ok ((ID, formatEntries, positionSize, dataSize), fmdl') ->
  (exists (vertexFormats : list bytes) (offset : Z),
     fits [B_; B_; H_] (FmdlVertexDatumType.uv0,
                        (FmdlVertexDatumFormat.doubleFloat16, (offset, tt))) = true
     /\ fits [B_; B_; H_] (FmdlVertexDatumType.uv1,
                           (FmdlVertexDatumFormat.doubleFloat16, (offset, tt))) = true
     /\ blockOf fmdl' 11
        = vertexFormats
          ++ [packed [B_; B_; H_] (FmdlVertexDatumType.uv0,
                                   (FmdlVertexDatumFormat.doubleFloat16, (offset, tt)));
              packed [B_; B_; H_] (FmdlVertexDatumType.uv1,
                                   (FmdlVertexDatumFormat.doubleFloat16, (offset, tt)))])
  /\ (forall (Bone MaterialInstance : Type) (read : FmdlContainer.t) (bones : list Bone)
        (materialInstances : list MaterialInstance) (meshes : list Mesh.t),
        blockOf fmdl' 9 `prefix_of` blockOf read 9 ->
        blockOf fmdl' 10 `prefix_of` blockOf read 10 ->
        blockOf fmdl' 11 `prefix_of` blockOf read 11 ->
        parseMeshes read bones materialInstances = Ok meshes ->
        Forall2 (fun definition mesh =>
                   forall record,
                     unpackMesh definition = Ok record ->
                     mr_meshFormatID record = ID ->
                     VertexFields.uvCount (Mesh.vertexFields mesh) = 2
                     /\ VertexFields.uvEqualities (Mesh.vertexFields mesh) = uvAliased)
          (blockOf read 3) meshes).
Proof.
  intros HuvCount Hequalities Hadd.
  destruct (addMeshFormatAssignment_aliased _ _ _ _ _ _ _ _ _ HuvCount Hequalities Hadd)
    as (added10 & added11 & offset & count & increment & Hrecords & Hfits0 & Hfits1
        & Hfits3 & Hcount & Hfits9 & -> & H9 & H10 & H11).
  split.
  { exists (blockOf fmdl 11 ++ added11), offset. split; [done|]. split; [done|].
    by rewrite H11, app_assoc. }
  intros Bone MaterialInstance read bones materialInstances meshes
    [after9 Hread9] [after10 Hread10] [after11 Hread11].
  rewrite H9 in Hread9. rewrite H10 in Hread10. rewrite H11 in Hread11.
  unfold parseMeshes.
  change (blockOf read 3) with (default [] (FmdlContainer.segment0Blocks read !! 3)).
  destruct (FmdlContainer.segment0Blocks read !! 3) as [block|]; cbn [default].
  2: { intros [= <-]. constructor. }
  intros H.
  apply bind_Ok in H as (boneGroups & _ & H).
  apply bind_Ok in H as (levelsOfDetail & _ & H).
  apply bind_Ok in H as (faceIndices & _ & H).
  apply bind_Ok in H as (bufferOffsets & _ & H).
  apply bind_Ok in H as (meshFormats & HmeshFormats & H).
  case_decide; [done|].
  destruct (parseMeshFormatAssignments_aliased fmdl read _ _ _ _ _ _ _ _ _ _ _ _ _ _
              Hrecords Hfits0 Hfits1 Hfits3 Hcount Hfits9 Hread9 Hread10 Hread11 HmeshFormats)
    as (format & entries & place & Hformat & -> & Hentries).
  apply mapM_Ok_Forall2 in H. eapply Forall2_impl; [exact H|].
  intros definition mesh Hmesh record Hrecord Hid. cbv beta in Hmesh.
  unfold parseMesh in Hmesh. rewrite Hrecord, bind_Ok_l in Hmesh.
  apply meshOfRecord_vertexFields in Hmesh
      as (format' & st & uvEqualities & Hformat' & Hst & HuvEqualities & -> & ->).
  rewrite Hid in Hformat'. apply index_Ok_lookup in Hformat'; [|apply len_nonneg].
  unfold len in Hformat'. rewrite Nat2Z.id, Hformat in Hformat'. injection Hformat' as <-.
  by apply (scanFormat_aliased entries place increment).
Qed.

Lemma uv_aliasing_round_trip_witness :
  exists mesh,
    parseMeshes Examples.uvWritten (@nil unit) [()] = Ok [mesh]
    /\ VertexFields.uvCount (Mesh.vertexFields mesh) = 2
    /\ VertexFields.uvEqualities (Mesh.vertexFields mesh) = uvAliased.
Proof.
  eexists. split; [vm_compute; reflexivity|].
  match goal with
  | |- VertexFields.uvCount (Mesh.vertexFields ?mesh) = _ /\ _ =>
      pose proof (proj2 (uv_aliasing_round_trip Examples.uvBase Examples.uvWritten
                           Examples.aliasedFields 0 0 0 [(0, 0, 1, 0); (1, 8, 7, 0)] 12 4
                           eq_refl eq_refl ltac:(vm_compute; reflexivity))
                    unit unit Examples.uvWritten [] [()] [mesh]
                    ltac:(done) ltac:(done) ltac:(done) ltac:(vm_compute; reflexivity))
        as Hread
  end.
  change (blockOf Examples.uvWritten 3) with [Examples.meshRecordOf 0] in Hread.
  apply Forall2_cons_1 in Hread as [Hmesh _].
  eapply Hmesh; [vm_compute; reflexivity | reflexivity].
Defined.
